(** * Verification of Mysteryem/Miscellaneous (Blender scripts)

    A shallow embedding of the operators and scripts under
    [blender/scripts/] and the properties stated about them.

    Conventions of the embedding.
    - Python [float]s (UV coordinates, vertex coordinates, weights, the
      [mix] property) are represented by exact rationals [Q], without
      rounding; where the behaviour on an infinity or on NaN is in question
      ([get_division_size]), a float is a number, an infinity or NaN.
    - Host collections ([bm.verts], [uv_layers], [parent.children], ...) are
      lists in the host's iteration order; an element is referred to by its
      position.
    - What the host does behind an assignment or a call is part of the
      model where a property depends on it: a hidden vertex keeps its
      selection, a UV map gets a name of its own, the edit mesh is written
      back and loaded again when the active shape key changes, and a vertex
      taken from an edit mesh wrapper is lost with the wrapper.
    - A Python exception is an explicit [Raised] outcome; a loop whose bound
      is not syntactic takes fuel and returns [None] when it runs out. *)

From Stdlib Require Import ZArith QArith Qround Qpower Lia Lqa List String Ascii Bool
  DecimalString Sorted.
From stdpp Require Import base list functions gmap strings.
Import ListNotations.

Local Open Scope Z_scope.

(** ** Python numbers *)

Module PyNum.

(** Outcome of a call that may raise. *)
Inductive outcome (A : Type) : Type :=
| Returned (a : A)
| Raised (exc : string) (msg : string).
Arguments Returned {A} a.
Arguments Raised {A} exc msg.

(** [a < b] on floats that are numbers. *)
Definition Qltb (a b : Q) : bool := negb (Qle_bool b a).

(** A float: a number, an infinity or NaN.  The numbers are taken with the
    arithmetic of the rationals. *)
Inductive float : Type :=
| Number (q : Q)
| Infinity (negative : bool)
| NaN.

(** [x <= 0] and [x > y], for a number [y], on any float [x]: a comparison
    with NaN is false. *)
Definition float_le_zero (x : float) : bool :=
  match x with
  | Number q => Qle_bool q 0
  | Infinity negative => negative
  | NaN => false
  end.

Definition float_gt (x : float) (y : Q) : bool :=
  match x with
  | Number q => Qltb y q
  | Infinity negative => negb negative
  | NaN => false
  end.

(** [a == b] on floats. *)
Definition Qeqb (a b : Q) : bool := Qeq_bool a b.

(** [int(x)]: truncation toward zero. *)
Definition py_int (x : Q) : Z := Z.quot (Qnum x) (Z.pos (Qden x)).

(** [2**k] for an integer [k]: an [int] when [k >= 0], the float
    [1/2**(-k)] otherwise. *)
Definition pow2 (k : Z) : Q := Qpower 2 k.

(** [min(xs)] and [max(xs)] of a non-empty list keep the first extremal
    element. *)
Definition py_min (x : Q) (xs : list Q) : Q :=
  fold_left (fun m y => if Qltb y m then y else m) xs x.

Definition py_max (x : Q) (xs : list Q) : Q :=
  fold_left (fun m y => if Qltb m y then y else m) xs x.

End PyNum.

(** ** UnAtlasSelection.py *)

Module UnAtlasSelection.
Import PyNum.

Definition division_size_msg : string :=
  "normalized_length must be positive. Make sure the selected uvs form a bounding box with non-zero width and non-zero height".

(** The test of the loop of [get_division_size]:
    [normalized_length > 1/(2**n)], with [2**n] an [int]. *)
Definition exceeds (normalized_length : Q) (n : Z) : bool :=
  Qltb (1 / inject_Z (2 ^ n)) normalized_length.

(** The [while(True)] loop of [get_division_size], started at [n]. *)
Fixpoint division_loop (fuel : nat) (normalized_length : Q) (n : Z) : option Z :=
  match fuel with
  | O => None
  | S fuel' =>
      if exceeds normalized_length n then Some (n - 1)
      else division_loop fuel' normalized_length (n + 1)
  end.

(** [get_division_size] on a length that is a number, which the difference
    of two coordinates that are numbers is; [get_division_size_float] below
    takes any float. *)
Definition get_division_size_fuel (fuel : nat) (normalized_length : Q)
  : option (outcome Z) :=
  if Qle_bool normalized_length 0 then
    Some (Raised "RuntimeError" division_size_msg)
  else
    match division_loop fuel normalized_length 0 with
    | Some k => Some (Returned k)
    | None => None
    end.

(** Fuel that is always enough: the loop stops at the latest when [2**n]
    exceeds the denominator of the length. *)
Definition division_fuel (normalized_length : Q) : nat :=
  S (Pos.to_nat (Qden normalized_length)).

Definition get_division_size (normalized_length : Q) : option (outcome Z) :=
  get_division_size_fuel (division_fuel normalized_length) normalized_length.

(** [get_division_size] on any float, the infinities and NaN included: the
    same guard and the same loop, with the comparisons of floats.  On a
    number it is [get_division_size_fuel]. *)
Fixpoint division_loop_float (fuel : nat) (normalized_length : float) (n : Z) : option Z :=
  match fuel with
  | O => None
  | S fuel' =>
      if float_gt normalized_length (1 / inject_Z (2 ^ n)) then Some (n - 1)
      else division_loop_float fuel' normalized_length (n + 1)
  end.

Definition get_division_size_float (fuel : nat) (normalized_length : float)
  : option (outcome Z) :=
  if float_le_zero normalized_length then
    Some (Raised "RuntimeError" division_size_msg)
  else
    match division_loop_float fuel normalized_length 0 with
    | Some k => Some (Returned k)
    | None => None
    end.

(** A UV loop element of the active UV layer ([bml[uv_layer]]). *)
Record BMLoopUV : Type := mkLoopUV {
  uv : Q * Q;
  select : bool;
  pin_uv : bool
}.

Definition set_uv (l : BMLoopUV) (c : Q * Q) : BMLoopUV :=
  mkLoopUV c (select l) (pin_uv l).

(** The loops reached by [for bmf in bm.faces: for bml in bmf.loops], in
    that order; every loop belongs to exactly one face, so the nested
    iteration visits each position once.  [selected_from i loops] is the
    list built by the first pass: the references (positions, counted from
    [i]) of the selected elements with the coordinates read from them. *)
Fixpoint selected_from (i : nat) (loops : list BMLoopUV) : list (nat * (Q * Q)) :=
  match loops with
  | [] => []
  | bmuv :: rest =>
      if select bmuv then (i, uv bmuv) :: selected_from (S i) rest
      else selected_from (S i) rest
  end.

Definition find_closest_division (divisions normalized_value : Q) : Z :=
  py_int (normalized_value * divisions).

(** [Vector - Vector] and the component-wise [Vector * Vector]. *)
Definition vec_sub (a b : Q * Q) : Q * Q := (a.1 - b.1, a.2 - b.2)%Q.
Definition vec_mul (a b : Q * Q) : Q * Q := (a.1 * b.1, a.2 * b.2)%Q.

(** One iteration of [for uv in selected_uvs: uv.uv = (uv.uv - vec_to_subtract) * vec_to_scale];
    the element is read and written through its reference. *)
Definition rescale_at (vec_to_subtract vec_to_scale : Q * Q)
    (store : list BMLoopUV) (ref : nat) : list BMLoopUV :=
  match store !! ref with
  | Some bmuv => <[ref := set_uv bmuv (vec_mul (vec_sub (uv bmuv) vec_to_subtract) vec_to_scale)]> store
  | None => store
  end.

(** What the script computes before it rewrites the coordinates. *)
Record atlas_cell : Type := mkCell {
  min_u : Q; max_u : Q; min_v : Q; max_v : Q;
  x_division_size : Z; y_division_size : Z;
  vec_to_subtract : Q * Q; vec_to_scale : Q * Q
}.

Definition bind_outcome {A B} (m : option (outcome A)) (k : A -> option (outcome B))
  : option (outcome B) :=
  match m with
  | None => None
  | Some (Raised e msg) => Some (Raised e msg)
  | Some (Returned a) => k a
  end.

(** The body of [if selected_uvs:] up to [vec_to_scale], for the non-empty
    lists [u0 :: us] and [v0 :: vs] of selected coordinates. *)
Definition find_cell (allow_non_square : bool) (u0 : Q) (us : list Q) (v0 : Q) (vs : list Q)
  : option (outcome atlas_cell) :=
  let max_u := py_max u0 us in
  let min_u := py_min u0 us in
  let max_v := py_max v0 vs in
  let min_v := py_min v0 vs in
  let x_bb_length := (max_u - min_u)%Q in
  let y_bb_length := (max_v - min_v)%Q in
  bind_outcome (get_division_size x_bb_length) (fun x_division_size =>
  bind_outcome (get_division_size y_bb_length) (fun y_division_size =>
    let x_division_size' :=
      if allow_non_square then x_division_size else Z.min x_division_size y_division_size in
    let y_division_size' :=
      if allow_non_square then y_division_size else Z.min x_division_size y_division_size in
    let x_divisions := pow2 x_division_size' in
    let y_divisions := pow2 y_division_size' in
    let min_texture_u := (inject_Z (find_closest_division x_divisions min_u) / x_divisions)%Q in
    let min_texture_v := (inject_Z (find_closest_division y_divisions min_v) / y_divisions)%Q in
    Some (Returned (mkCell min_u max_u min_v max_v x_division_size' y_division_size'
                      (min_texture_u, min_texture_v) (x_divisions, y_divisions))))).

(** The script below [if uv_layer:], on the loop elements of the active
    layer; the result is the layer after the script. *)
Definition unatlas (allow_non_square : bool) (loops : list BMLoopUV)
  : option (outcome (list BMLoopUV)) :=
  let selected := selected_from 0 loops in
  let selected_uvs := selected.*1 in
  let selected_u := (fun p => p.2.1) <$> selected in
  let selected_v := (fun p => p.2.2) <$> selected in
  match selected_u, selected_v with
  | u0 :: us, v0 :: vs =>
      bind_outcome (find_cell allow_non_square u0 us v0 vs) (fun c =>
        Some (Returned (fold_left (rescale_at (vec_to_subtract c) (vec_to_scale c))
                          selected_uvs loops)))
  | _, _ => Some (Returned loops)
  end.

(** The whole script: nothing happens without an active UV layer. *)
Definition script (allow_non_square : bool) (uv_layer : option (list BMLoopUV))
  : option (outcome (option (list BMLoopUV))) :=
  match uv_layer with
  | None => Some (Returned None)
  | Some loops => bind_outcome (unatlas allow_non_square loops) (fun l => Some (Returned (Some l)))
  end.

(** The transformation in the words of the specification, to compare with
    [unatlas]: bounding box of the selected coordinates, [d = 2^k] with [k]
    the smaller division size, the corner taken with the floor, and every
    selected coordinate replaced by [(uv - corner) * d]. *)
Definition spec_corner (d m : Q) : Q := (inject_Z (Qfloor (m * d)) / d)%Q.

Definition spec_unatlas (loops : list BMLoopUV) : option (list BMLoopUV) :=
  match uv <$> List.filter select loops with
  | [] => None
  | c0 :: cs =>
      let min_u := py_min c0.1 cs.*1 in
      let max_u := py_max c0.1 cs.*1 in
      let min_v := py_min c0.2 cs.*2 in
      let max_v := py_max c0.2 cs.*2 in
      match get_division_size (max_u - min_u), get_division_size (max_v - min_v) with
      | Some (Returned kx), Some (Returned ky) =>
          let d := pow2 (Z.min kx ky) in
          let corner := (spec_corner d min_u, spec_corner d min_v) in
          Some ((fun l => if select l
                          then set_uv l (vec_mul (vec_sub (uv l) corner) (d, d))
                          else l) <$> loops)
      | _, _ => None
      end
  end.

(** Two selected coordinates left of the origin, and a selection of a
    single coordinate. *)
Definition left_of_origin : list BMLoopUV :=
  [ mkLoopUV (-9 # 20, 0)%Q true false;
    mkLoopUV (-3 # 10, 3 # 20)%Q true false;
    mkLoopUV (1 # 2, 1 # 2)%Q false false ].

Definition single_point : list BMLoopUV :=
  [ mkLoopUV (1 # 4, 1 # 4)%Q true false;
    mkLoopUV (1 # 2, 1 # 2)%Q false false ].

(** A selection that fills the width of the lower right quarter of the
    atlas, with one element outside of it that is not selected. *)
Definition lower_right_quarter : list BMLoopUV :=
  [ mkLoopUV (1 # 2, 1 # 10)%Q true false;
    mkLoopUV (1, 2 # 5)%Q true true;
    mkLoopUV (1 # 4, 3 # 4)%Q false false ].

(** A selection inside the lower left quarter of the atlas. *)
Definition lower_left_quarter : list BMLoopUV :=
  [ mkLoopUV (1 # 20, 1 # 10)%Q true false;
    mkLoopUV (9 # 20, 1 # 4)%Q true true;
    mkLoopUV (1 # 4, 2 # 5)%Q true false;
    mkLoopUV (3 # 4, 3 # 4)%Q false false ].

End UnAtlasSelection.

(** ** BoneCycleHierarchy.py *)

Module BoneCycleHierarchy.
Import PyNum.

(** An [EditBone] or a [Bone].  Bones are host objects: the code holds
    references to them, here addresses into a store, and [parent] and
    [children] hold such references. *)
Record Bone : Type := mkBone {
  name : string;
  hide : bool;
  hide_select : bool;
  select : bool;
  select_head : bool;
  select_tail : bool;
  parent : option nat;
  children : list nat
}.

Abbreviation Store := (nat -> Bone).

Definition set_selection (b : Bone) (v : bool) : Bone :=
  mkBone (name b) (hide b) (hide_select b) v v v (parent b) (children b).

Inductive Mode : Type := EDIT_ARMATURE | POSE.
Inductive Direction : Type := FORWARDS | BACKWARDS.
Inductive Order : Type := DEFAULT | ALPHABETICAL.
Inductive Status : Type := FINISHED | CANCELLED.

(** The armature behind the context: the edit bones with
    [edit_bones.active] ([context.active_bone] in edit mode), and the bones
    with [bones.active] (the bone of [context.active_pose_bone]). *)
Record Context : Type := mkContext {
  mode : Mode;
  edit_bones : Store;
  edit_bones_active : option nat;
  bones : Store;
  bones_active : option nat
}.

Record Operator : Type := mkOperator {
  direction : Direction;
  extend : bool;
  order : Order
}.

(** [sorted(l, key=..., reverse=...)]: a stable sort; [before a b] says
    that [a] has to come strictly before [b]. *)
Fixpoint insert_sorted {A} (before : A -> A -> bool) (x : A) (l : list A) : list A :=
  match l with
  | [] => [x]
  | y :: l' => if before y x then y :: insert_sorted before x l' else x :: y :: l'
  end.

Definition sorted {A} (l : list A) (key : A -> string) (reverse : bool) : list A :=
  fold_right
    (insert_sorted (fun a b => if reverse then String.ltb (key b) (key a)
                               else String.ltb (key a) (key b)))
    [] l.

(** [l.index(x)] *)
Fixpoint index (l : list nat) (x : nat) : option nat :=
  match l with
  | [] => None
  | y :: l' => if Nat.eqb y x then Some O else S <$> index l' x
  end.

(** The siblings in cycle order: sorted or reversed as the properties ask. *)
Definition ordered_siblings (self : Operator) (store : Store) (siblings : list nat) : list nat :=
  let reverse_order := match direction self with BACKWARDS => true | FORWARDS => false end in
  match order self with
  | ALPHABETICAL => sorted siblings (fun b => name (store b)) reverse_order
  | DEFAULT => if reverse_order then reverse siblings else siblings
  end.

(** [chain(siblings[active_index+1:], siblings[:active_index])] *)
Definition siblings_chain (siblings : list nat) (active_index : nat) : list nat :=
  drop (S active_index) siblings ++ take active_index siblings.

Definition selectable (store : Store) (b : nat) : bool :=
  negb (hide (store b)) && negb (hide_select (store b)).

(** The part of [execute] below the choice of the mode: the store and the
    active reference after it, with the status. *)
Definition cycle (self : Operator) (store : Store) (active_bone : nat)
  : outcome (Status * Store * option nat) :=
  match parent (store active_bone) with
  | None => Raised "AttributeError" "'NoneType' object has no attribute 'children'"
  | Some parent =>
      let siblings := ordered_siblings self store (children (store parent)) in
      match index siblings active_bone with
      | None => Raised "ValueError" "bone is not in list"
      | Some active_index =>
          match List.filter (selectable store) (siblings_chain siblings active_index) with
          | next_bone :: _ =>
              let store1 :=
                if extend self then store
                else <[active_bone := set_selection (store active_bone) false]> store in
              let store2 := <[next_bone := set_selection (store1 next_bone) true]> store1 in
              Returned (FINISHED, store2, Some next_bone)
          | [] => Returned (CANCELLED, store, Some active_bone)
          end
      end
  end.

Definition execute (self : Operator) (context : Context) : outcome (Status * Context) :=
  match mode context with
  | EDIT_ARMATURE =>
      match edit_bones_active context with
      | None => Raised "AttributeError" "'NoneType' object has no attribute 'parent'"
      | Some active_bone =>
          match cycle self (edit_bones context) active_bone with
          | Returned (st, store, act) =>
              Returned (st, mkContext (mode context) store act
                              (bones context) (bones_active context))
          | Raised e m => Raised e m
          end
      end
  | POSE =>
      match bones_active context with
      | None => Raised "AttributeError" "'NoneType' object has no attribute 'bone'"
      | Some active_bone =>
          match cycle self (bones context) active_bone with
          | Returned (st, store, act) =>
              Returned (st, mkContext (mode context) (edit_bones context)
                              (edit_bones_active context) store act)
          | Raised e m => Raised e m
          end
      end
  end.

(** The bones the operator works on in the mode of the context, and its
    active bone. *)
Definition mode_bones (context : Context) : Store :=
  match mode context with EDIT_ARMATURE => edit_bones context | POSE => bones context end.

Definition mode_active (context : Context) : option nat :=
  match mode context with
  | EDIT_ARMATURE => edit_bones_active context
  | POSE => bones_active context
  end.

(** [poll], as a truth value, in the two modes the context can be in here:
    the active bone of the mode exists and has a parent. *)
Definition poll (context : Context) : bool :=
  match mode context with
  | EDIT_ARMATURE =>
      match edit_bones_active context with
      | Some active_bone =>
          match parent (edit_bones context active_bone) with
          | Some _ => true
          | None => false
          end
      | None => false
      end
  | POSE =>
      match bones_active context with
      | Some active_pose_bone =>
          match parent (bones context active_pose_bone) with
          | Some _ => true
          | None => false
          end
      | None => false
      end
  end.

(** The host keeps the bones a tree: the children of a bone are distinct and
    have that bone as their parent, and a bone is among the children of its
    parent. *)
Definition tree (store : Store) : Prop :=
  (forall p : nat, NoDup (children (store p))) /\
  (forall p c : nat, c ∈ children (store p) <-> parent (store c) = Some p).

(** Selecting and deselecting leave everything but the selection of a bone
    alone. *)
Definition same_bones (store store' : nat -> Bone) : Prop :=
  forall b : nat,
    name (store' b) = name (store b) /\
    hide (store' b) = hide (store b) /\
    hide_select (store' b) = hide_select (store b) /\
    parent (store' b) = parent (store b) /\
    children (store' b) = children (store b).

Definition opposite (d : Direction) : Direction :=
  match d with FORWARDS => BACKWARDS | BACKWARDS => FORWARDS end.

(** An armature for trying the operator: bone 0 is the parent of bones 1
    to 4; bone 2 is hidden and bone 3 cannot be selected. *)
Definition sample_bone (n : string) (hid hid_sel sel : bool) (p : option nat)
    (c : list nat) : Bone :=
  mkBone n hid hid_sel sel sel sel p c.

Definition sample_store : Store := fun i =>
  match i with
  | 0%nat => sample_bone "root" false false false None [1; 2; 3; 4]%nat
  | 1%nat => sample_bone "arm.L" false false true (Some 0%nat) []
  | 2%nat => sample_bone "arm.R" true false false (Some 0%nat) []
  | 3%nat => sample_bone "leg.L" false true false (Some 0%nat) []
  | 4%nat => sample_bone "leg.R" false false false (Some 0%nat) []
  | _ => sample_bone "" false false false None []
  end.

Definition sample_context : Context :=
  mkContext EDIT_ARMATURE sample_store (Some 1%nat) sample_store (Some 1%nat).

(** The same armature in pose mode, with "leg.R" the active bone. *)
Definition leg_context : Context :=
  mkContext POSE sample_store (Some 1%nat) sample_store (Some 4%nat).

End BoneCycleHierarchy.

(** ** SelectAllByTraitNumberOfVertexGroups.py *)

Module SelectByVertexGroups.
Import PyNum.

Inductive CompareType : Type := NOT_EQUAL | GREATER_THAN | EQUAL_TO | LESS_THAN.
Inductive Subset : Type := ALL | BONE_DEFORM | OTHER_DEFORM.
Inductive Status : Type := FINISHED.

(** A vertex of the edit mesh with [bmvert[deform_layer]], the dictionary from
    group index to weight; the dictionary is only looked at when the mesh has
    a deform layer. *)
Record BMVert : Type := mkVert {
  select : bool;
  hide : bool;
  deform : gmap nat Q
}.

(** [bmvert.select = s]: the host leaves the selection of a hidden vertex
    as it is. *)
Definition set_select (v : BMVert) (s : bool) : BMVert :=
  if hide v then v else mkVert s (hide v) (deform v).

(** [bmesh.from_edit_mesh(obj.data)]: the vertices and whether
    [bm.verts.layers.deform.active] exists. *)
Record BMesh : Type := mkBMesh {
  verts : list BMVert;
  deform_layer : bool
}.

Record Bone : Type := mkBone {
  bone_name : string;
  use_deform : bool
}.

(** A modifier: its type, the bones of the pose of [mod.object] when an
    object is set, and [show_viewport]. *)
Record Modifier : Type := mkModifier {
  mod_type : string;
  mod_object : option (list Bone);
  show_viewport : bool
}.

Record Object : Type := mkObject {
  vertex_groups : list string;
  modifiers : list Modifier;
  data : BMesh
}.

Record Context : Type := mkContext {
  mode : string;
  objects_in_mode_unique_data : list Object;
  mesh_select_mode : bool * bool * bool
}.

Record Operator : Type := mkOperator {
  number : Z;
  type : CompareType;
  subset : Subset;
  ignore_zero : bool;
  extend : bool
}.

(** [me.total_vert_sel], kept by the host as the number of selected
    vertices of the edit mesh. *)
Definition total_vert_sel (bm : BMesh) : nat :=
  length (List.filter select (verts bm)).

(** [{vg.name: i for i, vg in enumerate(obj.vertex_groups)}]: a later group
    of the same name replaces an earlier one. *)
Definition vg_names_to_indices (obj : Object) : gmap string nat :=
  foldl (fun m p => <[p.2 := p.1]> m) ∅ (imap (fun i n => (i, n)) (vertex_groups obj)).

Definition get_deform_indices (obj : Object) : gset nat :=
  let names := vg_names_to_indices obj in
  let valid_mod_bones :=
    omap (fun m => if String.eqb (mod_type m) "ARMATURE" && show_viewport m
                   then mod_object m else None) (modifiers obj) in
  let all_bones := concat valid_mod_bones in
  let deform_bones_only :=
    List.filter (fun b => use_deform b && bool_decide (is_Some (names !! bone_name b)))
      all_bones in
  list_to_set (omap (fun b => names !! bone_name b) deform_bones_only).

(** The truth value of a weight: any non-zero number. *)
Definition truthy (w : Q) : bool := negb (Qeqb w 0).

(** The comparison chosen by [type]. *)
Definition compare (t : CompareType) (group_count : nat) (number : Z) : bool :=
  match t with
  | GREATER_THAN => Z.of_nat group_count >? number
  | NOT_EQUAL => negb (Z.of_nat group_count =? number)
  | EQUAL_TO => Z.of_nat group_count =? number
  | LESS_THAN => Z.of_nat group_count <? number
  end.

(** [group_count] of a vertex that is not hidden. *)
Definition group_count (ignore_zero : bool) (subset_indices : option (gset nat))
    (bmdeformvert : gmap nat Q) : nat :=
  match subset_indices with
  | None =>
      if ignore_zero
      then length (List.filter truthy (map_to_list bmdeformvert).*2)
      else size bmdeformvert
  | Some indices =>
      if ignore_zero
      then length (List.filter
                     (fun p => truthy p.2 && bool_decide (p.1 ∈ indices))
                     (map_to_list bmdeformvert))
      else size (indices ∩ dom bmdeformvert)
  end.

(** One pass of [for bmvert in bmverts] in the branch with a deform layer:
    with [extend] the selected vertices are not part of [bmverts]. *)
Definition visit_vert (self : Operator) (subset_indices : option (gset nat))
    (bmvert : BMVert) : BMVert :=
  if extend self && select bmvert then bmvert
  else if hide bmvert then bmvert
  else set_select bmvert
         (compare (type self)
            (group_count (ignore_zero self) subset_indices (deform bmvert))
            (number self)).

(** The body of [for obj in context.objects_in_mode_unique_data].
    [bm.select_flush_mode()] passes the vertex selection on to edges and
    faces, which are not part of the model, and leaves the vertices alone. *)
Definition execute_object (self : Operator) (obj : Object) : Object :=
  match vertex_groups obj with
  | [] => obj
  | _ :: _ =>
      let bm := data obj in
      if extend self && Nat.eqb (total_vert_sel bm) (length (verts bm)) then obj
      else
        let subset_indices :=
          match subset self with
          | ALL => None
          | BONE_DEFORM => Some (get_deform_indices obj)
          | OTHER_DEFORM =>
              Some (list_to_set (seq 0 (length (vertex_groups obj)))
                      ∖ get_deform_indices obj)
          end in
        let usable :=
          match subset_indices with
          | None => true
          | Some indices => negb (bool_decide (indices = ∅))
          end in
        if deform_layer bm && usable then
          mkObject (vertex_groups obj) (modifiers obj)
            (mkBMesh (visit_vert self subset_indices <$> verts bm) (deform_layer bm))
        else
          let select := compare (type self) 0 (number self) in
          if extend self && negb select then obj
          else
            mkObject (vertex_groups obj) (modifiers obj)
              (mkBMesh ((fun bmvert => set_select bmvert select) <$> verts bm)
                 (deform_layer bm))
  end.

Definition execute (self : Operator) (context : Context) : Status * Context :=
  (FINISHED,
   mkContext (mode context)
     (execute_object self <$> objects_in_mode_unique_data context)
     (mesh_select_mode context)).

(** [poll], with the message handed to [poll_message_set] when it fails. *)
Definition poll (context : Context) : bool * option string :=
  let objects := objects_in_mode_unique_data context in
  if String.eqb (mode context) "EDIT_MESH" && negb (Nat.eqb (length objects) 0) then
    if (mesh_select_mode context).1.1 then
      if existsb (fun obj => negb (Nat.eqb (length (vertex_groups obj)) 0)) objects
      then (true, None)
      else (false, Some ("No weights/vertex groups on "
                         ++ (if Nat.ltb 1 (length objects) then "objects" else "object"))%string)
    else (false, Some "Must be in vertex selection mode")
  else (false, Some "Must be in mesh edit mode").

(** A mesh to try the operator on: one selected vertex without weights, one
    unselected vertex with a zero and a non-zero weight, one hidden vertex. *)
Definition sample_object : Object :=
  mkObject ["Hips"; "Spine"] []
    (mkBMesh
       [ mkVert true false ∅;
         mkVert false false (<[0%nat := 0%Q]> (<[1%nat := (1 # 2)%Q]> ∅));
         mkVert true true (<[0%nat := 1%Q]> ∅) ]
       true).

Definition sample_context : Context :=
  mkContext "EDIT_MESH" [sample_object] (true, false, false).

(** A rigged mesh: three vertex groups, a visible armature whose pose has a
    deform bone for the first group, a bone that does not deform for the
    second and a deform bone without a group, and a hidden armature for the
    third group. *)
Definition rigged_object : Object :=
  mkObject ["Hips"; "Root"; "Prop"]
    [ mkModifier "ARMATURE"
        (Some [mkBone "Hips" true; mkBone "Root" false; mkBone "Tail" true]) true;
      mkModifier "ARMATURE" (Some [mkBone "Prop" true]) false;
      mkModifier "MIRROR" None true ]
    (mkBMesh
       [ mkVert false false (<[0%nat := 1%Q]> (<[2%nat := 0%Q]> ∅));
         mkVert false false (<[1%nat := (1 # 2)%Q]> ∅) ]
       true).

End SelectByVertexGroups.

(** ** mathutils.Vector, as far as the shape key scripts use it *)

Module Mathutils.
Import PyNum.

Record Vector : Type := mkVector { vx : Q; vy : Q; vz : Q }.

(** [Vector()] *)
Definition zero : Vector := mkVector 0 0 0.

Definition add (a b : Vector) : Vector :=
  mkVector (vx a + vx b) (vy a + vy b) (vz a + vz b).

Definition sub (a b : Vector) : Vector :=
  mkVector (vx a - vx b) (vy a - vy b) (vz a - vz b).

(** [v / n] for an integer [n] *)
Definition div (a : Vector) (n : nat) : Vector :=
  let d := inject_Z (Z.of_nat n) in
  mkVector (vx a / d) (vy a / d) (vz a / d).

(** [a.lerp(b, fac)] *)
Definition lerp (a b : Vector) (fac : Q) : Vector :=
  let ifac := (1 - fac)%Q in
  mkVector (ifac * vx a + fac * vx b) (ifac * vy a + fac * vy b)
           (ifac * vz a + fac * vz b).

(** [v * s] for a number [s] *)
Definition mul (a : Vector) (s : Q) : Vector :=
  mkVector (vx a * s) (vy a * s) (vz a * s).

(** [a == b] and [a != b] *)
Definition eqb (a b : Vector) : bool :=
  Qeqb (vx a) (vx b) && Qeqb (vy a) (vy b) && Qeqb (vz a) (vz b).

Definition neb (a b : Vector) : bool := negb (eqb a b).

(** [any(v)]: some component is not zero. *)
Definition any (a : Vector) : bool :=
  negb (Qeqb (vx a) 0) || negb (Qeqb (vy a) 0) || negb (Qeqb (vz a) 0).

End Mathutils.

(** ** ExtraShapeKeyOperations.py *)

Module ExtraShapeKeyOperations.
Import PyNum Mathutils.

(** A vertex of the edit mesh.  [shape i] is [bv[layer]] for the shape layer
    of index [i]; the layers of the edit mesh follow the key blocks of the
    mesh, index by index and name by name. *)
Record BMVert : Type := mkVert {
  co : Vector;
  select : bool;
  hide : bool;
  shape : nat -> Vector
}.

Definition set_co (bv : BMVert) (c : Vector) : BMVert :=
  mkVert c (select bv) (hide bv) (shape bv).

Definition set_shape (bv : BMVert) (layer : nat) (c : Vector) : BMVert :=
  mkVert (co bv) (select bv) (hide bv) (<[layer := c]> (shape bv)).

(** A key block; a key block is identified by its index in [key_blocks], and
    [relative_key] is such an index. *)
Record ShapeKey : Type := mkShapeKey {
  name : string;
  relative_key : nat
}.

Record Key : Type := mkKey {
  use_relative : bool;
  reference_key : nat;
  key_blocks : list ShapeKey
}.

(** A mesh object in edit mode: [obj.data.shape_keys],
    [obj.active_shape_key_index] and the vertices of
    [bmesh.from_edit_mesh(obj.data)]. *)
Record Object : Type := mkObject {
  shape_keys : option Key;
  active_shape_key_index : nat;
  verts : list BMVert
}.

Definition set_verts (obj : Object) (vs : list BMVert) : Object :=
  mkObject (shape_keys obj) (active_shape_key_index obj) vs.

Record Context : Type := mkContext {
  mode : string;
  objects_in_mode_unique_data : list Object
}.

Inductive Status : Type := FINISHED.

(** [obj.active_shape_key]: the index of the active key block, when there is
    one. *)
Definition active_shape_key (obj : Object) : option (nat * ShapeKey) :=
  match shape_keys obj with
  | None => None
  | Some k =>
      match key_blocks k !! active_shape_key_index obj with
      | Some sk => Some (active_shape_key_index obj, sk)
      | None => None
      end
  end.

Definition layer_names (obj : Object) : list string :=
  match shape_keys obj with
  | None => []
  | Some k => name <$> key_blocks k
  end.

(** [bm.verts.layers.shape[i]] for an index and for a name. *)
Definition layer_by_index (obj : Object) (i : nat) : option nat :=
  if Nat.ltb i (length (layer_names obj)) then Some i else None.

Fixpoint find_name (names : list string) (n : string) : option nat :=
  match names with
  | [] => None
  | m :: rest => if String.eqb m n then Some O else S <$> find_name rest n
  end.

Definition layer_by_name (obj : Object) (n : string) : option nat :=
  find_name (layer_names obj) n.

(** [me.total_vert_sel] *)
Definition total_vert_sel (obj : Object) : nat :=
  length (List.filter select (verts obj)).

(** [(bv for bv in bm.verts if bv.select and not bv.hide)] *)
Definition is_bmvert (bv : BMVert) : bool := select bv && negb (hide bv).

(** *** OperatorBase and ClearPendingChanges *)

Definition poll_mode (context : Context) : bool * option string :=
  if negb (String.eqb (mode context) "EDIT_MESH")
  then (false, Some "Must be in edit mode")
  else (true, None).

Definition has_shape_keys (obj : Object) : bool :=
  match shape_keys obj with Some _ => true | None => false end.

Definition ClearPendingChanges_poll (context : Context) : bool * option string :=
  match poll_mode context with
  | (false, msg) => (false, msg)
  | (true, _) =>
      if negb (forallb has_shape_keys (objects_in_mode_unique_data context))
      then (false, Some "All meshes in edit mode must have shape keys")
      else (true, None)
  end.

(** The body of the loop of [ClearPendingChanges.execute] for one object. *)
Definition clear_object (obj : Object) : outcome Object :=
  if Nat.eqb (total_vert_sel obj) 0 then Returned obj
  else
    match layer_by_index obj (active_shape_key_index obj) with
    | None => Raised "IndexError" "BMLayerCollection[index]: index out of range"
    | Some active_shape_layer =>
        Returned (set_verts obj
          ((fun bv => if is_bmvert bv then set_co bv (shape bv active_shape_layer) else bv)
             <$> verts obj))
    end.

(** [ClearPendingChanges.execute]: the objects after the call and its
    outcome; an exception leaves the objects not yet reached as they were. *)
Fixpoint ClearPendingChanges_execute (objects : list Object)
  : list Object * outcome Status :=
  match objects with
  | [] => ([], Returned FINISHED)
  | obj :: rest =>
      match clear_object obj with
      | Raised e m => (obj :: rest, Raised e m)
      | Returned obj' =>
          let '(rest', r) := ClearPendingChanges_execute rest in
          (obj' :: rest', r)
      end
  end.

(** *** TransferPendingChanges *)

Inductive TransferMode : Type := ADD | REPLACE | REPLACE_CHANGED.

Record TransferPendingChanges : Type := mkTransfer {
  transfer_mode : TransferMode;
  shape_key_name : string;
  swap_after_execute : bool
}.

(** One pass of each of the three loops, on a vertex of [bmverts], with the
    indices of the active layer and of the layer transferred to.  A layer is
    read again after it has been written. *)
Definition transfer_add (active_shape_layer other_shape_layer : nat) (bv : BMVert) : BMVert :=
  let pending_change := sub (co bv) (shape bv active_shape_layer) in
  if any pending_change then
    let bv1 := set_shape bv other_shape_layer (add (shape bv other_shape_layer) pending_change) in
    set_co bv1 (shape bv1 active_shape_layer)
  else bv.

Definition transfer_replace (active_shape_layer other_shape_layer : nat) (bv : BMVert) : BMVert :=
  let bv1 := set_shape bv other_shape_layer (co bv) in
  set_co bv1 (shape bv1 active_shape_layer).

Definition transfer_replace_changed (active_shape_layer other_shape_layer : nat) (bv : BMVert)
  : BMVert :=
  if neb (co bv) (shape bv active_shape_layer) then
    let bv1 := set_shape bv other_shape_layer (co bv) in
    set_co bv1 (shape bv1 active_shape_layer)
  else bv.

(** [obj.active_shape_key_index = i] in edit mode: the host writes the edit
    mesh back, which stores the coordinates of the vertices as the data of
    the key that was active, and loads it again with the key of index [i]
    active, which takes the coordinates of the vertices from the data of
    that key. *)
Definition set_active_shape_key_index (obj : Object) (i : nat) : Object :=
  mkObject (shape_keys obj) i
    ((fun bv => let bv1 := set_shape bv (active_shape_key_index obj) (co bv) in
                set_co bv1 (shape bv1 i)) <$> verts obj).

(** [TransferPendingChanges.execute] on [context.object]: the object after
    the call and what was reported. *)
Definition TransferPendingChanges_execute (self : TransferPendingChanges) (obj : Object)
  : outcome (Object * list (string * string) * Status) :=
  match shape_keys obj with
  | None => Raised "AttributeError" "'NoneType' object has no attribute 'key_blocks'"
  | Some _ =>
      match layer_by_name obj (shape_key_name self) with
      | None =>
          Returned (obj, [("ERROR_INVALID_INPUT",
                           "Shape key '" ++ shape_key_name self ++ "' not found")%string],
                    FINISHED)
      | Some other_index =>
          match active_shape_key obj with
          | None => Raised "AttributeError" "'NoneType' object has no attribute 'name'"
          | Some (active_index, active) =>
              if String.eqb (shape_key_name self) (name active) then
                Returned (obj, [("ERROR_INVALID_INPUT",
                                 "The shape key to transfer to must not be the active shape key")],
                          FINISHED)
              else if Nat.eqb (total_vert_sel obj) 0 then Returned (obj, [], FINISHED)
              else
                let step :=
                  match transfer_mode self with
                  | ADD => transfer_add active_index other_index
                  | REPLACE => transfer_replace active_index other_index
                  | REPLACE_CHANGED => transfer_replace_changed active_index other_index
                  end in
                let verts' := (fun bv => if is_bmvert bv then step bv else bv) <$> verts obj in
                let obj' := set_verts obj verts' in
                Returned (if swap_after_execute self
                          then set_active_shape_key_index obj' other_index
                          else obj',
                          [], FINISHED)
          end
      end
  end.

(** *** AverageShapeKeyMovement *)

(** The three [continue]s of the first loop of [execute]. *)
Definition skipped (obj : Object) : bool :=
  match active_shape_key obj, shape_keys obj with
  | Some (active_index, active_shape), Some k =>
      Nat.eqb (relative_key active_shape) active_index
      || negb (use_relative k) || Nat.eqb (reference_key k) active_index
      || Nat.eqb (total_vert_sel obj) 0
  | _, _ => true
  end.

(** [bm.verts.layers.shape[active_shape.relative_key.name]] *)
Definition relative_shape_layer (obj : Object) : outcome nat :=
  match active_shape_key obj, shape_keys obj with
  | Some (_, active_shape), Some k =>
      match key_blocks k !! relative_key active_shape with
      | None => Raised "ReferenceError" "relative_key"
      | Some rk =>
          match layer_by_name obj (name rk) with
          | Some l => Returned l
          | None => Raised "KeyError" "BMLayerCollection[key]: key not found"
          end
      end
  | _, _ => Raised "AttributeError" "'NoneType' object has no attribute 'relative_key'"
  end.

(** An element of [all_selected_bmverts]: the reference to the vertex (the
    position of its mesh and its position among the vertices of that mesh),
    [relative_co] and [movement]. *)
Record Entry : Type := mkEntry {
  entry_obj : nat;
  entry_vert : nat;
  relative_co : Vector;
  movement : Vector
}.

Fixpoint gather_verts (o layer j : nat) (vs : list BMVert) : list Entry :=
  match vs with
  | [] => []
  | bv :: rest =>
      if is_bmvert bv
      then mkEntry o j (shape bv layer) (sub (co bv) (shape bv layer))
             :: gather_verts o layer (S j) rest
      else gather_verts o layer (S j) rest
  end.

(** The first loop: [all_selected_bmverts], for the objects from position
    [o] on. *)
Fixpoint gather (o : nat) (objects : list Object) : outcome (list Entry) :=
  match objects with
  | [] => Returned []
  | obj :: rest =>
      if skipped obj then gather (S o) rest
      else
        match relative_shape_layer obj with
        | Raised e m => Raised e m
        | Returned layer =>
            match gather (S o) rest with
            | Raised e m => Raised e m
            | Returned entries => Returned (gather_verts o layer 0 (verts obj) ++ entries)
            end
        end
  end.

(** An entry of [all_selected_bmverts] refers to a selected, visible vertex
    of a mesh that is not skipped, and holds its relative coordinate and its
    movement. *)
Definition entry_of (objects : list Object) (e : Entry) : Prop :=
  exists (obj : Object) (bv : BMVert) (layer : nat),
    objects !! entry_obj e = Some obj /\
    skipped obj = false /\
    relative_shape_layer obj = Returned layer /\
    verts obj !! entry_vert e = Some bv /\
    is_bmvert bv = true /\
    relative_co e = shape bv layer /\
    movement e = sub (co bv) (shape bv layer).

(** [bv.co = c] through the reference [(o, j)]. *)
Definition write_co (objects : list Object) (o j : nat) (c : Vector) : list Object :=
  match objects !! o with
  | None => objects
  | Some obj =>
      match verts obj !! j with
      | None => objects
      | Some bv => <[o := set_verts obj (<[j := set_co bv c]> (verts obj))]> objects
      end
  end.

(** [bm = bmesh.from_edit_mesh(me)] binds [bm] anew for every mesh that is
    gathered from.  The host releases an edit mesh wrapper that nothing
    holds any more, and with it the vertices taken from it, so that after
    the first loop only the vertices of the mesh gathered from last, the one
    [bm] still holds, can be used: [last_gathered] is the position of that
    mesh, for the objects from position [o] on. *)
Fixpoint last_gathered (o : nat) (objects : list Object) : option nat :=
  match objects with
  | [] => None
  | obj :: rest =>
      match last_gathered (S o) rest with
      | Some l => Some l
      | None => if skipped obj then None else Some o
      end
  end.

(** The second loop, [for bv, relative_co, movement in all_selected_bmverts:
    bv.co = ...], with [bm] the mesh whose vertices are still valid: a write
    through any other reference raises, and what was written before it
    stays. *)
Fixpoint write_all (bm : option nat) (new_co : Entry -> Vector) (entries : list Entry)
    (objects : list Object) : list Object * outcome Status :=
  match entries with
  | [] => (objects, Returned FINISHED)
  | e :: rest =>
      if bool_decide (bm = Some (entry_obj e))
      then write_all bm new_co rest
             (write_co objects (entry_obj e) (entry_vert e) (new_co e))
      else (objects, Raised "ReferenceError" "BMesh data of type BMVert has been removed")
  end.

Definition AverageShapeKeyMovement_execute (mix : Q) (objects : list Object)
  : list Object * outcome Status :=
  if Qeqb mix 0 then (objects, Returned FINISHED)
  else
    match gather 0 objects with
    | Raised e m => (objects, Raised e m)
    | Returned all_selected_bmverts =>
        let sum_movement := fold_left add (movement <$> all_selected_bmverts) zero in
        match all_selected_bmverts with
        | [] => (objects, Returned FINISHED)
        | _ :: _ =>
            let average_movement := div sum_movement (length all_selected_bmverts) in
            let bm := last_gathered 0 objects in
            if Qeqb mix 1 then
              write_all bm (fun e => add (relative_co e) average_movement)
                all_selected_bmverts objects
            else
              write_all bm
                (fun e => add (relative_co e) (lerp (movement e) average_movement mix))
                all_selected_bmverts objects
        end
    end.

(** At most one mesh of [objects] is gathered from. *)
Definition gathers_from_one (objects : list Object) : Prop :=
  forall (o1 o2 : nat) (obj1 obj2 : Object),
    objects !! o1 = Some obj1 -> objects !! o2 = Some obj2 ->
    skipped obj1 = false -> skipped obj2 = false -> o1 = o2.

(** The movements the average is taken over, in the words of the
    specification: coordinate minus relative-key coordinate, for the
    selected, visible vertices of the meshes that are not skipped. *)
Definition spec_movements (objects : list Object) : list Vector :=
  concat ((fun obj =>
             match skipped obj, relative_shape_layer obj with
             | false, Returned layer =>
                 (fun bv => sub (co bv) (shape bv layer)) <$> List.filter is_bmvert (verts obj)
             | _, _ => []
             end) <$> objects).

Definition spec_average (objects : list Object) : Vector :=
  div (fold_left add (spec_movements objects) zero) (length (spec_movements objects)).

(** *** The polls of TransferPendingChanges and AverageShapeKeyMovement, and
    [TransferPendingChanges.invoke] *)

(** [TransferPendingChanges.poll], on [context.object]. *)
Definition TransferPendingChanges_poll (context : Context) (obj : Object)
  : bool * option string :=
  match poll_mode context with
  | (false, msg) => (false, msg)
  | (true, _) =>
      match shape_keys obj with
      | Some k =>
          if Nat.ltb (length (key_blocks k)) 2
          then (false, Some "Active mesh must have at least two shape keys")
          else (true, None)
      | None => (false, Some "Active mesh must have at least two shape keys")
      end
  end.

(** [TransferPendingChanges.invoke] up to the dialog: the names gathered in
    [other_shape_key_names] and the name given to [shape_key_name], which
    exists, so that its update callback leaves it alone. *)
Definition other_shape_key_names (obj : Object) : outcome (list string) :=
  match active_shape_key obj with
  | None => Raised "AttributeError" "'NoneType' object has no attribute 'name'"
  | Some (_, active) =>
      Returned (List.filter (fun key_name => negb (String.eqb key_name (name active)))
                  (layer_names obj))
  end.

Definition TransferPendingChanges_invoke (obj : Object) : outcome string :=
  match other_shape_key_names obj with
  | Raised e m => Raised e m
  | Returned [] => Raised "IndexError" "bpy_prop_collection[index]: index 0 out of range, size 0"
  | Returned (n :: _) => Returned n
  end.

(** [AverageShapeKeyMovement.object_has_relative_shape_keys_and_active_shape_is_not_basis_like] *)
Definition object_has_relative_shape_keys_and_active_shape_is_not_basis_like
    (mesh_obj : Object) : bool :=
  match active_shape_key mesh_obj, shape_keys mesh_obj with
  | Some (active_index, active_shape), Some k =>
      use_relative k
      && negb (Nat.eqb (relative_key active_shape) active_index)
      && negb (Nat.eqb active_index (reference_key k))
  | _, _ => false
  end.

Definition AverageShapeKeyMovement_poll (context : Context) : bool * option string :=
  match poll_mode context with
  | (false, msg) => (false, msg)
  | (true, _) =>
      if existsb object_has_relative_shape_keys_and_active_shape_is_not_basis_like
           (objects_in_mode_unique_data context)
      then (true, None)
      else (false, Some "At least one mesh must have an active relative shape key that isn't the reference key and isn't relative to itself")
  end.

(** *** ActiveVertexMovementToSelected *)

(** The operator properties [shape], [mix], [add] and
    [include_active_vertex]. *)
Record ActiveVertexMovementToSelected : Type := mkBlend {
  blend_shape : string;
  blend_mix : Q;
  is_add : bool;
  include_active_vertex : bool
}.

(** What the operator reads of the context: the meshes in edit mode,
    [context.object] as one of them (by position), and
    [select_history.active] of its edit mesh as one of its vertices (by
    position), [None] when the active element is not a vertex; a position
    that is not one of a vertex stands for no active vertex as well. *)
Record BlendContext : Type := mkBlendContext {
  blend_objects : list Object;
  context_object : nat;
  select_history_active : option nat
}.

(** [bm.verts.layers.shape[obj.active_shape_key_index-1]], where a negative
    index counts from the end. *)
Definition layer_before_active (obj : Object) : outcome nat :=
  let n := length (layer_names obj) in
  let i := if Nat.eqb (active_shape_key_index obj) 0 then (n - 1)%nat
           else (active_shape_key_index obj - 1)%nat in
  match layer_by_index obj i with
  | Some l => Returned l
  | None => Raised "IndexError" "BMLayerCollection[index]: index out of range"
  end.

(** The body of [for obj in objects], for the object at position [o]. *)
Definition blend_object (self : ActiveVertexMovementToSelected)
    (active_object active_vert : nat) (active_vert_movement add_movement : Vector)
    (o : nat) (obj : Object) : outcome Object :=
  let moved := fun bv : BMVert => set_co bv (add (co bv) add_movement) in
  let move_all :=
    set_verts obj ((fun bv => if is_bmvert bv then moved bv else bv) <$> verts obj) in
  if is_add self then
    if Nat.eqb o active_object && negb (include_active_vertex self) then
      Returned (set_verts obj
                  (imap (fun j bv => if is_bmvert bv && negb (Nat.eqb j active_vert)
                                     then moved bv else bv) (verts obj)))
    else Returned move_all
  else
    match active_shape_key obj, shape_keys obj with
    | Some (active_index, active_shape), Some k =>
        if (use_relative k && Nat.eqb (relative_key active_shape) active_index)
           || Nat.eqb active_index (reference_key k)
        then Returned move_all
        else
          match (if use_relative k then relative_shape_layer obj
                 else layer_before_active obj) with
          | Raised e m => Raised e m
          | Returned relative_shape_layer =>
              Returned (set_verts obj
                ((fun bv =>
                    if is_bmvert bv
                    then set_co bv (lerp (co bv)
                                      (add (shape bv relative_shape_layer) active_vert_movement)
                                      (blend_mix self))
                    else bv) <$> verts obj))
          end
    | _, _ => Returned move_all
    end.

(** The loop over the objects from position [o] on: an exception leaves the
    objects not yet reached as they were. *)
Fixpoint blend_loop (step : nat -> Object -> outcome Object) (o : nat)
    (objects : list Object) : list Object * option (string * string) :=
  match objects with
  | [] => ([], None)
  | obj :: rest =>
      match step o obj with
      | Raised e m => (obj :: rest, Some (e, m))
      | Returned obj' =>
          let '(rest', r) := blend_loop step (S o) rest in (obj' :: rest', r)
      end
  end.

(** [active_vert_movement], from the active vertex, the key block [shape]
    of the active mesh (at position [s]) and the layer of its relative
    key. *)
Definition active_vert_movement (active_object : Object) (active_vert : BMVert)
    (s : nat) (shape_key : ShapeKey) (relative_shape_layer : nat) : outcome Vector :=
  if match active_shape_key active_object with
     | Some (active_index, _) => Nat.eqb active_index s
     | None => false
     end
  then Returned (sub (co active_vert) (shape active_vert relative_shape_layer))
  else
    match layer_by_name active_object (name shape_key) with
    | None => Raised "KeyError" "BMLayerCollection[key]: key not found"
    | Some shape_key_layer =>
        Returned (sub (shape active_vert shape_key_layer)
                    (shape active_vert relative_shape_layer))
    end.

(** [ActiveVertexMovementToSelected.execute]: the objects after the call and
    its outcome, the reports and the status returned. *)
Definition ActiveVertexMovementToSelected_execute
    (self : ActiveVertexMovementToSelected) (context : BlendContext)
  : list Object * outcome (list (string * string) * string) :=
  let objects := blend_objects context in
  let unchanged := fun status : string => (objects, Returned ([], status)) in
  match objects !! context_object context with
  | None => (objects, Raised "AttributeError" "'NoneType' object has no attribute 'data'")
  | Some active_object =>
      match select_history_active context with
      | None => unchanged "CANCELLED"
      | Some j =>
          match verts active_object !! j with
          | None => unchanged "CANCELLED"
          | Some active_vert =>
              match shape_keys active_object with
              | None =>
                  (objects,
                   Raised "AttributeError" "'NoneType' object has no attribute 'key_blocks'")
              | Some k =>
                  match layer_by_name active_object (blend_shape self) with
                  | None =>
                      (objects,
                       Returned ([("ERROR_INVALID_INPUT",
                                   "Shape key '" ++ blend_shape self ++ "' not found")%string],
                                 "FINISHED"))
                  | Some s =>
                      match key_blocks k !! s with
                      | None => (objects, Raised "KeyError" "bpy_prop_collection[key]: key not found")
                      | Some shape_key =>
                          if is_add self && Nat.eqb (relative_key shape_key) s
                          then unchanged "FINISHED"
                          else
                            match key_blocks k !! relative_key shape_key with
                            | None => (objects, Raised "ReferenceError" "relative_key")
                            | Some relative_shape_key =>
                                match layer_by_name active_object (name relative_shape_key) with
                                | None =>
                                    (objects,
                                     Raised "KeyError" "BMLayerCollection[key]: key not found")
                                | Some relative_shape_layer =>
                                    match active_vert_movement active_object active_vert s
                                            shape_key relative_shape_layer with
                                    | Raised e m => (objects, Raised e m)
                                    | Returned movement =>
                                        if negb (any movement) && is_add self
                                        then unchanged "FINISHED"
                                        else if Qeqb (blend_mix self) 0
                                        then unchanged "FINISHED"
                                        else
                                          let add_movement := mul movement (blend_mix self) in
                                          match blend_loop
                                                  (blend_object self (context_object context) j
                                                     movement add_movement) 0 objects with
                                          | (objects', None) =>
                                              (objects', Returned ([], "FINISHED"))
                                          | (objects', Some (e, m)) => (objects', Raised e m)
                                          end
                                    end
                                end
                            end
                      end
                  end
              end
          end
      end
  end.

(** Objects to try the operators on: a mesh with a basis and two keys, the
    second key active and relative to the basis. *)
Definition layers (basis key1 key2 : Vector) : nat -> Vector := fun i =>
  match i with
  | 0%nat => basis
  | 1%nat => key1
  | _ => key2
  end.

Definition sample_key : Key :=
  mkKey true 0 [mkShapeKey "Basis" 0; mkShapeKey "Key 1" 0; mkShapeKey "Key 2" 0].

Definition sample_verts : list BMVert :=
  [ mkVert (mkVector 1 0 0) true false
      (layers (mkVector 0 0 0) (mkVector 0 0 0) (mkVector 0 0 0));
    mkVert (mkVector 1 3 0) true false
      (layers (mkVector 1 0 0) (mkVector 1 1 0) (mkVector 1 1 0));
    mkVert (mkVector 5 5 5) false false
      (layers (mkVector 2 0 0) (mkVector 2 0 0) (mkVector 2 0 1));
    mkVert (mkVector 7 7 7) true true
      (layers (mkVector 3 0 0) (mkVector 3 0 0) (mkVector 3 0 0)) ].

Definition sample_object : Object := mkObject (Some sample_key) 2 sample_verts.

(** The same mesh with every vertex selected and visible. *)
Definition all_selected_object : Object :=
  mkObject (Some sample_key) 2
    ((fun bv => mkVert (co bv) true false (shape bv)) <$> sample_verts).


Definition unselected_object : Object :=
  mkObject (Some sample_key) 1
    ((fun bv => mkVert (co bv) false (hide bv) (shape bv)) <$> sample_verts).

End ExtraShapeKeyOperations.

(** ** transferPendingEditChanges.py *)

Module TransferPendingEditChanges.
Import PyNum Mathutils ExtraShapeKeyOperations.

(** [bm.verts.layers.shape.active]: the host does not keep the active shape
    layer of an edit mesh in step with the active shape key of the object;
    it is the first layer, the one of the Basis key, whenever the mesh has
    shape layers. *)
Definition layers_shape_active (obj : Object) : option nat := layer_by_index obj 0.

(** One pass of [for bv in bm.verts].  [active_co] is a view of the data of
    the layer [active_shape_layer], so it is read when it is assigned to
    [bv.co]. *)
Definition transfer_vert (active_shape_layer transfer_to_shape_layer : nat) (bv : BMVert)
  : BMVert :=
  let active_co := fun bv' : BMVert => shape bv' active_shape_layer in
  let pending_co := co bv in
  if neb pending_co (active_co bv) then
    let difference := sub pending_co (active_co bv) in
    let bv1 := set_shape bv transfer_to_shape_layer
                 (add (shape bv transfer_to_shape_layer) difference) in
    set_co bv1 (active_co bv1)
  else bv.

(** The script on [bpy.context.object], with the name it is edited to
    transfer to ("Key 1" as distributed). *)
Definition script (key_name : string) (obj : Object) : outcome Object :=
  let active_shape_layer := layers_shape_active obj in
  match layer_by_name obj key_name with
  | None => Raised "KeyError" "BMLayerCollection[key]: key not found"
  | Some transfer_to_shape_layer =>
      match active_shape_layer, verts obj with
      | None, _ :: _ => Raised "TypeError" "BMElem[key]: invalid key"
      | None, [] => Returned obj
      | Some active, vs =>
          Returned (set_verts obj (transfer_vert active transfer_to_shape_layer <$> vs))
      end
  end.

End TransferPendingEditChanges.

(** ** moveActiveUVLayer.py *)

Module MoveActiveUVLayer.
Import PyNum.

Record MeshUVLoop : Type := mkLoop {
  uv : Q * Q;
  pin_uv : bool;
  select : bool
}.

Record MeshUVLoopLayer : Type := mkLayer {
  name : string;
  data : list MeshUVLoop
}.

(** The active object with its mode, [data.uv_layers] and
    [uv_layers.active_index]. *)
Record Object : Type := mkObject {
  mode : string;
  uv_layers : list MeshUVLoopLayer;
  active_index : nat
}.

(** The name the host gives when [layer.name = n] is assigned: no two UV maps
    of a mesh have the same name, and when another layer is already called
    [n], ".001" (or the next free number) is added on the end.  A name that
    ends in a dot and digits already is taken as a stem and a number, and
    the numbers tried are the ones after its own: "UVMap.001" is renamed to
    "UVMap.002".  (The host cuts names that get too long, which is left
    out.) *)
Definition numbered (n : string) (k : nat) : string :=
  (n ++ "."
     ++ (if Nat.ltb k 10 then "00" else if Nat.ltb k 100 then "0" else "")
     ++ NilZero.string_of_uint (Nat.to_uint k))%string.

Definition is_digit (c : ascii) : bool :=
  Nat.leb 48 (nat_of_ascii c) && Nat.leb (nat_of_ascii c) 57.

(** The scan from the end of a name over its digits up to a dot: what is
    left of the dot (reversed) and the digits. *)
Fixpoint split_rev (rev_name digits : list ascii) : option (list ascii * list ascii) :=
  match rev_name with
  | [] => None
  | c :: rest =>
      if Ascii.eqb c "."%char then Some (rest, digits)
      else if is_digit c then split_rev rest (c :: digits)
      else None
  end.

Definition number_of_digits (digits : list ascii) : nat :=
  fold_left (fun n c => (10 * n + (nat_of_ascii c - 48))%nat) digits 0%nat.

(** The stem and the number of a name; a name that ends with the dot, or
    has something else than digits behind its last dot, is its own stem,
    with number 0. *)
Definition split_name_number (n : string) : string * nat :=
  let cs := list_ascii_of_string n in
  match List.rev cs with
  | [] => (n, 0%nat)
  | c :: _ =>
      if Ascii.eqb c "."%char && Nat.ltb 1 (length cs) then (n, 0%nat)
      else
        match split_rev (List.rev cs) [] with
        | Some (left_rev, digits) =>
            (string_of_list_ascii (List.rev left_rev), number_of_digits digits)
        | None => (n, 0%nat)
        end
  end.

Fixpoint next_free (others : list string) (n : string) (k fuel : nat) : string :=
  match fuel with
  | O => numbered n k
  | S fuel' =>
      if bool_decide (numbered n k ∈ others) then next_free others n (S k) fuel'
      else numbered n k
  end.

Definition unique_name (others : list string) (n : string) : string :=
  if bool_decide (n ∈ others)
  then let '(stem, number) := split_name_number n in
       next_free others stem (S number) (length others)
  else n.

(** [uv_layers[i].name = n] *)
Definition set_name (layers : list MeshUVLoopLayer) (i : nat) (n : string)
  : list MeshUVLoopLayer :=
  match layers !! i with
  | None => layers
  | Some layer =>
      let others := name <$> (take i layers ++ drop (S i) layers) in
      <[i := mkLayer (unique_name others n) (data layer)]> layers
  end.

(** One pass of [for i in range(len(layer1.data))] on the data of the two
    layers; [None] is the IndexError of a [layer2.data] that is too short. *)
Definition swap_datum (d : list MeshUVLoop * list MeshUVLoop) (i : nat)
  : option (list MeshUVLoop * list MeshUVLoop) :=
  match d.1 !! i, d.2 !! i with
  | Some datum1, Some datum2 =>
      let layer1_uv := uv datum1 in
      let layer1_pin_uv := pin_uv datum1 in
      let layer1_select := select datum1 in
      Some (<[i := mkLoop (uv datum2) (pin_uv datum2) (select datum2)]> d.1,
            <[i := mkLoop layer1_uv layer1_pin_uv layer1_select]> d.2)
  | _, _ => None
  end.

Definition swap_data (data1 data2 : list MeshUVLoop)
  : option (list MeshUVLoop * list MeshUVLoop) :=
  fold_left (fun d i => match d with Some d => swap_datum d i | None => None end)
    (seq 0 (length data1)) (Some (data1, data2)).

Definition set_data (layers : list MeshUVLoopLayer) (i : nat) (d : list MeshUVLoop)
  : list MeshUVLoopLayer :=
  match layers !! i with
  | None => layers
  | Some layer => <[i := mkLayer (name layer) d]> layers
  end.

(** [swap_uv_layers(uv_layers, index1, index2, old_mode)] on the object whose
    layers these are. *)
Definition swap_uv_layers (obj : Object) (index1 index2 : nat) (old_mode : string)
  : outcome Object :=
  let layers := uv_layers obj in
  match layers !! index1, layers !! index2 with
  | Some layer1, Some layer2 =>
      let layer1_name := name layer1 in
      let layer2_name := name layer2 in
      let layers := set_name layers index1 "temp" in
      let layers := set_name layers index2 layer1_name in
      let layers := set_name layers index1 layer2_name in
      match swap_data (data layer1) (data layer2) with
      | None => Raised "IndexError" "bpy_prop_collection[index]: index out of range"
      | Some (data1, data2) =>
          let layers := set_data layers index1 data1 in
          let layers := set_data layers index2 data2 in
          Returned (mkObject old_mode layers (active_index obj))
      end
  | _, _ => Raised "IndexError" "bpy_prop_collection[index]: index out of range"
  end.

Definition move_active_uv_layer_up (active_object : Object) : outcome Object :=
  let index := active_index active_object in
  if Nat.ltb 0 index then
    match swap_uv_layers active_object (index - 1) index (mode active_object) with
    | Returned obj => Returned (mkObject (mode obj) (uv_layers obj) (index - 1))
    | Raised e m => Raised e m
    end
  else Returned active_object.

Definition move_active_uv_layer_down (active_object : Object) : outcome Object :=
  let index := active_index active_object in
  if Z.of_nat index <? Z.of_nat (length (uv_layers active_object)) - 1 then
    match swap_uv_layers active_object index (index + 1) (mode active_object) with
    | Returned obj => Returned (mkObject (mode obj) (uv_layers obj) (index + 1))
    | Raised e m => Raised e m
    end
  else Returned active_object.

(** [move_active_uv_layer_up()] followed by [move_active_uv_layer_down()] *)
Definition up_then_down (active_object : Object) : outcome Object :=
  match move_active_uv_layer_up active_object with
  | Returned obj => move_active_uv_layer_down obj
  | Raised e m => Raised e m
  end.

(** Two meshes with two UV maps each, the second one active; in the first
    mesh the upper UV map is called "temp". *)
Definition sample_data (u : Q) : list MeshUVLoop :=
  [mkLoop (u, 0%Q) false true; mkLoop (u, 1%Q) true false].

Definition temp_object : Object :=
  mkObject "EDIT" [mkLayer "temp" (sample_data 0); mkLayer "UVMap" (sample_data 1)] 1.

Definition plain_object : Object :=
  mkObject "EDIT" [mkLayer "UVMap" (sample_data 0); mkLayer "Lightmap" (sample_data 1)] 1.

(** [move_active_uv_layer_down()] followed by [move_active_uv_layer_up()] *)
Definition down_then_up (active_object : Object) : outcome Object :=
  match move_active_uv_layer_down active_object with
  | Returned obj => move_active_uv_layer_up obj
  | Raised e m => Raised e m
  end.

(** A mesh with three UV maps, the middle one active. *)
Definition three_layer_object : Object :=
  mkObject "EDIT"
    [mkLayer "UVMap" (sample_data 0); mkLayer "Lightmap" (sample_data 1);
     mkLayer "Detail" (sample_data (1 # 2))] 1.

End MoveActiveUVLayer.

(** ** CopyUVsToOtherUVMap.py *)

Module CopyUVsToOtherUVMap.
Import PyNum.

(** Hardcoded Blender limit *)
Definition max_uv_layers : nat := 8.

Record BMLoopUV : Type := mkLoopUV {
  uv : Q * Q;
  pin_uv : bool;
  select : bool
}.

(** A UV map: its name and its element for every loop of the mesh. *)
Record UVLayer : Type := mkLayer {
  layer_name : string;
  layer_data : list BMLoopUV
}.

(** A face with its selection and the positions of its loops. *)
Record BMFace : Type := mkFace {
  face_select : bool;
  face_loops : list nat
}.

(** A mesh in edit mode: [mesh.name], [mesh.uv_layers] with the position of
    [uv_layers.active], the number of [mesh.loops], and the faces of its edit
    mesh. *)
Record Mesh : Type := mkMesh {
  name : string;
  uv_layers : list UVLayer;
  active : nat;
  loops : nat;
  faces : list BMFace
}.

Record Object : Type := mkObject {
  type : string;
  data : Mesh
}.

(** What the operator reads of the host: the objects in edit mode, the UV
    sync selection of the tool settings, and how the host initialises a UV
    map: [uv_init_copies_flags] says whether [uv_layers.new(do_init=True)]
    copies the pin and the selection of the elements along with their
    coordinates.  The hosts the script names do (the comment in [execute]
    calls the new UV map a copy of the active one); a host that keeps the pin
    and the selection apart from the UV map, as Blender 4.2 does, copies the
    coordinates only. *)
Record Context : Type := mkContext {
  objects_in_mode_unique_data : list Object;
  use_uv_select_sync : bool;
  uv_init_copies_flags : bool
}.

Inductive NotFoundAction : Type := SKIP | CREATE | CREATE_INIT.

(** The operator properties; the two flag sets are given by the presence of
    each of their items. *)
Record Operator : Type := mkOperator {
  filter_selected : bool;
  filter_pinned : bool;
  target : string;
  copy_x : bool;
  copy_y : bool;
  copy_pin : bool;
  copy_select : bool;
  not_found_action : NotFoundAction
}.

Inductive Status : Type := FINISHED.

Definition success_message : string := "UV Copy To...: UVs copied".
Definition no_changes_message : string := "UV Copy To...: No changes made".

Definition max_layers_message (target mesh_name : string) : string :=
  ("The UV Map '" ++ target ++ "' can't be added to the mesh '" ++ mesh_name
     ++ "' because it already has the maximum number of UV Maps ("
     ++ NilZero.string_of_uint (Nat.to_uint max_uv_layers)
     ++ "). Execution has been cancelled.")%string.

(** [target in mesh.uv_layers] *)
Definition has_layer (mesh : Mesh) (target : string) : bool :=
  bool_decide (target ∈ (layer_name <$> uv_layers mesh)).

(** A mesh that lacks the target UV map and is at the limit. *)
Definition at_limit (target : string) (mesh : Mesh) : Prop :=
  (target ∉ (layer_name <$> uv_layers mesh)) /\
  (max_uv_layers <= length (uv_layers mesh))%nat.

(** The first loop of [execute]: the positions of the meshes that need the
    target UV map, or the name of the first mesh that cannot take it. *)
Fixpoint find_need_target_creation (target : string) (i : nat) (meshes : list Mesh)
  : string + list nat :=
  match meshes with
  | [] => inr []
  | mesh :: rest =>
      if negb (has_layer mesh target) then
        if Nat.leb max_uv_layers (length (uv_layers mesh)) then inl (name mesh)
        else
          match find_need_target_creation target (S i) rest with
          | inl n => inl n
          | inr need => inr (i :: need)
          end
      else find_need_target_creation target (S i) rest
  end.

(** [mesh.uv_layers.new(name=target, do_init=...)] on a host that copies the
    pin and the selection on initialisation or not ([copies_flags]): when
    [do_init] is set and there is an active UV map, the new UV map takes the
    coordinates of the active one, and its pin and its selection as the host
    has it; otherwise it holds default elements. *)
Definition new_layer (copies_flags : bool) (mesh : Mesh) (target : string) (do_init : bool)
  : Mesh :=
  let blank := replicate (loops mesh) (mkLoopUV (0, 0)%Q false false) in
  let init := fun l : BMLoopUV =>
    if copies_flags then l else mkLoopUV (uv l) false false in
  let d := if do_init
           then match uv_layers mesh !! active mesh with
                | Some l => init <$> layer_data l
                | None => blank
                end
           else blank in
  mkMesh (name mesh) (uv_layers mesh ++ [mkLayer target d]) (active mesh)
    (loops mesh) (faces mesh).

Definition create_at (copies_flags : bool) (target : string) (do_init : bool)
    (meshes : list Mesh) (i : nat) : list Mesh :=
  match meshes !! i with
  | Some mesh => <[i := new_layer copies_flags mesh target do_init]> meshes
  | None => meshes
  end.

(** The attribute copy functions chosen by [self.attributes], applied to one
    pair of loop elements. *)
Definition copy_attributes (self : Operator) (source target_loop : BMLoopUV) : BMLoopUV :=
  let uv' :=
    if copy_x self && copy_y self then uv source
    else if copy_x self then ((uv source).1, (uv target_loop).2)
    else if copy_y self then ((uv target_loop).1, (uv source).2)
    else uv target_loop in
  mkLoopUV uv'
    (if copy_pin self then pin_uv source else pin_uv target_loop)
    (if copy_select self then select source else select target_loop).

Definition has_attributes (self : Operator) : bool :=
  copy_x self || copy_y self || copy_pin self || copy_select self.

Definition passes_filters (self : Operator) (active_loop : BMLoopUV) : bool :=
  (if filter_selected self then select active_loop else true)
  && (if filter_pinned self then pin_uv active_loop else true).

(** One loop of a visible face: the data of the target UV map and whether an
    attribute has been copied. *)
Definition copy_loop (self : Operator) (active_data : list BMLoopUV)
    (st : list BMLoopUV * bool) (bm_loop : nat) : list BMLoopUV * bool :=
  match active_data !! bm_loop, st.1 !! bm_loop with
  | Some active_loop, Some target_loop =>
      if passes_filters self active_loop
      then (<[bm_loop := copy_attributes self active_loop target_loop]> st.1, true)
      else st
  | _, _ => st
  end.

Fixpoint find_layer (layers : list UVLayer) (n : string) : option nat :=
  match layers with
  | [] => None
  | l :: rest => if String.eqb (layer_name l) n then Some O else S <$> find_layer rest n
  end.

(** The body of [for me in meshes] of the copy. *)
Definition copy_mesh (self : Operator) (uv_select_sync : bool)
    (init_created_mesh_names : list string) (me : Mesh) : outcome (Mesh * bool) :=
  match uv_layers me !! active me with
  | None => Raised "AttributeError" "'NoneType' object has no attribute 'name'"
  | Some active_uv =>
      if negb (String.eqb (layer_name active_uv) (target self))
         && negb (Nat.eqb (loops me) 0)
         && has_layer me (target self)
         && negb (bool_decide (name me ∈ init_created_mesh_names))
      then
        match find_layer (uv_layers me) (target self) with
        | None => Returned (me, false)
        | Some t =>
            match uv_layers me !! t with
            | None => Returned (me, false)
            | Some target_uv =>
                let visible_bm_faces :=
                  if uv_select_sync then faces me else List.filter face_select (faces me) in
                let '(d, modified) :=
                  fold_left (copy_loop self (layer_data active_uv))
                    (concat (face_loops <$> visible_bm_faces))
                    (layer_data target_uv, false) in
                Returned (mkMesh (name me)
                            (<[t := mkLayer (layer_name target_uv) d]> (uv_layers me))
                            (active me) (loops me) (faces me),
                          modified)
            end
        end
      else Returned (me, false)
  end.

Fixpoint copy_meshes (self : Operator) (uv_select_sync : bool)
    (init_created_mesh_names : list string) (meshes : list Mesh)
  : outcome (list Mesh * bool) :=
  match meshes with
  | [] => Returned ([], false)
  | me :: rest =>
      match copy_mesh self uv_select_sync init_created_mesh_names me with
      | Raised e m => Raised e m
      | Returned (me', modified) =>
          match copy_meshes self uv_select_sync init_created_mesh_names rest with
          | Raised e m => Raised e m
          | Returned (rest', modified') => Returned (me' :: rest', modified || modified')
          end
      end
  end.

(** [execute]: the meshes of the objects of type 'MESH' after the call, what
    was reported, and the status. *)
Definition execute (self : Operator) (context : Context)
  : outcome (list Mesh * list (string * string) * Status) :=
  let create_target_when_missing :=
    match not_found_action self with CREATE | CREATE_INIT => true | SKIP => false end in
  let init_during_create :=
    match not_found_action self with CREATE_INIT => true | _ => false end in
  let meshes :=
    data <$> List.filter (fun mesh_obj => String.eqb (type mesh_obj) "MESH")
               (objects_in_mode_unique_data context) in
  match meshes with
  | [] => Returned (meshes, [("INFO", no_changes_message)], FINISHED)
  | _ :: _ =>
      match (if create_target_when_missing
             then find_need_target_creation (target self) 0 meshes
             else inr []) with
      | inl mesh_name =>
          Returned (meshes,
                    [("ERROR_INVALID_INPUT", max_layers_message (target self) mesh_name)],
                    FINISHED)
      | inr need_target_creation_meshes =>
          let created :=
            fold_left (create_at (uv_init_copies_flags context) (target self)
                         init_during_create)
              need_target_creation_meshes meshes in
          let init_created_mesh_names :=
            if init_during_create
            then omap (fun i => name <$> meshes !! i) need_target_creation_meshes
            else [] in
          let any_created :=
            negb (Nat.eqb (length need_target_creation_meshes) 0) in
          if negb (has_attributes self) then
            if any_created
            then Returned (created, [("INFO", success_message)], FINISHED)
            else Returned (created, [("INFO", no_changes_message)], FINISHED)
          else
            match copy_meshes self (use_uv_select_sync context)
                    init_created_mesh_names created with
            | Raised e m => Raised e m
            | Returned (copied, attributes_modified) =>
                if negb attributes_modified && negb any_created
                then Returned (copied, [("INFO", no_changes_message)], FINISHED)
                else Returned (copied, [("INFO", success_message)], FINISHED)
            end
      end
  end.

(** A mesh that already has eight UV maps, none of them called "Detail",
    next to a mesh with a single UV map. *)
Definition eight_layers : list UVLayer :=
  (fun n => mkLayer n [mkLoopUV (0, 0)%Q false true])
    <$> ["UV0"; "UV1"; "UV2"; "UV3"; "UV4"; "UV5"; "UV6"; "UV7"]%string.

Definition small_mesh : Mesh :=
  mkMesh "Cube" [mkLayer "UVMap" [mkLoopUV (1 # 2, 1 # 2)%Q false true]] 0 1
    [mkFace true [0%nat]].

Definition full_mesh : Mesh :=
  mkMesh "Body" eight_layers 0 1 [mkFace true [0%nat]].

Definition sample_context : Context :=
  mkContext [mkObject "MESH" small_mesh; mkObject "MESH" full_mesh] true true.


(** [get_uv_layer_names_gen]: the list comprehension of the names of the
    active UV maps of the objects of type 'MESH'; a mesh without UV maps has
    no active UV map to take the name of. *)
Fixpoint active_uv_map_names (objs : list Object) : outcome (list string) :=
  match objs with
  | [] => Returned []
  | obj :: rest =>
      if String.eqb (type obj) "MESH" then
        match uv_layers (data obj) !! active (data obj) with
        | None => Raised "AttributeError" "'NoneType' object has no attribute 'name'"
        | Some l =>
            match active_uv_map_names rest with
            | Raised e m => Raised e m
            | Returned names => Returned (layer_name l :: names)
            end
        end
      else active_uv_map_names rest
  end.

(** The loops of [get_uv_layer_names_gen] over the names of the UV maps,
    mesh after mesh: the names yielded, in order, from the set
    [found_uv_map_names]. *)
Fixpoint yield_names (found_uv_map_names : gset string) (names : list string)
  : list string :=
  match names with
  | [] => []
  | n :: rest =>
      if bool_decide (n ∈ found_uv_map_names) then yield_names found_uv_map_names rest
      else n :: yield_names ({[n]} ∪ found_uv_map_names) rest
  end.

(** [get_uv_layer_names_gen], run to its end as the menu does: the names it
    yields. *)
Definition get_uv_layer_names_gen (context : Context) : outcome (list string) :=
  match active_uv_map_names (objects_in_mode_unique_data context) with
  | Raised e m => Raised e m
  | Returned names =>
      let found_uv_map_names : gset string :=
        if Nat.eqb (length names) 1
        then match names with n :: _ => {[n]} | [] => ∅ end
        else ∅ in
      Returned
        (yield_names found_uv_map_names
           (concat ((fun mesh_obj => layer_name <$> uv_layers (data mesh_obj))
                      <$> List.filter (fun mesh_obj => String.eqb (type mesh_obj) "MESH")
                            (objects_in_mode_unique_data context))))
  end.

(** A plane with two UV maps and two loops, one on a selected face and one
    on a face that is not selected. *)
Definition two_layer_mesh : Mesh :=
  mkMesh "Plane"
    [ mkLayer "UVMap" [mkLoopUV (1 # 2, 1 # 4)%Q true true; mkLoopUV (3 # 4, 1)%Q false true];
      mkLayer "Detail" [mkLoopUV (0, 0)%Q false false; mkLoopUV (0, 0)%Q false false] ]
    0 2 [mkFace true [0%nat]; mkFace false [1%nat]].

(** The plane with no element of "UVMap" pinned, and the cube alone. *)
Definition unpinned_mesh : Mesh :=
  mkMesh "Plane"
    [ mkLayer "UVMap" [mkLoopUV (1 # 2, 1 # 4)%Q false true; mkLoopUV (3 # 4, 1)%Q false true];
      mkLayer "Detail" [mkLoopUV (0, 0)%Q false false; mkLoopUV (0, 0)%Q false false] ]
    0 2 [mkFace true [0%nat]; mkFace false [1%nat]].

Definition pinned_context : Context :=
  mkContext [mkObject "MESH" unpinned_mesh] false true.

Definition cube_context : Context :=
  mkContext [mkObject "MESH" small_mesh] true true.


Definition plane_context : Context :=
  mkContext [mkObject "MESH" two_layer_mesh; mkObject "EMPTY" small_mesh] false true.

End CopyUVsToOtherUVMap.

(** * Properties *)

Section PyNumFacts.
Import PyNum.

Lemma Qltb_lt a b : Qltb a b = true <-> (a < b)%Q.
Proof.
  unfold Qltb. rewrite negb_true_iff, <- not_true_iff_false, Qle_bool_iff.
  split; [apply Qnot_le_lt | apply Qlt_not_le].
Qed.

Lemma Qltb_ge a b : Qltb a b = false <-> (b <= a)%Q.
Proof.
  unfold Qltb. rewrite negb_false_iff. apply Qle_bool_iff.
Qed.

Lemma py_min_spec xs : forall x,
  (py_min x xs <= x)%Q /\ Forall (fun y => (py_min x xs <= y)%Q) xs /\
  (py_min x xs = x \/ py_min x xs ∈ xs).
Proof.
  unfold py_min. induction xs as [|y ys IH]; intros x; simpl.
  - split; [apply Qle_refl|]. split; [constructor | now left].
  - destruct (Qltb y x) eqn:E.
    + apply Qltb_lt in E. destruct (IH y) as (H1 & H2 & H3).
      split; [eapply Qle_trans; [exact H1 | now apply Qlt_le_weak]|].
      split; [constructor; assumption|].
      right. destruct H3 as [-> | H3]; [left | right; exact H3].
    + apply Qltb_ge in E. destruct (IH x) as (H1 & H2 & H3).
      split; [exact H1|].
      split; [constructor; [eapply Qle_trans; eassumption | exact H2]|].
      destruct H3 as [H3 | H3]; [now left | right; now right].
Qed.

Lemma py_max_spec xs : forall x,
  (x <= py_max x xs)%Q /\ Forall (fun y => (y <= py_max x xs)%Q) xs /\
  (py_max x xs = x \/ py_max x xs ∈ xs).
Proof.
  unfold py_max. induction xs as [|y ys IH]; intros x; simpl.
  - split; [apply Qle_refl|]. split; [constructor | now left].
  - destruct (Qltb x y) eqn:E.
    + apply Qltb_lt in E. destruct (IH y) as (H1 & H2 & H3).
      split; [eapply Qle_trans; [apply Qlt_le_weak; exact E | exact H1]|].
      split; [constructor; assumption|].
      right. destruct H3 as [-> | H3]; [left | right; exact H3].
    + apply Qltb_ge in E. destruct (IH x) as (H1 & H2 & H3).
      split; [exact H1|].
      split; [constructor; [eapply Qle_trans; eassumption | exact H2]|].
      destruct H3 as [H3 | H3]; [now left | right; now right].
Qed.

(** [int] agrees with the floor on non-negative numbers. *)
Lemma py_int_floor x : (0 <= x)%Q -> py_int x = Qfloor x.
Proof.
  destruct x as [a b]. unfold Qle, py_int, Qfloor. simpl. intros H.
  apply Z.quot_div_nonneg; lia.
Qed.

End PyNumFacts.

(** ** UnAtlasSelection.py: [get_division_size] *)

Section DivisionSize.
Import PyNum UnAtlasSelection.

Lemma exceeds_iff (x : Q) (n : Z) :
  0 <= n ->
  (1 / inject_Z (2 ^ n) < x)%Q <-> Z.pos (Qden x) < Qnum x * 2 ^ n.
Proof.
  intros Hn. assert (Hp : 0 < 2 ^ n) by (apply Z.pow_pos_nonneg; lia).
  destruct x as [a b]. unfold Qlt, Qdiv, Qmult, Qinv, inject_Z. simpl.
  destruct (2 ^ n) as [|p|p] eqn:E; try lia. simpl. lia.
Qed.

Lemma exceeds_true (x : Q) (n : Z) :
  exceeds x n = true <-> (1 / inject_Z (2 ^ n) < x)%Q.
Proof. unfold exceeds. apply Qltb_lt. Qed.

Lemma exceeds_false (x : Q) (n : Z) :
  exceeds x n = false <-> ~ (1 / inject_Z (2 ^ n) < x)%Q.
Proof.
  rewrite <- exceeds_true. destruct (exceeds x n); split; congruence.
Qed.

(** A positive length exceeds [1/2**n] once [n] reaches its denominator. *)
Lemma exceeds_at_denominator (x : Q) :
  (0 < x)%Q -> exceeds x (Z.pos (Qden x)) = true.
Proof.
  intros Hx. apply exceeds_true, exceeds_iff; [lia|].
  assert (Ha : 0 < Qnum x) by (destruct x; unfold Qlt in Hx; simpl in *; lia).
  assert (Hb : Z.pos (Qden x) < 2 ^ Z.pos (Qden x))
    by (apply Z.pow_gt_lin_r; lia).
  nia.
Qed.

(** Bounded search for the first index at which a test holds. *)
Lemma first_true (f : Z -> bool) (k : nat) : forall n,
  f (n + Z.of_nat k) = true ->
  exists m, n <= m <= n + Z.of_nat k /\ f m = true /\
            forall j, n <= j < m -> f j = false.
Proof.
  induction k as [|k IH]; intros n Hk.
  - exists n. replace (n + Z.of_nat 0) with n in Hk by lia.
    split; [lia|]. split; [exact Hk | intros; lia].
  - destruct (f n) eqn:En.
    + exists n. split; [lia|]. split; [exact En | intros; lia].
    + destruct (IH (n + 1)) as (m & Hm & Hfm & Hlt).
      { replace (n + 1 + Z.of_nat k) with (n + Z.of_nat (S k)) by lia. exact Hk. }
      exists m. split; [lia|]. split; [exact Hfm|].
      intros j Hj. destruct (Z.eq_dec j n) as [-> | Hne]; [exact En|].
      apply Hlt. lia.
Qed.

(** The loop returns at the first index at which the test holds, as soon as
    the fuel covers the distance to it. *)
Lemma division_loop_first (x : Q) (m : Z) : forall fuel n,
  n <= m ->
  exceeds x m = true ->
  (forall j, n <= j < m -> exceeds x j = false) ->
  (Z.to_nat (m - n) < fuel)%nat ->
  division_loop fuel x n = Some (m - 1).
Proof.
  induction fuel as [|fuel IH]; intros n Hnm Hm Hlt Hfuel; [lia|].
  simpl. destruct (Z.eq_dec n m) as [-> | Hne].
  - now rewrite Hm.
  - rewrite (Hlt n) by lia. apply IH; try lia; [exact Hm|].
    intros j Hj. apply Hlt. lia.
Qed.

(** The guard of [get_division_size]. *)
Lemma get_division_size_raises (normalized_length : Q) (fuel : nat) :
  (normalized_length <= 0)%Q ->
  get_division_size_fuel fuel normalized_length
  = Some (Raised "RuntimeError" division_size_msg).
Proof.
  intros Hx. unfold get_division_size_fuel. apply Qle_bool_iff in Hx. now rewrite Hx.
Qed.

(** The loop on a positive length: there is a first [n] at which the test
    holds, it is at most the denominator of the length, and the loop returns
    [n - 1] as soon as the fuel exceeds [n]. *)
Lemma division_loop_least (normalized_length : Q) :
  (0 < normalized_length)%Q ->
  exists n : Z,
    0 <= n <= Z.pos (Qden normalized_length) /\
    exceeds normalized_length n = true /\
    (forall j, 0 <= j < n -> exceeds normalized_length j = false) /\
    forall fuel, (Z.to_nat n < fuel)%nat ->
      division_loop fuel normalized_length 0 = Some (n - 1).
Proof.
  intros Hx.
  destruct (first_true (exceeds normalized_length)
              (Pos.to_nat (Qden normalized_length)) 0) as (n & Hn & Hfn & Hlt).
  { rewrite positive_nat_Z. simpl. now apply exceeds_at_denominator. }
  rewrite positive_nat_Z in Hn.
  exists n. split; [lia|]. split; [exact Hfn|]. split; [exact Hlt|].
  intros fuel Hfuel. apply division_loop_first; auto; lia.
Qed.

Lemma get_division_size_returns (normalized_length : Q) :
  (0 < normalized_length)%Q ->
  exists k : Z, get_division_size normalized_length = Some (Returned k).
Proof.
  intros Hx. destruct (division_loop_least normalized_length Hx) as (n & Hn & _ & _ & Hrun).
  exists (n - 1). unfold get_division_size, get_division_size_fuel.
  assert (Hpos : Qle_bool normalized_length 0 = false).
  { apply not_true_iff_false. rewrite Qle_bool_iff. now apply Qlt_not_le. }
  rewrite Hpos, Hrun; [reflexivity|]. unfold division_fuel. lia.
Qed.

(** On a number the loop and the function on floats are those on
    rationals. *)
Lemma division_loop_float_number (x : Q) : forall (fuel : nat) (n : Z),
  division_loop_float fuel (Number x) n = division_loop fuel x n.
Proof.
  induction fuel as [|fuel IH]; intros n; [reflexivity|].
  cbn [division_loop_float division_loop float_gt]. fold (exceeds x n).
  destruct (exceeds x n); [reflexivity | apply IH].
Qed.

Lemma get_division_size_float_number (x : Q) (fuel : nat) :
  get_division_size_float fuel (Number x) = get_division_size_fuel fuel x.
Proof.
  unfold get_division_size_float, get_division_size_fuel. cbn [float_le_zero].
  now rewrite division_loop_float_number.
Qed.

(** On NaN the loop goes on from every [n], whatever the fuel. *)
Lemma division_loop_float_nan : forall (fuel : nat) (n : Z),
  division_loop_float fuel NaN n = None.
Proof.
  induction fuel as [|fuel IH]; intros n; [reflexivity|].
  cbn [division_loop_float float_gt]. apply IH.
Qed.

(** C7.  [get_division_size] on every float.  It raises [RuntimeError] when
    [normalized_length <= 0] (a number that is not positive, or minus
    infinity).  When [normalized_length] is a positive number there is a
    smallest [n >= 0] with [normalized_length > 1/2**n], the loop reaches it
    (with the fuel of [get_division_size], and with any fuel above [n]) and
    [n - 1] is returned; plus infinity returns [-1] at once.  But NaN is
    neither caught by the guard nor ever above [1/2**n]: on NaN the loop
    does not return, however long it runs. *)
Theorem get_division_size_terminates (normalized_length : float) :
  (float_le_zero normalized_length = true ->
   forall fuel : nat,
     get_division_size_float fuel normalized_length
     = Some (Raised "RuntimeError" division_size_msg)) /\
  (forall x : Q,
     normalized_length = Number x ->
     (float_le_zero normalized_length = true <-> (x <= 0)%Q) /\
     (get_division_size x = get_division_size_float (division_fuel x) normalized_length) /\
     ((0 < x)%Q ->
      exists n : Z,
        0 <= n /\
        (1 / inject_Z (2 ^ n) < x)%Q /\
        (forall j, 0 <= j < n -> ~ (1 / inject_Z (2 ^ j) < x)%Q) /\
        get_division_size x = Some (Returned (n - 1)) /\
        forall fuel, (Z.to_nat n < fuel)%nat ->
          get_division_size_float fuel normalized_length = Some (Returned (n - 1)))) /\
  (normalized_length = Infinity false ->
   forall fuel : nat,
     (0 < fuel)%nat ->
     get_division_size_float fuel normalized_length = Some (Returned (-1))) /\
  (normalized_length = NaN ->
   forall fuel : nat, get_division_size_float fuel normalized_length = None).
Proof.
  split; [|split; [|split]].
  - intros Hx fuel. unfold get_division_size_float. now rewrite Hx.
  - intros x ->. split; [apply Qle_bool_iff|].
    split; [unfold get_division_size; now rewrite get_division_size_float_number|].
    intros Hx.
    destruct (division_loop_least x Hx) as (n & Hn & Hfn & Hlt & Hloop).
    assert (Hpos : Qle_bool x 0 = false).
    { apply not_true_iff_false. rewrite Qle_bool_iff. now apply Qlt_not_le. }
    assert (Hrun : forall fuel, (Z.to_nat n < fuel)%nat ->
              get_division_size_fuel fuel x = Some (Returned (n - 1))).
    { intros fuel Hfuel. unfold get_division_size_fuel. now rewrite Hpos, Hloop. }
    exists n. split; [lia|]. split; [now apply exceeds_true|].
    split; [intros j Hj; apply exceeds_false, Hlt; lia|].
    split.
    + apply Hrun. unfold division_fuel. lia.
    + intros fuel Hfuel. rewrite get_division_size_float_number. now apply Hrun.
  - intros -> [|fuel] Hfuel; [lia | reflexivity].
  - intros -> fuel. unfold get_division_size_float. cbn [float_le_zero].
    now rewrite division_loop_float_nan.
Qed.

Example get_division_size_values :
  get_division_size 1 = Some (Returned 0) /\
  get_division_size (1 # 2) = Some (Returned 1) /\
  get_division_size (3 # 10) = Some (Returned 1) /\
  get_division_size (1 # 4) = Some (Returned 2) /\
  get_division_size (3 # 2) = Some (Returned (-1)).
Proof. repeat split; vm_compute; reflexivity. Qed.

(** The theorem at work: an empty bounding box raises, a quarter of the
    atlas gives a division size, and on NaN a thousand iterations, or any
    other number of them, do not bring the loop to its end. *)
Lemma get_division_size_terminates_witness :
  get_division_size_float 1 (Number 0) = Some (Raised "RuntimeError" division_size_msg) /\
  (exists n : Z, 0 <= n /\ get_division_size (1 # 4) = Some (Returned (n - 1))) /\
  get_division_size_float 1000 NaN = None.
Proof.
  split; [|split].
  - apply (proj1 (get_division_size_terminates (Number 0))). reflexivity.
  - destruct (proj1 (proj2 (get_division_size_terminates (Number (1 # 4)))) (1 # 4) eq_refl)
      as (_ & _ & H).
    destruct H as (n & Hn & _ & _ & Hr & _).
    + unfold Qlt. simpl. lia.
    + exists n. split; [exact Hn | exact Hr].
  - apply (proj2 (proj2 (proj2 (get_division_size_terminates NaN)))). reflexivity.
Defined.

End DivisionSize.

(** ** UnAtlasSelection.py: the rescaling of the selection *)

Section UnAtlas.
Import PyNum UnAtlasSelection.

(** The first pass collects exactly the coordinates of the selected
    elements, in order. *)
Lemma selected_from_coords (loops : list BMLoopUV) : forall i,
  (selected_from i loops).*2 = uv <$> List.filter select loops.
Proof.
  induction loops as [|l rest IH]; intros i; simpl; [reflexivity|].
  destruct (select l); simpl; now rewrite IH.
Qed.

Lemma insert_behind {A} (done rest : list A) (x y : A) :
  <[length done := y]> (done ++ x :: rest) = done ++ y :: rest.
Proof.
  replace (length done) with (length done + 0)%nat by lia.
  now rewrite insert_app_r.
Qed.

(** The second pass, seen from the store: behind a prefix that is already
    done, every selected element is rescaled once and the others stay. *)
Lemma rescale_selected (s c : Q * Q) (loops : list BMLoopUV) : forall done,
  fold_left (rescale_at s c) (selected_from (length done) loops).*1 (done ++ loops)
  = done ++ ((fun l => if select l then set_uv l (vec_mul (vec_sub (uv l) s) c) else l)
               <$> loops).
Proof.
  induction loops as [|l rest IH]; intros done; simpl; [reflexivity|].
  assert (Hnext : forall x : BMLoopUV, S (length done) = length (done ++ [x]))
    by (intros x; rewrite length_app; simpl; lia).
  destruct (select l) eqn:El.
  - simpl. unfold rescale_at at 2.
    rewrite list_lookup_middle by reflexivity.
    rewrite insert_behind.
    rewrite (Hnext (set_uv l (vec_mul (vec_sub (uv l) s) c))).
    rewrite (cons_middle _ done rest), app_assoc, IH, <- app_assoc. reflexivity.
  - rewrite (Hnext l), (cons_middle l done rest), app_assoc, IH, <- app_assoc.
    reflexivity.
Qed.

Lemma pow2_pos (k : Z) : (0 < pow2 k)%Q.
Proof. unfold pow2. apply Qpower_0_lt. reflexivity. Qed.

(** The script on a non-empty selection: everything hangs on [find_cell]. *)
Lemma unatlas_unfold (a : bool) (loops : list BMLoopUV) (c0 : Q * Q) (cs : list (Q * Q)) :
  uv <$> List.filter select loops = c0 :: cs ->
  unatlas a loops
  = bind_outcome (find_cell a c0.1 cs.*1 c0.2 cs.*2) (fun c =>
      Some (Returned ((fun l => if select l
                                then set_uv l (vec_mul (vec_sub (uv l) (vec_to_subtract c))
                                                 (vec_to_scale c))
                                else l) <$> loops))).
Proof.
  intros Hsel. unfold unatlas.
  rewrite <- (selected_from_coords loops 0) in Hsel.
  destruct (selected_from 0 loops) as [|[i0 c0'] rest] eqn:Es; [discriminate|].
  rewrite fmap_cons in Hsel. injection Hsel as Hc0 Hcs. simpl in Hc0. subst c0' cs.
  assert (E1 : (fun p : nat * (Q * Q) => p.2.1) <$> rest = (rest.*2).*1)
    by (rewrite <- list_fmap_compose; reflexivity).
  assert (E2 : (fun p : nat * (Q * Q) => p.2.2) <$> rest = (rest.*2).*2)
    by (rewrite <- list_fmap_compose; reflexivity).
  rewrite !fmap_cons, E1, E2. cbn beta iota. cbn [fst snd].
  destruct (find_cell a c0.1 rest.*2.*1 c0.2 rest.*2.*2) as [[c|e m]|];
    cbn [bind_outcome]; try reflexivity.
  do 2 f_equal.
  change (i0 :: rest.*1) with (((i0, c0) :: rest).*1). rewrite <- Es.
  exact (rescale_selected _ _ loops []).
Qed.

Lemma bounding_box (x : Q) (xs : list Q) :
  Forall (fun y => (py_min x xs <= y <= py_max x xs)%Q) (x :: xs) /\
  py_min x xs ∈ x :: xs /\ py_max x xs ∈ x :: xs.
Proof.
  destruct (py_min_spec xs x) as (L1 & L2 & L3).
  destruct (py_max_spec xs x) as (U1 & U2 & U3).
  split; [|split].
  - constructor; [split; assumption|].
    rewrite Forall_forall in L2, U2 |- *. intros y Hy. split; auto.
  - destruct L3 as [-> | L3]; [left | right; exact L3].
  - destruct U3 as [-> | U3]; [left | right; exact U3].
Qed.

(** C3 (amended).  On a non-empty UV selection, with [allow_non_square]
    false: when the bounding box of the selected coordinates (minimum and
    maximum of their u and of their v values) has zero width or zero height
    the script raises [RuntimeError]; otherwise, with [k] the smaller of
    the two division sizes, [d = 2**k] and
    [corner = (int(min_u*d)/d, int(min_v*d)/d)], where [int] truncates
    toward zero and agrees with the floor for a non-negative minimum, every
    selected coordinate [uv] becomes [(uv - corner) * d] and every element
    that is not selected stays as it was. *)
Theorem unatlas_rescales_selection
    (loops : list BMLoopUV) (c0 : Q * Q) (cs : list (Q * Q)) :
  uv <$> List.filter select loops = c0 :: cs ->
  let min_u := py_min c0.1 cs.*1 in
  let max_u := py_max c0.1 cs.*1 in
  let min_v := py_min c0.2 cs.*2 in
  let max_v := py_max c0.2 cs.*2 in
  (Forall (fun u => (min_u <= u <= max_u)%Q) (c0 :: cs).*1 /\
   min_u ∈ (c0 :: cs).*1 /\ max_u ∈ (c0 :: cs).*1) /\
  (Forall (fun v => (min_v <= v <= max_v)%Q) (c0 :: cs).*2 /\
   min_v ∈ (c0 :: cs).*2 /\ max_v ∈ (c0 :: cs).*2) /\
  ((max_u - min_u <= 0)%Q \/ (max_v - min_v <= 0)%Q ->
     unatlas false loops = Some (Raised "RuntimeError" division_size_msg)) /\
  ((0 < max_u - min_u)%Q -> (0 < max_v - min_v)%Q ->
     exists (kx ky : Z) (loops' : list BMLoopUV),
       get_division_size (max_u - min_u) = Some (Returned kx) /\
       get_division_size (max_v - min_v) = Some (Returned ky) /\
       unatlas false loops = Some (Returned loops') /\
       let d := pow2 (Z.min kx ky) in
       let corner := ((inject_Z (py_int (min_u * d)) / d)%Q,
                      (inject_Z (py_int (min_v * d)) / d)%Q) in
       ((0 <= min_u)%Q -> corner.1 = spec_corner d min_u) /\
       ((0 <= min_v)%Q -> corner.2 = spec_corner d min_v) /\
       length loops' = length loops /\
       forall (i : nat) (l : BMLoopUV),
         loops !! i = Some l ->
         loops' !! i
         = Some (if select l
                 then set_uv l (vec_mul (vec_sub (uv l) corner) (d, d))
                 else l)).
Proof.
  intros Hsel min_u max_u min_v max_v.
  split; [rewrite fmap_cons; apply bounding_box|].
  split; [rewrite fmap_cons; apply bounding_box|].
  rewrite (unatlas_unfold false loops c0 cs Hsel). unfold find_cell.
  fold min_u max_u min_v max_v.
  split.
  - intros [Hw | Hh].
    + unfold get_division_size. rewrite (get_division_size_raises _ _ Hw). reflexivity.
    + destruct (Qlt_le_dec 0 (max_u - min_u)) as [Hw | Hw].
      * destruct (get_division_size_returns _ Hw) as [kx ->]. cbn [bind_outcome].
        unfold get_division_size. rewrite (get_division_size_raises _ _ Hh). reflexivity.
      * unfold get_division_size. rewrite (get_division_size_raises _ _ Hw). reflexivity.
  - intros Hw Hh.
    destruct (get_division_size_returns _ Hw) as [kx Ex].
    destruct (get_division_size_returns _ Hh) as [ky Ey].
    rewrite Ex, Ey. cbn [bind_outcome vec_to_subtract vec_to_scale].
    eexists _, _, _. split; [reflexivity|]. split; [reflexivity|].
    split; [reflexivity|]. cbv zeta.
    assert (Hd : (0 < pow2 (Z.min kx ky))%Q) by apply pow2_pos.
    split; [|split; [|split]].
    + intros H0. cbn [fst]. unfold spec_corner. rewrite py_int_floor; [reflexivity|].
      apply Qmult_le_0_compat; [exact H0 | now apply Qlt_le_weak].
    + intros H0. cbn [snd]. unfold spec_corner. rewrite py_int_floor; [reflexivity|].
      apply Qmult_le_0_compat; [exact H0 | now apply Qlt_le_weak].
    + apply length_fmap.
    + intros i l Hl. rewrite list_lookup_fmap, Hl. reflexivity.
Qed.

(** The theorem on a selection inside the lower left quarter of the atlas. *)
Lemma unatlas_rescales_selection_witness :
  exists loops' : list BMLoopUV,
    unatlas false lower_left_quarter = Some (Returned loops') /\
    length loops' = 4%nat.
Proof.
  destruct (unatlas_rescales_selection lower_left_quarter
              (1 # 20, 1 # 10)%Q [(9 # 20, 1 # 4)%Q; (1 # 4, 2 # 5)%Q] eq_refl)
    as (_ & _ & _ & H).
  destruct H as (kx & ky & loops' & _ & _ & E & _ & _ & L & _);
    [vm_compute; reflexivity | vm_compute; reflexivity |].
  exists loops'. split; [exact E | exact L].
Defined.

(** C3 as first stated fails twice.  Left of the origin the corner of the
    code, taken with [int], is not the corner taken with the floor, and the
    rescaled coordinates differ; and a selection of a single coordinate is
    non-empty, yet the script raises instead of rescaling. *)
Lemma unatlas_floor_counterexample :
  (exists (l l' : list BMLoopUV) (a b : BMLoopUV),
     unatlas false left_of_origin = Some (Returned l) /\
     spec_unatlas left_of_origin = Some l' /\
     l !! 0%nat = Some a /\ l' !! 0%nat = Some b /\
     select a = true /\
     ~ ((uv a).1 == (uv b).1)%Q) /\
  (uv <$> List.filter select single_point <> [] /\
   unatlas false single_point = Some (Raised "RuntimeError" division_size_msg) /\
   spec_unatlas single_point = None).
Proof.
  split.
  - eexists _, _, _, _.
    split; [vm_compute; reflexivity|]. split; [vm_compute; reflexivity|].
    split; [reflexivity|]. split; [reflexivity|]. split; [reflexivity|].
    vm_compute. discriminate.
  - split; [discriminate|]. split; vm_compute; reflexivity.
Qed.

End UnAtlas.

(** ** BoneCycleHierarchy.py *)

Section BoneCycle.
Import PyNum BoneCycleHierarchy.

Lemma insert_sorted_elem {A} (before : A -> A -> bool) (x y : A) (l : list A) :
  y ∈ insert_sorted before x l <-> y = x \/ y ∈ l.
Proof.
  induction l as [|z l IH]; simpl.
  - rewrite list_elem_of_singleton, elem_of_nil. tauto.
  - destruct (before z x); rewrite !elem_of_cons; [rewrite IH|]; tauto.
Qed.

Lemma sorted_elem {A} (l : list A) (key : A -> string) (reverse : bool) (y : A) :
  y ∈ sorted l key reverse <-> y ∈ l.
Proof.
  unfold sorted. induction l as [|x l IH]; simpl; [reflexivity|].
  rewrite insert_sorted_elem, IH, elem_of_cons. reflexivity.
Qed.

(** Ordering the siblings neither loses nor adds a bone. *)
Lemma ordered_siblings_elem (self : Operator) (store : nat -> Bone) (l : list nat) (y : nat) :
  y ∈ ordered_siblings self store l <-> y ∈ l.
Proof.
  unfold ordered_siblings. destruct (order self).
  - destruct (direction self); [reflexivity | apply elem_of_reverse].
  - apply sorted_elem.
Qed.

Lemma ltb_asym (a b : string) : String.ltb a b = true -> String.ltb b a = false.
Proof.
  unfold String.ltb. rewrite (String.compare_antisym b a).
  now destruct (String.compare a b).
Qed.

(** [sorted] sorts: no element comes before its predecessor in the order
    asked for, and the result is a rearrangement of the list. *)
Lemma insert_sorted_Sorted {A} (before : A -> A -> bool) (x : A) (l : list A) :
  (forall a b, before a b = true -> before b a = false) ->
  Sorted (fun a b => before b a = false) l ->
  Sorted (fun a b => before b a = false) (insert_sorted before x l).
Proof.
  intros Hasym Hs. induction Hs as [|y l Hl IH Hhd]; simpl.
  - repeat constructor.
  - destruct (before y x) eqn:E.
    + constructor; [exact IH|].
      destruct Hhd as [|z l' Hz]; simpl.
      * constructor. now apply Hasym.
      * destruct (before z x); constructor; [exact Hz | now apply Hasym].
    + constructor; [now constructor | now constructor].
Qed.

Lemma insert_sorted_Permutation {A} (before : A -> A -> bool) (x : A) (l : list A) :
  insert_sorted before x l ≡ₚ x :: l.
Proof.
  induction l as [|y l IH]; simpl; [reflexivity|].
  destruct (before y x); [|reflexivity].
  rewrite IH. apply perm_swap.
Qed.

Lemma sorted_sorts {A} (l : list A) (key : A -> string) (reverse : bool) :
  sorted l key reverse ≡ₚ l /\
  Sorted (fun a b => if reverse then String.ltb (key a) (key b) = false
                     else String.ltb (key b) (key a) = false)
    (sorted l key reverse).
Proof.
  unfold sorted. split.
  - induction l as [|x l IH]; simpl; [reflexivity|].
    now rewrite insert_sorted_Permutation, IH.
  - induction l as [|x l IH]; simpl; [constructor|].
    destruct reverse.
    + apply (insert_sorted_Sorted (fun a b => String.ltb (key b) (key a))); [|exact IH].
      intros a b. apply ltb_asym.
    + apply (insert_sorted_Sorted (fun a b => String.ltb (key a) (key b))); [|exact IH].
      intros a b. apply ltb_asym.
Qed.

(** On the sample armature: the alphabetical order backwards, and the chain
    searched from "leg.L". *)
Example ordered_siblings_backwards :
  ordered_siblings (mkOperator BACKWARDS false ALPHABETICAL) sample_store [3; 1; 4; 2]%nat
  = [4; 3; 2; 1]%nat /\
  siblings_chain [4; 3; 2; 1]%nat 1 = [2; 1; 4]%nat.
Proof. split; reflexivity. Qed.

Lemma index_elem (l : list nat) (x : nat) :
  x ∈ l -> exists i, index l x = Some i.
Proof.
  induction l as [|y l IH]; intros H; [now apply elem_of_nil in H|].
  simpl. destruct (Nat.eqb y x) eqn:E; [now exists O|].
  apply elem_of_cons in H as [-> | H]; [rewrite Nat.eqb_refl in E; discriminate|].
  destruct (IH H) as [i ->]. now exists (S i).
Qed.

(** [index] gives the first position of the bone. *)
Lemma index_lookup (l : list nat) (x : nat) : forall i,
  index l x = Some i -> l !! i = Some x /\ forall j, (j < i)%nat -> l !! j <> Some x.
Proof.
  induction l as [|y l IH]; intros i H; [discriminate|].
  simpl in H. destruct (Nat.eqb y x) eqn:E.
  - injection H as <-. apply Nat.eqb_eq in E as ->. split; [reflexivity | intros; lia].
  - destruct (index l x) as [i'|]; [|discriminate]. injection H as <-.
    destruct (IH i' eq_refl) as [H1 H2]. split; [exact H1|].
    intros [|j] Hj; simpl.
    + intros [= ->]. rewrite Nat.eqb_refl in E. discriminate.
    + apply H2. lia.
Qed.

(** The generator expression stops at the first bone that is neither hidden
    nor protected from selection. *)
Lemma filter_first (store : nat -> Bone) (skipped rest : list nat) (next : nat) :
  Forall (fun b => hide (store b) = true \/ hide_select (store b) = true) skipped ->
  hide (store next) = false -> hide_select (store next) = false ->
  List.filter (selectable store) (skipped ++ next :: rest)
  = next :: List.filter (selectable store) rest.
Proof.
  intros Hs Hh Hhs. induction Hs as [|b skipped Hb _ IH]; simpl.
  - unfold selectable at 1. now rewrite Hh, Hhs.
  - unfold selectable at 1. destruct Hb as [-> | ->]; simpl; [exact IH|].
    rewrite andb_false_r. exact IH.
Qed.

Lemma filter_none (store : nat -> Bone) (chain : list nat) :
  Forall (fun b => hide (store b) = true \/ hide_select (store b) = true) chain ->
  List.filter (selectable store) chain = [].
Proof.
  intros Hs. induction Hs as [|b chain Hb _ IH]; simpl; [reflexivity|].
  unfold selectable at 1. destruct Hb as [-> | ->]; simpl; [exact IH|].
  rewrite andb_false_r. exact IH.
Qed.

(** [cycle] on an active bone that is among the children of its parent. *)
Lemma cycle_next_sibling (self : Operator) (store : nat -> Bone) (active p : nat) :
  parent (store active) = Some p ->
  active ∈ children (store p) ->
  let siblings := ordered_siblings self store (children (store p)) in
  exists active_index : nat,
    index siblings active = Some active_index /\
    let chain := siblings_chain siblings active_index in
    (forall (skipped : list nat) (next : nat) (rest : list nat),
       chain = skipped ++ next :: rest ->
       Forall (fun b => hide (store b) = true \/ hide_select (store b) = true) skipped ->
       hide (store next) = false -> hide_select (store next) = false ->
       exists store' : nat -> Bone,
         cycle self store active = Returned (FINISHED, store', Some next) /\
         select (store' next) = true /\
         select_head (store' next) = true /\
         select_tail (store' next) = true /\
         forall b, b <> next -> b <> active -> store' b = store b) /\
    (Forall (fun b => hide (store b) = true \/ hide_select (store b) = true) chain ->
     cycle self store active = Returned (CANCELLED, store, Some active)).
Proof.
  intros Hp Hin siblings.
  destruct (index_elem siblings active) as [i Hi];
    [now apply ordered_siblings_elem|].
  exists i. split; [exact Hi|]. intros chain. unfold cycle. rewrite Hp.
  fold siblings. rewrite Hi. fold chain. split.
  - intros skipped next rest Hc Hs Hh Hhs.
    rewrite Hc, (filter_first store skipped rest next Hs Hh Hhs).
    eexists. split; [reflexivity|].
    rewrite fn_lookup_insert. repeat split; try reflexivity.
    intros b Hb Ha. rewrite fn_lookup_insert_ne by congruence.
    destruct (extend self); [reflexivity|].
    now rewrite fn_lookup_insert_ne by congruence.
  - intros Hall. now rewrite (filter_none store chain Hall).
Qed.

Lemma index_middle (xs ys : list nat) (x : nat) :
  x ∉ xs -> index (xs ++ x :: ys) x = Some (length xs).
Proof.
  induction xs as [|y xs IH]; intros Hno; simpl.
  - now rewrite Nat.eqb_refl.
  - apply not_elem_of_cons in Hno as [Hne Hno].
    destruct (Nat.eqb y x) eqn:E; [apply Nat.eqb_eq in E; congruence|].
    now rewrite (IH Hno).
Qed.

Lemma index_split (l : list nat) (x i : nat) :
  index l x = Some i ->
  exists xs ys, l = xs ++ x :: ys /\ length xs = i /\ x ∉ xs.
Proof.
  revert i. induction l as [|y l IH]; intros i H; [discriminate|].
  simpl in H. destruct (Nat.eqb y x) eqn:E.
  - injection H as <-. apply Nat.eqb_eq in E as ->.
    exists [], l. split; [reflexivity|]. split; [reflexivity | apply not_elem_of_nil].
  - destruct (index l x) as [i'|] eqn:Ei; [|discriminate]. injection H as <-.
    destruct (IH i' eq_refl) as (xs & ys & -> & Hlen & Hno).
    exists (y :: xs), ys. split; [reflexivity|]. split; [simpl; lia|].
    apply not_elem_of_cons. split; [|exact Hno].
    apply Nat.eqb_neq in E. congruence.
Qed.

Lemma siblings_chain_middle (xs ys : list nat) (x : nat) :
  siblings_chain (xs ++ x :: ys) (length xs) = ys ++ xs.
Proof.
  unfold siblings_chain.
  rewrite (cons_middle x xs ys), app_assoc.
  rewrite drop_app_length'; [|rewrite length_app; simpl; lia].
  rewrite <- app_assoc. now rewrite take_app_length.
Qed.

(** [cycle] once the active bone has been found among the ordered siblings. *)
Lemma cycle_split (self : Operator) (store : nat -> Bone) (a p : nat) (xs ys : list nat) :
  parent (store a) = Some p ->
  ordered_siblings self store (children (store p)) = xs ++ a :: ys ->
  a ∉ xs ->
  cycle self store a
  = match List.filter (selectable store) (ys ++ xs) with
    | next :: _ =>
        let store1 :=
          if extend self then store else <[a := set_selection (store a) false]> store in
        Returned (FINISHED, <[next := set_selection (store1 next) true]> store1, Some next)
    | [] => Returned (CANCELLED, store, Some a)
    end.
Proof.
  intros Hp Hl Hno. unfold cycle. rewrite Hp, Hl, (index_middle xs ys a Hno).
  now rewrite siblings_chain_middle.
Qed.

(** A list is cut at the first occurrence of an element in one way
    only. *)
Lemma split_first_unique (x : nat) (xs ys : list nat) : forall before after : list nat,
  xs ++ x :: ys = before ++ x :: after -> x ∉ xs -> x ∉ before ->
  before = xs /\ after = ys.
Proof.
  induction xs as [|y xs IH]; intros [|b before] after H Hxs Hb; cbn in H.
  - injection H as <-. split; reflexivity.
  - injection H as <- _. exfalso. apply Hb, list_elem_of_here.
  - injection H as -> _. exfalso. apply Hxs, list_elem_of_here.
  - injection H as <- H. apply not_elem_of_cons in Hxs as [_ Hxs].
    apply not_elem_of_cons in Hb as [_ Hb].
    destruct (IH before after H Hxs Hb) as [-> ->]. split; reflexivity.
Qed.

(** The siblings in the order the properties ask for, said without the
    code: as the parent has them, reversed, or rearranged so that the names
    do not go down (forwards) or do not go up (backwards). *)
Lemma ordered_siblings_order (self : Operator) (store : nat -> Bone) (l : list nat) :
  match order self, direction self with
  | DEFAULT, FORWARDS => ordered_siblings self store l = l
  | DEFAULT, BACKWARDS => ordered_siblings self store l = reverse l
  | ALPHABETICAL, FORWARDS =>
      ordered_siblings self store l ≡ₚ l /\
      Sorted (fun a b => String.ltb (name (store b)) (name (store a)) = false)
        (ordered_siblings self store l)
  | ALPHABETICAL, BACKWARDS =>
      ordered_siblings self store l ≡ₚ l /\
      Sorted (fun a b => String.ltb (name (store a)) (name (store b)) = false)
        (ordered_siblings self store l)
  end.
Proof.
  unfold ordered_siblings. destruct (order self), (direction self); try reflexivity.
  - exact (sorted_sorts l (fun b => name (store b)) false).
  - exact (sorted_sorts l (fun b => name (store b)) true).
Qed.

(** C1.  When the active bone has a parent (and, as the host guarantees, is
    one of its parent's children), the siblings are taken in the chosen
    order: the children of the parent as they are (DEFAULT, FORWARDS),
    reversed (DEFAULT, BACKWARDS), or sorted by name, upwards (ALPHABETICAL,
    FORWARDS) or downwards (ALPHABETICAL, BACKWARDS).  The siblings behind
    the first occurrence of the active bone in this order, followed by those
    in front of it, are searched for the first bone whose [hide] and
    [hide_select] are both false: whatever precedes it in this chain is
    hidden or protected from selection and is skipped; that bone is selected
    (with head and tail) and made active, and [execute] returns FINISHED; no
    bone other than it and the old active bone is touched.  When every other
    sibling is hidden or protected, [execute] returns CANCELLED and leaves
    the context, so every bone's selection, as it was. *)
Theorem execute_selects_next_visible_sibling
    (self : Operator) (context : Context) (active p : nat) :
  mode_active context = Some active ->
  parent (mode_bones context active) = Some p ->
  active ∈ children (mode_bones context p) ->
  let store := mode_bones context in
  exists siblings before after : list nat,
    match order self, direction self with
    | DEFAULT, FORWARDS => siblings = children (store p)
    | DEFAULT, BACKWARDS => siblings = reverse (children (store p))
    | ALPHABETICAL, FORWARDS =>
        siblings ≡ₚ children (store p) /\
        Sorted (fun a b => String.ltb (name (store b)) (name (store a)) = false) siblings
    | ALPHABETICAL, BACKWARDS =>
        siblings ≡ₚ children (store p) /\
        Sorted (fun a b => String.ltb (name (store a)) (name (store b)) = false) siblings
    end /\
    siblings = ordered_siblings self store (children (store p)) /\
    siblings = before ++ active :: after /\
    (active ∉ before) /\
    (forall (skipped : list nat) (next : nat) (rest : list nat),
       after ++ before = skipped ++ next :: rest ->
       Forall (fun b => hide (store b) = true \/ hide_select (store b) = true) skipped ->
       hide (store next) = false -> hide_select (store next) = false ->
       exists context' : Context,
         execute self context = Returned (FINISHED, context') /\
         mode_active context' = Some next /\
         select (mode_bones context' next) = true /\
         select_head (mode_bones context' next) = true /\
         select_tail (mode_bones context' next) = true /\
         forall b, b <> next -> b <> active ->
           mode_bones context' b = mode_bones context b) /\
    (Forall (fun b => hide (store b) = true \/ hide_select (store b) = true)
       (after ++ before) ->
     execute self context = Returned (CANCELLED, context)).
Proof.
  intros Ha Hp Hin store.
  set (siblings := ordered_siblings self store (children (store p))).
  destruct (index_elem siblings active) as [i Hi];
    [now apply ordered_siblings_elem|].
  destruct (index_split siblings active i Hi) as (before & after & Hsplit & _ & Hno).
  exists siblings, before, after.
  split.
  { pose proof (ordered_siblings_order self store (children (store p))) as Horder.
    fold siblings in Horder. exact Horder. }
  split; [reflexivity|]. split; [exact Hsplit|]. split; [exact Hno|].
  pose proof (cycle_split self store active p before after Hp Hsplit Hno) as Hcycle.
  split.
  - intros skipped next rest Hc Hs Hh Hhs.
    rewrite Hc, (filter_first store skipped rest next Hs Hh Hhs) in Hcycle.
    assert (Hrun : exists store' : nat -> Bone,
              cycle self store active = Returned (FINISHED, store', Some next) /\
              select (store' next) = true /\
              select_head (store' next) = true /\
              select_tail (store' next) = true /\
              forall b, b <> next -> b <> active -> store' b = store b).
    { eexists. split; [exact Hcycle|].
      rewrite fn_lookup_insert. repeat split; try reflexivity.
      intros b Hb Hba. rewrite fn_lookup_insert_ne by congruence.
      destruct (extend self); [reflexivity|].
      now rewrite fn_lookup_insert_ne by congruence. }
    destruct Hrun as (store' & Hrun & H1 & H2 & H3 & H4).
    clear Hcycle. subst siblings store. destruct context as [m eb ea bs ba].
    destruct m; unfold mode_active, mode_bones in *; simpl in *;
      unfold execute; simpl; rewrite Ha, Hrun;
      eexists; (split; [reflexivity|]); simpl; auto.
  - intros Hall. rewrite (filter_none store _ Hall) in Hcycle.
    subst siblings store. destruct context as [m eb ea bs ba].
    destruct m; unfold mode_active, mode_bones in *; simpl in *;
      unfold execute; simpl; rewrite Ha, Hcycle; subst; reflexivity.
Qed.

(** The theorem on the sample armature, whose siblings are "arm.L",
    "arm.R" (hidden), "leg.L" (protected) and "leg.R".  Backwards in
    alphabetical order they are "leg.R", "leg.L", "arm.R", "arm.L": from
    "arm.L", the last of them, the search starts again at the front, and
    "leg.R" becomes active.  Backwards in the default order from "leg.R",
    "leg.L" and "arm.R" are skipped and "arm.L" becomes active. *)
Lemma execute_selects_next_visible_sibling_witness :
  (exists context' : Context,
     execute (mkOperator BACKWARDS false ALPHABETICAL) sample_context
     = Returned (FINISHED, context') /\
     mode_active context' = Some 4%nat /\
     select (mode_bones context' 4%nat) = true) /\
  (exists context' : Context,
     execute (mkOperator BACKWARDS false DEFAULT) leg_context
     = Returned (FINISHED, context') /\
     mode_active context' = Some 1%nat /\
     select (mode_bones context' 1%nat) = true).
Proof.
  split.
  - destruct (execute_selects_next_visible_sibling
                (mkOperator BACKWARDS false ALPHABETICAL) sample_context 1%nat 0%nat
                eq_refl eq_refl) as (siblings & before & after & _ & Hs & Hsplit & Hno & Hnext & _).
    { simpl. apply list_elem_of_here. }
    vm_compute in Hs. subst siblings.
    destruct (split_first_unique 1 [4; 3; 2]%nat [] before after Hsplit) as [-> ->];
      [|exact Hno|].
    { intros Hin. apply (bool_decide_pack _) in Hin. vm_compute in Hin. exact Hin. }
    destruct (Hnext [] 4%nat [3; 2]%nat eq_refl) as (c & E & A & S1 & _);
      [constructor | reflexivity | reflexivity |].
    exists c. repeat split; assumption.
  - destruct (execute_selects_next_visible_sibling
                (mkOperator BACKWARDS false DEFAULT) leg_context 4%nat 0%nat
                eq_refl eq_refl) as (siblings & before & after & _ & Hs & Hsplit & Hno & Hnext & _).
    { simpl. do 3 apply list_elem_of_further. apply list_elem_of_here. }
    vm_compute in Hs. subst siblings.
    destruct (split_first_unique 4 [] [3; 2; 1]%nat before after Hsplit) as [-> ->];
      [apply not_elem_of_nil | exact Hno |].
    destruct (Hnext [3; 2]%nat 1%nat [] eq_refl) as (c & E & A & S1 & _).
    + constructor; [right; reflexivity|].
      constructor; [left; reflexivity | constructor].
    + reflexivity.
    + reflexivity.
    + exists c. repeat split; assumption.
Defined.

End BoneCycle.

(** ** SelectAllByTraitNumberOfVertexGroups.py: [execute] *)

Section SelectByGroups.
Import PyNum SelectByVertexGroups.

Lemma filter_all {A} (f : A -> bool) (l : list A) :
  length (List.filter f l) = length l -> Forall (fun x => f x = true) l.
Proof.
  induction l as [|x l IH]; simpl; intros H; [constructor|].
  destruct (f x) eqn:E; simpl in H.
  - constructor; [exact E | apply IH; lia].
  - pose proof (List.filter_length_le f l). lia.
Qed.

(** What a visit does to one vertex. *)
Lemma visit_vert_spec (self : Operator) (indices : option (gset nat)) (v : BMVert) :
  hide (visit_vert self indices v) = hide v /\
  deform (visit_vert self indices v) = deform v /\
  (hide v = true -> select (visit_vert self indices v) = select v) /\
  (hide v = false ->
   select (visit_vert self indices v)
   = let hit := compare (type self)
                  (group_count (ignore_zero self) indices (deform v)) (number self) in
     if extend self then select v || hit else hit).
Proof.
  unfold visit_vert, set_select.
  destruct (extend self), (select v) eqn:Es, (hide v) eqn:Eh; simpl;
    repeat split; try congruence; intros; try congruence.
Qed.

(** C2 (amended).  With subset 'ALL', on every edit-mode mesh that has vertex
    groups and a deform layer: a hidden vertex keeps its selection; for a
    vertex that is not hidden, let the count be the number of its groups with
    a non-zero weight when [ignore_zero] is set and the number of all its
    groups otherwise, and let the hit be the comparison of the count with
    [number] by the chosen type; without [extend] the selection flag becomes
    the hit, with [extend] a selected vertex stays selected and an unselected
    one takes the hit.  Nothing else of a vertex changes. *)
Theorem execute_selects_by_group_count
    (self : Operator) (context : Context) (i : nat) (obj : Object) :
  subset self = ALL ->
  objects_in_mode_unique_data context !! i = Some obj ->
  vertex_groups obj <> [] ->
  deform_layer (data obj) = true ->
  exists obj' : Object,
    objects_in_mode_unique_data (execute self context).2 !! i = Some obj' /\
    length (verts (data obj')) = length (verts (data obj)) /\
    forall (j : nat) (v : BMVert),
      verts (data obj) !! j = Some v ->
      exists v' : BMVert,
        verts (data obj') !! j = Some v' /\
        hide v' = hide v /\
        deform v' = deform v /\
        (hide v = true -> select v' = select v) /\
        (hide v = false ->
         let count :=
           if ignore_zero self
           then length (List.filter truthy (map_to_list (deform v)).*2)
           else size (deform v) in
         let hit := compare (type self) count (number self) in
         select v' = if extend self then select v || hit else hit).
Proof.
  intros Hsub Hobj Hvg Hdl.
  exists (execute_object self obj). split.
  { unfold execute. simpl. now rewrite list_lookup_fmap, Hobj. }
  unfold execute_object.
  destruct (vertex_groups obj) as [|g gs] eqn:Evg; [congruence|].
  destruct (extend self && Nat.eqb (total_vert_sel (data obj)) (length (verts (data obj))))
    eqn:Eall.
  - apply andb_true_iff in Eall as [Eext Eall]. apply Nat.eqb_eq in Eall.
    apply filter_all in Eall. rewrite Forall_forall in Eall.
    split; [reflexivity|]. intros j v Hv. exists v.
    repeat split; try assumption.
    intros _. cbv zeta. rewrite Eext.
    rewrite (Eall v) by (eapply list_elem_of_lookup_2; eassumption).
    reflexivity.
  - rewrite Hsub, Hdl. simpl. split; [apply length_fmap|].
    intros j v Hv. exists (visit_vert self None v).
    split; [now rewrite list_lookup_fmap, Hv|].
    destruct (visit_vert_spec self None v) as (H1 & H2 & H3 & H4).
    repeat split; assumption.
Qed.

(** The sample mesh, "more than 0 groups", zero weights ignored: the vertex
    without groups is deselected, the vertex with one non-zero weight is
    selected and the hidden vertex keeps its selection. *)
Example execute_on_sample :
  (fun obj => select <$> verts (data obj))
    <$> objects_in_mode_unique_data
          (execute (mkOperator 0 GREATER_THAN ALL true false) sample_context).2
  = [[false; true; true]].
Proof. vm_compute. reflexivity. Qed.

(** The theorem on the sample mesh, without [extend]. *)
Lemma execute_selects_by_group_count_witness :
  exists obj' : Object,
    objects_in_mode_unique_data
      (execute (mkOperator 0 GREATER_THAN ALL true false) sample_context).2 !! 0%nat
    = Some obj' /\
    length (verts (data obj')) = 3%nat.
Proof.
  destruct (execute_selects_by_group_count
              (mkOperator 0 GREATER_THAN ALL true false) sample_context 0 sample_object
              eq_refl eq_refl) as (obj' & H1 & H2 & _).
  - discriminate.
  - reflexivity.
  - exists obj'. split; [exact H1 | exact H2].
Defined.

(** C2 as first stated fails with [extend]: the first vertex of the sample
    mesh is selected, not hidden and in no group, so the comparison "more
    than 4 groups" is false for it, yet it stays selected. *)
Lemma execute_extend_counterexample :
  let self := mkOperator 4 GREATER_THAN ALL true true in
  exists (obj' : Object) (v v' : BMVert),
    objects_in_mode_unique_data (execute self sample_context).2 !! 0%nat = Some obj' /\
    verts (data sample_object) !! 0%nat = Some v /\
    verts (data obj') !! 0%nat = Some v' /\
    vertex_groups sample_object <> [] /\
    deform_layer (data sample_object) = true /\
    hide v = false /\
    select v'
    <> compare (type self)
         (length (List.filter truthy (map_to_list (deform v)).*2)) (number self).
Proof.
  eexists _, _, _. split; [reflexivity|]. split; [reflexivity|].
  split; [reflexivity|]. split; [discriminate|]. split; [reflexivity|].
  split; [reflexivity|]. vm_compute. discriminate.
Qed.

End SelectByGroups.

(** ** ExtraShapeKeyOperations.py: [ClearPendingChanges] *)

Section ClearPending.
Import PyNum Mathutils ExtraShapeKeyOperations.

(** Every object is either left alone or replaced by the result of the loop
    body, and by the latter when the operator finishes. *)
Lemma ClearPendingChanges_execute_lookup (objects : list Object) :
  forall (i : nat) (obj : Object),
    objects !! i = Some obj ->
    exists obj' : Object,
      (ClearPendingChanges_execute objects).1 !! i = Some obj' /\
      (obj' = obj \/ clear_object obj = Returned obj') /\
      ((ClearPendingChanges_execute objects).2 = Returned FINISHED ->
       clear_object obj = Returned obj').
Proof.
  induction objects as [|o rest IH]; intros i obj Hi; [discriminate|].
  simpl. destruct (clear_object o) as [o'|e m] eqn:Eo.
  - destruct (ClearPendingChanges_execute rest) as [rest' r] eqn:Er.
    destruct i as [|i]; simpl in Hi.
    + injection Hi as <-. exists o'. simpl. auto.
    + destruct (IH i obj Hi) as (obj' & H1 & H2 & H3).
      exists obj'. simpl in *. auto.
  - exists obj. simpl. split; [exact Hi|]. split; [now left | discriminate].
Qed.

(** The loop body on one object. *)
Lemma clear_object_frame (obj obj' : Object) :
  clear_object obj = Returned obj' ->
  shape_keys obj' = shape_keys obj /\
  active_shape_key_index obj' = active_shape_key_index obj /\
  (total_vert_sel obj = 0%nat -> obj' = obj) /\
  length (verts obj') = length (verts obj) /\
  forall (j : nat) (bv : BMVert),
    verts obj !! j = Some bv ->
    exists bv' : BMVert,
      verts obj' !! j = Some bv' /\
      select bv' = select bv /\ hide bv' = hide bv /\ shape bv' = shape bv /\
      co bv' = if select bv && negb (hide bv)
               then shape bv (active_shape_key_index obj) else co bv.
Proof.
  unfold clear_object. destruct (Nat.eqb (total_vert_sel obj) 0) eqn:E0.
  - intros [= <-]. repeat split; try reflexivity.
    intros j bv Hj. exists bv. repeat split; try assumption.
    destruct (select bv && negb (hide bv)) eqn:Eb; [|reflexivity].
    apply Nat.eqb_eq in E0. unfold total_vert_sel in E0.
    apply andb_true_iff in Eb as [Es _].
    assert (Hin : In bv (List.filter select (verts obj))).
    { apply List.filter_In. split; [|exact Es].
      apply list_elem_of_In. eapply list_elem_of_lookup_2. exact Hj. }
    destruct (List.filter select (verts obj)); [destruct Hin | discriminate].
  - unfold layer_by_index.
    destruct (Nat.ltb (active_shape_key_index obj) (length (layer_names obj))); [|discriminate].
    intros [= <-]. simpl. apply Nat.eqb_neq in E0.
    repeat split; try reflexivity; [congruence | apply length_fmap |].
    intros j bv Hj. rewrite list_lookup_fmap, Hj. simpl.
    eexists. split; [reflexivity|]. unfold is_bmvert.
    destruct (select bv && negb (hide bv)); repeat split; reflexivity.
Qed.

(** The operator finishes exactly when every mesh with a selected vertex has
    a shape layer at its active index, which the host keeps true of every
    mesh with shape keys (the meshes the poll lets through). *)
Lemma ClearPendingChanges_execute_finishes (objects : list Object) :
  (ClearPendingChanges_execute objects).2 = Returned FINISHED <->
  forall obj : Object,
    obj ∈ objects -> total_vert_sel obj <> 0%nat ->
    (active_shape_key_index obj < length (layer_names obj))%nat.
Proof.
  induction objects as [|o rest IH]; simpl.
  - split; [|reflexivity]. intros _ obj Hin. now apply elem_of_nil in Hin.
  - unfold clear_object at 1, layer_by_index.
    destruct (Nat.eqb (total_vert_sel o) 0) eqn:E0.
    + destruct (ClearPendingChanges_execute rest) as [rest' r]. simpl in *.
      rewrite IH. apply Nat.eqb_eq in E0. split.
      * intros H obj Hin Hsel. apply elem_of_cons in Hin as [-> | Hin]; [congruence|].
        now apply H.
      * intros H obj Hin. apply H. now apply list_elem_of_further.
    + apply Nat.eqb_neq in E0.
      destruct (Nat.ltb (active_shape_key_index o) (length (layer_names o))) eqn:El.
      * destruct (ClearPendingChanges_execute rest) as [rest' r]. simpl in *.
        rewrite IH. apply Nat.ltb_lt in El. split.
        -- intros H obj Hin Hsel. apply elem_of_cons in Hin as [-> | Hin]; [exact El|].
           now apply H.
        -- intros H obj Hin. apply H. now apply list_elem_of_further.
      * simpl. apply Nat.ltb_ge in El. split; [discriminate|].
        intros H. specialize (H o (list_elem_of_here _ _) E0). lia.
Qed.

(** C10.  [ClearPendingChanges.execute] touches nothing but coordinates of
    vertices that are selected and not hidden: every object keeps its shape
    keys, its active index and the number of its vertices; every vertex keeps
    its selection, its visibility and the data of all its shape layers; an
    unselected or hidden vertex keeps its coordinate, and a mesh without
    selected vertices stays as it is.  The operator finishes exactly when
    every mesh with a selected vertex has a shape layer at its active index
    (otherwise [layers.shape[index]] raises), and then the coordinate of
    every selected, visible vertex of every mesh is its value in the active
    shape layer of its mesh. *)
Theorem ClearPendingChanges_execute_frame (objects : list Object) :
  length (ClearPendingChanges_execute objects).1 = length objects /\
  ((ClearPendingChanges_execute objects).2 = Returned FINISHED <->
   forall obj : Object,
     obj ∈ objects -> total_vert_sel obj <> 0%nat ->
     (active_shape_key_index obj < length (layer_names obj))%nat) /\
  forall (i : nat) (obj : Object),
    objects !! i = Some obj ->
    exists obj' : Object,
      (ClearPendingChanges_execute objects).1 !! i = Some obj' /\
      shape_keys obj' = shape_keys obj /\
      active_shape_key_index obj' = active_shape_key_index obj /\
      length (verts obj') = length (verts obj) /\
      (total_vert_sel obj = 0%nat -> obj' = obj) /\
      forall (j : nat) (bv : BMVert),
        verts obj !! j = Some bv ->
        exists bv' : BMVert,
          verts obj' !! j = Some bv' /\
          select bv' = select bv /\ hide bv' = hide bv /\ shape bv' = shape bv /\
          (select bv = false \/ hide bv = true -> co bv' = co bv) /\
          (co bv' = co bv \/ co bv' = shape bv (active_shape_key_index obj)) /\
          ((forall obj0 : Object,
              obj0 ∈ objects -> total_vert_sel obj0 <> 0%nat ->
              (active_shape_key_index obj0 < length (layer_names obj0))%nat) ->
           select bv = true -> hide bv = false ->
           co bv' = shape bv (active_shape_key_index obj)).
Proof.
  split; [|split].
  - induction objects as [|o rest IH]; simpl; [reflexivity|].
    destruct (clear_object o); [|reflexivity].
    destruct (ClearPendingChanges_execute rest). simpl in *. now rewrite IH.
  - apply ClearPendingChanges_execute_finishes.
  - intros i obj Hi.
    destruct (ClearPendingChanges_execute_lookup objects i obj Hi) as (obj' & H1 & H2 & H3).
    exists obj'. split; [exact H1|].
    destruct H2 as [-> | H2].
    + repeat split; try reflexivity.
      intros j bv Hj. exists bv. repeat split; try assumption; [now left|].
      intros Hvalid Hs Hh.
      apply ClearPendingChanges_execute_finishes in Hvalid.
      destruct (clear_object_frame obj obj (H3 Hvalid))
        as (_ & _ & _ & _ & Hv).
      destruct (Hv j bv Hj) as (bv' & Hj' & _ & _ & _ & Hco).
      rewrite Hj in Hj'. injection Hj' as <-. now rewrite Hs, Hh in Hco.
    + destruct (clear_object_frame obj obj' H2) as (K1 & K2 & K3 & K4 & Hv).
      repeat split; try assumption.
      intros j bv Hj. destruct (Hv j bv Hj) as (bv' & Hj' & S1 & S2 & S3 & Hco).
      exists bv'. repeat split; try assumption.
      * intros [Hs | Hh]; rewrite Hco.
        -- now rewrite Hs.
        -- rewrite Hh. now rewrite andb_false_r.
      * rewrite Hco. destruct (select bv && negb (hide bv)); [now right | now left].
      * intros _ Hs Hh. now rewrite Hco, Hs, Hh.
Qed.

(** The theorem on two meshes, the sample mesh, whose first two vertices are
    selected and visible, and a mesh without selected vertices: the operator
    finishes, the first vertex of the sample mesh, at (1, 0, 0), goes to its
    place (0, 0, 0) in the active layer "Key 2", and the second mesh stays as
    it is. *)
Lemma ClearPendingChanges_execute_frame_witness :
  (ClearPendingChanges_execute [sample_object; unselected_object]).2 = Returned FINISHED /\
  (exists (obj' : Object) (bv' : BMVert),
     (ClearPendingChanges_execute [sample_object; unselected_object]).1 !! 0%nat = Some obj' /\
     verts obj' !! 0%nat = Some bv' /\
     co bv' = mkVector 0 0 0) /\
  exists obj' : Object,
    (ClearPendingChanges_execute [sample_object; unselected_object]).1 !! 1%nat = Some obj' /\
    obj' = unselected_object.
Proof.
  assert (Hvalid : forall obj0 : Object,
            obj0 ∈ [sample_object; unselected_object] -> total_vert_sel obj0 <> 0%nat ->
            (active_shape_key_index obj0 < length (layer_names obj0))%nat).
  { intros obj0 Hin _. apply elem_of_cons in Hin as [-> | Hin]; [simpl; lia|].
    apply list_elem_of_singleton in Hin as ->. simpl. lia. }
  destruct (ClearPendingChanges_execute_frame [sample_object; unselected_object])
    as (_ & Hfin & Hframe).
  split; [apply Hfin; exact Hvalid|]. split.
  - destruct (Hframe 0%nat sample_object eq_refl) as (obj' & H & _ & _ & _ & _ & Hv).
    destruct (Hv 0%nat _ eq_refl) as (bv' & Hj & _ & _ & _ & _ & _ & Hco).
    exists obj', bv'. split; [exact H|]. split; [exact Hj|].
    now rewrite (Hco Hvalid eq_refl eq_refl).
  - destruct (Hframe 1%nat unselected_object eq_refl) as (obj' & H & _ & _ & _ & Hsame & _).
    exists obj'. split; [exact H | apply Hsame; reflexivity].
Defined.

End ClearPending.

(** ** transferPendingEditChanges.py and [TransferPendingChanges] in mode ADD *)

Section TransferPending.
Import PyNum Mathutils ExtraShapeKeyOperations TransferPendingEditChanges.

Lemma Qeqb_sub (x y : Q) : Qeqb (x - y) 0 = Qeqb x y.
Proof.
  unfold Qeqb. apply eq_true_iff_eq. rewrite !Qeq_bool_iff.
  split; intros H; lra.
Qed.

(** The test of the operator, [any(bv.co - bv[active_shape_layer])], and the
    test of the script, [pending_co != active_co], agree. *)
Lemma any_sub_neb (a b : Vector) : any (sub a b) = neb a b.
Proof.
  unfold any, neb, eqb, sub. simpl. rewrite !Qeqb_sub.
  destruct (Qeqb (vx a) (vx b)), (Qeqb (vy a) (vy b)), (Qeqb (vz a) (vz b)); reflexivity.
Qed.


Lemma find_name_lookup (names : list string) (n : string) : forall i,
  find_name names n = Some i -> names !! i = Some n.
Proof.
  induction names as [|m rest IH]; intros i H; [discriminate|].
  simpl in H. destruct (String.eqb m n) eqn:E.
  - injection H as <-. apply String.eqb_eq in E. now subst.
  - destruct (find_name rest n) as [i'|]; [|discriminate].
    injection H as <-. simpl. now apply IH.
Qed.

Lemma active_shape_key_layer (obj : Object) (i : nat) (sk : ShapeKey) :
  active_shape_key obj = Some (i, sk) ->
  i = active_shape_key_index obj /\
  layer_names obj !! i = Some (name sk) /\
  layer_by_index obj (active_shape_key_index obj) = Some i.
Proof.
  unfold active_shape_key, layer_by_index, layer_names.
  destruct (shape_keys obj) as [k|]; [|discriminate].
  destruct (key_blocks k !! active_shape_key_index obj) as [sk'|] eqn:E; [|discriminate].
  intros [= <- <-]. split; [reflexivity|].
  split; [now rewrite list_lookup_fmap, E|].
  assert (Hlt : (active_shape_key_index obj < length (name <$> key_blocks k))%nat)
    by (rewrite length_fmap; eapply lookup_lt_Some; exact E).
  apply Nat.ltb_lt in Hlt. now rewrite Hlt.
Qed.

Lemma all_selected_bmverts (step : BMVert -> BMVert) (vs : list BMVert) :
  Forall (fun bv => select bv = true /\ hide bv = false) vs ->
  (fun bv => if is_bmvert bv then step bv else bv) <$> vs = step <$> vs.
Proof.
  intros H. apply Forall_fmap_ext_1. eapply Forall_impl; [exact H|].
  intros bv [Hs Hh]. unfold is_bmvert. now rewrite Hs, Hh.
Qed.


(** The script works from the first layer, whichever shape key is
    active. *)
Lemma script_reads_first_layer (key_name : string) (obj : Object) (target : nat) :
  layer_by_name obj key_name = Some target ->
  script key_name obj = Returned (set_verts obj (transfer_vert 0 target <$> verts obj)).
Proof.
  intros Ht. unfold script, layers_shape_active, layer_by_index. rewrite Ht.
  unfold layer_by_name in Ht. destruct (layer_names obj); [discriminate | reflexivity].
Qed.

(** With "Key 2" active on the sample mesh, every vertex selected and
    visible, the second vertex is at (1, 3, 0), its values are (1, 0, 0) in
    the Basis layer and (1, 1, 0) in the layers of "Key 1" and "Key 2".  The
    operator in mode ADD moves the pending change (0, 2, 0) to "Key 1" and
    puts the vertex back at (1, 1, 0); the script moves (0, 3, 0) to "Key 1"
    and puts the vertex at its Basis position (1, 0, 0). *)
Example script_with_another_key_active :
  exists (obj' obj'' : Object) (bv' bv'' : BMVert),
    script "Key 1" all_selected_object = Returned obj' /\
    TransferPendingChanges_execute (mkTransfer ADD "Key 1" false) all_selected_object
    = Returned (obj'', [], FINISHED) /\
    verts obj' !! 1%nat = Some bv' /\
    verts obj'' !! 1%nat = Some bv'' /\
    co bv' = mkVector 1 0 0 /\
    co bv'' = mkVector 1 1 0 /\
    eqb (shape bv' 1%nat) (mkVector 1 4 0) = true /\
    eqb (shape bv'' 1%nat) (mkVector 1 3 0) = true.
Proof.
  eexists _, _, _, _. split; [reflexivity|]. split; [reflexivity|].
  split; [reflexivity|]. split; [reflexivity|].
  split; [reflexivity|]. split; [reflexivity|].
  split; vm_compute; reflexivity.
Qed.


(** A key name that the mesh does not have: the script raises, the operator
    reports, and neither touches the mesh. *)
Lemma transfer_to_missing_key (key_name : string) (mode : TransferMode) (swap : bool)
    (obj : Object) (k : Key) :
  shape_keys obj = Some k ->
  layer_by_name obj key_name = None ->
  script key_name obj = Raised "KeyError" "BMLayerCollection[key]: key not found" /\
  exists reports,
    TransferPendingChanges_execute (mkTransfer mode key_name swap) obj
    = Returned (obj, reports, FINISHED).
Proof.
  intros Hk Hnone. unfold script, TransferPendingChanges_execute. simpl.
  rewrite Hk, Hnone. split; [reflexivity | eauto].
Qed.



End TransferPending.

(** ** ExtraShapeKeyOperations.py: [AverageShapeKeyMovement] *)

Section AverageMovement.
Import PyNum Mathutils ExtraShapeKeyOperations.

Lemma gather_verts_spec (o layer : nat) (vs : list BMVert) : forall done : list BMVert,
  let es := gather_verts o layer (length done) vs in
  movement <$> es = (fun bv => sub (co bv) (shape bv layer)) <$> List.filter is_bmvert vs /\
  Forall (fun e => entry_obj e = o /\
                   exists bv, (done ++ vs) !! entry_vert e = Some bv /\
                              is_bmvert bv = true /\
                              relative_co e = shape bv layer /\
                              movement e = sub (co bv) (shape bv layer)) es /\
  forall (j : nat) (bv : BMVert),
    vs !! j = Some bv -> is_bmvert bv = true ->
    Exists (fun e => entry_obj e = o /\ entry_vert e = (length done + j)%nat) es.
Proof.
  induction vs as [|bv vs IH]; intros done; cbn [gather_verts List.filter].
  - split; [reflexivity|]. split; [constructor | intros j bv H; discriminate].
  - specialize (IH (done ++ [bv])).
    rewrite length_app, <- app_assoc in IH. cbn [length app] in IH.
    replace (length done + 1)%nat with (S (length done)) in IH by lia.
    destruct IH as (M & F & C).
    destruct (is_bmvert bv) eqn:Eb.
    + split; [now rewrite !fmap_cons, M|]. split.
      * constructor; [|exact F]. simpl. split; [reflexivity|].
        exists bv. rewrite list_lookup_middle by reflexivity. auto.
      * intros [|j] bv' Hj Hb; simpl in Hj.
        -- apply Exists_cons_hd. simpl. split; [reflexivity | lia].
        -- apply Exists_cons_tl.
           replace (length done + S j)%nat with (S (length done + j)) by lia.
           now apply (C j bv').
    + split; [exact M|]. split; [exact F|].
      intros [|j] bv' Hj Hb; simpl in Hj.
      * injection Hj as <-. congruence.
      * replace (length done + S j)%nat with (S (length done + j)) by lia.
        now apply (C j bv').
Qed.

Lemma gather_spec (objects : list Object) : forall (done : list Object) (all : list Entry),
  gather (length done) objects = Returned all ->
  movement <$> all = spec_movements objects /\
  Forall (entry_of (done ++ objects)) all /\
  forall (o : nat) (obj : Object) (layer j : nat) (bv : BMVert),
    objects !! o = Some obj -> skipped obj = false ->
    verts obj !! j = Some bv -> is_bmvert bv = true ->
    Exists (fun e => entry_obj e = (length done + o)%nat /\ entry_vert e = j) all.
Proof.
  induction objects as [|obj objects IH]; intros done all; simpl.
  - intros [= <-]. split; [reflexivity|].
    split; [constructor | intros o obj layer j bv H; discriminate].
  - specialize (IH (done ++ [obj])).
    rewrite length_app, <- app_assoc in IH. simpl in IH.
    replace (length done + 1)%nat with (S (length done)) in IH by lia.
    unfold spec_movements. rewrite fmap_cons. simpl.
    fold (spec_movements objects).
    destruct (skipped obj) eqn:Es.
    + intros H. destruct (IH all H) as (M & F & C).
      split; [exact M|]. split; [exact F|].
      intros [|o] obj' layer j bv Ho Hs Hj Hb; simpl in Ho.
      * injection Ho as <-. congruence.
      * replace (length done + S o)%nat with (S (length done + o)) by lia.
        now apply (C o obj' layer j bv).
    + destruct (relative_shape_layer obj) as [layer|e m] eqn:El; [|discriminate].
      destruct (gather (S (length done)) objects) as [rest|e m] eqn:Eg; [|discriminate].
      intros [= <-]. destruct (IH rest eq_refl) as (M & F & C).
      destruct (gather_verts_spec (length done) layer (verts obj) []) as (M1 & F1 & C1).
      simpl in M1, F1, C1.
      split; [now rewrite fmap_app, M, M1|]. split.
      * apply Forall_app. split; [|exact F].
        eapply Forall_impl; [exact F1|].
        intros e (He & bv & Hv & Hb & Hr & Hm).
        exists obj, bv, layer. rewrite He.
        split; [apply list_lookup_middle; reflexivity|]. repeat split; assumption.
      * intros [|o] obj' layer' j bv Ho Hs Hj Hb; simpl in Ho.
        -- injection Ho as <-. apply Exists_app. left.
           rewrite Nat.add_0_r. exact (C1 j bv Hj Hb).
        -- apply Exists_app. right.
           replace (length done + S o)%nat with (S (length done + o)) by lia.
           now apply (C o obj' layer' j bv).
Qed.

(** The second loop, seen from the objects: writing through the references of
    the entries changes the coordinate of the vertices referred to, and
    nothing else.  [w] is the value written for an entry and [W] the same
    value in terms of the vertex the entry refers to. *)
Lemma fold_write_co (objects : list Object) (w : Entry -> Vector)
    (W : Object -> BMVert -> Vector) (entries : list Entry) :
  Forall (fun e => exists obj bv,
            objects !! entry_obj e = Some obj /\
            verts obj !! entry_vert e = Some bv /\ w e = W obj bv) entries ->
  let st := fold_left (fun st e => write_co st (entry_obj e) (entry_vert e) (w e))
              entries objects in
  length st = length objects /\
  forall (o : nat) (obj : Object),
    objects !! o = Some obj ->
    exists obj' : Object,
      st !! o = Some obj' /\
      shape_keys obj' = shape_keys obj /\
      active_shape_key_index obj' = active_shape_key_index obj /\
      length (verts obj') = length (verts obj) /\
      forall (j : nat) (bv : BMVert),
        verts obj !! j = Some bv ->
        exists bv' : BMVert,
          verts obj' !! j = Some bv' /\
          select bv' = select bv /\ hide bv' = hide bv /\ shape bv' = shape bv /\
          (Exists (fun e => entry_obj e = o /\ entry_vert e = j) entries ->
           co bv' = W obj bv) /\
          (~ Exists (fun e => entry_obj e = o /\ entry_vert e = j) entries ->
           co bv' = co bv).
Proof.
  induction entries as [|e entries IH] using rev_ind; intros Hall st.
  - subst st. simpl. split; [reflexivity|]. intros o obj Ho. exists obj.
    repeat split; try assumption. intros j bv Hj. exists bv.
    repeat split; try assumption. intros H. now apply Exists_nil in H.
  - apply Forall_app in Hall as [Hall He].
    apply Forall_cons in He as [(obj_e & bv_e & Hoe & Hve & Hw) _].
    destruct (IH Hall) as [Hlen Hst]. clear IH.
    subst st. rewrite fold_left_app. simpl.
    set (st := fold_left (fun st e => write_co st (entry_obj e) (entry_vert e) (w e))
                 entries objects) in *.
    destruct (Hst _ _ Hoe) as (obj_e' & Hoe' & K1 & K2 & K3 & Hverts_e).
    destruct (Hverts_e _ _ Hve) as (bv_e' & Hve' & S1 & S2 & S3 & _).
    unfold write_co. rewrite Hoe', Hve'.
    split; [now rewrite length_insert|].
    intros o obj Ho.
    destruct (decide (o = entry_obj e)) as [-> | Hne].
    + assert (obj = obj_e) by congruence. subst obj.
      eexists. split; [apply list_lookup_insert_eq; eapply lookup_lt_Some; exact Hoe'|].
      simpl. repeat split; try assumption; [now rewrite length_insert|].
      intros j bv Hj.
      destruct (decide (j = entry_vert e)) as [-> | Hnj].
      * assert (bv = bv_e) by congruence. subst bv.
        eexists. split; [apply list_lookup_insert_eq; eapply lookup_lt_Some; exact Hve'|].
        simpl. repeat split; try assumption.
        -- intros _. exact Hw.
        -- intros Hno. exfalso. apply Hno, Exists_app. right.
           apply Exists_cons_hd. split; reflexivity.
      * destruct (Hverts_e _ _ Hj) as (bv' & Hj' & T1 & T2 & T3 & T4 & T5).
        exists bv'. split; [now rewrite list_lookup_insert_ne by congruence|].
        repeat split; try assumption.
        -- intros Hex. apply T4. apply Exists_app in Hex as [Hex | Hex]; [exact Hex|].
           apply Exists_cons in Hex as [[_ Hex] | Hex]; [congruence|].
           now apply Exists_nil in Hex.
        -- intros Hno. apply T5. intros Hex. apply Hno, Exists_app. now left.
    + destruct (Hst _ _ Ho) as (obj' & Ho' & L1 & L2 & L3 & Hverts).
      exists obj'. split; [now rewrite list_lookup_insert_ne by congruence|].
      repeat split; try assumption.
      intros j bv Hj. destruct (Hverts _ _ Hj) as (bv' & Hj' & T1 & T2 & T3 & T4 & T5).
      exists bv'. repeat split; try assumption.
      * intros Hex. apply T4. apply Exists_app in Hex as [Hex | Hex]; [exact Hex|].
        apply Exists_cons in Hex as [[Hex _] | Hex]; [congruence|].
        now apply Exists_nil in Hex.
      * intros Hno. apply T5. intros Hex. apply Hno, Exists_app. now left.
Qed.

(** With the relative layer of every mesh that is not skipped in place, the
    first loop does not raise. *)
Lemma gather_returns (objects : list Object) : forall o : nat,
  (forall obj, obj ∈ objects -> skipped obj = false ->
               exists layer, relative_shape_layer obj = Returned layer) ->
  exists all, gather o objects = Returned all.
Proof.
  induction objects as [|obj objects IH]; intros o H; simpl; [eauto|].
  destruct (IH (S o)) as [rest Hrest].
  { intros obj' Hin. apply H. now apply elem_of_cons; right. }
  destruct (skipped obj) eqn:Es; [eauto|].
  destruct (H obj) as [layer ->]; [apply list_elem_of_here | exact Es |].
  rewrite Hrest. eauto.
Qed.

(** The meshes that are not skipped are the eligible ones. *)
Lemma skipped_false (obj : Object) :
  skipped obj = false <->
  exists (i : nat) (active_shape : ShapeKey) (k : Key),
    active_shape_key obj = Some (i, active_shape) /\
    shape_keys obj = Some k /\
    use_relative k = true /\
    reference_key k <> i /\
    relative_key active_shape <> i /\
    total_vert_sel obj <> 0%nat.
Proof.
  unfold skipped. split.
  - destruct (active_shape_key obj) as [[i sk]|]; [|discriminate].
    destruct (shape_keys obj) as [k|]; [|discriminate].
    intros H. apply orb_false_iff in H as [H H4]. apply orb_false_iff in H as [H H3].
    apply orb_false_iff in H as [H1 H2].
    apply Nat.eqb_neq in H1, H3, H4. apply negb_false_iff in H2.
    exists i, sk, k. repeat split; assumption.
  - intros (i & sk & k & -> & -> & H2 & H3 & H1 & H4).
    apply Nat.eqb_neq in H1, H3, H4. now rewrite H1, H2, H3, H4.
Qed.

Lemma gather_all_skipped (objects : list Object) : forall o,
  Forall (fun obj => skipped obj = true) objects -> gather o objects = Returned [].
Proof.
  induction objects as [|obj rest IH]; intros o Hall; [reflexivity|].
  apply Forall_cons in Hall as [Hobj Hall]. cbn [gather]. rewrite Hobj. now apply IH.
Qed.

(** [last_gathered] is the position of the last mesh that is not skipped. *)
Lemma last_gathered_none (objects : list Object) : forall o : nat,
  last_gathered o objects = None -> Forall (fun obj => skipped obj = true) objects.
Proof.
  induction objects as [|obj rest IH]; intros o H; [constructor|].
  cbn [last_gathered] in H.
  destruct (last_gathered (S o) rest) eqn:E; [discriminate|].
  destruct (skipped obj) eqn:Es; [|discriminate].
  constructor; [exact Es | now apply (IH (S o))].
Qed.

Lemma last_gathered_lookup (objects : list Object) : forall o l : nat,
  last_gathered o objects = Some l ->
  exists (i : nat) (obj : Object),
    l = (o + i)%nat /\ objects !! i = Some obj /\ skipped obj = false /\
    forall (i' : nat) (obj' : Object),
      objects !! i' = Some obj' -> skipped obj' = false -> (i' <= i)%nat.
Proof.
  induction objects as [|obj rest IH]; intros o l H; [discriminate|].
  cbn [last_gathered] in H.
  destruct (last_gathered (S o) rest) as [l'|] eqn:E.
  - injection H as <-. destruct (IH (S o) l' E) as (i & obj_i & -> & Hi & Hs & Hmax).
    exists (S i), obj_i. split; [lia|]. split; [exact Hi|]. split; [exact Hs|].
    intros [|i'] obj' Hi' Hs'; [lia|]. simpl in Hi'.
    specialize (Hmax i' obj' Hi' Hs'). lia.
  - destruct (skipped obj) eqn:Es; [discriminate|]. injection H as <-.
    exists 0%nat, obj. split; [lia|]. split; [reflexivity|]. split; [exact Es|].
    intros [|i'] obj' Hi' Hs'; [lia|]. simpl in Hi'.
    apply last_gathered_none in E. rewrite Forall_forall in E.
    assert (skipped obj' = true)
      by (apply E; eapply list_elem_of_lookup_2; exact Hi').
    congruence.
Qed.

Lemma last_gathered_some (objects : list Object) (o i : nat) (obj : Object) :
  objects !! i = Some obj -> skipped obj = false ->
  exists l : nat, last_gathered o objects = Some l /\ (o + i <= l)%nat.
Proof.
  intros Hi Hs. destruct (last_gathered o objects) as [l|] eqn:E.
  - exists l. split; [reflexivity|].
    destruct (last_gathered_lookup objects o l E) as (i0 & obj0 & -> & _ & _ & Hmax).
    specialize (Hmax i obj Hi Hs). lia.
  - apply last_gathered_none in E. rewrite Forall_forall in E.
    assert (skipped obj = true)
      by (apply E; eapply list_elem_of_lookup_2; exact Hi).
    congruence.
Qed.

(** The entries of one mesh all refer to that mesh. *)
Lemma gather_verts_obj (o layer : nat) (vs : list BMVert) : forall j : nat,
  Forall (fun e => entry_obj e = o) (gather_verts o layer j vs).
Proof.
  induction vs as [|bv vs IH]; intros j; cbn [gather_verts]; [constructor|].
  destruct (is_bmvert bv); [constructor; [reflexivity|]|]; apply IH.
Qed.

Lemma gather_verts_nil (o layer : nat) (vs : list BMVert) : forall j : nat,
  gather_verts o layer j vs = [] -> Forall (fun bv => is_bmvert bv = false) vs.
Proof.
  induction vs as [|bv vs IH]; intros j H; [constructor|].
  cbn [gather_verts] in H. destruct (is_bmvert bv) eqn:E; [discriminate|].
  constructor; [exact E | now apply (IH (S j))].
Qed.

(** The first entry gathered comes from the first mesh that has a vertex to
    move. *)
Lemma gather_head (objects : list Object) : forall (o : nat) (all : list Entry)
    (i : nat) (obj : Object) (bv : BMVert),
  gather o objects = Returned all ->
  objects !! i = Some obj -> skipped obj = false ->
  bv ∈ verts obj -> is_bmvert bv = true ->
  exists (e0 : Entry) (es : list Entry), all = e0 :: es /\ (entry_obj e0 <= o + i)%nat.
Proof.
  induction objects as [|obj0 rest IH]; intros o all i obj bv Hg Hi Hs Hin Hb;
    [discriminate|].
  cbn [gather] in Hg. destruct (skipped obj0) eqn:Es0.
  - destruct i as [|i]; simpl in Hi; [injection Hi as <-; congruence|].
    destruct (IH (S o) all i obj bv Hg Hi Hs Hin Hb) as (e0 & es & -> & Hle).
    exists e0, es. split; [reflexivity | lia].
  - destruct (relative_shape_layer obj0) as [layer|e m]; [|discriminate].
    destruct (gather (S o) rest) as [entries|e m] eqn:Eg; [|discriminate].
    injection Hg as <-.
    destruct (gather_verts o layer 0 (verts obj0)) as [|e0 gv] eqn:Egv.
    + destruct i as [|i]; simpl in Hi.
      * injection Hi as <-. apply gather_verts_nil in Egv. rewrite Forall_forall in Egv.
        assert (is_bmvert bv = false) by (now apply Egv).
        congruence.
      * destruct (IH (S o) entries i obj bv Eg Hi Hs Hin Hb) as (e0 & es & -> & Hle).
        exists e0, es. split; [reflexivity | lia].
    + exists e0, (gv ++ entries). split; [reflexivity|].
      pose proof (gather_verts_obj o layer (verts obj0) 0) as F.
      rewrite Egv in F. apply Forall_cons in F as [-> _]. lia.
Qed.

(** After the first loop, either every entry refers to the mesh gathered from
    last, or the first entry already refers to a mesh gathered from
    before. *)
Lemma gather_valid_or_stale (objects : list Object) : forall (o : nat) (all : list Entry),
  gather o objects = Returned all ->
  Forall (fun e => last_gathered o objects = Some (entry_obj e)) all \/
  exists (e0 : Entry) (es : list Entry),
    all = e0 :: es /\ last_gathered o objects <> Some (entry_obj e0).
Proof.
  induction objects as [|obj rest IH]; intros o all Hg.
  - injection Hg as <-. left. constructor.
  - cbn [gather last_gathered] in *. destruct (skipped obj) eqn:Es.
    + destruct (IH (S o) all Hg) as [H | H];
        destruct (last_gathered (S o) rest); [now left | now left | now right | now right].
    + destruct (relative_shape_layer obj) as [layer|e m]; [|discriminate].
      destruct (gather (S o) rest) as [entries|e m] eqn:Eg; [|discriminate].
      injection Hg as <-.
      pose proof (gather_verts_obj o layer (verts obj) 0) as F.
      destruct (last_gathered (S o) rest) as [l|] eqn:El.
      * destruct (last_gathered_lookup rest (S o) l El) as (i & _ & Hl & _).
        destruct (gather_verts o layer 0 (verts obj)) as [|e0 gv].
        -- rewrite <- El. exact (IH (S o) entries Eg).
        -- right. exists e0, (gv ++ entries). split; [reflexivity|].
           apply Forall_cons in F as [-> _]. intros [= ->]. lia.
      * left. apply last_gathered_none in El.
        rewrite (gather_all_skipped rest (S o) El) in Eg. injection Eg as <-.
        rewrite app_nil_r. eapply Forall_impl; [exact F|]. now intros e ->.
Qed.

(** The second loop through valid references only is the plain sequence of
    writes; a stale first reference stops it before anything is written. *)
Lemma write_all_valid (bm : option nat) (w : Entry -> Vector) (entries : list Entry) :
  forall objects : list Object,
    Forall (fun e => bm = Some (entry_obj e)) entries ->
    write_all bm w entries objects
    = (fold_left (fun st e => write_co st (entry_obj e) (entry_vert e) (w e))
         entries objects,
       Returned FINISHED).
Proof.
  induction entries as [|e entries IH]; intros objects H; [reflexivity|].
  apply Forall_cons in H as [He H]. cbn [write_all fold_left].
  rewrite bool_decide_eq_true_2 by exact He. now apply IH.
Qed.

Lemma write_all_stale (bm : option nat) (w : Entry -> Vector) (e0 : Entry)
    (es : list Entry) (objects : list Object) :
  bm <> Some (entry_obj e0) ->
  write_all bm w (e0 :: es) objects
  = (objects, Raised "ReferenceError" "BMesh data of type BMVert has been removed").
Proof. intros H. cbn [write_all]. now rewrite bool_decide_eq_false_2 by exact H. Qed.

(** With one mesh gathered from at most, every reference is valid. *)
Lemma gathers_from_one_valid (objects : list Object) (all : list Entry) :
  gathers_from_one objects ->
  gather 0 objects = Returned all ->
  Forall (fun e => last_gathered 0 objects = Some (entry_obj e)) all.
Proof.
  intros Hone Hg. destruct (gather_spec objects [] all Hg) as (_ & F & _). simpl in F.
  eapply Forall_impl; [exact F|].
  intros e (obj & bv & layer & Ho & Hs & _).
  destruct (last_gathered_some objects 0 (entry_obj e) obj Ho Hs) as (l & Hl & _).
  destruct (last_gathered_lookup objects 0 l Hl) as (i & obj_i & -> & Hi & Hsi & _).
  rewrite Hl. f_equal. simpl. exact (Hone _ _ _ _ Hi Ho Hsi Hs).
Qed.

(** [execute] either finishes or leaves every object as it was. *)
Lemma average_finishes_or_unchanged (mix : Q) (objects : list Object) :
  (AverageShapeKeyMovement_execute mix objects).2 = Returned FINISHED \/
  (AverageShapeKeyMovement_execute mix objects).1 = objects.
Proof.
  unfold AverageShapeKeyMovement_execute.
  destruct (Qeqb mix 0); [now left|].
  destruct (gather 0 objects) as [all|e m] eqn:Hall; [|now right].
  destruct (gather_valid_or_stale objects 0 all Hall) as [Hvalid | (e0 & es & -> & Hstale)].
  - destruct all as [|e0 es]; [now left|]. cbv zeta.
    destruct (Qeqb mix 1); rewrite (write_all_valid _ _ _ objects Hvalid); now left.
  - cbv zeta. destruct (Qeqb mix 1); rewrite (write_all_stale _ _ _ _ _ Hstale); now right.
Qed.

(** With one mesh gathered from at most, [execute] finishes. *)
Lemma average_finishes (mix : Q) (objects : list Object) :
  (forall obj, obj ∈ objects -> skipped obj = false ->
               exists layer, relative_shape_layer obj = Returned layer) ->
  gathers_from_one objects ->
  (AverageShapeKeyMovement_execute mix objects).2 = Returned FINISHED.
Proof.
  intros Hlayers Hone. unfold AverageShapeKeyMovement_execute.
  destruct (Qeqb mix 0); [reflexivity|].
  destruct (gather_returns objects 0 Hlayers) as [all Hall]. rewrite Hall.
  pose proof (gathers_from_one_valid objects all Hone Hall) as Hvalid.
  destruct all as [|e0 es]; [reflexivity|]. cbv zeta.
  destruct (Qeqb mix 1); now rewrite (write_all_valid _ _ _ objects Hvalid).
Qed.

(** C6.  With [mix = 0.0], [execute] changes nothing.  Otherwise, with the
    layer of the relative key of every eligible mesh in place (an eligible
    mesh: active shape key present, relative, not the reference key, not
    relative to itself, and some vertex selected):

    - when at most one mesh is eligible, [execute] finishes and does what is
      asked of it: a vertex of a skipped mesh, an unselected vertex and a
      hidden vertex keep their coordinate, and a selected, visible vertex of
      the eligible mesh gets a new coordinate; with the average being the sum
      of coordinate minus relative-key coordinate over all such vertices,
      divided by their number, the new coordinate is the relative-key
      coordinate plus the average when [mix = 1.0], and the relative-key
      coordinate plus the movement interpolated toward the average by [mix]
      for any other [mix]; selection, visibility and shape layers are left
      as they were;

    - when two meshes are eligible and the earlier one has a selected,
      visible vertex, [execute] raises ReferenceError at its first write and
      changes nothing: the vertices of the earlier mesh were released when
      [bm] was bound to the edit mesh of the later one. *)
Theorem AverageShapeKeyMovement_execute_averages (mix : Q) (objects : list Object) :
  ((mix == 0)%Q ->
   AverageShapeKeyMovement_execute mix objects = (objects, Returned FINISHED)) /\
  (~ (mix == 0)%Q ->
   (forall obj, obj ∈ objects -> skipped obj = false ->
                exists layer, relative_shape_layer obj = Returned layer) ->
   (gathers_from_one objects ->
    let objects' := (AverageShapeKeyMovement_execute mix objects).1 in
    let average_movement :=
      div (fold_left add (spec_movements objects) zero) (length (spec_movements objects)) in
    (AverageShapeKeyMovement_execute mix objects).2 = Returned FINISHED /\
    length objects' = length objects /\
    forall (o : nat) (obj : Object),
      objects !! o = Some obj ->
      exists obj' : Object,
        objects' !! o = Some obj' /\
        shape_keys obj' = shape_keys obj /\
        active_shape_key_index obj' = active_shape_key_index obj /\
        length (verts obj') = length (verts obj) /\
        forall (j : nat) (bv : BMVert),
          verts obj !! j = Some bv ->
          exists bv' : BMVert,
            verts obj' !! j = Some bv' /\
            select bv' = select bv /\ hide bv' = hide bv /\ shape bv' = shape bv /\
            (skipped obj = true \/ select bv = false \/ hide bv = true ->
             co bv' = co bv) /\
            forall layer : nat,
              skipped obj = false -> relative_shape_layer obj = Returned layer ->
              select bv = true -> hide bv = false ->
              ((mix == 1)%Q -> co bv' = add (shape bv layer) average_movement) /\
              (~ (mix == 1)%Q ->
               co bv' = add (shape bv layer)
                          (lerp (sub (co bv) (shape bv layer)) average_movement mix))) /\
   (forall (o1 o2 : nat) (obj1 obj2 : Object) (bv : BMVert),
      (o1 < o2)%nat ->
      objects !! o1 = Some obj1 -> objects !! o2 = Some obj2 ->
      skipped obj1 = false -> skipped obj2 = false ->
      bv ∈ verts obj1 -> select bv = true -> hide bv = false ->
      AverageShapeKeyMovement_execute mix objects
      = (objects, Raised "ReferenceError" "BMesh data of type BMVert has been removed"))).
Proof.
  split.
  - intros H0. unfold AverageShapeKeyMovement_execute, Qeqb.
    apply Qeq_bool_iff in H0. now rewrite H0.
  - intros H0 Hlayers.
    assert (E0 : Qeq_bool mix 0 = false)
      by (apply not_true_iff_false; now rewrite Qeq_bool_iff).
    destruct (gather_returns objects 0 Hlayers) as [all Hall].
    split.
    2:{ intros o1 o2 obj1 obj2 bv Hlt Ho1 Ho2 Hs1 Hs2 Hin Hsel Hhid.
        unfold AverageShapeKeyMovement_execute, Qeqb. rewrite E0, Hall.
        assert (Hb : is_bmvert bv = true) by (unfold is_bmvert; now rewrite Hsel, Hhid).
        destruct (gather_head objects 0 all o1 obj1 bv Hall Ho1 Hs1 Hin Hb)
          as (e0 & es & -> & Hle).
        destruct (last_gathered_some objects 0 o2 obj2 Ho2 Hs2) as (l & Hl & Hge).
        assert (Hstale : last_gathered 0 objects <> Some (entry_obj e0))
          by (rewrite Hl; intros [= ->]; lia).
        destruct (Qeq_bool mix 1); now apply write_all_stale. }
    intros Hone objects' average_movement.
    subst objects'. unfold AverageShapeKeyMovement_execute, Qeqb. rewrite E0, Hall.
    pose proof (gathers_from_one_valid objects all Hone Hall) as Hvalid.
    destruct (gather_spec objects [] all Hall) as (M & F & C). simpl in F, C.
    rewrite Forall_forall in F.
    (* no entry for a vertex that is not processed *)
    assert (Hnot : forall o obj j bv,
              objects !! o = Some obj -> verts obj !! j = Some bv ->
              skipped obj = true \/ select bv = false \/ hide bv = true ->
              ~ Exists (fun e => entry_obj e = o /\ entry_vert e = j) all).
    { intros o obj j bv Ho Hj Hcase Hex. apply Exists_exists in Hex as (e & He & <- & <-).
      destruct (F e He) as (obj_e & bv_e & l & Q1 & Q2 & _ & Q4 & Q5 & _).
      rewrite Ho in Q1. injection Q1 as <-. rewrite Hj in Q4. injection Q4 as <-.
      unfold is_bmvert in Q5. apply andb_true_iff in Q5 as [Q5 Q6].
      apply negb_true_iff in Q6. destruct Hcase as [? | [? | ?]]; congruence. }
    (* an entry for a vertex that is processed *)
    assert (Hyes : forall o obj j bv,
              objects !! o = Some obj -> verts obj !! j = Some bv ->
              skipped obj = false -> select bv = true -> hide bv = false ->
              Exists (fun e => entry_obj e = o /\ entry_vert e = j) all).
    { intros o obj j bv Ho Hj Hs Hsel Hhid. apply (C o obj 0%nat j bv Ho Hs Hj).
      unfold is_bmvert. now rewrite Hsel, Hhid. }
    assert (Havg : div (fold_left add (movement <$> all) zero) (length all)
                   = average_movement).
    { subst average_movement. rewrite <- M, length_fmap. reflexivity. }
    destruct all as [|e0 es] eqn:Eall.
    + simpl. split; [reflexivity|]. split; [reflexivity|].
      intros o obj Ho. exists obj. repeat split; try assumption.
      intros j bv Hj. exists bv. repeat split; try assumption; try reflexivity;
        exfalso; eapply Exists_nil; eapply Hyes; eassumption.
    + rewrite <- Eall in *. clear Eall e0 es. rewrite Havg. cbv zeta.
      rewrite !(write_all_valid _ _ all objects Hvalid).
      set (W := fun (obj : Object) (bv : BMVert) =>
                  match relative_shape_layer obj with
                  | Returned layer =>
                      if Qeq_bool mix 1
                      then add (shape bv layer) average_movement
                      else add (shape bv layer)
                             (lerp (sub (co bv) (shape bv layer)) average_movement mix)
                  | Raised _ _ => co bv
                  end).
      assert (Hfold : forall w : Entry -> Vector,
                (forall e, w e = if Qeq_bool mix 1
                                 then add (relative_co e) average_movement
                                 else add (relative_co e)
                                        (lerp (movement e) average_movement mix)) ->
                Forall (fun e => exists obj bv,
                          objects !! entry_obj e = Some obj /\
                          verts obj !! entry_vert e = Some bv /\ w e = W obj bv) all).
      { intros w Hw. apply Forall_forall. intros e He.
        destruct (F e He) as (obj & bv & l & Q1 & _ & Q3 & Q4 & _ & Q6 & Q7).
        exists obj, bv. split; [exact Q1|]. split; [exact Q4|].
        unfold W. now rewrite Hw, Q3, Q6, Q7. }
      assert (Hdone : forall w : Entry -> Vector,
                (forall e, w e = if Qeq_bool mix 1
                                 then add (relative_co e) average_movement
                                 else add (relative_co e)
                                        (lerp (movement e) average_movement mix)) ->
                let st := fold_left (fun st e => write_co st (entry_obj e) (entry_vert e) (w e))
                            all objects in
                length st = length objects /\
                forall (o : nat) (obj : Object),
                  objects !! o = Some obj ->
                  exists obj' : Object,
                    st !! o = Some obj' /\
                    shape_keys obj' = shape_keys obj /\
                    active_shape_key_index obj' = active_shape_key_index obj /\
                    length (verts obj') = length (verts obj) /\
                    forall (j : nat) (bv : BMVert),
                      verts obj !! j = Some bv ->
                      exists bv' : BMVert,
                        verts obj' !! j = Some bv' /\
                        select bv' = select bv /\ hide bv' = hide bv /\ shape bv' = shape bv /\
                        (skipped obj = true \/ select bv = false \/ hide bv = true ->
                         co bv' = co bv) /\
                        forall layer : nat,
                          skipped obj = false -> relative_shape_layer obj = Returned layer ->
                          select bv = true -> hide bv = false ->
                          ((mix == 1)%Q -> co bv' = add (shape bv layer) average_movement) /\
                          (~ (mix == 1)%Q ->
                           co bv' = add (shape bv layer)
                                      (lerp (sub (co bv) (shape bv layer))
                                         average_movement mix))).
      { intros w Hw st.
        destruct (fold_write_co objects w W all (Hfold w Hw)) as [Hlen Hst].
        split; [exact Hlen|]. intros o obj Ho.
        destruct (Hst o obj Ho) as (obj' & Ho' & K1 & K2 & K3 & Hverts).
        exists obj'. repeat split; try assumption.
        intros j bv Hj. destruct (Hverts j bv Hj) as (bv' & Hj' & S1 & S2 & S3 & T1 & T2).
        exists bv'. split; [exact Hj'|]. split; [exact S1|]. split; [exact S2|].
        split; [exact S3|]. split.
        - intros Hcase. apply T2. eapply Hnot; eassumption.
        - intros layer Hs Hl Hsel Hhid.
          rewrite T1 by (eapply Hyes; eassumption).
          unfold W. rewrite Hl. split; intros H1.
          + apply Qeq_bool_iff in H1. now rewrite H1.
          + assert (E1 : Qeq_bool mix 1 = false)
              by (apply not_true_iff_false; now rewrite Qeq_bool_iff).
            now rewrite E1. }
      destruct (Qeq_bool mix 1) eqn:E1; simpl; (split; [reflexivity|]);
        apply Hdone; intros e; reflexivity.
Qed.

(** The theorem on the sample mesh alone, where nothing happens with
    [mix = 0] and with [mix = 1] the first vertex moves to its basis
    coordinate plus the average, and on two eligible meshes, where [execute]
    raises and leaves both as they were. *)
Lemma AverageShapeKeyMovement_execute_averages_witness :
  AverageShapeKeyMovement_execute 0 [sample_object] = ([sample_object], Returned FINISHED) /\
  (exists (obj' : Object) (bv' : BMVert),
     (AverageShapeKeyMovement_execute 1 [sample_object]).1 !! 0%nat = Some obj' /\
     verts obj' !! 0%nat = Some bv' /\
     co bv' = add (mkVector 0 0 0)
                (div (fold_left add (spec_movements [sample_object]) zero)
                   (length (spec_movements [sample_object])))) /\
  AverageShapeKeyMovement_execute 1 [sample_object; all_selected_object]
  = ([sample_object; all_selected_object],
     Raised "ReferenceError" "BMesh data of type BMVert has been removed").
Proof.
  split; [|split].
  - apply (proj1 (AverageShapeKeyMovement_execute_averages 0 [sample_object])).
    reflexivity.
  - destruct (proj2 (AverageShapeKeyMovement_execute_averages 1 [sample_object]))
      as [H _].
    + discriminate.
    + intros obj Hin _. apply list_elem_of_singleton in Hin. subst obj.
      exists 0%nat. reflexivity.
    + destruct H as (_ & _ & H).
      * intros [|o1] [|o2] obj1 obj2 H1 H2 _ _; try discriminate. reflexivity.
      * destruct (H 0%nat sample_object eq_refl) as (obj' & Ho & _ & _ & _ & Hv).
        destruct (Hv 0%nat _ eq_refl) as (bv' & Hj & _ & _ & _ & _ & Hco).
        exists obj', bv'. split; [exact Ho|]. split; [exact Hj|].
        destruct (Hco 0%nat eq_refl eq_refl eq_refl eq_refl) as [H1 _].
        apply H1. reflexivity.
  - destruct (proj2 (AverageShapeKeyMovement_execute_averages 1
                       [sample_object; all_selected_object])) as [_ H].
    + discriminate.
    + intros obj Hin _. exists 0%nat.
      apply elem_of_cons in Hin as [-> | Hin]; [reflexivity|].
      apply list_elem_of_singleton in Hin as ->. reflexivity.
    + apply (H 0%nat 1%nat sample_object all_selected_object
               (mkVert (mkVector 1 0 0) true false
                  (layers (mkVector 0 0 0) (mkVector 0 0 0) (mkVector 0 0 0))));
        try reflexivity; [lia | apply list_elem_of_here].
Defined.

End AverageMovement.

(** ** The [poll] methods *)

Section Polls.
Import PyNum ExtraShapeKeyOperations.

(** C5.  [ClearPendingChanges.poll] holds exactly when the mode is
    'EDIT_MESH' and every mesh in edit mode has shape keys; when it fails it
    sets "Must be in edit mode" outside edit mode and "All meshes in edit
    mode must have shape keys" otherwise.  The poll of
    select-by-number-of-vertex-groups holds exactly when the mode is
    'EDIT_MESH' with at least one object in edit mode, vertex selection mode
    is on and one of the objects has vertex groups; when it fails it sets a
    message as well. *)
Theorem polls_validate_preconditions :
  (forall context : Context,
     ((ClearPendingChanges_poll context).1 = true <->
      mode context = "EDIT_MESH"%string /\
      Forall (fun obj => is_Some (shape_keys obj)) (objects_in_mode_unique_data context)) /\
     ((ClearPendingChanges_poll context).1 = false ->
      (ClearPendingChanges_poll context).2
      = Some (if String.eqb (mode context) "EDIT_MESH"
              then "All meshes in edit mode must have shape keys"
              else "Must be in edit mode")%string)) /\
  (forall context : SelectByVertexGroups.Context,
     ((SelectByVertexGroups.poll context).1 = true <->
      SelectByVertexGroups.mode context = "EDIT_MESH"%string /\
      SelectByVertexGroups.objects_in_mode_unique_data context <> [] /\
      (SelectByVertexGroups.mesh_select_mode context).1.1 = true /\
      Exists (fun obj => SelectByVertexGroups.vertex_groups obj <> [])
        (SelectByVertexGroups.objects_in_mode_unique_data context)) /\
     ((SelectByVertexGroups.poll context).1 = false ->
      is_Some (SelectByVertexGroups.poll context).2)).
Proof.
  split.
  - intros context. unfold ClearPendingChanges_poll, poll_mode.
    destruct (String.eqb (mode context) "EDIT_MESH") eqn:Em; simpl.
    + apply String.eqb_eq in Em.
      destruct (forallb has_shape_keys (objects_in_mode_unique_data context)) eqn:Ea; simpl.
      * split; [|discriminate]. split; [intros _ | reflexivity].
        split; [exact Em|]. apply Forall_forall. intros obj Hin.
        rewrite forallb_forall in Ea. apply list_elem_of_In, Ea in Hin.
        unfold has_shape_keys in Hin. destruct (shape_keys obj); [eauto | discriminate].
      * split; [|reflexivity]. split; [discriminate|]. intros [_ Hall].
        apply not_true_iff_false in Ea. exfalso. apply Ea.
        apply forallb_forall. intros obj Hin. rewrite Forall_forall in Hall.
        apply list_elem_of_In, Hall in Hin. unfold has_shape_keys.
        destruct Hin as [k ->]. reflexivity.
    + split; [|reflexivity]. split; [discriminate|]. intros [Hm _].
      apply String.eqb_neq in Em. contradiction.
  - intros context. unfold SelectByVertexGroups.poll.
    destruct (String.eqb (SelectByVertexGroups.mode context) "EDIT_MESH") eqn:Em; simpl.
    2:{ split; [|eauto]. split; [discriminate|]. intros [Hm _].
        apply String.eqb_neq in Em. contradiction. }
    apply String.eqb_eq in Em.
    destruct (SelectByVertexGroups.objects_in_mode_unique_data context) as [|obj0 objs] eqn:Eo;
      simpl.
    { split; [|eauto]. split; [discriminate|]. intros (_ & H & _). congruence. }
    destruct (SelectByVertexGroups.mesh_select_mode context) as [[v e] f]; simpl.
    destruct v.
    2:{ split; [|eauto]. split; [discriminate|]. intros (_ & _ & H & _). discriminate. }
    set (has := fun obj : SelectByVertexGroups.Object =>
                  negb (Nat.eqb (length (SelectByVertexGroups.vertex_groups obj)) 0)).
    assert (Hhas : forall obj, has obj = true <-> SelectByVertexGroups.vertex_groups obj <> []).
    { intros obj. unfold has. destruct (SelectByVertexGroups.vertex_groups obj); simpl.
      - split; [discriminate | congruence].
      - split; [discriminate | reflexivity]. }
    change (negb (Nat.eqb (length (SelectByVertexGroups.vertex_groups obj0)) 0))
      with (has obj0).
    change (has obj0 || existsb has objs) with (existsb has (obj0 :: objs)).
    destruct (existsb has (obj0 :: objs)) eqn:Ee.
    + split; [|discriminate]. split; [intros _ | reflexivity].
      split; [exact Em|]. split; [discriminate|]. split; [reflexivity|].
      apply existsb_exists in Ee as (obj & Hin & Hobj).
      apply Exists_exists. exists obj. split; [now apply list_elem_of_In|].
      now apply Hhas.
    + split; [|simpl; eauto]. split; [discriminate|]. intros (_ & _ & _ & Hex).
      apply not_true_iff_false in Ee. exfalso. apply Ee.
      apply Exists_exists in Hex as (obj & Hin & Hobj).
      apply existsb_exists. exists obj. split; [now apply list_elem_of_In|].
      now apply Hhas.
Qed.

End Polls.

(** ** CopyUVsToOtherUVMap.py *)

Section CopyUVs.
Import PyNum CopyUVsToOtherUVMap.

(** The first loop stops at the first mesh at the limit. *)
Lemma find_need_target_creation_at_limit (target : string) (meshes : list Mesh) :
  forall i : nat,
    Exists (at_limit target) meshes ->
    exists mesh : Mesh,
      mesh ∈ meshes /\ at_limit target mesh /\
      find_need_target_creation target i meshes = inl (name mesh).
Proof.
  induction meshes as [|mesh rest IH]; intros i Hex; [now apply Exists_nil in Hex|].
  cbn [find_need_target_creation]. unfold has_layer.
  destruct (decide (target ∈ (layer_name <$> uv_layers mesh))) as [Hin | Hnot].
  - rewrite bool_decide_eq_true_2 by exact Hin. cbn [negb].
    apply Exists_cons in Hex as [[Hno _] | Hex]; [contradiction|].
    destruct (IH (S i) Hex) as (m & Hm & Hlim & Hfind).
    exists m. split; [now apply elem_of_cons; right|]. split; assumption.
  - rewrite bool_decide_eq_false_2 by exact Hnot. cbn [negb].
    destruct (Nat.leb max_uv_layers (length (uv_layers mesh))) eqn:Efull.
    + exists mesh. apply Nat.leb_le in Efull.
      split; [apply list_elem_of_here|]. split; [split; assumption | reflexivity].
    + apply Nat.leb_gt in Efull.
      apply Exists_cons in Hex as [[_ Hfull] | Hex]; [lia|].
      destruct (IH (S i) Hex) as (m & Hm & Hlim & Hfind).
      exists m. split; [now apply elem_of_cons; right|]. split; [exact Hlim|].
      now rewrite Hfind.
Qed.

(** C4.  With a create option as [not_found_action], when some mesh in edit
    mode lacks the target UV map and already has the maximum number of UV
    maps, [execute] reports one error, whose message names such a mesh (the
    first one met), and returns with every mesh as it was: no UV map has
    been created and no attribute copied. *)
Theorem execute_declines_at_layer_limit (self : Operator) (context : Context) :
  not_found_action self <> SKIP ->
  let meshes :=
    data <$> List.filter (fun mesh_obj => String.eqb (type mesh_obj) "MESH")
               (objects_in_mode_unique_data context) in
  Exists (at_limit (target self)) meshes ->
  exists mesh : Mesh,
    mesh ∈ meshes /\
    at_limit (target self) mesh /\
    execute self context
    = Returned (meshes,
                [("ERROR_INVALID_INPUT",
                  "The UV Map '" ++ target self ++ "' can't be added to the mesh '"
                    ++ name mesh
                    ++ "' because it already has the maximum number of UV Maps (8). Execution has been cancelled.")%string],
                FINISHED).
Proof.
  intros Hcreate meshes Hex.
  destruct (find_need_target_creation_at_limit (target self) meshes 0 Hex)
    as (mesh & Hin & Hlim & Hfind).
  exists mesh. split; [exact Hin|]. split; [exact Hlim|].
  unfold execute. fold meshes.
  destruct meshes as [|m0 ms] eqn:Em; [now apply elem_of_nil in Hin|].
  destruct (not_found_action self); [congruence | | ]; rewrite Hfind; reflexivity.
Qed.

(** The theorem on the sample context: "Body" already has eight UV maps. *)
Lemma execute_declines_at_layer_limit_witness :
  exists mesh : Mesh,
    execute (mkOperator true false "Detail" true true false false CREATE) sample_context
    = Returned ([small_mesh; full_mesh],
                [("ERROR_INVALID_INPUT", max_layers_message "Detail" (name mesh))],
                FINISHED).
Proof.
  destruct (execute_declines_at_layer_limit
              (mkOperator true false "Detail" true true false false CREATE) sample_context)
    as (mesh & _ & _ & H).
  - discriminate.
  - apply Exists_cons_tl, Exists_cons_hd. split.
    + intros Hin. apply (bool_decide_pack _) in Hin. vm_compute in Hin. exact Hin.
    + unfold max_uv_layers. simpl. lia.
  - exists mesh. exact H.
Defined.

End CopyUVs.

(** ** moveActiveUVLayer.py *)

Section MoveUVLayer.
Import PyNum MoveActiveUVLayer.

(** A name that no other layer has is assigned as it is. *)
Lemma set_name_free (layers : list MeshUVLoopLayer) (i : nat) (layer : MeshUVLoopLayer)
    (n : string) :
  layers !! i = Some layer ->
  (forall (k : nat) (other : MeshUVLoopLayer),
     k <> i -> layers !! k = Some other -> name other <> n) ->
  set_name layers i n = <[i := mkLayer n (data layer)]> layers.
Proof.
  intros Hi Hfree. unfold set_name, unique_name. rewrite Hi.
  rewrite bool_decide_eq_false_2; [reflexivity|].
  intros Hin. apply list_elem_of_fmap in Hin as (other & -> & Hin).
  apply elem_of_app in Hin as [Hin | Hin]; apply list_elem_of_lookup in Hin as [k Hk].
  - rewrite lookup_take in Hk. destruct (decide (k < i)%nat) as [Hlt|]; [|discriminate].
    apply (Hfree k other); [lia | exact Hk | reflexivity].
  - rewrite lookup_drop in Hk.
    apply (Hfree (S i + k)%nat other); [lia | exact Hk | reflexivity].
Qed.

Lemma loop_eta (x : MeshUVLoop) : mkLoop (uv x) (pin_uv x) (select x) = x.
Proof. now destruct x. Qed.

Lemma layer_eta (l : MeshUVLoopLayer) : mkLayer (name l) (data l) = l.
Proof. now destruct l. Qed.

(** After [k] passes of the loop the first [k] elements of the two layers
    have changed places. *)
Lemma swap_data_prefix (data1 data2 : list MeshUVLoop) :
  length data1 = length data2 ->
  forall k : nat, (k <= length data1)%nat ->
    fold_left (fun d i => match d with Some d => swap_datum d i | None => None end)
      (seq 0 k) (Some (data1, data2))
    = Some (take k data2 ++ drop k data1, take k data1 ++ drop k data2).
Proof.
  intros Hlen k. induction k as [|k IH]; intros Hk; [reflexivity|].
  rewrite seq_S, fold_left_app, IH by lia. simpl.
  destruct (lookup_lt_is_Some_2 data1 k) as [x Hx]; [lia|].
  destruct (lookup_lt_is_Some_2 data2 k) as [y Hy]; [lia|].
  unfold swap_datum. simpl.
  assert (L1 : length (take k data2) = k) by (apply length_take_le; lia).
  assert (L2 : length (take k data1) = k) by (apply length_take_le; lia).
  rewrite !lookup_app_r by lia. rewrite L1, L2, Nat.sub_diag, !lookup_drop, Nat.add_0_r.
  rewrite Hx, Hy, !loop_eta.
  rewrite !insert_app_r_alt by lia. rewrite L1, L2, Nat.sub_diag.
  rewrite (drop_S data1 x k Hx), (drop_S data2 y k Hy). simpl.
  rewrite (take_S_r data2 k y Hy), (take_S_r data1 k x Hx), <- !app_assoc.
  reflexivity.
Qed.

Lemma swap_data_swaps (data1 data2 : list MeshUVLoop) :
  length data1 = length data2 -> swap_data data1 data2 = Some (data2, data1).
Proof.
  intros Hlen. unfold swap_data. rewrite (swap_data_prefix data1 data2 Hlen) by lia.
  rewrite Hlen at 1 2. rewrite !firstn_all, Hlen, skipn_all, <- Hlen, skipn_all.
  now rewrite !app_nil_r.
Qed.

(** When the name parked on the first layer is not the first layer's own
    name, [swap_uv_layers] makes the two layers change places, names and
    data. *)
Lemma swap_uv_layers_exchanges (obj : Object) (i j : nat) (old_mode : string)
    (layer1 layer2 : MeshUVLoopLayer) :
  NoDup (name <$> uv_layers obj) ->
  i <> j ->
  uv_layers obj !! i = Some layer1 ->
  uv_layers obj !! j = Some layer2 ->
  length (data layer1) = length (data layer2) ->
  unique_name (name <$> (take i (uv_layers obj) ++ drop (S i) (uv_layers obj))) "temp"
  <> name layer1 ->
  swap_uv_layers obj i j old_mode
  = Returned (mkObject old_mode (<[j := layer1]> (<[i := layer2]> (uv_layers obj)))
                (active_index obj)).
Proof.
  intros Hnodup Hij H1 H2 Hlen Htemp. unfold swap_uv_layers. rewrite H1, H2.
  set (layers := uv_layers obj) in *.
  assert (Hdistinct : forall k k' a b,
            k <> k' -> layers !! k = Some a -> layers !! k' = Some b -> name a <> name b).
  { intros k k' a b Hkk Ha Hb Heq. apply Hkk.
    apply (NoDup_lookup (name <$> layers) k k' (name a) Hnodup);
      rewrite list_lookup_fmap; [now rewrite Ha | now rewrite Hb, Heq]. }
  assert (Li : (i < length layers)%nat) by (eapply lookup_lt_Some; exact H1).
  assert (Lj : (j < length layers)%nat) by (eapply lookup_lt_Some; exact H2).
  (* layer1.name = 'temp' *)
  set (t := unique_name (name <$> (take i layers ++ drop (S i) layers)) "temp") in *.
  assert (E1 : set_name layers i "temp" = <[i := mkLayer t (data layer1)]> layers).
  { unfold set_name. now rewrite H1. }
  rewrite E1.
  (* layer2.name = layer1_name *)
  rewrite (set_name_free _ j layer2).
  2:{ now rewrite list_lookup_insert_ne by exact Hij. }
  2:{ intros k other Hk Hother. destruct (decide (k = i)) as [-> | Hki].
      - rewrite list_lookup_insert_eq in Hother by exact Li.
        injection Hother as <-. exact Htemp.
      - rewrite list_lookup_insert_ne in Hother by congruence.
        now apply (Hdistinct k i other layer1). }
  (* layer1.name = layer2_name *)
  rewrite (set_name_free _ i (mkLayer t (data layer1))).
  2:{ rewrite list_lookup_insert_ne by congruence.
      now rewrite list_lookup_insert_eq by exact Li. }
  2:{ intros k other Hk Hother. destruct (decide (k = j)) as [-> | Hkj].
      - rewrite list_lookup_insert_eq in Hother by (now rewrite length_insert).
        injection Hother as <-. simpl. now apply (Hdistinct i j layer1 layer2).
      - rewrite !list_lookup_insert_ne in Hother by congruence.
        now apply (Hdistinct k j other layer2). }
  rewrite (swap_data_swaps _ _ Hlen). simpl.
  unfold set_data.
  rewrite list_lookup_insert_eq by (now rewrite ?length_insert). simpl.
  rewrite list_lookup_insert_ne by exact Hij.
  rewrite list_lookup_insert_ne by exact Hij.
  rewrite list_lookup_insert_eq by (now rewrite ?length_insert). simpl.
  rewrite !layer_eta. do 2 f_equal.
  apply list_eq. intros k.
  destruct (decide (k = j)) as [-> | Hkj].
  - now rewrite !list_lookup_insert_eq by (now rewrite ?length_insert).
  - rewrite (list_lookup_insert_ne _ j k) by congruence.
    rewrite (list_lookup_insert_ne _ j k) by congruence.
    destruct (decide (k = i)) as [-> | Hki].
    + now rewrite !list_lookup_insert_eq by (now rewrite ?length_insert).
    + now rewrite !list_lookup_insert_ne by congruence.
Qed.

(** Apart from that slip the two moves undo each other: on a mesh none of
    whose UV maps is called "temp", moving the active UV map up and down
    again gives back the object as it was. *)
Lemma up_then_down_restores (obj : Object) (i : nat)
    (above active : MeshUVLoopLayer) :
  active_index obj = S i ->
  uv_layers obj !! i = Some above ->
  uv_layers obj !! S i = Some active ->
  NoDup (name <$> uv_layers obj) ->
  "temp"%string ∉ (name <$> uv_layers obj) ->
  length (data above) = length (data active) ->
  up_then_down obj = Returned obj.
Proof.
  intros Hidx Ha Hb Hnodup Htemp Hlen.
  assert (Hfree : forall (layers : list MeshUVLoopLayer) (k : nat) (l : MeshUVLoopLayer),
            "temp"%string ∉ (name <$> layers) -> layers !! k = Some l ->
            unique_name (name <$> (take k layers ++ drop (S k) layers)) "temp" <> name l).
  { intros layers k l Hno Hl. unfold unique_name.
    rewrite bool_decide_eq_false_2.
    - intros Heq. apply Hno. rewrite Heq. apply list_elem_of_fmap.
      exists l. split; [reflexivity|]. eapply list_elem_of_lookup_2. exact Hl.
    - intros Hin. apply Hno. apply list_elem_of_fmap in Hin as (o & -> & Hin).
      apply list_elem_of_fmap. exists o. split; [reflexivity|].
      apply elem_of_app in Hin as [Hin | Hin];
        [eapply subseteq_take | eapply subseteq_drop]; exact Hin. }
  assert (Li : (i < length (uv_layers obj))%nat) by (eapply lookup_lt_Some; exact Ha).
  assert (Lj : (S i < length (uv_layers obj))%nat) by (eapply lookup_lt_Some; exact Hb).
  unfold up_then_down, move_active_uv_layer_up. rewrite Hidx. simpl.
  rewrite Nat.sub_0_r.
  rewrite (swap_uv_layers_exchanges obj i (S i) (mode obj) above active
             Hnodup (Nat.neq_succ_diag_r i) Ha Hb Hlen (Hfree _ _ _ Htemp Ha)).
  simpl.
  set (layers' := <[S i := above]> (<[i := active]> (uv_layers obj))).
  assert (Ha' : layers' !! i = Some active).
  { subst layers'. rewrite list_lookup_insert_ne by lia.
    now rewrite list_lookup_insert_eq by exact Li. }
  assert (Hb' : layers' !! S i = Some above).
  { subst layers'. now rewrite list_lookup_insert_eq by (now rewrite length_insert). }
  assert (Hperm : name <$> layers' ≡ₚ name <$> uv_layers obj).
  { assert (Hsplit : exists pre rest,
              uv_layers obj = pre ++ above :: active :: rest /\ length pre = i).
    { exists (take i (uv_layers obj)), (drop (S (S i)) (uv_layers obj)).
      split; [|apply length_take_le; lia].
      rewrite <- (drop_S _ active (S i) Hb). now rewrite take_drop_middle. }
    destruct Hsplit as (pre & rest & Hl & Hpre).
    apply fmap_Permutation. subst layers'. rewrite Hl.
    rewrite (insert_app_r_alt pre _ i) by lia.
    rewrite (insert_app_r_alt pre _ (S i)) by lia.
    rewrite Hpre. replace (i - i)%nat with 0%nat by lia.
    replace (S i - i)%nat with 1%nat by lia. simpl.
    apply Permutation_app_head, perm_swap. }
  unfold move_active_uv_layer_down. simpl.
  replace (length layers') with (length (uv_layers obj))
    by (subst layers'; now rewrite !length_insert).
  assert (Hlt : (Z.of_nat i <? Z.of_nat (length (uv_layers obj)) - 1) = true)
    by (apply Z.ltb_lt; lia).
  rewrite Hlt.
  rewrite (swap_uv_layers_exchanges _ i (i + 1) (mode obj) active above); simpl.
  - replace (i + 1)%nat with (S i) by lia.
    destruct obj as [m layers a]. simpl in *. subst a. do 2 f_equal.
    subst layers'. apply list_eq. intros k.
    destruct (decide (k = S i)) as [-> | Hk1].
    + now rewrite list_lookup_insert_eq by (now rewrite ?length_insert).
    + rewrite (list_lookup_insert_ne _ (S i) k) by congruence.
      destruct (decide (k = i)) as [-> | Hk2].
      * now rewrite list_lookup_insert_eq by (now rewrite ?length_insert).
      * now rewrite !list_lookup_insert_ne by congruence.
  - now rewrite Hperm.
  - lia.
  - exact Ha'.
  - replace (i + 1)%nat with (S i) by lia. exact Hb'.
  - now symmetry.
  - apply Hfree; [now rewrite Hperm | exact Ha'].
Qed.

Example up_then_down_plain : up_then_down plain_object = Returned plain_object.
Proof.
  apply (up_then_down_restores plain_object 0
           (mkLayer "UVMap" (sample_data 0)) (mkLayer "Lightmap" (sample_data 1)));
    try reflexivity.
  - apply (bool_decide_unpack _). vm_compute. exact I.
  - apply (bool_decide_unpack _). vm_compute. exact I.
Qed.

(** C9.  Moving the active UV map up and down again does not restore the
    mesh when the UV map above the active one is called "temp": the name
    "temp" that [swap_uv_layers] parks on the first layer is then the name it
    assigns to the second layer next, the host makes that one "temp.001", and
    the layer keeps this name after the second swap.  Data, active index and
    mode are restored; the name is not. *)
Theorem up_then_down_renames_temp :
  (0 < active_index temp_object < length (uv_layers temp_object))%nat /\
  name <$> uv_layers temp_object = ["temp"; "UVMap"]%string /\
  exists obj' : Object,
    up_then_down temp_object = Returned obj' /\
    name <$> uv_layers obj' = ["temp.001"; "UVMap"]%string /\
    data <$> uv_layers obj' = data <$> uv_layers temp_object /\
    active_index obj' = active_index temp_object /\
    mode obj' = mode temp_object /\
    obj' <> temp_object.
Proof.
  split; [simpl; lia|]. split; [reflexivity|].
  eexists. split; [vm_compute; reflexivity|].
  repeat split; try reflexivity. discriminate.
Qed.

End MoveUVLayer.

(** ** BoneCycleHierarchy.py: further properties *)

Section BoneCycleMore.
Import PyNum BoneCycleHierarchy.

(** The first element a filter lets through, with what it held back. *)
Lemma filter_head {A} (f : A -> bool) (l : list A) (b : A) (r : list A) :
  List.filter f l = b :: r ->
  exists l1 l2, l = l1 ++ b :: l2 /\ Forall (fun x => f x = false) l1 /\ f b = true.
Proof.
  induction l as [|x l IH]; intros H; [discriminate|].
  simpl in H. destruct (f x) eqn:E.
  - injection H as -> _. exists [], l. split; [reflexivity|]. split; [constructor | exact E].
  - destruct (IH H) as (l1 & l2 & -> & Hl1 & Hb).
    exists (x :: l1), l2. split; [reflexivity|]. split; [now constructor | exact Hb].
Qed.

Lemma filter_skip {A} (f : A -> bool) (l1 l2 : list A) :
  Forall (fun x => f x = false) l1 -> List.filter f (l1 ++ l2) = List.filter f l2.
Proof.
  intros H. induction H as [|x l1 Hx _ IH]; simpl; [reflexivity|]. now rewrite Hx.
Qed.

Lemma ordered_siblings_NoDup (self : Operator) (store : nat -> Bone) (l : list nat) :
  NoDup l -> NoDup (ordered_siblings self store l).
Proof.
  intros H. unfold ordered_siblings. destruct (order self).
  - destruct (direction self); [exact H | now rewrite reverse_Permutation].
  - now rewrite (proj1 (sorted_sorts l _ _)).
Qed.

Lemma same_bones_refl (store : nat -> Bone) : same_bones store store.
Proof. intros b. repeat split. Qed.

Lemma same_bones_trans (s1 s2 s3 : nat -> Bone) :
  same_bones s1 s2 -> same_bones s2 s3 -> same_bones s1 s3.
Proof.
  intros H12 H23 b. destruct (H12 b) as (A1 & A2 & A3 & A4 & A5).
  destruct (H23 b) as (B1 & B2 & B3 & B4 & B5). repeat split; congruence.
Qed.

Lemma same_bones_select (store : nat -> Bone) (b : nat) (v : bool) :
  same_bones store (<[b := set_selection (store b) v]> store).
Proof.
  intros c. destruct (decide (b = c)) as [-> | Hne].
  - rewrite fn_lookup_insert. repeat split.
  - rewrite fn_lookup_insert_ne by exact Hne. repeat split.
Qed.

Lemma cycle_same_bones (self : Operator) (store store' : nat -> Bone) (a : nat)
    (st : Status) (act : option nat) :
  cycle self store a = Returned (st, store', act) -> same_bones store store'.
Proof.
  unfold cycle. destruct (parent (store a)) as [p|]; [|discriminate].
  destruct (index _ a) as [i|]; [|discriminate].
  destruct (List.filter _ _) as [|next rest].
  - intros [= <- <- <-]. apply same_bones_refl.
  - intros [= <- <- <-]. destruct (extend self).
    + apply same_bones_select.
    + eapply same_bones_trans; [apply same_bones_select|].
      apply (same_bones_select (<[a := set_selection (store a) false]> store)).
Qed.

(** X2.  Whatever the operator properties, [execute] changes nothing but the
    selection of bones and the active bone of the mode it runs in: the mode,
    the bones of the other mode and their active bone stay, and so do the
    name, the visibility, the selectability and the place in the hierarchy of
    every bone. *)
Theorem execute_touches_selection_only
    (self : Operator) (context context' : Context) (st : Status) :
  execute self context = Returned (st, context') ->
  mode context' = mode context /\
  same_bones (mode_bones context) (mode_bones context') /\
  match mode context with
  | EDIT_ARMATURE =>
      bones context' = bones context /\ bones_active context' = bones_active context
  | POSE =>
      edit_bones context' = edit_bones context /\
      edit_bones_active context' = edit_bones_active context
  end.
Proof.
  unfold execute, mode_bones. destruct context as [m eb ea bs ba]. simpl.
  destruct m.
  - destruct ea as [a|]; [|discriminate].
    destruct (cycle self eb a) as [[[st' store'] act]|] eqn:Ec; [|discriminate].
    intros [= <- <-]. simpl. split; [reflexivity|].
    split; [eapply cycle_same_bones; exact Ec | split; reflexivity].
  - destruct ba as [a|]; [|discriminate].
    destruct (cycle self bs a) as [[[st' store'] act]|] eqn:Ec; [|discriminate].
    intros [= <- <-]. simpl. split; [reflexivity|].
    split; [eapply cycle_same_bones; exact Ec | split; reflexivity].
Qed.

Lemma execute_touches_selection_only_witness :
  exists context' : Context,
    execute (mkOperator FORWARDS false DEFAULT) sample_context
    = Returned (FINISHED, context') /\
    hide (mode_bones context' 2%nat) = true.
Proof.
  eexists. split; [reflexivity|].
  destruct (execute_touches_selection_only (mkOperator FORWARDS false DEFAULT)
              sample_context _ FINISHED eq_refl) as (_ & Hsame & _).
  destruct (Hsame 2%nat) as (_ & Hh & _). rewrite Hh. reflexivity.
Defined.

(** The active bone of the mode, with its parent, when [poll] holds. *)
Lemma poll_active (context : Context) :
  poll context = true ->
  exists a p, mode_active context = Some a /\ parent (mode_bones context a) = Some p.
Proof.
  unfold poll, mode_active, mode_bones. destruct (mode context).
  - destruct (edit_bones_active context) as [a|]; [|discriminate].
    destruct (parent (edit_bones context a)) as [p|] eqn:E; [|discriminate].
    intros _. exists a, p. split; [reflexivity | exact E].
  - destruct (bones_active context) as [a|]; [|discriminate].
    destruct (parent (bones context a)) as [p|] eqn:E; [|discriminate].
    intros _. exists a, p. split; [reflexivity | exact E].
Qed.

Lemma execute_cycle (self : Operator) (context : Context) (a : nat) :
  mode_active context = Some a ->
  execute self context
  = match cycle self (mode_bones context) a with
    | Returned (st, store, act) =>
        Returned (st, match mode context with
                      | EDIT_ARMATURE =>
                          mkContext (mode context) store act (bones context)
                            (bones_active context)
                      | POSE =>
                          mkContext (mode context) (edit_bones context)
                            (edit_bones_active context) store act
                      end)
    | Raised e m => Raised e m
    end.
Proof.
  unfold execute, mode_active, mode_bones. destruct (mode context); intros ->;
    destruct (cycle self _ a) as [[[st store] act]|]; reflexivity.
Qed.

(** X1.  When [poll] holds and the bones form a tree, [execute] does not
    raise: it returns FINISHED or CANCELLED. *)
Theorem execute_returns_after_poll (self : Operator) (context : Context) :
  poll context = true ->
  tree (mode_bones context) ->
  exists (st : Status) (context' : Context), execute self context = Returned (st, context').
Proof.
  intros Hpoll [Hnodup Htree].
  destruct (poll_active context Hpoll) as (a & p & Ha & Hp).
  assert (Hin : a ∈ children (mode_bones context p)) by now apply Htree.
  destruct (cycle_next_sibling self (mode_bones context) a p Hp Hin) as (i & Hi & _).
  rewrite (execute_cycle self context a Ha). unfold cycle. rewrite Hp, Hi.
  destruct (List.filter _ _); eauto.
Qed.

Lemma execute_cycle_inv (self : Operator) (context context' : Context) (a : nat)
    (st : Status) :
  mode_active context = Some a ->
  execute self context = Returned (st, context') ->
  cycle self (mode_bones context) a
  = Returned (st, mode_bones context', mode_active context') /\
  mode context' = mode context.
Proof.
  intros Ha. rewrite (execute_cycle self context a Ha).
  destruct (cycle self (mode_bones context) a) as [[[st' store] act]|]; [|discriminate].
  intros [= <- <-]. unfold mode_bones, mode_active. now destruct (mode context).
Qed.

Lemma reverse_middle {A} (xs ys : list A) (x : A) :
  reverse (xs ++ x :: ys) = reverse ys ++ x :: reverse xs.
Proof. now rewrite reverse_app, reverse_cons, <- app_assoc. Qed.

Lemma Forall_reverse_2 {A} (P : A -> Prop) (l : list A) :
  Forall P l -> Forall P (reverse l).
Proof. intros H. now rewrite reverse_Permutation. Qed.

(** Going back: if the chain searched from [a] stops at [b], the chain
    searched from [b] in the reversed list stops at [a], provided [a] itself
    passes the filter. *)
Lemma chain_back (f : nat -> bool) (xs ys : list nat) (a b : nat) (r : list nat) :
  NoDup (xs ++ a :: ys) ->
  f a = true ->
  List.filter f (ys ++ xs) = b :: r ->
  exists xs' ys' r',
    reverse (xs ++ a :: ys) = xs' ++ b :: ys' /\ (b ∉ xs') /\
    List.filter f (ys' ++ xs') = a :: r'.
Proof.
  intros Hnd Ha Hf.
  destruct (filter_head f _ b r Hf) as (l1 & l2 & Hsplit & Hl1 & Hb).
  apply List.app_eq_app in Hsplit as [m [[Hys Hm] | [Hl1' Hxs]]].
  - destruct m as [|b' m].
    + (* [b] is the first of [xs] *)
      simpl in Hm. rewrite app_nil_r in Hys. subst ys xs.
      exists (reverse l1 ++ a :: reverse l2), [], (List.filter f (reverse l2)).
      rewrite (reverse_middle (b :: l2) l1 a), reverse_cons.
      split; [now rewrite <- !app_assoc|]. split.
      * simpl in Hnd. apply NoDup_cons in Hnd as [Hnb _].
        intros Hin. apply Hnb. apply elem_of_app in Hin as [Hin | Hin].
        -- apply elem_of_app. right. apply elem_of_cons. right.
           rewrite elem_of_reverse in Hin; exact Hin.
        -- apply elem_of_cons in Hin as [-> | Hin].
           ++ apply elem_of_app. right. apply list_elem_of_here.
           ++ apply elem_of_app. left. rewrite elem_of_reverse in Hin; exact Hin.
      * simpl. rewrite (filter_skip f (reverse l1)) by now apply Forall_reverse_2.
        simpl. now rewrite Ha.
    + (* [b] is in [ys] *)
      injection Hm as <- Hl2. subst ys l2.
      exists (reverse m), (reverse l1 ++ a :: reverse xs),
        (List.filter f (reverse xs ++ reverse m)).
      rewrite (reverse_middle xs (l1 ++ b :: m) a), (reverse_middle l1 m b).
      split; [now rewrite <- !app_assoc|]. split.
      * apply NoDup_app in Hnd as (_ & _ & Hnd).
        apply NoDup_cons in Hnd as [_ Hnd].
        apply NoDup_app in Hnd as (_ & _ & Hnd).
        apply NoDup_cons in Hnd as [Hnb _].
        intros Hin. apply Hnb. rewrite elem_of_reverse in Hin; exact Hin.
      * rewrite <- app_assoc. rewrite (filter_skip f (reverse l1)) by now apply Forall_reverse_2.
        simpl. now rewrite Ha.
  - (* [b] is in [xs], behind [m] *)
    subst l1 xs. apply Forall_app in Hl1 as [Hys Hm].
    exists (reverse ys ++ a :: reverse l2), (reverse m),
      (List.filter f (reverse l2)).
    rewrite (reverse_middle (m ++ b :: l2) ys a), (reverse_middle m l2 b).
    split; [now rewrite <- !app_assoc|]. split.
    + rewrite <- app_assoc in Hnd. apply NoDup_app in Hnd as (_ & _ & Hnd).
      apply NoDup_cons in Hnd as [Hnb _].
      intros Hin. apply Hnb. apply elem_of_app in Hin as [Hin | Hin].
      * apply elem_of_app. right. apply elem_of_cons. right.
        rewrite elem_of_reverse in Hin; exact Hin.
      * apply elem_of_cons in Hin as [-> | Hin].
        -- apply elem_of_app. right. apply list_elem_of_here.
        -- apply elem_of_app. left. rewrite elem_of_reverse in Hin; exact Hin.
    + rewrite (filter_skip f (reverse m)) by now apply Forall_reverse_2.
      rewrite (filter_skip f (reverse ys)) by now apply Forall_reverse_2.
      simpl. now rewrite Ha.
Qed.

(** Where the active bone sits among the ordered children of its parent. *)
Lemma active_among_siblings (self : Operator) (store : nat -> Bone) (a p : nat) :
  tree store ->
  parent (store a) = Some p ->
  exists xs ys,
    ordered_siblings self store (children (store p)) = xs ++ a :: ys /\
    NoDup (xs ++ a :: ys) /\ (a ∉ xs) /\ (a ∉ ys).
Proof.
  intros [Hnd Htree] Hp.
  assert (Hin : a ∈ ordered_siblings self store (children (store p)))
    by (apply ordered_siblings_elem; now apply Htree).
  destruct (index_elem _ _ Hin) as [i Hi].
  destruct (index_split _ _ _ Hi) as (xs & ys & Hl & _ & Hxs).
  exists xs, ys. split; [exact Hl|].
  assert (Hnd' : NoDup (xs ++ a :: ys))
    by (rewrite <- Hl; apply ordered_siblings_NoDup, Hnd).
  split; [exact Hnd'|]. split; [exact Hxs|].
  apply NoDup_app in Hnd' as (_ & _ & Hnd'). now apply NoDup_cons in Hnd' as [? _].
Qed.

Lemma mode_active_mk (context : Context) (store : nat -> Bone) (act : option nat) :
  mode_active (match mode context with
               | EDIT_ARMATURE =>
                   mkContext (mode context) store act (bones context) (bones_active context)
               | POSE =>
                   mkContext (mode context) (edit_bones context)
                     (edit_bones_active context) store act
               end) = act.
Proof. unfold mode_active. now destruct (mode context) eqn:E; simpl; rewrite ?E. Qed.

(** X3.  When [execute] finishes, the bone made active is another child of
    the same parent; with [extend] the bone that was active is left exactly
    as it was, and without it that bone, its head and its tail are
    deselected. *)
Theorem execute_extend_keeps_selection
    (self : Operator) (context context' : Context) (a p : nat) :
  mode_active context = Some a ->
  parent (mode_bones context a) = Some p ->
  tree (mode_bones context) ->
  execute self context = Returned (FINISHED, context') ->
  exists next : nat,
    mode_active context' = Some next /\
    next <> a /\
    next ∈ children (mode_bones context p) /\
    if extend self
    then mode_bones context' a = mode_bones context a
    else select (mode_bones context' a) = false /\
         select_head (mode_bones context' a) = false /\
         select_tail (mode_bones context' a) = false.
Proof.
  intros Ha Hp Htree Hrun.
  destruct (active_among_siblings self _ a p Htree Hp) as (xs & ys & Hl & Hnd & Hxs & Hys).
  destruct (execute_cycle_inv self context context' a FINISHED Ha Hrun) as [Hc _].
  rewrite (cycle_split self _ a p xs ys Hp Hl Hxs) in Hc.
  destruct (List.filter _ (ys ++ xs)) as [|next r] eqn:Ef; [discriminate|].
  injection Hc as Hstore Hact.
  assert (Hin : next ∈ ys ++ xs).
  { apply list_elem_of_In. apply (proj1 (List.filter_In (selectable (mode_bones context)) next _)).
    rewrite Ef. now left. }
  assert (Hne : next <> a).
  { intros ->. apply elem_of_app in Hin as [Hin | Hin]; contradiction. }
  exists next. split; [now rewrite <- Hact|]. split; [exact Hne|]. split.
  - apply (ordered_siblings_elem self (mode_bones context)). rewrite Hl.
    apply elem_of_app in Hin as [Hin | Hin].
    + apply elem_of_app. right. now apply elem_of_cons; right.
    + apply elem_of_app. now left.
  - rewrite <- Hstore. rewrite fn_lookup_insert_ne by exact Hne.
    destruct (extend self); [reflexivity|].
    rewrite fn_lookup_insert. repeat split.
Qed.

(** X4.  In the default order, cycling one way and then the other way comes
    back to the bone it started from, provided that bone can itself be
    cycled to (it is neither hidden nor protected from selection). *)
Theorem cycle_there_and_back
    (d : Direction) (e1 e2 : bool) (context context1 : Context) (a p : nat) :
  mode_active context = Some a ->
  parent (mode_bones context a) = Some p ->
  tree (mode_bones context) ->
  hide (mode_bones context a) = false ->
  hide_select (mode_bones context a) = false ->
  execute (mkOperator d e1 DEFAULT) context = Returned (FINISHED, context1) ->
  exists context2 : Context,
    execute (mkOperator (opposite d) e2 DEFAULT) context1 = Returned (FINISHED, context2) /\
    mode_active context2 = Some a.
Proof.
  intros Ha Hp Htree Hh Hhs Hrun.
  set (store := mode_bones context) in *.
  destruct (active_among_siblings (mkOperator d e1 DEFAULT) store a p Htree Hp)
    as (xs & ys & Hl & Hnd & Hxs & Hys).
  destruct (execute_cycle_inv _ context context1 a FINISHED Ha Hrun) as [Hc Hmode].
  fold store in Hc.
  assert (Hsame : same_bones store (mode_bones context1))
    by (eapply cycle_same_bones; exact Hc).
  rewrite (cycle_split _ store a p xs ys Hp Hl Hxs) in Hc.
  destruct (List.filter _ (ys ++ xs)) as [|b r] eqn:Ef; [discriminate|].
  injection Hc as _ Hact.
  assert (Hsel : selectable store a = true) by (unfold selectable; now rewrite Hh, Hhs).
  destruct (chain_back (selectable store) xs ys a b r Hnd Hsel Ef)
    as (xs' & ys' & r' & Hrev & Hb & Hf').
  (* the bone reached is a child of the same parent *)
  assert (Hbin : b ∈ children (store p)).
  { apply (ordered_siblings_elem (mkOperator d e1 DEFAULT) store). rewrite Hl.
    apply elem_of_reverse. rewrite Hrev. apply elem_of_app. right. apply list_elem_of_here. }
  assert (Hbp : parent (mode_bones context1 b) = Some p).
  { destruct (Hsame b) as (_ & _ & _ & -> & _). now apply Htree. }
  (* the siblings seen on the way back *)
  assert (Hl' : ordered_siblings (mkOperator (opposite d) e2 DEFAULT) (mode_bones context1)
                  (children (mode_bones context1 p)) = xs' ++ b :: ys').
  { destruct (Hsame p) as (_ & _ & _ & _ & ->). rewrite <- Hrev, <- Hl.
    unfold ordered_siblings. simpl. destruct d; simpl; [reflexivity|].
    now rewrite reverse_involutive. }
  assert (Hfilter : List.filter (selectable (mode_bones context1)) (ys' ++ xs') = a :: r').
  { rewrite <- Hf'. apply List.filter_ext. intros c. unfold selectable.
    destruct (Hsame c) as (_ & -> & -> & _). reflexivity. }
  rewrite (execute_cycle _ context1 b (eq_sym Hact)).
  rewrite (cycle_split _ (mode_bones context1) b p xs' ys' Hbp Hl' Hb), Hfilter.
  eexists. split; [reflexivity|]. apply mode_active_mk.
Qed.

(** The sample armature is a tree. *)
Lemma sample_store_tree : tree sample_store.
Proof.
  split.
  - intros [|[|[|[|[|p]]]]]; simpl; try apply NoDup_nil_2.
    apply (bool_decide_unpack _). vm_compute. exact I.
  - intros p c. split.
    + intros Hin. destruct p as [|[|[|[|[|p]]]]]; simpl in Hin;
        try (now apply elem_of_nil in Hin).
      repeat (apply elem_of_cons in Hin as [-> | Hin]; [reflexivity|]).
      now apply elem_of_nil in Hin.
    + intros Hp. destruct c as [|[|[|[|[|c]]]]]; simpl in Hp; try discriminate;
        injection Hp as <-; simpl.
      * apply list_elem_of_here.
      * apply list_elem_of_further, list_elem_of_here.
      * do 2 apply list_elem_of_further. apply list_elem_of_here.
      * do 3 apply list_elem_of_further. apply list_elem_of_here.
Qed.

Lemma execute_returns_after_poll_witness :
  exists (st : Status) (context' : Context),
    execute (mkOperator BACKWARDS true ALPHABETICAL) sample_context = Returned (st, context').
Proof.
  apply (execute_returns_after_poll (mkOperator BACKWARDS true ALPHABETICAL) sample_context).
  - reflexivity.
  - exact sample_store_tree.
Defined.

Lemma execute_extend_keeps_selection_witness :
  exists (context' : Context) (next : nat),
    execute (mkOperator FORWARDS true DEFAULT) sample_context = Returned (FINISHED, context') /\
    mode_active context' = Some next /\ next <> 1%nat /\
    mode_bones context' 1%nat = mode_bones sample_context 1%nat.
Proof.
  eexists.
  destruct (execute_extend_keeps_selection (mkOperator FORWARDS true DEFAULT)
              sample_context _ 1%nat 0%nat eq_refl eq_refl sample_store_tree eq_refl)
    as (next & H1 & H2 & _ & H3).
  exists next. split; [reflexivity|]. repeat split; assumption.
Defined.

Lemma cycle_there_and_back_witness :
  exists context1 context2 : Context,
    execute (mkOperator FORWARDS false DEFAULT) sample_context
    = Returned (FINISHED, context1) /\
    execute (mkOperator BACKWARDS false DEFAULT) context1 = Returned (FINISHED, context2) /\
    mode_active context2 = Some 1%nat.
Proof.
  eexists.
  destruct (cycle_there_and_back FORWARDS false false sample_context _ 1%nat 0%nat
              eq_refl eq_refl sample_store_tree eq_refl eq_refl eq_refl) as (c2 & H1 & H2).
  exists c2. split; [reflexivity|]. split; assumption.
Defined.

End BoneCycleMore.

(** ** SelectAllByTraitNumberOfVertexGroups.py: further properties *)

Section SelectByGroupsMore.
Import PyNum SelectByVertexGroups.

(** What [execute] does to an object, vertex by vertex: the vertices stay in
    place, and a vertex keeps everything but, possibly, its selection. *)
Lemma execute_object_frame (self : Operator) (obj : Object) :
  vertex_groups (execute_object self obj) = vertex_groups obj /\
  modifiers (execute_object self obj) = modifiers obj /\
  deform_layer (data (execute_object self obj)) = deform_layer (data obj) /\
  exists g : BMVert -> bool,
    verts (data (execute_object self obj))
    = (fun v => set_select v (g v)) <$> verts (data obj) /\
    (extend self = true -> forall v, select v = true -> g v = true).
Proof.
  assert (Hid : forall l : list BMVert, l = (fun v => set_select v (select v)) <$> l).
  { intros l. rewrite <- (list_fmap_id l) at 1. apply list_fmap_ext.
    intros _ [s [|] d] _; reflexivity. }
  unfold execute_object. destruct (vertex_groups obj) as [|n ns] eqn:Evg.
  { split; [exact Evg|]. repeat split. exists select. split; [apply Hid | auto]. }
  destruct (extend self && Nat.eqb _ _) eqn:Eall.
  { split; [exact Evg|]. repeat split. exists select. split; [apply Hid | auto]. }
  match goal with
  | |- context [if deform_layer (data obj) && ?u then _ else _] =>
      destruct (deform_layer (data obj) && u) eqn:Ebranch
  end.
  - simpl. repeat split; try now rewrite Evg.
    match goal with
    | |- context [visit_vert self ?si] => set (indices := si)
    end.
    exists (fun v => select (visit_vert self indices v)).
    split.
    + apply list_fmap_ext. intros _ v _. unfold visit_vert, set_select.
      destruct v as [s [|] d]; cbn [hide select deform];
        destruct (extend self && s); reflexivity.
    + intros He v Hv. unfold visit_vert. now rewrite He, Hv.
  - destruct (extend self && negb (compare (type self) 0 (number self))) eqn:Eskip.
    { split; [exact Evg|]. repeat split. exists select. split; [apply Hid | auto]. }
    simpl. repeat split; try now rewrite Evg.
    exists (fun _ => compare (type self) 0 (number self)). split; [reflexivity|].
    intros He _ _. rewrite He in Eskip. simpl in Eskip.
    now apply negb_false_iff in Eskip.
Qed.

(** X5.  Whatever the operator properties, [execute] changes nothing but the
    selection of vertices: every object keeps its vertex groups, its
    modifiers and the number of its vertices, and every vertex keeps its
    visibility and its weights. *)
Theorem execute_changes_selection_only (self : Operator) (context : Context) :
  mode (execute self context).2 = mode context /\
  mesh_select_mode (execute self context).2 = mesh_select_mode context /\
  length (objects_in_mode_unique_data (execute self context).2)
  = length (objects_in_mode_unique_data context) /\
  forall (i : nat) (obj obj' : Object),
    objects_in_mode_unique_data context !! i = Some obj ->
    objects_in_mode_unique_data (execute self context).2 !! i = Some obj' ->
    vertex_groups obj' = vertex_groups obj /\
    modifiers obj' = modifiers obj /\
    deform_layer (data obj') = deform_layer (data obj) /\
    length (verts (data obj')) = length (verts (data obj)) /\
    forall (j : nat) (v v' : BMVert),
      verts (data obj) !! j = Some v ->
      verts (data obj') !! j = Some v' ->
      hide v' = hide v /\ deform v' = deform v.
Proof.
  unfold execute. simpl. split; [reflexivity|]. split; [reflexivity|].
  split; [apply length_fmap|].
  intros i obj obj' Hi Hi'. rewrite list_lookup_fmap, Hi in Hi'. injection Hi' as <-.
  destruct (execute_object_frame self obj) as (H1 & H2 & H3 & g & Hg & _).
  split; [exact H1|]. split; [exact H2|]. split; [exact H3|].
  rewrite Hg. split; [apply length_fmap|].
  intros j v v' Hj Hj'. rewrite list_lookup_fmap, Hj in Hj'. injection Hj' as <-.
  unfold set_select. destruct (hide v) eqn:Eh; split; try reflexivity. exact Eh.
Qed.

Lemma execute_changes_selection_only_witness :
  exists obj' : Object,
    objects_in_mode_unique_data
      (execute (mkOperator 4 GREATER_THAN BONE_DEFORM true false) sample_context).2 !! 0%nat
    = Some obj' /\
    vertex_groups obj' = vertex_groups sample_object.
Proof.
  eexists. split; [reflexivity|].
  apply (proj2 (proj2 (proj2 (execute_changes_selection_only
           (mkOperator 4 GREATER_THAN BONE_DEFORM true false) sample_context)))
           0%nat sample_object _ eq_refl eq_refl).
Defined.

(** X6.  With [extend], [execute] never deselects: a vertex that was
    selected is selected afterwards, whatever the subset, the comparison and
    the state of the mesh. *)
Theorem execute_extend_never_deselects
    (self : Operator) (context : Context) (i j : nat) (obj obj' : Object) (v v' : BMVert) :
  extend self = true ->
  objects_in_mode_unique_data context !! i = Some obj ->
  objects_in_mode_unique_data (execute self context).2 !! i = Some obj' ->
  verts (data obj) !! j = Some v ->
  verts (data obj') !! j = Some v' ->
  select v = true ->
  select v' = true.
Proof.
  intros He Hi Hi' Hj Hj' Hs. unfold execute in Hi'. simpl in Hi'.
  rewrite list_lookup_fmap, Hi in Hi'. injection Hi' as <-.
  destruct (execute_object_frame self obj) as (_ & _ & _ & g & Hg & Hgrow).
  rewrite Hg, list_lookup_fmap, Hj in Hj'. injection Hj' as <-.
  unfold set_select. destruct (hide v); [exact Hs|]. simpl. now apply Hgrow.
Qed.

Lemma execute_extend_never_deselects_witness :
  exists v' : BMVert,
    (verts (data (execute_object (mkOperator 4 GREATER_THAN ALL true true) sample_object)))
      !! 0%nat = Some v' /\
    select v' = true.
Proof.
  eexists. split; [reflexivity|].
  apply (execute_extend_never_deselects (mkOperator 4 GREATER_THAN ALL true true)
           sample_context 0 0 sample_object _ _ _ eq_refl eq_refl eq_refl eq_refl eq_refl).
  reflexivity.
Defined.

(** X7.  A mesh that has vertex groups but no deform layer: every visible
    vertex is treated as a vertex in no group.  Without [extend] its
    selection becomes the comparison of 0 with [number]; with [extend] it is
    selected if that comparison holds and keeps its selection otherwise.  A
    hidden vertex keeps its selection, and no vertex changes in anything but
    its selection. *)
Theorem execute_without_deform_layer
    (self : Operator) (obj : Object) (j : nat) (v : BMVert) :
  vertex_groups obj <> [] ->
  deform_layer (data obj) = false ->
  verts (data obj) !! j = Some v ->
  exists v' : BMVert,
    verts (data (execute_object self obj)) !! j = Some v' /\
    hide v' = hide v /\
    deform v' = deform v /\
    (hide v = true -> select v' = select v) /\
    (hide v = false ->
     select v' = if extend self
                 then select v || compare (type self) 0 (number self)
                 else compare (type self) 0 (number self)).
Proof.
  intros Hvg Hdl Hj. unfold execute_object.
  destruct (vertex_groups obj) as [|n ns]; [congruence|].
  destruct (extend self && Nat.eqb _ _) eqn:Eall.
  - apply andb_true_iff in Eall as [He Eall]. apply Nat.eqb_eq in Eall.
    apply filter_all in Eall. rewrite Forall_forall in Eall.
    exists v. rewrite He. split; [exact Hj|]. split; [reflexivity|].
    split; [reflexivity|]. split; [reflexivity|]. intros _.
    rewrite (Eall v) by (eapply list_elem_of_lookup_2; exact Hj). reflexivity.
  - rewrite Hdl. cbn [andb].
    destruct (extend self && negb (compare (type self) 0 (number self))) eqn:Eskip.
    + apply andb_true_iff in Eskip as [He Eskip]. apply negb_true_iff in Eskip.
      exists v. rewrite He, Eskip, orb_false_r. auto.
    + cbn [data verts]. rewrite list_lookup_fmap, Hj. eexists. split; [reflexivity|].
      unfold set_select. destruct (hide v) eqn:Eh; cbn [hide deform select].
      * split; [exact Eh|]. split; [reflexivity|]. split; [reflexivity | discriminate].
      * split; [reflexivity|]. split; [reflexivity|]. split; [discriminate|]. intros _.
        destruct (extend self); [|reflexivity]. simpl in Eskip.
        apply negb_false_iff in Eskip. now rewrite Eskip, orb_true_r.
Qed.

(** The theorem on a mesh with a visible and a hidden vertex, both
    unselected, and "fewer than 4 groups": the visible vertex is selected,
    the hidden one is not. *)
Lemma execute_without_deform_layer_witness :
  exists v' w' : BMVert,
    verts (data (execute_object (mkOperator 4 LESS_THAN ALL true false)
                   (mkObject ["Hips"] []
                      (mkBMesh [mkVert false false ∅; mkVert false true ∅] false))))
      !! 0%nat = Some v' /\
    select v' = true /\
    verts (data (execute_object (mkOperator 4 LESS_THAN ALL true false)
                   (mkObject ["Hips"] []
                      (mkBMesh [mkVert false false ∅; mkVert false true ∅] false))))
      !! 1%nat = Some w' /\
    select w' = false.
Proof.
  destruct (execute_without_deform_layer (mkOperator 4 LESS_THAN ALL true false)
              (mkObject ["Hips"] []
                 (mkBMesh [mkVert false false ∅; mkVert false true ∅] false)) 0
              (mkVert false false ∅)) as (v' & H1 & _ & _ & _ & H2);
    [discriminate | reflexivity | reflexivity |].
  destruct (execute_without_deform_layer (mkOperator 4 LESS_THAN ALL true false)
              (mkObject ["Hips"] []
                 (mkBMesh [mkVert false false ∅; mkVert false true ∅] false)) 1
              (mkVert false true ∅)) as (w' & H3 & _ & _ & H4 & _);
    [discriminate | reflexivity | reflexivity |].
  exists v', w'. split; [exact H1|]. split; [exact (H2 eq_refl)|].
  split; [exact H3 | exact (H4 eq_refl)].
Defined.

Lemma visit_vert_idem (self : Operator) (indices : option (gset nat)) (v : BMVert) :
  visit_vert self indices (visit_vert self indices v) = visit_vert self indices v.
Proof.
  unfold visit_vert, set_select. destruct v as [s h d]. simpl.
  destruct (extend self) eqn:He, s eqn:Es, h eqn:Eh; simpl; rewrite ?He; simpl;
    try reflexivity;
    destruct (compare (type self) (group_count (ignore_zero self) indices d) (number self));
    reflexivity.
Qed.

(** The deform indices of an object depend on its vertex groups and its
    modifiers only. *)
Lemma get_deform_indices_data (obj : Object) (d : BMesh) :
  get_deform_indices (mkObject (vertex_groups obj) (modifiers obj) d)
  = get_deform_indices obj.
Proof. reflexivity. Qed.

Lemma execute_object_idem (self : Operator) (obj : Object) :
  execute_object self (execute_object self obj) = execute_object self obj.
Proof.
  destruct obj as [vg mods [vs dl]].
  destruct vg as [|n ns]; [reflexivity|].
  set (obj := mkObject (n :: ns) mods (mkBMesh vs dl)).
  remember (execute_object self obj) as obj' eqn:E.
  assert (Hstay : execute_object self obj = obj -> execute_object self obj' = obj')
    by (intros H; rewrite E, H; exact H).
  unfold execute_object in E. cbn [obj vertex_groups modifiers data verts deform_layer] in E.
  destruct (extend self && Nat.eqb _ _) eqn:Eall.
  { apply Hstay. unfold execute_object.
    cbn [obj vertex_groups modifiers data verts deform_layer]. now rewrite Eall. }
  match type of E with
  | context [if dl && ?u then _ else _] =>
      set (usable := u) in *; destruct (dl && usable) eqn:Ebranch
  end.
  - subst obj'. unfold execute_object at 1.
    cbn [vertex_groups modifiers data verts deform_layer].
    match goal with
    | |- context [extend self && Nat.eqb (total_vert_sel ?b) ?l] =>
        destruct (extend self && Nat.eqb (total_vert_sel b) l); [reflexivity|]
    end.
    match goal with
    | |- context [if dl && ?u then _ else _] => change u with usable
    end.
    rewrite Ebranch. f_equal. f_equal.
    rewrite <- list_fmap_compose. apply list_fmap_ext. intros _ v _.
    apply visit_vert_idem.
  - destruct (extend self && negb (compare (type self) 0 (number self))) eqn:Eskip.
    { apply Hstay. unfold execute_object.
      cbn [obj vertex_groups modifiers data verts deform_layer]. rewrite Eall.
      match goal with
      | |- context [if dl && ?u then _ else _] => change u with usable
      end.
      now rewrite Ebranch, Eskip. }
    subst obj'. unfold execute_object at 1.
    cbn [vertex_groups modifiers data verts deform_layer].
    match goal with
    | |- context [extend self && Nat.eqb (total_vert_sel ?b) ?l] =>
        destruct (extend self && Nat.eqb (total_vert_sel b) l); [reflexivity|]
    end.
    match goal with
    | |- context [if dl && ?u then _ else _] => change u with usable
    end.
    rewrite Ebranch, Eskip. f_equal. f_equal.
    rewrite <- list_fmap_compose. apply list_fmap_ext. intros _ [s [|] d] _; reflexivity.
Qed.

(** The dictionary from group names to indices, on groups with distinct
    names (the host keeps the names of the vertex groups of an object
    distinct): a name is mapped to the position of its group. *)
Lemma names_to_indices_lookup (names : list string) (name : string) (i : nat) :
  NoDup names ->
  (foldl (fun (m : gmap string nat) p => <[p.2 := p.1]> m) ∅
     (imap (fun i n => (i, n)) names)) !! name = Some i
  <-> names !! i = Some name.
Proof.
  induction names as [|x l IH] using rev_ind; intros Hnd.
  - simpl. rewrite lookup_empty, lookup_nil. split; discriminate.
  - apply NoDup_app in Hnd as (Hl & Hx & _).
    assert (Hxl : x ∉ l).
    { intros Hin. apply (Hx x Hin). apply list_elem_of_here. }
    rewrite imap_app, foldl_app. simpl. rewrite Nat.add_0_r.
    destruct (decide (name = x)) as [-> | Hne].
    + rewrite lookup_insert_eq. split.
      * intros [= <-]. apply list_lookup_middle. reflexivity.
      * intros Hi. f_equal.
        destruct (decide (i < length l)%nat) as [Hlt | Hge].
        -- rewrite lookup_app_l in Hi by exact Hlt.
           exfalso. apply Hxl. eapply list_elem_of_lookup_2. exact Hi.
        -- apply lookup_lt_Some in Hi. rewrite length_app in Hi. simpl in Hi. lia.
    + rewrite lookup_insert_ne by congruence. rewrite (IH Hl). split.
      * intros Hi. rewrite lookup_app_l; [exact Hi|]. eapply lookup_lt_Some. exact Hi.
      * intros Hi. destruct (decide (i < length l)%nat) as [Hlt | Hge].
        -- now rewrite lookup_app_l in Hi.
        -- rewrite lookup_app_r in Hi by lia.
           destruct (i - length l)%nat; simpl in Hi; [congruence | discriminate].
Qed.

(** X9.  On an object whose vertex groups have distinct names,
    [get_deform_indices] returns exactly the indices of the groups named
    after a bone with [use_deform] of the pose of the object of an
    [ARMATURE] modifier that has an object and is shown in the viewport. *)
Theorem get_deform_indices_spec (obj : Object) (i : nat) :
  NoDup (vertex_groups obj) ->
  i ∈ get_deform_indices obj
  <-> exists (m : Modifier) (bones : list Bone) (b : Bone),
        m ∈ modifiers obj /\ mod_type m = "ARMATURE"%string /\
        show_viewport m = true /\ mod_object m = Some bones /\
        b ∈ bones /\ use_deform b = true /\
        vertex_groups obj !! i = Some (bone_name b).
Proof.
  intros Hnd. unfold get_deform_indices, vg_names_to_indices.
  rewrite elem_of_list_to_set, list_elem_of_omap. split.
  - intros (b & Hb & Hi).
    apply list_elem_of_In, List.filter_In in Hb as [Hb Hok].
    apply List.in_concat in Hb as (bones & Hbones & Hbb).
    apply list_elem_of_In in Hbones, Hbb.
    apply list_elem_of_omap in Hbones as (m & Hm & Hsel).
    destruct (String.eqb (mod_type m) "ARMATURE" && show_viewport m) eqn:Ev;
      [|discriminate].
    apply andb_true_iff in Ev as [Ht Hs]. apply String.eqb_eq in Ht.
    apply andb_true_iff in Hok as [Hd _].
    exists m, bones, b. repeat (split; [assumption|]).
    now apply names_to_indices_lookup.
  - intros (m & bones & b & Hm & Ht & Hs & Ho & Hb & Hd & Hi).
    apply (names_to_indices_lookup _ _ _ Hnd) in Hi.
    exists b. split; [|exact Hi].
    apply list_elem_of_In, List.filter_In. split.
    + apply List.in_concat. exists bones. split; [|now apply list_elem_of_In].
      apply list_elem_of_In, list_elem_of_omap. exists m. split; [exact Hm|].
      rewrite Ht, Hs. exact Ho.
    + rewrite Hd. simpl. apply bool_decide_eq_true_2. rewrite Hi. eauto.
Qed.

(** The theorem on the rigged sample: only the first group is a deform
    group. *)
Lemma get_deform_indices_spec_witness :
  0%nat ∈ get_deform_indices rigged_object.
Proof.
  apply (get_deform_indices_spec rigged_object 0).
  - apply (bool_decide_unpack _). vm_compute. exact I.
  - exists (mkModifier "ARMATURE"
              (Some [mkBone "Hips" true; mkBone "Root" false; mkBone "Tail" true]) true),
      [mkBone "Hips" true; mkBone "Root" false; mkBone "Tail" true],
      (mkBone "Hips" true).
    split; [apply list_elem_of_here|]. split; [reflexivity|]. split; [reflexivity|].
    split; [reflexivity|]. split; [apply list_elem_of_here|]. split; reflexivity.
Defined.

Lemma filter_split_length {A} (f g h : A -> bool) (l : list A) :
  (forall x, x ∈ l -> f x = true -> xorb (g x) (h x) = true) ->
  (length (List.filter (fun x => f x && g x) l)
   + length (List.filter (fun x => f x && h x) l)
   = length (List.filter f l))%nat.
Proof.
  induction l as [|x l IH]; intros H; [reflexivity|].
  assert (IH' := IH (fun y Hy => H y (list_elem_of_further _ _ _ Hy))).
  specialize (H x (list_elem_of_here _ _)).
  simpl. destruct (f x) eqn:Ef; simpl; [|exact IH'].
  specialize (H eq_refl).
  destruct (g x), (h x); simpl in *; try discriminate; lia.
Qed.

(** X10.  The subsets partition the groups: for a vertex whose weights
    refer to vertex groups of the object, the count over [BONE_DEFORM] and
    the count over [OTHER_DEFORM] add up to the count over [ALL], with and
    without [ignore_zero]. *)
Theorem group_count_partition (obj : Object) (ignore_zero : bool)
    (bmdeformvert : gmap nat Q) :
  (forall i, i ∈ dom bmdeformvert -> (i < length (vertex_groups obj))%nat) ->
  (group_count ignore_zero (Some (get_deform_indices obj)) bmdeformvert
   + group_count ignore_zero
       (Some (list_to_set (seq 0 (length (vertex_groups obj)))
                ∖ get_deform_indices obj)) bmdeformvert
   = group_count ignore_zero None bmdeformvert)%nat.
Proof.
  intros Hdom. set (D := get_deform_indices obj).
  set (R := list_to_set (seq 0 (length (vertex_groups obj))) : gset nat).
  assert (HR : forall i, i ∈ dom bmdeformvert -> i ∈ R).
  { intros i Hi. apply elem_of_list_to_set, elem_of_seq. specialize (Hdom i Hi). lia. }
  unfold group_count. destruct ignore_zero.
  - assert (Hf : forall l : list (nat * Q),
              List.filter truthy l.*2 = (List.filter (fun p => truthy p.2) l).*2).
    { induction l as [|p l IH]; [reflexivity|].
      rewrite fmap_cons. cbn [List.filter].
      destruct (truthy p.2); rewrite ?fmap_cons; now rewrite IH. }
    rewrite Hf, length_fmap.
    apply (filter_split_length (fun p : nat * Q => truthy p.2)
             (fun p => bool_decide (p.1 ∈ D)) (fun p => bool_decide (p.1 ∈ R ∖ D))).
    intros [i w] Hin _. simpl.
    assert (Hi : i ∈ R).
    { apply HR, elem_of_dom. exists w. now apply elem_of_map_to_list. }
    destruct (decide (i ∈ D)) as [HD | HD].
    + rewrite (bool_decide_eq_true_2 _ HD), bool_decide_eq_false_2; [reflexivity|].
      rewrite elem_of_difference. tauto.
    + rewrite (bool_decide_eq_false_2 _ HD), bool_decide_eq_true_2; [reflexivity|].
      rewrite elem_of_difference. tauto.
  - rewrite <- size_dom, <- size_union.
    + f_equal. apply leibniz_equiv. intros i.
      rewrite elem_of_union, !elem_of_intersection, elem_of_difference.
      specialize (HR i). destruct (decide (i ∈ D)); tauto.
    + intros i. rewrite !elem_of_intersection, elem_of_difference. tauto.
Qed.

(** The theorem on the first vertex of the rigged sample: one weight on a
    deform group and one, zero, on another group. *)
Lemma group_count_partition_witness :
  (group_count false (Some (get_deform_indices rigged_object))
     (<[0%nat := 1%Q]> (<[2%nat := 0%Q]> ∅))
   + group_count false
       (Some (list_to_set (seq 0 3) ∖ get_deform_indices rigged_object))
       (<[0%nat := 1%Q]> (<[2%nat := 0%Q]> ∅))
   = 2)%nat.
Proof.
  rewrite (group_count_partition rigged_object false
             (<[0%nat := 1%Q]> (<[2%nat := 0%Q]> ∅))).
  - vm_compute. reflexivity.
  - intros i Hi. apply elem_of_dom in Hi as [w Hw]. simpl.
    destruct (decide (i < 3)%nat) as [Hlt | Hge]; [exact Hlt|].
    rewrite !lookup_insert_ne, lookup_empty in Hw by lia. discriminate.
Defined.

(** X8.  Running the operator again with the same properties changes
    nothing more: [execute] after [execute] gives what one [execute]
    gives. *)
Theorem execute_idempotent (self : Operator) (context : Context) :
  execute self (execute self context).2 = execute self context.
Proof.
  unfold execute. simpl. do 2 f_equal.
  rewrite <- list_fmap_compose. apply list_fmap_ext. intros _ obj _.
  apply execute_object_idem.
Qed.

End SelectByGroupsMore.

(** ** UnAtlasSelection.py: the division size in closed form, the cell of
    the atlas, and what the script leaves alone *)

Section UnAtlasMore.
Import PyNum UnAtlasSelection.

Lemma exceeds_mono (x : Q) (j n : Z) :
  (0 < x)%Q -> 0 <= j <= n -> exceeds x j = true -> exceeds x n = true.
Proof.
  intros Hx Hjn Hj. apply exceeds_true, exceeds_iff in Hj; [|lia].
  apply exceeds_true, exceeds_iff; [lia|].
  assert (Ha : 0 < Qnum x) by (destruct x; unfold Qlt in Hx; simpl in *; lia).
  assert (Hp : 2 ^ j <= 2 ^ n) by (apply Z.pow_le_mono_r; lia).
  nia.
Qed.

(** The result of [get_division_size] on a positive length, by the test of
    its loop: the test holds one step after the result and fails at it. *)
Lemma division_size_exceeds (w : Q) (k : Z) :
  (0 < w)%Q ->
  get_division_size w = Some (Returned k)
  <-> -1 <= k /\ exceeds w (k + 1) = true /\ (0 <= k -> exceeds w k = false).
Proof.
  intros Hw.
  destruct (division_loop_least w Hw) as (n & Hn & Hfn & Hlt & Hrun).
  assert (Hres : get_division_size w = Some (Returned (n - 1))).
  { unfold get_division_size, get_division_size_fuel.
    assert (Hpos : Qle_bool w 0 = false).
    { apply not_true_iff_false. rewrite Qle_bool_iff. now apply Qlt_not_le. }
    rewrite Hpos, Hrun; [reflexivity|]. unfold division_fuel. lia. }
  rewrite Hres. split.
  - intros [= <-]. split; [lia|].
    replace (n - 1 + 1) with n by lia. split; [exact Hfn|].
    intros Hk. apply Hlt. lia.
  - intros (Hk & Htrue & Hfalse). do 2 f_equal.
    destruct (Z.lt_trichotomy n (k + 1)) as [Hlt' | [Heq | Hgt]]; [|lia|].
    + assert (Hk0 : 0 <= k) by lia. specialize (Hfalse Hk0).
      rewrite (exceeds_mono w n k Hw) in Hfalse; [discriminate | lia | exact Hfn].
    + rewrite Hlt in Htrue by lia. discriminate.
Qed.

Lemma division_size_at_least (w : Q) (n k : Z) :
  (0 < w)%Q -> 0 <= n -> exceeds w n = false ->
  get_division_size w = Some (Returned k) -> n <= k.
Proof.
  intros Hw Hn Hfalse Hk. apply (division_size_exceeds w k Hw) in Hk as (Hk & Htrue & _).
  destruct (Z_le_gt_dec n k) as [Hle | Hgt]; [exact Hle|].
  rewrite (exceeds_mono w (k + 1) n Hw) in Hfalse; [discriminate | lia | exact Htrue].
Qed.

Lemma division_size_at_most (w : Q) (n k : Z) :
  (0 < w)%Q -> 0 <= n -> exceeds w (n + 1) = true ->
  get_division_size w = Some (Returned k) -> k <= n.
Proof.
  intros Hw Hn Htrue Hk. apply (division_size_exceeds w k Hw) in Hk as (Hk & _ & Hfalse).
  destruct (Z_le_gt_dec k n) as [Hle | Hgt]; [exact Hle|].
  assert (Hk0 : 0 <= k) by lia. specialize (Hfalse Hk0).
  rewrite (exceeds_mono w (n + 1) k Hw) in Hfalse; [discriminate | lia | exact Htrue].
Qed.

(** X11.  [get_division_size] in closed form: on a positive length the
    result is [-1] exactly when the length is above 1, and it is [k >= 0]
    exactly when the length lies in the interval from [1/2**(k+1)],
    excluded, to [1/2**k], included. *)
Theorem get_division_size_closed_form (normalized_length : Q) (k : Z) :
  (0 < normalized_length)%Q ->
  get_division_size normalized_length = Some (Returned k)
  <-> (k = -1 /\ (1 < normalized_length)%Q) \/
      (0 <= k /\ (1 / inject_Z (2 ^ (k + 1)) < normalized_length)%Q /\
       (normalized_length <= 1 / inject_Z (2 ^ k))%Q).
Proof.
  intros Hw. rewrite (division_size_exceeds _ _ Hw).
  assert (H1 : (1 < normalized_length)%Q <-> exceeds normalized_length 0 = true).
  { rewrite exceeds_true, exceeds_iff by lia.
    destruct normalized_length as [a b]. unfold Qlt. simpl. lia. }
  split.
  - intros (Hk & Htrue & Hfalse).
    destruct (Z.eq_dec k (-1)) as [-> | Hne].
    + left. split; [reflexivity|]. apply H1. exact Htrue.
    + right. split; [lia|]. split; [now apply exceeds_true|].
      apply Qnot_lt_le. apply exceeds_false. apply Hfalse. lia.
  - intros [[-> Hgt] | (Hk & Hlo & Hhi)].
    + split; [lia|]. split; [now apply H1 | intros; lia].
    + split; [lia|]. split; [now apply exceeds_true|].
      intros _. apply exceeds_false. now apply Qle_not_lt.
Qed.

(** The theorem on three tenths of the atlas: between a quarter and a
    half, so the division size is 1. *)
Lemma get_division_size_closed_form_witness :
  get_division_size (3 # 10) = Some (Returned 1).
Proof.
  apply (get_division_size_closed_form (3 # 10) 1).
  - unfold Qlt. simpl. lia.
  - right. split; [lia|]. split; [unfold Qlt; simpl; lia | unfold Qle; simpl; lia].
Defined.

Lemma Qfloor_unique (x : Q) (i : Z) :
  (inject_Z i <= x)%Q -> (x < inject_Z (i + 1))%Q -> Qfloor x = i.
Proof.
  intros Hlo Hhi. pose proof (Qfloor_le x) as H1. pose proof (Qlt_floor x) as H2.
  assert (Qfloor x < i + 1).
  { rewrite Zlt_Qlt. eapply Qle_lt_trans; eassumption. }
  assert (i < Qfloor x + 1).
  { rewrite Zlt_Qlt. eapply Qle_lt_trans; eassumption. }
  lia.
Qed.

Lemma pow2_inject (n : Z) : 0 <= n -> (pow2 n == inject_Z (2 ^ n))%Q.
Proof. intros Hn. unfold pow2. now rewrite Zpower_Qpower. Qed.

(** The script never fails to end, whatever the selection: the loops of
    [get_division_size] are run with enough fuel. *)
Lemma find_cell_ends (a : bool) (u0 : Q) (us : list Q) (v0 : Q) (vs : list Q) :
  (exists c, find_cell a u0 us v0 vs = Some (Returned c) /\
             (0 < py_max u0 us - py_min u0 us)%Q /\ (0 < py_max v0 vs - py_min v0 vs)%Q) \/
  (find_cell a u0 us v0 vs = Some (Raised "RuntimeError" division_size_msg) /\
   ((py_max u0 us - py_min u0 us <= 0)%Q \/ (py_max v0 vs - py_min v0 vs <= 0)%Q)).
Proof.
  unfold find_cell.
  destruct (Qlt_le_dec 0 (py_max u0 us - py_min u0 us)) as [Hw | Hw].
  - destruct (get_division_size_returns _ Hw) as [kx ->]. cbn [bind_outcome].
    destruct (Qlt_le_dec 0 (py_max v0 vs - py_min v0 vs)) as [Hh | Hh].
    + destruct (get_division_size_returns _ Hh) as [ky ->]. cbn [bind_outcome].
      left. eexists. split; [reflexivity|]. split; assumption.
    + right. unfold get_division_size. rewrite (get_division_size_raises _ _ Hh).
      split; [reflexivity | now right].
  - right. unfold get_division_size. rewrite (get_division_size_raises _ _ Hw).
    split; [reflexivity | now left].
Qed.

Lemma nothing_selected (loops : list BMLoopUV) : forall i,
  List.filter select loops = [] -> selected_from i loops = [].
Proof.
  induction loops as [|l rest IH]; intros i; simpl; [reflexivity|].
  destruct (select l); [discriminate|]. apply IH.
Qed.

(** X12.  On a layer whose coordinates are numbers (no infinity, no NaN),
    the script ends, and what it touches is the coordinates of the selected
    elements only.  It raises [RuntimeError] exactly when there is a
    selection whose bounding box has no width or no height; otherwise it
    returns the layer with every element in place, its selection and its
    pin as they were, and the elements that are not selected unchanged;
    without a selection the layer is returned as it was.  This holds for
    both values of [allow_non_square]. *)
Theorem unatlas_ends_and_keeps_the_rest (allow_non_square : bool) (loops : list BMLoopUV) :
  (List.filter select loops = [] ->
     unatlas allow_non_square loops = Some (Returned loops)) /\
  ((exists loops', unatlas allow_non_square loops = Some (Returned loops') /\
      (forall (c0 : Q * Q) (cs : list (Q * Q)),
         uv <$> List.filter select loops = c0 :: cs ->
         (0 < py_max c0.1 cs.*1 - py_min c0.1 cs.*1)%Q /\
         (0 < py_max c0.2 cs.*2 - py_min c0.2 cs.*2)%Q) /\
      length loops' = length loops /\
      forall (i : nat) (l : BMLoopUV), loops !! i = Some l ->
        exists l', loops' !! i = Some l' /\
          select l' = select l /\ pin_uv l' = pin_uv l /\
          (select l = false -> l' = l)) \/
   (unatlas allow_non_square loops = Some (Raised "RuntimeError" division_size_msg) /\
    exists (c0 : Q * Q) (cs : list (Q * Q)),
      uv <$> List.filter select loops = c0 :: cs /\
      ((py_max c0.1 cs.*1 - py_min c0.1 cs.*1 <= 0)%Q \/
       (py_max c0.2 cs.*2 - py_min c0.2 cs.*2 <= 0)%Q))).
Proof.
  split.
  - intros Hnone. unfold unatlas. now rewrite (nothing_selected loops 0 Hnone).
  - destruct (uv <$> List.filter select loops) as [|c0 cs] eqn:Hsel.
    + left. exists loops. split.
      * unfold unatlas. apply fmap_nil_inv in Hsel.
        now rewrite (nothing_selected loops 0 Hsel).
      * split; [discriminate|]. split; [reflexivity|]. intros i l Hl. exists l. auto.
    + rewrite (unatlas_unfold allow_non_square loops c0 cs Hsel).
      destruct (find_cell_ends allow_non_square c0.1 cs.*1 c0.2 cs.*2)
        as [(c & -> & Hw & Hh) | [-> Hbox]]; cbn [bind_outcome].
      * left. eexists. split; [reflexivity|].
        split; [intros c0' cs' [= <- <-]; split; assumption|].
        split; [apply length_fmap|].
        intros i l Hl. rewrite list_lookup_fmap, Hl. simpl.
        eexists. split; [reflexivity|].
        destruct (select l) eqn:El; simpl; auto.
        split; [exact El|]. split; [reflexivity|]. discriminate.
      * right. split; [reflexivity|]. exists c0, cs. split; [reflexivity | exact Hbox].
Qed.

(** The theorem on the selection inside the lower left quarter of the
    atlas: the script returns, and the last element, which is not selected,
    stays where it is. *)
Lemma unatlas_ends_and_keeps_the_rest_witness :
  exists loops' : list BMLoopUV,
    unatlas false lower_left_quarter = Some (Returned loops') /\
    length loops' = 4%nat /\
    loops' !! 3%nat = Some (mkLoopUV (3 # 4, 3 # 4)%Q false false).
Proof.
  destruct (proj2 (unatlas_ends_and_keeps_the_rest false lower_left_quarter))
    as [(loops' & E & _ & Hlen & Hrest) | [E _]].
  - exists loops'. split; [exact E|]. split; [exact Hlen|].
    destruct (Hrest 3%nat _ eq_refl) as (l' & Hl' & _ & _ & Hsame).
    now rewrite Hl', (Hsame eq_refl).
  - vm_compute in E. discriminate.
Defined.

(** X13.  The intended use of the script.  When the selection lies in
    the cell [(i, j)] of the atlas cut into [2**n] times [2**n] cells
    ([n >= 0], [i, j >= 0]), its bounding box has a width and a height, and
    one of them is more than half a cell, the script finds that cell: every
    selected coordinate [(u, v)] becomes [(u * 2**n - i, v * 2**n - j)],
    which lies in the unit square; the rest of the layer stays. *)
Theorem unatlas_cell_to_unit_square
    (loops : list BMLoopUV) (c0 : Q * Q) (cs : list (Q * Q)) (n i j : Z) :
  uv <$> List.filter select loops = c0 :: cs ->
  let min_u := py_min c0.1 cs.*1 in
  let max_u := py_max c0.1 cs.*1 in
  let min_v := py_min c0.2 cs.*2 in
  let max_v := py_max c0.2 cs.*2 in
  let g := inject_Z (2 ^ n) in
  0 <= n -> 0 <= i -> 0 <= j ->
  (inject_Z i / g <= min_u)%Q -> (max_u <= inject_Z (i + 1) / g)%Q ->
  (inject_Z j / g <= min_v)%Q -> (max_v <= inject_Z (j + 1) / g)%Q ->
  (0 < max_u - min_u)%Q -> (0 < max_v - min_v)%Q ->
  ((1 / inject_Z (2 ^ (n + 1)) < max_u - min_u)%Q \/
   (1 / inject_Z (2 ^ (n + 1)) < max_v - min_v)%Q) ->
  exists loops' : list BMLoopUV,
    unatlas false loops = Some (Returned loops') /\
    length loops' = length loops /\
    forall (p : nat) (l : BMLoopUV), loops !! p = Some l ->
      exists l', loops' !! p = Some l' /\
        if select l
        then select l' = true /\ pin_uv l' = pin_uv l /\
             ((uv l').1 == (uv l).1 * g - inject_Z i)%Q /\
             ((uv l').2 == (uv l).2 * g - inject_Z j)%Q /\
             (0 <= (uv l').1 <= 1)%Q /\ (0 <= (uv l').2 <= 1)%Q
        else l' = l.
Proof.
  intros Hsel min_u max_u min_v max_v g Hn Hi Hj Hu1 Hu2 Hv1 Hv2 Hw Hh Hhalf.
  assert (Hg : (0 < g)%Q).
  { unfold g. change 0%Q with (inject_Z 0). rewrite <- Zlt_Qlt.
    apply Z.pow_pos_nonneg; lia. }
  assert (Hg0 : ~ (g == 0)%Q) by (intros E; rewrite E in Hg; discriminate).
  assert (Hpow : (pow2 n == g)%Q) by (now apply pow2_inject).
  (* The bounds, multiplied out. *)
  assert (Hmul : forall (a : Z) (x : Q), (inject_Z a / g <= x)%Q -> (inject_Z a <= x * g)%Q).
  { intros a x H. apply (Qmult_le_compat_r _ _ g) in H; [|now apply Qlt_le_weak].
    assert (E : (inject_Z a / g * g == inject_Z a)%Q) by (field; exact Hg0).
    rewrite E in H. exact H. }
  assert (Hmul' : forall (a : Z) (x : Q), (x <= inject_Z a / g)%Q -> (x * g <= inject_Z a)%Q).
  { intros a x H. apply (Qmult_le_compat_r _ _ g) in H; [|now apply Qlt_le_weak].
    assert (E : (inject_Z a / g * g == inject_Z a)%Q) by (field; exact Hg0).
    rewrite E in H. exact H. }
  assert (Hscale : forall x y : Q, (x <= y)%Q -> (x * g <= y * g)%Q).
  { intros x y H. apply Qmult_le_compat_r; [exact H | now apply Qlt_le_weak]. }
  assert (Hscale' : forall x y : Q, (x < y)%Q -> (x * g < y * g)%Q).
  { intros x y H. apply Qmult_lt_compat_r; assumption. }
  apply Hmul in Hu1, Hv1. apply Hmul' in Hu2, Hv2.
  rewrite inject_Z_plus in Hu2, Hv2.
  change (inject_Z 1) with 1%Q in Hu2, Hv2.
  assert (Hw' : (min_u * g < max_u * g)%Q) by (apply Hscale'; lra).
  assert (Hh' : (min_v * g < max_v * g)%Q) by (apply Hscale'; lra).
  (* Neither side of the bounding box is longer than a cell. *)
  assert (Hfit : forall w : Q, (w * g <= 1)%Q -> exceeds w n = false).
  { intros w Hle. apply exceeds_false, Qle_not_lt. fold g.
    apply Qle_shift_div_l; assumption. }
  assert (Hfu : exceeds (max_u - min_u) n = false).
  { apply Hfit.
    assert (E : ((max_u - min_u) * g == max_u * g - min_u * g)%Q) by ring.
    rewrite E. lra. }
  assert (Hfv : exceeds (max_v - min_v) n = false).
  { apply Hfit.
    assert (E : ((max_v - min_v) * g == max_v * g - min_v * g)%Q) by ring.
    rewrite E. lra. }
  destruct (get_division_size_returns _ Hw) as [kx Ex].
  destruct (get_division_size_returns _ Hh) as [ky Ey].
  assert (Hkx : n <= kx) by exact (division_size_at_least _ n kx Hw Hn Hfu Ex).
  assert (Hky : n <= ky) by exact (division_size_at_least _ n ky Hh Hn Hfv Ey).
  assert (Hmin : Z.min kx ky = n).
  { destruct Hhalf as [Hhalf | Hhalf]; apply exceeds_true in Hhalf.
    - assert (kx <= n) by exact (division_size_at_most _ n kx Hw Hn Hhalf Ex). lia.
    - assert (ky <= n) by exact (division_size_at_most _ n ky Hh Hn Hhalf Ey). lia. }
  (* The corner is the corner of the cell. *)
  assert (Hi' : (0 <= inject_Z i)%Q)
    by (change 0%Q with (inject_Z 0); rewrite <- Zle_Qle; exact Hi).
  assert (Hj' : (0 <= inject_Z j)%Q)
    by (change 0%Q with (inject_Z 0); rewrite <- Zle_Qle; exact Hj).
  assert (Hcu : py_int (min_u * pow2 n) = i).
  { assert (E : (min_u * pow2 n == min_u * g)%Q) by (now rewrite Hpow).
    rewrite py_int_floor by (rewrite E; lra).
    rewrite (Qfloor_comp _ _ E).
    apply Qfloor_unique; [exact Hu1|].
    rewrite inject_Z_plus. change (inject_Z 1) with 1%Q. lra. }
  assert (Hcv : py_int (min_v * pow2 n) = j).
  { assert (E : (min_v * pow2 n == min_v * g)%Q) by (now rewrite Hpow).
    rewrite py_int_floor by (rewrite E; lra).
    rewrite (Qfloor_comp _ _ E).
    apply Qfloor_unique; [exact Hv1|].
    rewrite inject_Z_plus. change (inject_Z 1) with 1%Q. lra. }
  rewrite (unatlas_unfold false loops c0 cs Hsel). unfold find_cell.
  fold min_u max_u min_v max_v. rewrite Ex, Ey.
  cbn [bind_outcome vec_to_subtract vec_to_scale]. rewrite Hmin.
  fold (find_closest_division (pow2 n) min_u) (find_closest_division (pow2 n) min_v).
  unfold find_closest_division. rewrite Hcu, Hcv.
  eexists. split; [reflexivity|]. split; [apply length_fmap|].
  intros p l Hl. rewrite list_lookup_fmap, Hl. simpl.
  eexists. split; [reflexivity|].
  destruct (select l) eqn:El; [|reflexivity].
  (* A selected coordinate lies in the bounding box. *)
  assert (Hin : uv l ∈ c0 :: cs).
  { rewrite <- Hsel. apply list_elem_of_fmap. exists l. split; [reflexivity|].
    apply list_elem_of_In, List.filter_In. split; [|exact El].
    apply list_elem_of_In. eapply list_elem_of_lookup_2. exact Hl. }
  destruct (bounding_box c0.1 cs.*1) as (Bu & _ & _).
  destruct (bounding_box c0.2 cs.*2) as (Bv & _ & _).
  rewrite Forall_forall in Bu, Bv.
  assert (Hbu : (min_u <= (uv l).1 <= max_u)%Q).
  { apply Bu. change (c0.1 :: cs.*1) with ((c0 :: cs).*1).
    apply list_elem_of_fmap. exists (uv l). split; [reflexivity | exact Hin]. }
  assert (Hbv : (min_v <= (uv l).2 <= max_v)%Q).
  { apply Bv. change (c0.2 :: cs.*2) with ((c0 :: cs).*2).
    apply list_elem_of_fmap. exists (uv l). split; [reflexivity | exact Hin]. }
  destruct Hbu as [Hbu1 Hbu2]. destruct Hbv as [Hbv1 Hbv2].
  apply Hscale in Hbu1, Hbu2, Hbv1, Hbv2.
  assert (Eu : (((uv l).1 - inject_Z i / pow2 n) * pow2 n == (uv l).1 * g - inject_Z i)%Q).
  { rewrite Hpow. field. exact Hg0. }
  assert (Ev : (((uv l).2 - inject_Z j / pow2 n) * pow2 n == (uv l).2 * g - inject_Z j)%Q).
  { rewrite Hpow. field. exact Hg0. }
  unfold set_uv, vec_mul, vec_sub. cbn [uv select pin_uv fst snd].
  split; [exact El|]. split; [reflexivity|].
  split; [exact Eu|]. split; [exact Ev|].
  rewrite Eu, Ev. split; split; lra.
Qed.

(** A quarter of the atlas: the cell (1, 0) of the grid of two times two
    cells, filled in its width by the selection. *)
Lemma unatlas_cell_to_unit_square_witness :
  exists loops' : list BMLoopUV,
    unatlas false lower_right_quarter = Some (Returned loops') /\
    length loops' = 3%nat.
Proof.
  destruct (unatlas_cell_to_unit_square lower_right_quarter
              (1 # 2, 1 # 10)%Q [(1, 2 # 5)%Q] 1 1 0 eq_refl)
    as (loops' & E & L & _);
    try lia; try (vm_compute; discriminate); try (vm_compute; reflexivity).
  - left. vm_compute. reflexivity.
  - exists loops'. split; [exact E | exact L].
Defined.

End UnAtlasMore.

(** ** CopyUVsToOtherUVMap.py: what the copy writes, what it leaves alone,
    what it reports, and the names of the menu *)

Section CopyUVsMore.
Import PyNum CopyUVsToOtherUVMap.

Lemma copy_attributes_idem (self : Operator) (a x : BMLoopUV) :
  copy_attributes self a (copy_attributes self a x) = copy_attributes self a x.
Proof.
  unfold copy_attributes.
  destruct (copy_x self), (copy_y self), (copy_pin self), (copy_select self); reflexivity.
Qed.

(** One pass of the loop over the loops of the visible faces, seen from the
    data of the target UV map. *)
Lemma copy_loop_data (self : Operator) (A T : list BMLoopUV) (b : bool) (p0 p : nat) :
  (copy_loop self A (T, b) p0).1 !! p
  = match A !! p, T !! p with
    | Some a, Some x =>
        Some (if bool_decide (p = p0) && passes_filters self a
              then copy_attributes self a x else x)
    | _, o => o
    end.
Proof.
  unfold copy_loop. cbn [fst].
  destruct (decide (p = p0)) as [-> | Hne].
  - rewrite (bool_decide_eq_true_2 _ eq_refl). cbn [andb].
    destruct (A !! p0) as [a|] eqn:EA; [|reflexivity].
    destruct (T !! p0) as [x|] eqn:ET; [|cbn [fst]; now rewrite ET].
    destruct (passes_filters self a); cbn [fst]; [|exact ET].
    apply list_lookup_insert_eq. eapply lookup_lt_Some. exact ET.
  - rewrite (bool_decide_eq_false_2 _ Hne). cbn [andb].
    assert (Hsame : (match A !! p0, T !! p0 with
                     | Some active_loop, Some target_loop =>
                         if passes_filters self active_loop
                         then (<[p0 := copy_attributes self active_loop target_loop]> T, true)
                         else (T, b)
                     | _, _ => (T, b)
                     end).1 !! p = T !! p).
    { destruct (A !! p0) as [a0|]; [|reflexivity].
      destruct (T !! p0) as [x0|]; [|reflexivity].
      destruct (passes_filters self a0); [|reflexivity].
      cbn [fst]. apply list_lookup_insert_ne. congruence. }
    rewrite Hsame. destruct (A !! p), (T !! p); reflexivity.
Qed.

(** The whole loop: a loop that is visited and passes the filters gets the
    attributes of the active UV map, every other loop keeps its own. *)
Lemma copy_loops_data (self : Operator) (A : list BMLoopUV) :
  forall (ls : list nat) (T : list BMLoopUV) (b : bool) (p : nat),
    (fold_left (copy_loop self A) ls (T, b)).1 !! p
    = match A !! p, T !! p with
      | Some a, Some x =>
          Some (if bool_decide (p ∈ ls) && passes_filters self a
                then copy_attributes self a x else x)
      | _, o => o
      end.
Proof.
  induction ls as [|p0 rest IH]; intros T b p.
  - cbn [fold_left fst].
    rewrite (bool_decide_eq_false_2 (p ∈ [])) by apply not_elem_of_nil.
    destruct (A !! p), (T !! p); reflexivity.
  - cbn [fold_left].
    destruct (copy_loop self A (T, b) p0) as [T1 b1] eqn:E1.
    rewrite IH. pose proof (copy_loop_data self A T b p0 p) as H1.
    rewrite E1 in H1. cbn [fst] in H1. rewrite H1.
    destruct (A !! p) as [a|]; [|reflexivity].
    destruct (T !! p) as [x|]; [|reflexivity].
    f_equal.
    destruct (passes_filters self a); [|now rewrite !andb_false_r].
    rewrite !andb_true_r.
    destruct (decide (p = p0)) as [-> | Hne].
    + rewrite (bool_decide_eq_true_2 (p0 = p0) eq_refl).
      rewrite (bool_decide_eq_true_2 (p0 ∈ p0 :: rest)) by apply list_elem_of_here.
      destruct (bool_decide (p0 ∈ rest)); [apply copy_attributes_idem | reflexivity].
    + rewrite (bool_decide_eq_false_2 (p = p0)) by exact Hne.
      destruct (decide (p ∈ rest)) as [Hin | Hnin].
      * rewrite (bool_decide_eq_true_2 _ Hin).
        now rewrite bool_decide_eq_true_2 by (now apply list_elem_of_further).
      * rewrite (bool_decide_eq_false_2 _ Hnin).
        rewrite bool_decide_eq_false_2; [reflexivity|].
        rewrite elem_of_cons. tauto.
Qed.

Lemma copy_loops_length (self : Operator) (A : list BMLoopUV) :
  forall (ls : list nat) (T : list BMLoopUV) (b : bool),
    length (fold_left (copy_loop self A) ls (T, b)).1 = length T.
Proof.
  induction ls as [|p0 rest IH]; intros T b; [reflexivity|].
  cbn [fold_left]. destruct (copy_loop self A (T, b) p0) as [T1 b1] eqn:E1.
  rewrite IH. unfold copy_loop in E1. cbn [fst] in E1.
  destruct (A !! p0); [|now injection E1 as <- _].
  destruct (T !! p0); [|now injection E1 as <- _].
  destruct (passes_filters self _); injection E1 as <- _; [apply length_insert | reflexivity].
Qed.

(** [attributes_modified] stays set, and without it nothing was written. *)
Lemma copy_loops_modified (self : Operator) (A : list BMLoopUV) :
  forall (ls : list nat) (T : list BMLoopUV),
    (fold_left (copy_loop self A) ls (T, true)).2 = true.
Proof.
  induction ls as [|p0 rest IH]; intros T; [reflexivity|].
  cbn [fold_left]. unfold copy_loop at 2. cbn [fst].
  destruct (A !! p0); [|apply IH]. destruct (T !! p0); [|apply IH].
  destruct (passes_filters self _); apply IH.
Qed.

Lemma copy_loops_unmodified (self : Operator) (A : list BMLoopUV) :
  forall (ls : list nat) (T T' : list BMLoopUV) (b : bool),
    fold_left (copy_loop self A) ls (T, b) = (T', false) -> T' = T.
Proof.
  induction ls as [|p0 rest IH]; intros T T' b E.
  - cbn in E. now injection E as <- _.
  - cbn [fold_left] in E. unfold copy_loop at 2 in E. cbn [fst] in E.
    destruct (A !! p0); [|now apply IH in E]. destruct (T !! p0); [|now apply IH in E].
    destruct (passes_filters self _); [|now apply IH in E].
    pose proof (copy_loops_modified self A rest
                  (<[p0 := copy_attributes self b0 b1]> T)) as Hm.
    rewrite E in Hm. discriminate.
Qed.

Lemma find_layer_Some (layers : list UVLayer) (n : string) : forall t,
  find_layer layers n = Some t ->
  exists l, layers !! t = Some l /\ layer_name l = n /\
            forall k l', (k < t)%nat -> layers !! k = Some l' -> layer_name l' <> n.
Proof.
  induction layers as [|l rest IH]; intros t E; [discriminate|].
  cbn [find_layer] in E. destruct (String.eqb (layer_name l) n) eqn:En.
  - injection E as <-. apply String.eqb_eq in En. exists l.
    split; [reflexivity|]. split; [exact En|]. intros k l' Hk. lia.
  - apply String.eqb_neq in En.
    destruct (find_layer rest n) as [t'|] eqn:Et; [|discriminate].
    injection E as <-. destruct (IH t' eq_refl) as (l0 & Hl0 & Hn0 & Hfirst).
    exists l0. split; [exact Hl0|]. split; [exact Hn0|].
    intros [|k] l' Hk Hl'.
    + injection Hl' as <-. exact En.
    + apply (Hfirst k l'); [lia | exact Hl'].
Qed.

Lemma find_layer_has_layer (me : Mesh) (n : string) :
  n ∈ (layer_name <$> uv_layers me) -> exists t, find_layer (uv_layers me) n = Some t.
Proof.
  induction (uv_layers me) as [|l rest IH]; intros Hin.
  - now apply elem_of_nil in Hin.
  - cbn [find_layer]. destruct (String.eqb (layer_name l) n) eqn:En; [eauto|].
    apply String.eqb_neq in En. rewrite fmap_cons in Hin.
    apply elem_of_cons in Hin as [-> | Hin]; [congruence|].
    destruct (IH Hin) as [t ->]. eauto.
Qed.

(** X14.  The copy on one mesh.  When the active UV map is not the
    target, the mesh has loops, the target UV map exists and was not just
    created as a copy, the first UV map called [target] is the only one
    written: a loop of a visible face (any face with UV Sync Selection, a
    selected face without) whose element of the active UV map passes the
    filters gets the chosen attributes of that element, every other loop
    keeps what it had; the mesh is otherwise as before. *)
Theorem copy_mesh_copies_visible_loops
    (self : Operator) (uv_select_sync : bool) (init_created_mesh_names : list string)
    (me : Mesh) (active_uv : UVLayer) :
  uv_layers me !! active me = Some active_uv ->
  layer_name active_uv <> target self ->
  loops me <> 0%nat ->
  target self ∈ (layer_name <$> uv_layers me) ->
  (name me ∉ init_created_mesh_names) ->
  let visible (p : nat) :=
    exists f, f ∈ faces me /\ (uv_select_sync = true \/ face_select f = true) /\
              p ∈ face_loops f in
  exists (t : nat) (target_uv : UVLayer) (d : list BMLoopUV) (modified : bool),
    uv_layers me !! t = Some target_uv /\ layer_name target_uv = target self /\
    (forall k l, (k < t)%nat -> uv_layers me !! k = Some l -> layer_name l <> target self) /\
    copy_mesh self uv_select_sync init_created_mesh_names me
    = Returned (mkMesh (name me) (<[t := mkLayer (target self) d]> (uv_layers me))
                  (active me) (loops me) (faces me), modified) /\
    length d = length (layer_data target_uv) /\
    forall (p : nat) (a x : BMLoopUV),
      layer_data active_uv !! p = Some a -> layer_data target_uv !! p = Some x ->
      (visible p -> passes_filters self a = true ->
         d !! p = Some (copy_attributes self a x)) /\
      (~ visible p \/ passes_filters self a = false -> d !! p = Some x).
Proof.
  intros Hactive Hname Hloops Hhas Hnew visible.
  destruct (find_layer_has_layer me (target self) Hhas) as [t Ht].
  destruct (find_layer_Some _ _ _ Ht) as (target_uv & Hl & Hn & Hfirst).
  set (ls := concat (face_loops <$> (if uv_select_sync then faces me
                                     else List.filter face_select (faces me)))).
  assert (Hvis : forall p, p ∈ ls <-> visible p).
  { intros p. unfold ls, visible. rewrite list_elem_of_In, List.in_concat. split.
    - intros (l & Hl' & Hp). apply list_elem_of_In, list_elem_of_fmap in Hl' as (f & -> & Hf).
      exists f. apply list_elem_of_In in Hp.
      destruct uv_select_sync; [split; [exact Hf | split; [now left | exact Hp]]|].
      apply list_elem_of_In, List.filter_In in Hf as [Hf Hs].
      split; [now apply list_elem_of_In|]. split; [now right | exact Hp].
    - intros (f & Hf & Hs & Hp). exists (face_loops f).
      split; [|now apply list_elem_of_In].
      apply list_elem_of_In, list_elem_of_fmap. exists f. split; [reflexivity|].
      destruct uv_select_sync; [exact Hf|].
      destruct Hs as [Hs | Hs]; [discriminate|].
      apply list_elem_of_In, List.filter_In. split; [now apply list_elem_of_In | exact Hs]. }
  destruct (fold_left (copy_loop self (layer_data active_uv)) ls
              (layer_data target_uv, false)) as [d modified] eqn:Ed.
  exists t, target_uv, d, modified.
  split; [exact Hl|]. split; [exact Hn|]. split; [exact Hfirst|].
  split; [|split].
  - unfold copy_mesh. rewrite Hactive.
    apply String.eqb_neq in Hname. rewrite Hname.
    apply Nat.eqb_neq in Hloops. rewrite Hloops.
    unfold has_layer. rewrite (bool_decide_eq_true_2 _ Hhas).
    rewrite (bool_decide_eq_false_2 _ Hnew). cbn [negb andb].
    rewrite Ht, Hl. fold ls. rewrite Ed, Hn. reflexivity.
  - pose proof (copy_loops_length self (layer_data active_uv) ls
                  (layer_data target_uv) false) as H. now rewrite Ed in H.
  - intros p a x Ha Hx.
    pose proof (copy_loops_data self (layer_data active_uv) ls
                  (layer_data target_uv) false p) as H.
    rewrite Ed, Ha, Hx in H. cbn [fst] in H. split.
    + intros Hv Hp. rewrite H, Hp, bool_decide_eq_true_2 by (now apply Hvis). reflexivity.
    + intros [Hv | Hp].
      * rewrite H, bool_decide_eq_false_2; [reflexivity|]. now rewrite Hvis.
      * now rewrite H, Hp, andb_false_r.
Qed.

(** The theorem on the plane: the UV of the loop of the selected face is
    copied to "Detail", the loop of the other face is left alone. *)
Lemma copy_mesh_copies_visible_loops_witness :
  exists (t : nat) (d : list BMLoopUV) (modified : bool),
    copy_mesh (mkOperator true false "Detail" true true false false SKIP) false []
      two_layer_mesh
    = Returned (mkMesh "Plane" (<[t := mkLayer "Detail" d]> (uv_layers two_layer_mesh))
                  0 2 (faces two_layer_mesh), modified) /\
    length d = 2%nat.
Proof.
  destruct (copy_mesh_copies_visible_loops
              (mkOperator true false "Detail" true true false false SKIP) false []
              two_layer_mesh
              (mkLayer "UVMap" [mkLoopUV (1 # 2, 1 # 4)%Q true true;
                                mkLoopUV (3 # 4, 1)%Q false true]))
    as (t & target_uv & d & modified & Hl & _ & _ & E & L & _).
  - reflexivity.
  - discriminate.
  - discriminate.
  - apply (bool_decide_unpack _). vm_compute. exact I.
  - apply not_elem_of_nil.
  - exists t, d, modified. split; [exact E|]. rewrite L.
    destruct t as [|[|t]]; simpl in Hl; [| |discriminate]; now injection Hl as <-.
Defined.

(** What the copy on one mesh keeps, whichever branch is taken. *)
Lemma copy_mesh_frame (self : Operator) (sync : bool) (names : list string)
    (me me' : Mesh) (m : bool) :
  copy_mesh self sync names me = Returned (me', m) ->
  name me' = name me /\ active me' = active me /\ loops me' = loops me /\
  faces me' = faces me /\
  layer_name <$> uv_layers me' = layer_name <$> uv_layers me /\
  (forall k l, uv_layers me !! k = Some l -> layer_name l <> target self ->
     uv_layers me' !! k = Some l) /\
  (m = false -> me' = me).
Proof.
  assert (Hsame : name me = name me /\ active me = active me /\ loops me = loops me /\
                  faces me = faces me /\
                  layer_name <$> uv_layers me = layer_name <$> uv_layers me /\
                  (forall k l, uv_layers me !! k = Some l -> layer_name l <> target self ->
                     uv_layers me !! k = Some l) /\
                  (false = false -> me = me)) by (repeat split; auto).
  unfold copy_mesh. destruct (uv_layers me !! active me) as [active_uv|]; [|discriminate].
  destruct (_ && _ && _ && _); [|now intros [= <- <-]].
  destruct (find_layer (uv_layers me) (target self)) as [t|] eqn:Ht; [|now intros [= <- <-]].
  destruct (find_layer_Some _ _ _ Ht) as (target_uv & Hl & Hn & _).
  rewrite Hl.
  destruct (fold_left _ _ _) as [d modified] eqn:Ed. intros [= <- <-]. cbn.
  split; [reflexivity|]. split; [reflexivity|]. split; [reflexivity|].
  split; [reflexivity|]. split; [|split].
  - rewrite list_fmap_insert. cbn. apply list_insert_id.
    now rewrite list_lookup_fmap, Hl.
  - intros k l Hk Hne. rewrite list_lookup_insert_ne; [exact Hk|].
    intros <-. rewrite Hl in Hk. injection Hk as <-. contradiction.
  - intros ->. apply copy_loops_unmodified in Ed. subst d.
    rewrite list_insert_id by (rewrite Hl; now destruct target_uv).
    now destruct me.
Qed.

Lemma copy_meshes_pointwise (self : Operator) (sync : bool) (names : list string) :
  forall (ms ms' : list Mesh) (m : bool),
    copy_meshes self sync names ms = Returned (ms', m) ->
    Forall2 (fun me me' => exists b, copy_mesh self sync names me = Returned (me', b)) ms ms' /\
    (m = false -> ms' = ms).
Proof.
  induction ms as [|me rest IH]; intros ms' m E.
  - cbn in E. injection E as <- <-. split; [constructor | reflexivity].
  - cbn [copy_meshes] in E.
    destruct (copy_mesh self sync names me) as [[me' b]|] eqn:Eme; [|discriminate].
    destruct (copy_meshes self sync names rest) as [[rest' b']|] eqn:Erest; [|discriminate].
    injection E as <- <-. destruct (IH rest' b' eq_refl) as [Hall Hsame]. split.
    + constructor; [eauto | exact Hall].
    + intros Hm. apply orb_false_iff in Hm as [-> ->].
      apply copy_mesh_frame in Eme as (_ & _ & _ & _ & _ & _ & Heq).
      now rewrite Heq, Hsame.
Qed.

Lemma omap_ext_all {A B} (f g : A -> option B) (l : list A) :
  (forall x, f x = g x) -> omap f l = omap g l.
Proof.
  intros H. induction l as [|x l IH]; [reflexivity|].
  cbn. now rewrite H, IH.
Qed.

(** The UV maps created by the second loop: one on every mesh that lacks
    the target; [init_created_mesh_names] are the names of these meshes. *)
Lemma create_all (h : bool) (target : string) (init : bool) (rest : list Mesh) :
  forall (done : list Mesh) (need : list nat),
    find_need_target_creation target (length done) rest = inr need ->
    fold_left (create_at h target init) need (done ++ rest)
    = done ++ ((fun me => if has_layer me target then me else new_layer h me target init)
                 <$> rest) /\
    (need = [] -> Forall (fun me => has_layer me target = true) rest) /\
    omap (fun i => name <$> (done ++ rest) !! i) need
    = name <$> List.filter (fun me => negb (has_layer me target)) rest.
Proof.
  induction rest as [|mesh rest IH]; intros done need E.
  - cbn in E. injection E as <-. repeat split; auto.
  - cbn [find_need_target_creation] in E.
    assert (Hnext : forall x : Mesh, S (length done) = length (done ++ [x]))
      by (intros x; rewrite length_app; simpl; lia).
    destruct (has_layer mesh target) eqn:Ehas; cbn [negb] in E.
    + rewrite (Hnext mesh) in E. destruct (IH _ _ E) as (Hfold & Hnone & Hnames).
      rewrite (cons_middle mesh done rest), app_assoc. split; [|split].
      * rewrite Hfold, <- app_assoc, fmap_cons, Ehas. reflexivity.
      * intros Hn. constructor; [exact Ehas | now apply Hnone].
      * cbn [List.filter]. rewrite Ehas. cbn [negb]. exact Hnames.
    + destruct (Nat.leb max_uv_layers (length (uv_layers mesh))); [discriminate|].
      destruct (find_need_target_creation target (S (length done)) rest) as [|need'] eqn:E';
        [discriminate|].
      injection E as <-.
      rewrite (Hnext (new_layer h mesh target init)) in E'.
      destruct (IH _ _ E') as (Hfold & Hnone & Hnames).
      split; [|split].
      * cbn [fold_left]. unfold create_at at 2.
        rewrite list_lookup_middle by reflexivity. rewrite insert_behind.
        rewrite (cons_middle _ done rest), app_assoc, Hfold, <- app_assoc, fmap_cons, Ehas.
        reflexivity.
      * discriminate.
      * cbn [List.filter]. rewrite Ehas. cbn [negb omap list_omap].
        rewrite list_lookup_middle by reflexivity. cbn [fmap option_fmap option_map].
        rewrite fmap_cons. f_equal. rewrite <- Hnames.
        apply (omap_ext_all (B := string)). intros i. rewrite <- !list_lookup_fmap. f_equal.
        rewrite <- app_assoc, !fmap_app. reflexivity.
Qed.

(** The meshes after the two creation loops, and the names kept in
    [init_created_mesh_names]. *)
Lemma created_meshes (h : bool) (target : string) (init : bool) (meshes : list Mesh)
    (need : list nat) :
  find_need_target_creation target 0 meshes = inr need ->
  fold_left (create_at h target init) need meshes
  = (fun me => if negb (has_layer me target) then new_layer h me target init else me)
      <$> meshes /\
  (need = [] ->
     (fun me => if negb (has_layer me target) then new_layer h me target init else me)
       <$> meshes = meshes) /\
  omap (fun i => name <$> meshes !! i) need
  = name <$> List.filter (fun me => negb (has_layer me target)) meshes.
Proof.
  intros E. destruct (create_all h target init meshes [] need E) as (Hfold & Hnone & Hnames).
  cbn [app] in Hfold, Hnames. split; [|split].
  - rewrite Hfold. apply list_fmap_ext. intros _ me _. now destruct (has_layer me target).
  - intros Hn. specialize (Hnone Hn). rewrite <- (list_fmap_id meshes) at 2.
    apply Forall_fmap_ext_1. eapply Forall_impl; [exact Hnone|].
    intros me Hme. cbn in Hme. now rewrite Hme.
  - exact Hnames.
Qed.

(** The ways [execute] returns: with every mesh as it was and another
    report than the success message (the error of the limit, or nothing to
    create and nothing copied), or with the success message after the
    creation of the missing UV maps and, when attributes are chosen, the
    copy on every mesh. *)
Lemma execute_returned (self : Operator) (context : Context)
    (meshes' : list Mesh) (reports : list (string * string)) (st : Status) :
  execute self context = Returned (meshes', reports, st) ->
  let meshes :=
    data <$> List.filter (fun mesh_obj => String.eqb (type mesh_obj) "MESH")
               (objects_in_mode_unique_data context) in
  let create := match not_found_action self with SKIP => false | _ => true end in
  let init := match not_found_action self with CREATE_INIT => true | _ => false end in
  let created :=
    (fun me => if create && negb (has_layer me (target self))
               then new_layer (uv_init_copies_flags context) me (target self) init
               else me) <$> meshes in
  let names :=
    if init then name <$> List.filter (fun me => negb (has_layer me (target self))) meshes
    else [] in
  (meshes' = meshes /\ reports <> [("INFO", success_message)] /\
   (created = meshes \/
    exists n, reports = [("ERROR_INVALID_INPUT", max_layers_message (target self) n)])) \/
  (reports = [("INFO", success_message)] /\
   ((has_attributes self = false /\ meshes' = created) \/
    (has_attributes self = true /\
     exists m, copy_meshes self (use_uv_select_sync context) names created
               = Returned (meshes', m)))).
Proof.
  intros E. cbv zeta.
  unfold execute in E.
  remember (data <$> List.filter (fun mesh_obj => String.eqb (type mesh_obj) "MESH")
                       (objects_in_mode_unique_data context)) as meshes eqn:Em.
  assert (Hno : [("INFO", no_changes_message)] <> [("INFO", success_message)])
    by (intros H; vm_compute in H; discriminate).
  destruct meshes as [|m0 ms].
  { injection E as <- <- _. left. split; [reflexivity|]. split; [exact Hno | now left]. }
  set (ms0 := m0 :: ms) in *.
  assert (Hid : (fun me : Mesh => me) <$> ms0 = ms0) by apply list_fmap_id.
  destruct (not_found_action self) eqn:Enfa; cbn [andb] in *.
  - (* SKIP *)
    cbn [fold_left length Nat.eqb negb andb] in E. rewrite Hid.
    destruct (has_attributes self); cbn [negb] in E.
    + destruct (copy_meshes self (use_uv_select_sync context) [] ms0)
        as [[copied modified]|] eqn:Ec; [|discriminate].
      destruct modified; cbn [negb andb] in E; injection E as <- <- _.
      * right. split; [reflexivity|]. right. split; [reflexivity|]. eauto.
      * left. split; [|split; [exact Hno | now left]].
        apply copy_meshes_pointwise in Ec as [_ Hsame]. now apply Hsame.
    + injection E as <- <- _. left. split; [reflexivity|]. split; [exact Hno | now left].
  - (* CREATE *)
    destruct (find_need_target_creation (target self) 0 ms0) as [n|need] eqn:Ef.
    { injection E as <- <- _. left. split; [reflexivity|]. split.
      - intros H. injection H as H _. discriminate.
      - right. now exists n. }
    destruct (created_meshes (uv_init_copies_flags context) (target self) false ms0 need Ef)
      as (Hfold & Hnone & Hnames).
    rewrite Hfold in E.
    destruct (has_attributes self); cbn [negb] in E.
    + destruct (copy_meshes self (use_uv_select_sync context) [] _)
        as [[copied modified]|] eqn:Ec; [|discriminate].
      destruct (negb modified && negb (negb (Nat.eqb (length need) 0))) eqn:Eq;
        injection E as <- <- _.
      * apply andb_true_iff in Eq as [Hm Hn].
        apply negb_true_iff in Hm. subst modified.
        destruct need; [|discriminate]. specialize (Hnone eq_refl).
        left. split; [|split; [exact Hno | now left]].
        rewrite Hnone in Ec.
        apply copy_meshes_pointwise in Ec as [_ Hsame]. now apply Hsame.
      * right. split; [reflexivity|]. right. split; [reflexivity|]. eauto.
    + destruct need as [|i need]; cbn [length Nat.eqb negb] in E; injection E as <- <- _.
      * specialize (Hnone eq_refl).
        left. split; [exact Hnone|]. split; [exact Hno | now left].
      * right. split; [reflexivity|]. left. split; reflexivity.
  - (* CREATE_INIT *)
    destruct (find_need_target_creation (target self) 0 ms0) as [n|need] eqn:Ef.
    { injection E as <- <- _. left. split; [reflexivity|]. split.
      - intros H. injection H as H _. discriminate.
      - right. now exists n. }
    destruct (created_meshes (uv_init_copies_flags context) (target self) true ms0 need Ef)
      as (Hfold & Hnone & Hnames).
    rewrite Hfold, Hnames in E.
    destruct (has_attributes self); cbn [negb] in E.
    + destruct (copy_meshes self (use_uv_select_sync context) _ _)
        as [[copied modified]|] eqn:Ec; [|discriminate].
      destruct (negb modified && negb (negb (Nat.eqb (length need) 0))) eqn:Eq;
        injection E as <- <- _.
      * apply andb_true_iff in Eq as [Hm Hn].
        apply negb_true_iff in Hm. subst modified.
        destruct need; [|discriminate]. specialize (Hnone eq_refl).
        left. split; [|split; [exact Hno | now left]].
        rewrite Hnone in Ec.
        apply copy_meshes_pointwise in Ec as [_ Hsame]. now apply Hsame.
      * right. split; [reflexivity|]. right. split; [reflexivity|]. eauto.
    + destruct need as [|i need]; cbn [length Nat.eqb negb] in E; injection E as <- <- _.
      * specialize (Hnone eq_refl).
        left. split; [exact Hnone|]. split; [exact Hno | now left].
      * right. split; [reflexivity|]. left. split; reflexivity.
Qed.





(** X16.  The reports tell the truth about changes: whenever [execute]
    returns with another report than "UVs copied", every mesh is exactly as
    it was. *)
Theorem execute_other_report_changes_nothing (self : Operator) (context : Context)
    (meshes' : list Mesh) (reports : list (string * string)) (st : Status) :
  execute self context = Returned (meshes', reports, st) ->
  reports <> [("INFO", success_message)] ->
  meshes' = data <$> List.filter (fun mesh_obj => String.eqb (type mesh_obj) "MESH")
                       (objects_in_mode_unique_data context).
Proof.
  intros E Hr. apply execute_returned in E. cbv zeta in E.
  destruct E as [(-> & _) | (Hs & _)]; [reflexivity | contradiction].
Qed.

(** The theorem on the plane with the filter for pinned elements and the
    target "Detail": the selected face has no pinned element, nothing is
    copied, and "No changes made" is reported. *)
Lemma execute_other_report_changes_nothing_witness :
  exists reports st,
    execute (mkOperator false true "Detail" true true false false SKIP) pinned_context
    = Returned ([unpinned_mesh], reports, st).
Proof.
  destruct (execute (mkOperator false true "Detail" true true false false SKIP)
              pinned_context) as [[[meshes' reports] st]|e m] eqn:E;
    [|vm_compute in E; discriminate].
  exists reports, st. f_equal. f_equal. f_equal.
  apply (execute_other_report_changes_nothing _ pinned_context meshes' reports st E).
  vm_compute in E. injection E as _ <- _. intros H. vm_compute in H. discriminate.
Defined.




Lemma yield_names_spec (names : list string) : forall found : gset string,
  NoDup (yield_names found names) /\
  forall n, n ∈ yield_names found names <-> n ∈ names /\ n ∉ found.
Proof.
  induction names as [|n0 rest IH]; intros found.
  - split; [constructor|]. intros n. cbn. rewrite elem_of_nil. tauto.
  - cbn [yield_names]. destruct (decide (n0 ∈ found)) as [Hin | Hnin].
    + rewrite (bool_decide_eq_true_2 _ Hin). destruct (IH found) as [Hnd Hiff].
      split; [exact Hnd|]. intros n. rewrite Hiff, elem_of_cons.
      split; [tauto|]. intros [[-> | Hn] Hf]; [contradiction | tauto].
    + rewrite (bool_decide_eq_false_2 _ Hnin).
      destruct (IH ({[n0]} ∪ found)) as [Hnd Hiff]. split.
      * apply NoDup_cons. split; [|exact Hnd].
        rewrite Hiff, elem_of_union, elem_of_singleton. tauto.
      * intros n. rewrite !elem_of_cons, Hiff, elem_of_union, elem_of_singleton.
        destruct (decide (n = n0)) as [-> | Hne]; tauto.
Qed.

Lemma active_uv_map_names_spec (objs : list Object) :
  Forall (fun me => is_Some (uv_layers me !! active me))
    (data <$> List.filter (fun mesh_obj => String.eqb (type mesh_obj) "MESH") objs) ->
  exists names,
    active_uv_map_names objs = Returned names /\
    Forall2 (fun me n => exists a, uv_layers me !! active me = Some a /\ layer_name a = n)
      (data <$> List.filter (fun mesh_obj => String.eqb (type mesh_obj) "MESH") objs)
      names.
Proof.
  induction objs as [|obj rest IH]; intros Hall.
  - exists []. split; [reflexivity | constructor].
  - cbn [List.filter active_uv_map_names] in *.
    destruct (String.eqb (type obj) "MESH").
    + rewrite fmap_cons in Hall |- *. apply Forall_cons in Hall as [[a Ha] Hall].
      destruct (IH Hall) as (names & -> & Hnames). rewrite Ha.
      exists (layer_name a :: names). split; [reflexivity|].
      constructor; [eauto | exact Hnames].
    + exact (IH Hall).
Qed.

(** X18.  The names of the menu.  When every mesh in edit mode has an
    active UV map, [get_uv_layer_names_gen] yields no name twice, and it
    yields exactly the names of the UV maps of the meshes in edit mode,
    except that with a single mesh in edit mode the name of its active UV
    map is left out. *)
Theorem get_uv_layer_names_gen_spec (context : Context) :
  let meshes :=
    data <$> List.filter (fun mesh_obj => String.eqb (type mesh_obj) "MESH")
               (objects_in_mode_unique_data context) in
  Forall (fun me => is_Some (uv_layers me !! active me)) meshes ->
  exists names : list string,
    get_uv_layer_names_gen context = Returned names /\
    NoDup names /\
    forall n : string,
      n ∈ names
      <-> (exists me, me ∈ meshes /\ n ∈ (layer_name <$> uv_layers me)) /\
          ~ (exists me a, meshes = [me] /\ uv_layers me !! active me = Some a /\
                          layer_name a = n).
Proof.
  intros meshes Hall. unfold get_uv_layer_names_gen.
  destruct (active_uv_map_names_spec _ Hall) as (actives & -> & Hact).
  fold meshes in Hact.
  match goal with
  | |- context [yield_names ?f ?l] => destruct (yield_names_spec l f) as [Hnd Hiff]
  end.
  eexists. split; [reflexivity|]. split; [exact Hnd|].
  intros n. rewrite Hiff. clear Hnd Hiff.
  assert (Hnames : n ∈ concat ((fun mesh_obj => layer_name <$> uv_layers (data mesh_obj))
                                 <$> List.filter
                                       (fun mesh_obj => String.eqb (type mesh_obj) "MESH")
                                       (objects_in_mode_unique_data context))
                   <-> exists me, me ∈ meshes /\ n ∈ (layer_name <$> uv_layers me)).
  { rewrite list_elem_of_In, List.in_concat. unfold meshes. split.
    - intros (l & Hl & Hn). apply list_elem_of_In, list_elem_of_fmap in Hl as (obj & -> & Hobj).
      exists (data obj). split; [|now apply list_elem_of_In].
      apply list_elem_of_fmap. eauto.
    - intros (me & Hme & Hn). apply list_elem_of_fmap in Hme as (obj & -> & Hobj).
      exists (layer_name <$> uv_layers (data obj)). split; [|now apply list_elem_of_In].
      apply list_elem_of_In, list_elem_of_fmap. eauto. }
  rewrite Hnames. clear Hnames.
  apply and_iff_compat_l.
  destruct Hact as [|me a0 ms as' (a & Ha & Hn) Hrest].
  - cbn. rewrite elem_of_empty. split; [|tauto]. intros _ (me & a & H & _). discriminate.
  - destruct Hrest as [|me2 a2 ms2 as2 H2 Hrest2].
    + cbn. rewrite elem_of_singleton. subst a0. split.
      * intros Hne (me' & a' & [= <-] & Ha' & Hn'). rewrite Ha in Ha'.
        injection Ha' as <-. congruence.
      * intros Hno ->. apply Hno. eauto.
    + cbn. rewrite elem_of_empty. split; [|tauto]. intros _ (me' & a' & H & _).
      discriminate.
Qed.

(** The theorem on the plane, the only mesh in edit mode: its active UV
    map is left out of the menu. *)
Lemma get_uv_layer_names_gen_spec_witness :
  exists names, get_uv_layer_names_gen plane_context = Returned names /\ NoDup names.
Proof.
  destruct (get_uv_layer_names_gen_spec plane_context) as (names & E & Hnd & _).
  - repeat constructor. now exists (mkLayer "UVMap"
                                      [mkLoopUV (1 # 2, 1 # 4)%Q true true;
                                       mkLoopUV (3 # 4, 1)%Q false true]).
  - exists names. split; [exact E | exact Hnd].
Defined.

End CopyUVsMore.

(** ** ExtraShapeKeyOperations.py: the three modes of the transfer, its
    repetition, its dialog, and the poll of the average *)

Section TransferPendingMore.
Import PyNum Mathutils ExtraShapeKeyOperations.

Lemma eqb_refl (v : Vector) : eqb v v = true.
Proof.
  unfold eqb, Qeqb. rewrite !(proj2 (Qeq_bool_iff _ _) (Qeq_refl _)). reflexivity.
Qed.

Lemma neb_refl (v : Vector) : neb v v = false.
Proof. unfold neb. now rewrite eqb_refl. Qed.

Lemma any_sub_refl (v : Vector) : any (sub v v) = false.
Proof. rewrite any_sub_neb. apply neb_refl. Qed.

(** Adding a pending change that is zero gives an equal vector. *)
Lemma eqb_add_nothing (v a b : Vector) : neb a b = false -> eqb v (add v (sub a b)) = true.
Proof.
  unfold neb, eqb, add, sub, Qeqb. cbn [vx vy vz]. intros H.
  apply negb_false_iff in H. apply andb_true_iff in H as [H Hz].
  apply andb_true_iff in H as [Hx Hy].
  apply Qeq_bool_iff in Hx, Hy, Hz.
  rewrite !(proj2 (Qeq_bool_iff _ _)); [reflexivity | lra | lra | lra].
Qed.

Lemma selected_vertex_counts (obj : Object) (j : nat) (bv : BMVert) :
  verts obj !! j = Some bv -> is_bmvert bv = true -> total_vert_sel obj <> 0%nat.
Proof.
  intros Hj Hbv. unfold total_vert_sel.
  apply andb_true_iff in Hbv as [Hs _].
  assert (Hin : In bv (List.filter select (verts obj))).
  { apply List.filter_In. split; [|exact Hs].
    apply list_elem_of_In. eapply list_elem_of_lookup_2. exact Hj. }
  destruct (List.filter select (verts obj)); [contradiction | discriminate].
Qed.

Lemma find_name_elem (names : list string) (n : string) :
  n ∈ names -> exists i, find_name names n = Some i.
Proof.
  induction names as [|m rest IH]; intros Hin; [now apply elem_of_nil in Hin|].
  cbn [find_name]. destruct (String.eqb m n) eqn:E; [eauto|].
  apply String.eqb_neq in E. apply elem_of_cons in Hin as [-> | Hin]; [congruence|].
  destruct (IH Hin) as [i ->]. eauto.
Qed.

(** The layer transferred to is not the active layer. *)
Lemma target_is_not_active (obj : Object) (key_name : string)
    (active_index : nat) (active : ShapeKey) (target : nat) :
  active_shape_key obj = Some (active_index, active) ->
  layer_by_name obj key_name = Some target ->
  key_name <> name active ->
  target <> active_index.
Proof.
  intros Hact Ht Hne ->.
  destruct (active_shape_key_layer obj active_index active Hact) as (_ & Hname & _).
  apply find_name_lookup in Ht. rewrite Hname in Ht. congruence.
Qed.

Lemma step_keeps_flags (mode : TransferMode) (a t : nat) (bv : BMVert) :
  let step := match mode with
              | ADD => transfer_add a t
              | REPLACE => transfer_replace a t
              | REPLACE_CHANGED => transfer_replace_changed a t
              end in
  select (step bv) = select bv /\ hide (step bv) = hide bv.
Proof.
  destruct mode; cbn.
  - unfold transfer_add. destruct (any _); split; reflexivity.
  - split; reflexivity.
  - unfold transfer_replace_changed. destruct (neb _ _); split; reflexivity.
Qed.

(** One pass of the loop of a mode, on a vertex, when the layer transferred
    to is not the active layer. *)
Lemma step_transfers (mode : TransferMode) (a t : nat) (bv : BMVert) :
  t <> a ->
  let step := match mode with
              | ADD => transfer_add a t
              | REPLACE => transfer_replace a t
              | REPLACE_CHANGED => transfer_replace_changed a t
              end in
  (forall l, l <> t -> shape (step bv) l = shape bv l) /\
  eqb (co (step bv)) (shape bv a) = true /\
  match mode with
  | ADD => eqb (shape (step bv) t) (add (shape bv t) (sub (co bv) (shape bv a))) = true
  | REPLACE => shape (step bv) t = co bv
  | REPLACE_CHANGED =>
      shape (step bv) t = if neb (co bv) (shape bv a) then co bv else shape bv t
  end.
Proof.
  intros Hdiff. destruct mode; cbv zeta.
  - (* ADD *)
    unfold transfer_add. rewrite any_sub_neb.
    destruct (neb (co bv) (shape bv a)) eqn:Ech.
    + cbn. split; [intros l Hl; now rewrite fn_lookup_insert_ne by congruence|].
      rewrite fn_lookup_insert_ne by exact Hdiff. rewrite fn_lookup_insert.
      split; apply eqb_refl.
    + split; [reflexivity|]. split.
      * unfold neb in Ech. now apply negb_false_iff in Ech.
      * now apply eqb_add_nothing.
  - (* REPLACE *)
    unfold transfer_replace. cbn.
    split; [intros l Hl; now rewrite fn_lookup_insert_ne by congruence|].
    rewrite fn_lookup_insert_ne by exact Hdiff. rewrite fn_lookup_insert.
    split; [apply eqb_refl | reflexivity].
  - (* REPLACE_CHANGED *)
    unfold transfer_replace_changed.
    destruct (neb (co bv) (shape bv a)) eqn:Ech.
    + cbn. split; [intros l Hl; now rewrite fn_lookup_insert_ne by congruence|].
      rewrite fn_lookup_insert_ne by exact Hdiff. rewrite fn_lookup_insert.
      split; [apply eqb_refl | reflexivity].
    + split; [reflexivity|]. split; [|reflexivity].
      unfold neb in Ech. now apply negb_false_iff in Ech.
Qed.

(** X19.  The transfer, in its three modes.  When the key transferred to
    exists and is not the active key, [execute] reports nothing and returns
    the mesh with its vertices in place and their selection and visibility
    as they were; with no vertex selected it returns the mesh as it is.  The
    value of a selected, visible vertex in the layer transferred to becomes:
    with ADD the old value plus the pending change; with REPLACE the old
    coordinate; with REPLACE_CHANGED the old coordinate where there was a
    pending change and the old value elsewhere.  Without
    [swap_after_execute], every other shape layer is untouched, a vertex
    that is not selected or is hidden is left alone, and a selected, visible
    vertex ends without a pending change (its coordinate equals its value in
    the active layer).  With [swap_after_execute] and some vertex selected,
    the key transferred to becomes the active key, and the coordinate of
    every vertex becomes its value in the layer of that key. *)
Theorem TransferPendingChanges_execute_transfers
    (self : TransferPendingChanges) (obj : Object)
    (active_index : nat) (active : ShapeKey) (target : nat) :
  active_shape_key obj = Some (active_index, active) ->
  layer_by_name obj (shape_key_name self) = Some target ->
  shape_key_name self <> name active ->
  exists obj' : Object,
    TransferPendingChanges_execute self obj = Returned (obj', [], FINISHED) /\
    shape_keys obj' = shape_keys obj /\
    active_shape_key_index obj'
    = (if swap_after_execute self && negb (Nat.eqb (total_vert_sel obj) 0)
       then target else active_shape_key_index obj) /\
    length (verts obj') = length (verts obj) /\
    (total_vert_sel obj = 0%nat -> obj' = obj) /\
    forall (j : nat) (bv : BMVert),
      verts obj !! j = Some bv ->
      exists bv' : BMVert,
        verts obj' !! j = Some bv' /\
        select bv' = select bv /\ hide bv' = hide bv /\
        (is_bmvert bv = true ->
         match transfer_mode self with
         | ADD =>
             eqb (shape bv' target)
               (add (shape bv target) (sub (co bv) (shape bv active_index))) = true
         | REPLACE => shape bv' target = co bv
         | REPLACE_CHANGED =>
             shape bv' target
             = if neb (co bv) (shape bv active_index) then co bv else shape bv target
         end) /\
        (swap_after_execute self = false ->
         (forall l, l <> target -> shape bv' l = shape bv l) /\
         if is_bmvert bv then eqb (co bv') (shape bv active_index) = true else bv' = bv) /\
        (swap_after_execute self = true -> total_vert_sel obj <> 0%nat ->
         co bv' = shape bv' target).
Proof.
  intros Hact Ht Hne.
  pose proof (target_is_not_active _ _ _ _ _ Hact Ht Hne) as Hdiff.
  destruct (active_shape_key_layer obj active_index active Hact) as (Hidx & _ & _).
  assert (Hkeys : exists k, shape_keys obj = Some k).
  { unfold active_shape_key in Hact. destruct (shape_keys obj); [eauto | discriminate]. }
  destruct Hkeys as [k Hk].
  apply String.eqb_neq in Hne.
  unfold TransferPendingChanges_execute. rewrite Hk, Ht, Hact, Hne.
  destruct (Nat.eqb (total_vert_sel obj) 0) eqn:E0.
  - apply Nat.eqb_eq in E0.
    exists obj. split; [reflexivity|]. split; [exact Hk|].
    split; [now rewrite andb_false_r|]. split; [reflexivity|]. split; [reflexivity|].
    intros j bv Hj. exists bv. split; [exact Hj|]. split; [reflexivity|].
    split; [reflexivity|].
    assert (Hno : is_bmvert bv = false).
    { destruct (is_bmvert bv) eqn:Ebv; [|reflexivity].
      now apply (selected_vertex_counts obj j bv Hj) in Ebv. }
    rewrite Hno. split; [discriminate|]. split; [auto|]. intros _ Hsel. contradiction.
  - apply Nat.eqb_neq in E0. cbn [negb]. rewrite andb_true_r.
    set (step := match transfer_mode self with
                 | ADD => transfer_add active_index target
                 | REPLACE => transfer_replace active_index target
                 | REPLACE_CHANGED => transfer_replace_changed active_index target
                 end).
    assert (Hstep : forall bv,
              (forall l, l <> target -> shape (step bv) l = shape bv l) /\
              eqb (co (step bv)) (shape bv active_index) = true /\
              match transfer_mode self with
              | ADD =>
                  eqb (shape (step bv) target)
                    (add (shape bv target) (sub (co bv) (shape bv active_index))) = true
              | REPLACE => shape (step bv) target = co bv
              | REPLACE_CHANGED =>
                  shape (step bv) target
                  = if neb (co bv) (shape bv active_index) then co bv else shape bv target
              end)
      by (intros bv; exact (step_transfers (transfer_mode self) active_index target bv Hdiff)).
    assert (Hflags : forall bv, select (step bv) = select bv /\ hide (step bv) = hide bv)
      by (intros bv; exact (step_keeps_flags (transfer_mode self) active_index target bv)).
    destruct (swap_after_execute self) eqn:Hswap.
    + eexists. split; [reflexivity|].
      cbn [set_active_shape_key_index set_verts shape_keys active_shape_key_index verts].
      split; [exact Hk|]. split; [reflexivity|].
      split; [now rewrite !length_fmap|]. split; [intros H; contradiction|].
      intros j bv Hj. rewrite !list_lookup_fmap, Hj.
      cbn [fmap option_fmap option_map].
      eexists. split; [reflexivity|]. cbn [select hide co shape set_co set_shape].
      destruct (Hstep bv) as (S1 & S2 & S3). destruct (Hflags bv) as [F1 F2].
      destruct (is_bmvert bv) eqn:Ebv.
      * split; [exact F1|]. split; [exact F2|]. split.
        -- intros _. rewrite fn_lookup_insert_ne by (rewrite <- Hidx; congruence).
           exact S3.
        -- split; [discriminate | reflexivity].
      * split; [reflexivity|]. split; [reflexivity|].
        split; [discriminate|]. split; [discriminate | reflexivity].
    + eexists. split; [reflexivity|]. cbn [set_verts shape_keys active_shape_key_index verts].
      split; [exact Hk|]. split; [reflexivity|].
      split; [apply length_fmap|]. split; [intros H; contradiction|].
      intros j bv Hj. rewrite list_lookup_fmap, Hj. cbn [fmap option_fmap option_map].
      eexists. split; [reflexivity|].
      destruct (Hstep bv) as (S1 & S2 & S3). destruct (Hflags bv) as [F1 F2].
      destruct (is_bmvert bv) eqn:Ebv.
      * split; [exact F1|]. split; [exact F2|]. split; [intros _; exact S3|].
        split; [intros _; split; [exact S1 | exact S2] | discriminate].
      * split; [reflexivity|]. split; [reflexivity|]. split; [discriminate|].
        split; [intros _; split; reflexivity | discriminate].
Qed.

(** The theorem on the sample mesh, from "Key 2" to "Key 1" with REPLACE and
    the swap: "Key 1" becomes active, the first vertex, which was at
    (1, 0, 0), has this as its value in the layer of "Key 1", and it stays
    there. *)
Lemma TransferPendingChanges_execute_transfers_witness :
  exists (obj' : Object) (bv' : BMVert),
    TransferPendingChanges_execute (mkTransfer REPLACE "Key 1" true) sample_object
    = Returned (obj', [], FINISHED) /\
    active_shape_key_index obj' = 1%nat /\
    verts obj' !! 0%nat = Some bv' /\
    shape bv' 1%nat = mkVector 1 0 0 /\
    co bv' = shape bv' 1%nat.
Proof.
  destruct (TransferPendingChanges_execute_transfers
              (mkTransfer REPLACE "Key 1" true) sample_object 2 (mkShapeKey "Key 2" 0) 1)
    as (obj' & E & _ & Hidx & _ & _ & Hv).
  - reflexivity.
  - reflexivity.
  - discriminate.
  - destruct (Hv 0%nat _ eq_refl) as (bv' & Hj & _ & _ & Ht & _ & Hco).
    exists obj', bv'. split; [exact E|]. split; [exact Hidx|]. split; [exact Hj|].
    split; [exact (Ht eq_refl) | apply Hco; [reflexivity | discriminate]].
Defined.

Lemma transfer_add_idem (a t : nat) (bv : BMVert) :
  transfer_add a t (transfer_add a t bv) = transfer_add a t bv.
Proof.
  unfold transfer_add at 2 3. destruct (any (sub (co bv) (shape bv a))) eqn:E.
  - unfold transfer_add. cbn [co shape set_co set_shape]. now rewrite any_sub_refl.
  - unfold transfer_add. now rewrite E.
Qed.

Lemma transfer_replace_changed_idem (a t : nat) (bv : BMVert) :
  transfer_replace_changed a t (transfer_replace_changed a t bv)
  = transfer_replace_changed a t bv.
Proof.
  unfold transfer_replace_changed at 2 3. destruct (neb (co bv) (shape bv a)) eqn:E.
  - unfold transfer_replace_changed. cbn [co shape set_co set_shape]. now rewrite neb_refl.
  - unfold transfer_replace_changed. now rewrite E.
Qed.

Lemma total_vert_sel_fmap (f : BMVert -> BMVert) (vs : list BMVert) :
  (forall bv, select (f bv) = select bv) ->
  length (List.filter select (f <$> vs)) = length (List.filter select vs).
Proof.
  intros H. induction vs as [|bv vs IH]; [reflexivity|].
  rewrite fmap_cons. cbn [List.filter]. rewrite H.
  destruct (select bv); cbn [length]; now rewrite IH.
Qed.

(** X20.  Repeating the transfer.  With ADD or REPLACE_CHANGED, or with
    [swap_after_execute] set, whenever [execute] returns, a second call with
    the same properties returns the mesh it is given: a pending change is
    transferred once.  (With REPLACE and without the swap the second call
    overwrites the layer transferred to with the active layer.) *)
Theorem TransferPendingChanges_execute_repeated
    (self : TransferPendingChanges) (obj obj' : Object)
    (reports : list (string * string)) (st : Status) :
  transfer_mode self <> REPLACE \/ swap_after_execute self = true ->
  TransferPendingChanges_execute self obj = Returned (obj', reports, st) ->
  exists reports',
    TransferPendingChanges_execute self obj' = Returned (obj', reports', st).
Proof.
  intros Hmode E. unfold TransferPendingChanges_execute in E.
  destruct (shape_keys obj) as [k|] eqn:Hk; [|discriminate].
  destruct (layer_by_name obj (shape_key_name self)) as [target|] eqn:Ht.
  2:{ injection E as <- <- <-. eexists. unfold TransferPendingChanges_execute.
      now rewrite Hk, Ht. }
  destruct (active_shape_key obj) as [[active_index active]|] eqn:Hact; [|discriminate].
  destruct (String.eqb (shape_key_name self) (name active)) eqn:Hname.
  { injection E as <- <- <-. eexists. unfold TransferPendingChanges_execute.
    now rewrite Hk, Ht, Hact, Hname. }
  destruct (Nat.eqb (total_vert_sel obj) 0) eqn:E0.
  { injection E as <- <- <-. eexists. unfold TransferPendingChanges_execute.
    now rewrite Hk, Ht, Hact, Hname, E0. }
  set (step := match transfer_mode self with
               | ADD => transfer_add active_index target
               | REPLACE => transfer_replace active_index target
               | REPLACE_CHANGED => transfer_replace_changed active_index target
               end) in *.
  set (verts' := (fun bv => if is_bmvert bv then step bv else bv) <$> verts obj) in *.
  assert (Hnames : forall o : Object, shape_keys o = Some k -> layer_names o = layer_names obj)
    by (intros o Ho; unfold layer_names; now rewrite Ho, Hk).
  destruct (swap_after_execute self) eqn:Hswap; injection E as <- <- <-.
  - (* the key transferred to is now the active key *)
    set (obj' := set_active_shape_key_index (set_verts obj verts') target).
    assert (Hk' : shape_keys obj' = Some k) by exact Hk.
    pose proof (find_name_lookup _ _ _ Ht) as Hl. unfold layer_names in Hl.
    rewrite Hk, list_lookup_fmap in Hl.
    destruct (key_blocks k !! target) as [sk|] eqn:Hsk; [|discriminate].
    injection Hl as Hl.
    assert (Hact' : active_shape_key obj' = Some (target, sk)).
    { unfold active_shape_key. rewrite Hk'. unfold obj'.
      cbn [set_active_shape_key_index active_shape_key_index]. now rewrite Hsk. }
    unfold TransferPendingChanges_execute. rewrite Hk'. unfold layer_by_name in *.
    rewrite (Hnames obj' Hk'), Ht, Hact', Hl, String.eqb_refl. eauto.
  - destruct Hmode as [Hmode | Hmode]; [|discriminate].
    set (obj' := set_verts obj verts').
    assert (Hk' : shape_keys obj' = Some k) by exact Hk.
    assert (Hact' : active_shape_key obj' = Some (active_index, active)) by exact Hact.
    assert (Hflags : forall bv, select (if is_bmvert bv then step bv else bv) = select bv).
    { intros bv. destruct (is_bmvert bv); [|reflexivity].
      apply (step_keeps_flags (transfer_mode self) active_index target bv). }
    assert (Hsel : total_vert_sel obj' = total_vert_sel obj).
    { unfold total_vert_sel, obj', set_verts, verts'. cbn [verts].
      apply (total_vert_sel_fmap _ _ Hflags). }
    unfold TransferPendingChanges_execute. rewrite Hk'. unfold layer_by_name in *.
    rewrite (Hnames obj' Hk'), Ht, Hact', Hname, Hsel, E0, Hswap.
    eexists. do 2 f_equal. f_equal. fold step.
    unfold obj', set_verts. cbn [shape_keys active_shape_key_index verts]. f_equal.
    unfold verts'.
    rewrite <- list_fmap_compose. apply list_fmap_ext. intros _ bv _. cbn.
    destruct (is_bmvert bv) eqn:Ebv; [|now rewrite Ebv].
    assert (Ebv' : is_bmvert (step bv) = true).
    { unfold is_bmvert in *.
      destruct (step_keeps_flags (transfer_mode self) active_index target bv) as [Hs Hh].
      fold step in Hs, Hh. now rewrite Hs, Hh. }
    rewrite Ebv'. subst step.
    destruct (transfer_mode self); [apply transfer_add_idem | congruence |
                                     apply transfer_replace_changed_idem].
Qed.

(** The theorem on the sample mesh: a second ADD to "Key 1" transfers
    nothing more. *)
Lemma TransferPendingChanges_execute_repeated_witness :
  exists obj' reports,
    TransferPendingChanges_execute (mkTransfer ADD "Key 1" false) sample_object
    = Returned (obj', [], FINISHED) /\
    TransferPendingChanges_execute (mkTransfer ADD "Key 1" false) obj'
    = Returned (obj', reports, FINISHED).
Proof.
  destruct (TransferPendingChanges_execute (mkTransfer ADD "Key 1" false) sample_object)
    as [[[obj' reports] st]|e m] eqn:E; [|vm_compute in E; discriminate].
  destruct (TransferPendingChanges_execute_repeated
              (mkTransfer ADD "Key 1" false) sample_object obj' reports st)
    as [reports' E'].
  - left. discriminate.
  - exact E.
  - assert (Hr : reports = [] /\ st = FINISHED).
    { vm_compute in E. injection E as _ <- <-. split; reflexivity. }
    destruct Hr as [-> ->]. exists obj', reports'. split; [reflexivity | exact E'].
Defined.

Lemma other_names_not_empty (names : list string) (a : string) :
  NoDup names -> (2 <= length names)%nat ->
  List.filter (fun key_name => negb (String.eqb key_name a)) names <> [].
Proof.
  intros Hnd Hlen. destruct names as [|x [|y rest]]; cbn in Hlen; try lia.
  apply NoDup_cons in Hnd as [Hx _]. cbn [List.filter].
  destruct (String.eqb x a) eqn:Ex; cbn [negb]; [|discriminate].
  destruct (String.eqb y a) eqn:Ey; cbn [negb]; [|discriminate].
  apply String.eqb_eq in Ex, Ey. subst. exfalso. apply Hx. apply list_elem_of_here.
Qed.

(** X21.  The dialog offers only names that [execute] accepts.  When the
    poll holds, the mesh has an active shape key and its shape keys have
    distinct names, [invoke] gathers the names of the other shape keys, in
    the order of the key blocks; there is one, the first gathered is the
    name given to [shape_key_name], and with any of the gathered names
    [execute] returns without a report, in every mode and with or without
    the swap. *)
Theorem TransferPendingChanges_invoke_then_execute (context : Context) (obj : Object) :
  (TransferPendingChanges_poll context obj).1 = true ->
  is_Some (active_shape_key obj) ->
  NoDup (layer_names obj) ->
  exists (n : string) (rest : list string) (active : ShapeKey),
    active_shape_key obj = Some (active_shape_key_index obj, active) /\
    n :: rest
    = List.filter (fun key_name => negb (String.eqb key_name (name active)))
        (layer_names obj) /\
    other_shape_key_names obj = Returned (n :: rest) /\
    TransferPendingChanges_invoke obj = Returned n /\
    forall (n' : string) (mode : TransferMode) (swap : bool),
      n' ∈ n :: rest ->
      exists obj',
        TransferPendingChanges_execute (mkTransfer mode n' swap) obj
        = Returned (obj', [], FINISHED).
Proof.
  intros Hpoll [[active_index active] Hact] Hnd.
  destruct (active_shape_key_layer obj active_index active Hact) as (Hidx & _ & _).
  unfold TransferPendingChanges_poll in Hpoll.
  destruct (poll_mode context) as [[|] msg]; [|discriminate].
  destruct (shape_keys obj) as [k|] eqn:Hk; [|discriminate].
  destruct (Nat.ltb (length (key_blocks k)) 2) eqn:Hlen; [discriminate|].
  apply Nat.ltb_ge in Hlen.
  assert (Hlen' : (2 <= length (layer_names obj))%nat).
  { unfold layer_names. now rewrite Hk, length_fmap. }
  pose proof (other_names_not_empty _ (name active) Hnd Hlen') as Hother.
  unfold TransferPendingChanges_invoke, other_shape_key_names. rewrite Hact.
  destruct (List.filter _ (layer_names obj)) as [|n names] eqn:Ef; [congruence|].
  exists n, names, active. split; [now rewrite <- Hidx|].
  split; [now symmetry|]. split; [reflexivity|]. split; [reflexivity|].
  intros n' mode swap Hin. rewrite <- Ef in Hin.
  apply list_elem_of_In, List.filter_In in Hin as [Hin Hne].
  apply list_elem_of_In, find_name_elem in Hin as [target Ht].
  apply negb_true_iff in Hne.
  unfold TransferPendingChanges_execute. cbn [shape_key_name]. unfold layer_by_name.
  rewrite Hk, Ht, Hact, Hne.
  destruct (Nat.eqb (total_vert_sel obj) 0); eauto.
Qed.

(** The theorem on the sample mesh: "Key 2" is active, "Basis" and "Key 1"
    are gathered, and "Basis" is the name given to [shape_key_name]. *)
Lemma TransferPendingChanges_invoke_then_execute_witness :
  other_shape_key_names sample_object = Returned ["Basis"; "Key 1"]%string /\
  TransferPendingChanges_invoke sample_object = Returned "Basis"%string.
Proof.
  destruct (TransferPendingChanges_invoke_then_execute
              (mkContext "EDIT_MESH" [sample_object]) sample_object)
    as (n & rest & active & Hact & Hf & Hnames & E & _).
  - reflexivity.
  - now exists (2%nat, mkShapeKey "Key 2" 0).
  - apply (bool_decide_unpack _). vm_compute. exact I.
  - injection Hact as <-. injection Hf as -> ->. split; [exact Hnames | exact E].
Defined.

(** The three [continue]s of [AverageShapeKeyMovement.execute] and the test
    of its poll. *)
Lemma skipped_iff_not_eligible (obj : Object) :
  skipped obj
  = negb (object_has_relative_shape_keys_and_active_shape_is_not_basis_like obj)
    || Nat.eqb (total_vert_sel obj) 0.
Proof.
  unfold skipped, object_has_relative_shape_keys_and_active_shape_is_not_basis_like.
  destruct (active_shape_key obj) as [[active_index active_shape]|]; [|reflexivity].
  destruct (shape_keys obj) as [k|]; [|reflexivity].
  rewrite (Nat.eqb_sym active_index (reference_key k)).
  destruct (use_relative k), (Nat.eqb (relative_key active_shape) active_index),
    (Nat.eqb (reference_key k) active_index); reflexivity.
Qed.

(** X22.  The poll of the average and its [execute] agree.  The poll
    holds exactly in edit mode with a mesh that has an active shape key,
    relative shape keys, and an active key that is neither relative to itself
    nor the reference key; [execute] skips exactly the meshes without these
    and the meshes without a selected vertex; and when no mesh in edit mode
    passes the test of the poll, [execute] changes nothing, whatever [mix]
    is. *)
Theorem AverageShapeKeyMovement_poll_agrees_with_execute (context : Context) :
  let eligible := object_has_relative_shape_keys_and_active_shape_is_not_basis_like in
  ((AverageShapeKeyMovement_poll context).1 = true
   <-> mode context = "EDIT_MESH"%string /\
       Exists (fun obj => eligible obj = true) (objects_in_mode_unique_data context)) /\
  (forall obj,
     skipped obj = false <-> eligible obj = true /\ total_vert_sel obj <> 0%nat) /\
  (Forall (fun obj => eligible obj = false) (objects_in_mode_unique_data context) ->
   forall mix : Q,
     AverageShapeKeyMovement_execute mix (objects_in_mode_unique_data context)
     = (objects_in_mode_unique_data context, Returned FINISHED)).
Proof.
  intros eligible. split; [|split].
  - unfold AverageShapeKeyMovement_poll, poll_mode.
    destruct (String.eqb (mode context) "EDIT_MESH") eqn:Em; cbn [negb].
    + apply String.eqb_eq in Em.
      destruct (existsb _ _) eqn:Ee; cbn [fst].
      * split; [intros _ | reflexivity]. split; [exact Em|].
        apply existsb_exists in Ee as (obj & Hin & Hobj).
        apply Exists_exists. exists obj. split; [now apply list_elem_of_In | exact Hobj].
      * split; [discriminate|]. intros [_ Hex].
        apply Exists_exists in Hex as (obj & Hin & Hobj).
        apply not_true_iff_false in Ee. exfalso. apply Ee.
        apply existsb_exists. exists obj. split; [now apply list_elem_of_In | exact Hobj].
    + cbn [fst]. split; [discriminate|]. intros [Hm _].
      apply String.eqb_neq in Em. contradiction.
  - intros obj. rewrite skipped_iff_not_eligible. fold eligible.
    rewrite orb_false_iff, negb_false_iff, Nat.eqb_neq. reflexivity.
  - intros Hall mix. unfold AverageShapeKeyMovement_execute.
    destruct (Qeqb mix 0); [reflexivity|].
    rewrite gather_all_skipped; [reflexivity|].
    eapply Forall_impl; [exact Hall|]. intros obj Hobj. cbn in Hobj.
    rewrite skipped_iff_not_eligible. fold eligible. now rewrite Hobj.
Qed.

(** The theorem on a mesh whose active key is the reference key. *)
Lemma AverageShapeKeyMovement_poll_agrees_with_execute_witness :
  AverageShapeKeyMovement_execute 1 [mkObject (Some sample_key) 0 sample_verts]
  = ([mkObject (Some sample_key) 0 sample_verts], Returned FINISHED).
Proof.
  apply (proj2 (proj2 (AverageShapeKeyMovement_poll_agrees_with_execute
                         (mkContext "EDIT_MESH" [mkObject (Some sample_key) 0 sample_verts])))).
  repeat constructor.
Defined.

End TransferPendingMore.

(** ** moveActiveUVLayer.py: what a move does, how the two moves compose,
    and layers of different lengths *)

Section MoveUVLayerMore.
Import PyNum MoveActiveUVLayer.

Lemma temp_is_free (layers : list MeshUVLoopLayer) (k : nat) (l : MeshUVLoopLayer) :
  ("temp"%string ∉ (name <$> layers)) -> layers !! k = Some l ->
  unique_name (name <$> (take k layers ++ drop (S k) layers)) "temp" <> name l.
Proof.
  intros Hno Hl. unfold unique_name. rewrite bool_decide_eq_false_2.
  - intros Heq. apply Hno. rewrite Heq. apply list_elem_of_fmap.
    exists l. split; [reflexivity|]. eapply list_elem_of_lookup_2. exact Hl.
  - intros Hin. apply Hno. apply list_elem_of_fmap in Hin as (o & -> & Hin).
    apply list_elem_of_fmap. exists o. split; [reflexivity|].
    apply elem_of_app in Hin as [Hin | Hin];
      [eapply subseteq_take | eapply subseteq_drop]; exact Hin.
Qed.

(** Two neighbours that have changed places. *)
Lemma exchanged_split (layers : list MeshUVLoopLayer) (i : nat) (a b : MeshUVLoopLayer) :
  layers !! i = Some a -> layers !! S i = Some b ->
  exists pre rest,
    layers = pre ++ a :: b :: rest /\ length pre = i /\
    <[S i := a]> (<[i := b]> layers) = pre ++ b :: a :: rest.
Proof.
  intros Ha Hb.
  assert (Li : (i < length layers)%nat) by (eapply lookup_lt_Some; exact Ha).
  exists (take i layers), (drop (S (S i)) layers).
  assert (Hl : layers = take i layers ++ a :: b :: drop (S (S i)) layers).
  { rewrite <- (drop_S _ b (S i) Hb). now rewrite take_drop_middle. }
  assert (Hpre : length (take i layers) = i) by (apply length_take_le; lia).
  split; [exact Hl|]. split; [exact Hpre|].
  rewrite Hl at 1.
  rewrite (insert_app_r_alt (take i layers) _ i) by lia.
  rewrite (insert_app_r_alt (take i layers) _ (S i)) by lia.
  rewrite Hpre. replace (i - i)%nat with 0%nat by lia.
  replace (S i - i)%nat with 1%nat by lia. reflexivity.
Qed.

Lemma exchanged_names (layers : list MeshUVLoopLayer) (i : nat) (a b : MeshUVLoopLayer) :
  layers !! i = Some a -> layers !! S i = Some b ->
  name <$> <[S i := a]> (<[i := b]> layers) ≡ₚ name <$> layers.
Proof.
  intros Ha Hb. destruct (exchanged_split layers i a b Ha Hb) as (pre & rest & Hl & _ & ->).
  rewrite Hl. apply fmap_Permutation, Permutation_app_head, perm_swap.
Qed.

Lemma exchanged_twice (layers : list MeshUVLoopLayer) (i : nat) (a b : MeshUVLoopLayer) :
  layers !! i = Some a -> layers !! S i = Some b ->
  <[S i := b]> (<[i := a]> (<[S i := a]> (<[i := b]> layers))) = layers.
Proof.
  intros Ha Hb.
  assert (Li : (i < length layers)%nat) by (eapply lookup_lt_Some; exact Ha).
  assert (Lj : (S i < length layers)%nat) by (eapply lookup_lt_Some; exact Hb).
  apply list_eq. intros k.
  destruct (decide (k = S i)) as [-> | Hk1].
  - rewrite list_lookup_insert_eq by (now rewrite !length_insert). now rewrite Hb.
  - rewrite (list_lookup_insert_ne _ (S i) k) by congruence.
    destruct (decide (k = i)) as [-> | Hk2].
    + rewrite list_lookup_insert_eq by (now rewrite !length_insert). now rewrite Ha.
    + now rewrite !list_lookup_insert_ne by congruence.
Qed.

(** The moves on a mesh whose UV maps have distinct names, none of them
    "temp", and as many elements each as the mesh has loops. *)
Lemma move_up_exchanges (obj : Object) (i : nat) (above active : MeshUVLoopLayer) :
  NoDup (name <$> uv_layers obj) ->
  ("temp"%string ∉ (name <$> uv_layers obj)) ->
  active_index obj = S i ->
  uv_layers obj !! i = Some above ->
  uv_layers obj !! S i = Some active ->
  length (data above) = length (data active) ->
  move_active_uv_layer_up obj
  = Returned (mkObject (mode obj) (<[S i := above]> (<[i := active]> (uv_layers obj))) i).
Proof.
  intros Hnodup Htemp Hidx Ha Hb Hlen.
  unfold move_active_uv_layer_up. rewrite Hidx. cbn [Nat.ltb Nat.leb]. cbn [Nat.sub].
  rewrite Nat.sub_0_r.
  rewrite (swap_uv_layers_exchanges obj i (S i) (mode obj) above active
             Hnodup (Nat.neq_succ_diag_r i) Ha Hb Hlen (temp_is_free _ _ _ Htemp Ha)).
  reflexivity.
Qed.

Lemma move_down_exchanges (obj : Object) (active below : MeshUVLoopLayer) :
  NoDup (name <$> uv_layers obj) ->
  ("temp"%string ∉ (name <$> uv_layers obj)) ->
  uv_layers obj !! active_index obj = Some active ->
  uv_layers obj !! S (active_index obj) = Some below ->
  length (data active) = length (data below) ->
  move_active_uv_layer_down obj
  = Returned (mkObject (mode obj)
                (<[S (active_index obj) := active]>
                   (<[active_index obj := below]> (uv_layers obj)))
                (S (active_index obj))).
Proof.
  intros Hnodup Htemp Ha Hb Hlen.
  assert (Lj : (S (active_index obj) < length (uv_layers obj))%nat)
    by (eapply lookup_lt_Some; exact Hb).
  unfold move_active_uv_layer_down.
  assert (Hlt : (Z.of_nat (active_index obj) <? Z.of_nat (length (uv_layers obj)) - 1) = true)
    by (apply Z.ltb_lt; lia).
  rewrite Hlt. replace (active_index obj + 1)%nat with (S (active_index obj)) by lia.
  rewrite (swap_uv_layers_exchanges obj _ _ (mode obj) active below
             Hnodup (Nat.neq_succ_diag_r _) Ha Hb Hlen (temp_is_free _ _ _ Htemp Ha)).
  reflexivity.
Qed.

(** X23.  What a move does.  On a mesh whose UV maps have distinct
    names, none of them "temp", and equally many elements: moving up makes
    the active UV map and the one above it change places, name and data,
    and the active index follows it; moving down does the same with the one
    below; every other UV map and the mode stay.  At the top, moving up
    changes nothing, and at the bottom, moving down changes nothing. *)
Theorem move_active_uv_layer_moves (obj : Object) :
  NoDup (name <$> uv_layers obj) ->
  ("temp"%string ∉ (name <$> uv_layers obj)) ->
  (forall l1 l2, l1 ∈ uv_layers obj -> l2 ∈ uv_layers obj ->
                 length (data l1) = length (data l2)) ->
  (active_index obj = 0%nat -> move_active_uv_layer_up obj = Returned obj) /\
  (forall i above active,
     active_index obj = S i ->
     uv_layers obj !! i = Some above -> uv_layers obj !! S i = Some active ->
     move_active_uv_layer_up obj
     = Returned (mkObject (mode obj)
                   (<[S i := above]> (<[i := active]> (uv_layers obj))) i)) /\
  ((length (uv_layers obj) <= S (active_index obj))%nat ->
   move_active_uv_layer_down obj = Returned obj) /\
  (forall active below,
     uv_layers obj !! active_index obj = Some active ->
     uv_layers obj !! S (active_index obj) = Some below ->
     move_active_uv_layer_down obj
     = Returned (mkObject (mode obj)
                   (<[S (active_index obj) := active]>
                      (<[active_index obj := below]> (uv_layers obj)))
                   (S (active_index obj)))).
Proof.
  intros Hnodup Htemp Hlen. split; [|split; [|split]].
  - intros H0. unfold move_active_uv_layer_up. now rewrite H0.
  - intros i above active Hidx Ha Hb. apply move_up_exchanges; auto.
    apply Hlen; eapply list_elem_of_lookup_2; eassumption.
  - intros Hbottom. unfold move_active_uv_layer_down.
    assert (Hge : (Z.of_nat (active_index obj) <? Z.of_nat (length (uv_layers obj)) - 1)
                  = false) by (apply Z.ltb_ge; lia).
    now rewrite Hge.
  - intros active below Ha Hb. apply move_down_exchanges; auto.
    apply Hlen; eapply list_elem_of_lookup_2; eassumption.
Qed.

(** The theorem on the mesh with three UV maps: the middle one moves to
    the top. *)
Lemma move_active_uv_layer_moves_witness :
  move_active_uv_layer_up three_layer_object
  = Returned (mkObject "EDIT"
                [mkLayer "Lightmap" (sample_data 1); mkLayer "UVMap" (sample_data 0);
                 mkLayer "Detail" (sample_data (1 # 2))] 0).
Proof.
  refine (proj1 (proj2 (move_active_uv_layer_moves three_layer_object _ _ _))
            0%nat (mkLayer "UVMap" (sample_data 0)) (mkLayer "Lightmap" (sample_data 1))
            eq_refl eq_refl eq_refl).
  - apply (bool_decide_unpack _). vm_compute. exact I.
  - intros Hin. apply (bool_decide_pack _) in Hin. vm_compute in Hin. exact Hin.
  - intros l1 l2 H1 H2.
    assert (Hall : Forall (fun l => length (data l) = 2%nat) (uv_layers three_layer_object))
      by (repeat constructor).
    rewrite Forall_forall in Hall. now rewrite (Hall l1 H1), (Hall l2 H2).
Defined.

(** X24.  The two moves undo each other.  On a mesh whose UV maps have
    distinct names, none of them "temp", and equally many elements, moving
    the active UV map up and then down gives back the object as it was
    whenever there is a UV map above the active one, and moving it down and
    then up does whenever there is one below. *)
Theorem moves_undo_each_other (obj : Object) :
  NoDup (name <$> uv_layers obj) ->
  ("temp"%string ∉ (name <$> uv_layers obj)) ->
  (forall l1 l2, l1 ∈ uv_layers obj -> l2 ∈ uv_layers obj ->
                 length (data l1) = length (data l2)) ->
  ((0 < active_index obj < length (uv_layers obj))%nat ->
   up_then_down obj = Returned obj) /\
  ((S (active_index obj) < length (uv_layers obj))%nat ->
   down_then_up obj = Returned obj).
Proof.
  intros Hnodup Htemp Hlen. split.
  - intros [H0 Hlt]. destruct (active_index obj) as [|i] eqn:Hidx; [lia|].
    destruct (lookup_lt_is_Some_2 (uv_layers obj) i) as [above Ha]; [lia|].
    destruct (lookup_lt_is_Some_2 (uv_layers obj) (S i)) as [active Hb]; [lia|].
    apply (up_then_down_restores obj i above active); auto.
    apply Hlen; eapply list_elem_of_lookup_2; eassumption.
  - intros Hlt. set (i := active_index obj) in *.
    destruct (lookup_lt_is_Some_2 (uv_layers obj) i) as [active Ha]; [lia|].
    destruct (lookup_lt_is_Some_2 (uv_layers obj) (S i)) as [below Hb]; [lia|].
    assert (Hab : length (data active) = length (data below))
      by (apply Hlen; eapply list_elem_of_lookup_2; eassumption).
    unfold down_then_up.
    rewrite (move_down_exchanges obj active below Hnodup Htemp Ha Hb Hab). fold i.
    set (layers' := <[S i := active]> (<[i := below]> (uv_layers obj))).
    assert (Li : (i < length (uv_layers obj))%nat) by lia.
    assert (Ha' : layers' !! i = Some below).
    { subst layers'. rewrite list_lookup_insert_ne by lia.
      now rewrite list_lookup_insert_eq by exact Li. }
    assert (Hb' : layers' !! S i = Some active).
    { subst layers'. now rewrite list_lookup_insert_eq by (now rewrite length_insert). }
    assert (Hperm : name <$> layers' ≡ₚ name <$> uv_layers obj)
      by (now apply exchanged_names).
    rewrite (move_up_exchanges (mkObject (mode obj) layers' (S i)) i below active);
      cbn [uv_layers active_index mode]; auto.
    + subst layers'. rewrite (exchanged_twice _ i active below Ha Hb).
      subst i. now destruct obj.
    + now rewrite Hperm.
    + now rewrite Hperm.
Qed.

(** The theorem on the mesh with three UV maps, in both orders. *)
Lemma moves_undo_each_other_witness :
  up_then_down three_layer_object = Returned three_layer_object /\
  down_then_up three_layer_object = Returned three_layer_object.
Proof.
  assert (Hnd : NoDup (name <$> uv_layers three_layer_object))
    by (apply (bool_decide_unpack _); vm_compute; exact I).
  assert (Htemp : "temp"%string ∉ (name <$> uv_layers three_layer_object))
    by (intros Hin; apply (bool_decide_pack _) in Hin; vm_compute in Hin; exact Hin).
  assert (Hlen : forall l1 l2, l1 ∈ uv_layers three_layer_object ->
                   l2 ∈ uv_layers three_layer_object ->
                   length (data l1) = length (data l2)).
  { intros l1 l2 H1 H2.
    assert (Hall : Forall (fun l => length (data l) = 2%nat) (uv_layers three_layer_object))
      by (repeat constructor).
    rewrite Forall_forall in Hall. now rewrite (Hall l1 H1), (Hall l2 H2). }
  split.
  - apply (proj1 (moves_undo_each_other three_layer_object Hnd Htemp Hlen)).
    cbn. lia.
  - apply (proj2 (moves_undo_each_other three_layer_object Hnd Htemp Hlen)).
    cbn. lia.
Defined.

(** The loop of [swap_uv_layers] on layers of any lengths, as long as both
    have an element at every index met. *)
Lemma swap_data_prefix_any (data1 data2 : list MeshUVLoop) :
  forall k : nat, (k <= length data1)%nat -> (k <= length data2)%nat ->
    fold_left (fun d i => match d with Some d => swap_datum d i | None => None end)
      (seq 0 k) (Some (data1, data2))
    = Some (take k data2 ++ drop k data1, take k data1 ++ drop k data2).
Proof.
  intros k. induction k as [|k IH]; intros Hk1 Hk2; [reflexivity|].
  rewrite seq_S, fold_left_app, IH by lia. simpl.
  destruct (lookup_lt_is_Some_2 data1 k) as [x Hx]; [lia|].
  destruct (lookup_lt_is_Some_2 data2 k) as [y Hy]; [lia|].
  unfold swap_datum. simpl.
  assert (L1 : length (take k data2) = k) by (apply length_take_le; lia).
  assert (L2 : length (take k data1) = k) by (apply length_take_le; lia).
  rewrite !lookup_app_r by lia. rewrite L1, L2, Nat.sub_diag, !lookup_drop, Nat.add_0_r.
  rewrite Hx, Hy, !loop_eta.
  rewrite !insert_app_r_alt by lia. rewrite L1, L2, Nat.sub_diag.
  rewrite (drop_S data1 x k Hx), (drop_S data2 y k Hy). simpl.
  rewrite (take_S_r data2 k y Hy), (take_S_r data1 k x Hx), <- !app_assoc.
  reflexivity.
Qed.

Lemma swap_stays_failed (l : list nat) :
  fold_left (fun (d : option (list MeshUVLoop * list MeshUVLoop)) i =>
               match d with Some d => swap_datum d i | None => None end) l None = None.
Proof. induction l as [|i l IH]; [reflexivity | exact IH]. Qed.

(** X25.  Layers of different lengths, which the comments of the script
    say it does not check.  The loop of [swap_uv_layers] runs over the
    elements of the first layer: when the second layer has at least as many,
    its first elements and the elements of the first layer change places and
    its further elements stay; when the second layer has fewer, the loop runs
    into an [IndexError], and so does [swap_uv_layers]. *)
Theorem swap_data_of_different_lengths (data1 data2 : list MeshUVLoop) :
  ((length data1 <= length data2)%nat ->
   swap_data data1 data2
   = Some (take (length data1) data2, data1 ++ drop (length data1) data2)) /\
  ((length data2 < length data1)%nat ->
   swap_data data1 data2 = None /\
   forall (obj : Object) (index1 index2 : nat) (old_mode : string) (n1 n2 : string),
     uv_layers obj !! index1 = Some (mkLayer n1 data1) ->
     uv_layers obj !! index2 = Some (mkLayer n2 data2) ->
     swap_uv_layers obj index1 index2 old_mode
     = Raised "IndexError" "bpy_prop_collection[index]: index out of range").
Proof.
  split.
  - intros Hle. unfold swap_data. rewrite swap_data_prefix_any by lia.
    now rewrite drop_all, app_nil_r, firstn_all.
  - intros Hlt.
    assert (Hnone : swap_data data1 data2 = None).
    { unfold swap_data.
      replace (length data1) with (length data2 + S (length data1 - S (length data2)))%nat
        by lia.
      rewrite seq_app, fold_left_app, swap_data_prefix_any by lia.
      cbn [seq fold_left Nat.add]. unfold swap_datum at 2. cbn [fst snd].
      rewrite drop_all, app_nil_r.
      rewrite (lookup_ge_None_2 (take (length data2) data1)) by (rewrite length_take; lia).
      destruct (_ !! length data2); apply swap_stays_failed. }
    split; [exact Hnone|].
    intros obj index1 index2 old_mode n1 n2 H1 H2. unfold swap_uv_layers.
    rewrite H1, H2. cbn [data]. now rewrite Hnone.
Qed.

(** The theorem on a layer of two elements and a layer of one. *)
Lemma swap_data_of_different_lengths_witness :
  swap_data (sample_data 0) [mkLoop (1, 1)%Q false false] = None.
Proof.
  apply (proj2 (swap_data_of_different_lengths (sample_data 0) [mkLoop (1, 1)%Q false false])).
  cbn. lia.
Defined.

End MoveUVLayerMore.

(** ** transferPendingEditChanges.py: running the script again *)

Section TransferScriptMore.
Import PyNum Mathutils ExtraShapeKeyOperations TransferPendingEditChanges.

Lemma transfer_vert_idem (a t : nat) (bv : BMVert) :
  transfer_vert a t (transfer_vert a t bv) = transfer_vert a t bv.
Proof.
  unfold transfer_vert at 2 3. destruct (neb (co bv) (shape bv a)) eqn:E.
  - unfold transfer_vert. cbn [co shape set_co set_shape]. now rewrite neb_refl.
  - unfold transfer_vert. now rewrite E.
Qed.

(** X26.  Whenever the script returns, running it again on the mesh it
    left changes nothing: a pending change is transferred once, also when
    the key transferred to is the active key, which the script does not
    check. *)
Theorem script_twice (key_name : string) (obj obj' : Object) :
  script key_name obj = Returned obj' -> script key_name obj' = Returned obj'.
Proof.
  unfold script, layers_shape_active, layer_by_name, layer_by_index.
  destruct (find_name (layer_names obj) key_name) as [t|] eqn:Ht; [|discriminate].
  destruct (Nat.ltb 0 (length (layer_names obj))) eqn:Ha.
  - intros [= <-]. unfold set_verts, layer_names in *.
    cbn [shape_keys active_shape_key_index verts]. rewrite Ht, Ha.
    do 2 f_equal.
    rewrite <- list_fmap_compose. apply list_fmap_ext. intros _ bv _.
    apply transfer_vert_idem.
  - destruct (verts obj) eqn:Hv; [|discriminate].
    intros [= <-]. now rewrite Ht, Ha, Hv.
Qed.

(** The theorem on the sample mesh. *)
Lemma script_twice_witness :
  exists obj',
    script "Key 1" sample_object = Returned obj' /\ script "Key 1" obj' = Returned obj'.
Proof.
  destruct (script "Key 1" sample_object) as [obj'|e m] eqn:E;
    [|vm_compute in E; discriminate].
  exists obj'. split; [reflexivity|]. exact (script_twice "Key 1" sample_object obj' E).
Defined.

End TransferScriptMore.

(** ** ExtraShapeKeyOperations.py: Blend from Shape (Active Vertex) *)

Section BlendFromActiveVertex.
Import PyNum Mathutils ExtraShapeKeyOperations.

(** The loop returns when the pass on every object does, and then holds the
    result of each pass. *)
Lemma blend_loop_returns (step : nat -> Object -> outcome Object) (objects : list Object) :
  forall o : nat,
    (forall i obj, objects !! i = Some obj -> exists obj', step (o + i)%nat obj = Returned obj') ->
    exists objects',
      blend_loop step o objects = (objects', None) /\
      length objects' = length objects /\
      forall i obj, objects !! i = Some obj ->
        exists obj', objects' !! i = Some obj' /\ step (o + i)%nat obj = Returned obj'.
Proof.
  induction objects as [|obj rest IH]; intros o Hstep.
  - exists []. split; [reflexivity|]. split; [reflexivity|]. intros i x Hx. discriminate.
  - destruct (Hstep 0%nat obj eq_refl) as [obj' Hobj]. rewrite Nat.add_0_r in Hobj.
    destruct (IH (S o)) as (rest' & Hloop & Hlen & Hrest).
    { intros i x Hx. replace (S o + i)%nat with (o + S i)%nat by lia. now apply Hstep. }
    exists (obj' :: rest'). cbn [blend_loop]. rewrite Hobj, Hloop.
    split; [reflexivity|]. split; [cbn; now rewrite Hlen|].
    intros [|i] x Hx.
    + injection Hx as <-. exists obj'. rewrite Nat.add_0_r. split; [reflexivity | exact Hobj].
    + destruct (Hrest i x Hx) as (x' & Hx' & Hs). exists x'. split; [exact Hx'|].
      replace (o + S i)%nat with (S o + i)%nat by lia. exact Hs.
Qed.

(** Whatever happens in the loop, each object is the result of its pass or
    the object itself. *)
Lemma blend_loop_pointwise (step : nat -> Object -> outcome Object)
    (R : Object -> Object -> Prop) :
  (forall obj, R obj obj) ->
  (forall o obj obj', step o obj = Returned obj' -> R obj obj') ->
  forall (objects : list Object) (o : nat),
    Forall2 R objects (blend_loop step o objects).1.
Proof.
  intros Hrefl Hstep. induction objects as [|obj rest IH]; intros o; [constructor|].
  cbn [blend_loop]. destruct (step o obj) as [obj'|e m] eqn:E.
  - specialize (IH (S o)). destruct (blend_loop step (S o) rest) as [rest' r].
    cbn [fst] in *. constructor; [now apply (Hstep o) | exact IH].
  - cbn [fst]. apply Forall_Forall2_diag, Forall_forall. auto.
Qed.

(** What a pass never touches. *)
Lemma blend_object_frame (self : ActiveVertexMovementToSelected)
    (a j : nat) (mv am : Vector) (o : nat) (obj obj' : Object) :
  blend_object self a j mv am o obj = Returned obj' ->
  shape_keys obj' = shape_keys obj /\
  active_shape_key_index obj' = active_shape_key_index obj /\
  length (verts obj') = length (verts obj) /\
  forall i bv, verts obj !! i = Some bv ->
    exists bv', verts obj' !! i = Some bv' /\
      select bv' = select bv /\ hide bv' = hide bv /\ shape bv' = shape bv /\
      (is_bmvert bv = false -> bv' = bv).
Proof.
  assert (Hmap : forall f : BMVert -> BMVert,
            (forall bv, select (f bv) = select bv /\ hide (f bv) = hide bv /\
                        shape (f bv) = shape bv /\ (is_bmvert bv = false -> f bv = bv)) ->
            shape_keys (set_verts obj (f <$> verts obj)) = shape_keys obj /\
            active_shape_key_index (set_verts obj (f <$> verts obj))
            = active_shape_key_index obj /\
            length (verts (set_verts obj (f <$> verts obj))) = length (verts obj) /\
            forall i bv, verts obj !! i = Some bv ->
              exists bv', verts (set_verts obj (f <$> verts obj)) !! i = Some bv' /\
                select bv' = select bv /\ hide bv' = hide bv /\ shape bv' = shape bv /\
                (is_bmvert bv = false -> bv' = bv)).
  { intros f Hf. split; [reflexivity|]. split; [reflexivity|].
    split; [apply length_fmap|]. intros i bv Hbv. exists (f bv).
    cbn [verts set_verts]. rewrite list_lookup_fmap, Hbv. split; [reflexivity | apply Hf]. }
  assert (Hsel : forall (c : BMVert -> Vector) (bv : BMVert),
            select (if is_bmvert bv then set_co bv (c bv) else bv) = select bv /\
            hide (if is_bmvert bv then set_co bv (c bv) else bv) = hide bv /\
            shape (if is_bmvert bv then set_co bv (c bv) else bv) = shape bv /\
            (is_bmvert bv = false -> (if is_bmvert bv then set_co bv (c bv) else bv) = bv)).
  { intros c bv. destruct (is_bmvert bv); repeat split; auto. discriminate. }
  unfold blend_object. destruct (is_add self).
  - destruct (Nat.eqb o a && negb (include_active_vertex self)).
    + intros [= <-]. split; [reflexivity|]. split; [reflexivity|].
      split; [apply length_imap|]. intros i bv Hbv. cbn [verts set_verts].
      rewrite list_lookup_imap, Hbv. cbn. eexists. split; [reflexivity|].
      destruct (is_bmvert bv); cbn [andb]; [|repeat split; auto].
      destruct (negb (Nat.eqb i j)); repeat split; auto; discriminate.
    + intros [= <-]. apply Hmap. intros bv. apply (Hsel (fun bv => add (co bv) am)).
  - destruct (active_shape_key obj) as [[active_index active_shape]|];
      [|intros [= <-]; apply Hmap; intros bv; apply (Hsel (fun bv => add (co bv) am))].
    destruct (shape_keys obj) as [k|] eqn:Hk;
      [|intros [= <-]; apply Hmap; intros bv;
        apply (Hsel (fun bv => add (co bv) am))].
    destruct (_ || _);
      [intros [= <-]; apply Hmap; intros bv; apply (Hsel (fun bv => add (co bv) am))|].
    destruct (if use_relative k then _ else _) as [layer|e m]; [|discriminate].
    intros [= <-]. apply Hmap. intros bv.
    apply (Hsel (fun bv => lerp (co bv) (add (shape bv layer) mv) (blend_mix self))).
Qed.

(** X27.  What [execute] never does.  In every case, an exception
    included, the objects in edit mode are the same objects in the same
    order, each with its shape keys, its active shape key and its vertices in
    place; a vertex keeps its selection, its visibility and its value in
    every shape layer, and a vertex that is not selected or is hidden keeps
    its coordinate.  Without an active vertex the status is 'CANCELLED', and
    then, as with [mix = 0.0], nothing is changed at all. *)
Theorem ActiveVertexMovementToSelected_execute_frame
    (self : ActiveVertexMovementToSelected) (context : BlendContext) :
  let objects := blend_objects context in
  let objects' := (ActiveVertexMovementToSelected_execute self context).1 in
  (length objects' = length objects /\
   forall o obj, objects !! o = Some obj ->
     exists obj', objects' !! o = Some obj' /\
       shape_keys obj' = shape_keys obj /\
       active_shape_key_index obj' = active_shape_key_index obj /\
       length (verts obj') = length (verts obj) /\
       forall i bv, verts obj !! i = Some bv ->
         exists bv', verts obj' !! i = Some bv' /\
           select bv' = select bv /\ hide bv' = hide bv /\ shape bv' = shape bv /\
           (is_bmvert bv = false -> bv' = bv)) /\
  (forall active_object,
     objects !! context_object context = Some active_object ->
     select_history_active context = None ->
     ActiveVertexMovementToSelected_execute self context
     = (objects, Returned ([], "CANCELLED"))) /\
  ((blend_mix self == 0)%Q -> objects' = objects).
Proof.
  intros objects objects'.
  set (R := fun obj obj' : Object =>
              shape_keys obj' = shape_keys obj /\
              active_shape_key_index obj' = active_shape_key_index obj /\
              length (verts obj') = length (verts obj) /\
              forall i bv, verts obj !! i = Some bv ->
                exists bv', verts obj' !! i = Some bv' /\
                  select bv' = select bv /\ hide bv' = hide bv /\ shape bv' = shape bv /\
                  (is_bmvert bv = false -> bv' = bv)).
  assert (Hrefl : forall obj, R obj obj).
  { intros obj. repeat split. intros i bv Hbv. exists bv. repeat split; auto. }
  assert (Hall : Forall2 R objects objects').
  { assert (Hsame : Forall2 R objects objects)
      by (apply Forall_Forall2_diag, Forall_forall; auto).
    subst objects'. unfold ActiveVertexMovementToSelected_execute. fold objects.
    destruct (objects !! context_object context) as [active_object|]; [|exact Hsame].
    destruct (select_history_active context) as [j|]; [|exact Hsame].
    destruct (verts active_object !! j) as [active_vert|]; [|exact Hsame].
    destruct (shape_keys active_object) as [k|]; [|exact Hsame].
    destruct (layer_by_name active_object (blend_shape self)) as [s|]; [|exact Hsame].
    destruct (key_blocks k !! s) as [shape_key|]; [|exact Hsame].
    destruct (is_add self && Nat.eqb (relative_key shape_key) s); [exact Hsame|].
    destruct (key_blocks k !! relative_key shape_key) as [rk|]; [|exact Hsame].
    destruct (layer_by_name active_object (name rk)) as [rl|]; [|exact Hsame].
    destruct (active_vert_movement active_object active_vert s shape_key rl)
      as [movement|e m]; [|exact Hsame].
    destruct (negb (any movement) && is_add self); [exact Hsame|].
    destruct (Qeqb (blend_mix self) 0); [exact Hsame|].
    pose proof (blend_loop_pointwise
                  (blend_object self (context_object context) j movement
                     (mul movement (blend_mix self))) R Hrefl
                  (blend_object_frame self (context_object context) j movement
                     (mul movement (blend_mix self))) objects 0) as Hloop.
    destruct (blend_loop _ 0 objects) as [objs' [[e m]|]]; exact Hloop. }
  split; [|split].
  - split; [symmetry; eapply Forall2_length; exact Hall|].
    intros o obj Hobj.
    destruct (Forall2_lookup_l _ _ _ _ _ Hall Hobj) as (obj' & Hobj' & HR).
    exists obj'. split; [exact Hobj' | exact HR].
  - intros active_object Hao Hnone. unfold ActiveVertexMovementToSelected_execute.
    fold objects. now rewrite Hao, Hnone.
  - intros Hmix. subst objects'. unfold ActiveVertexMovementToSelected_execute. fold objects.
    assert (Hq : Qeqb (blend_mix self) 0 = true) by (now apply Qeq_bool_iff).
    destruct (objects !! context_object context) as [active_object|]; [|reflexivity].
    destruct (select_history_active context) as [j|]; [|reflexivity].
    destruct (verts active_object !! j) as [active_vert|]; [|reflexivity].
    destruct (shape_keys active_object) as [k|]; [|reflexivity].
    destruct (layer_by_name active_object (blend_shape self)) as [s|]; [|reflexivity].
    destruct (key_blocks k !! s) as [shape_key|]; [|reflexivity].
    destruct (is_add self && Nat.eqb (relative_key shape_key) s); [reflexivity|].
    destruct (key_blocks k !! relative_key shape_key) as [rk|]; [|reflexivity].
    destruct (layer_by_name active_object (name rk)) as [rl|]; [|reflexivity].
    destruct (active_vert_movement active_object active_vert s shape_key rl)
      as [movement|e m]; [|reflexivity].
    destruct (negb (any movement) && is_add self); [reflexivity|].
    now rewrite Hq.
Qed.

(** The theorem on the sample mesh without an active vertex. *)
Lemma ActiveVertexMovementToSelected_execute_frame_witness :
  ActiveVertexMovementToSelected_execute (mkBlend "Key 2" 1 true true)
    (mkBlendContext [sample_object] 0 None)
  = ([sample_object], Returned ([], "CANCELLED")).
Proof.
  apply (proj1 (proj2 (ActiveVertexMovementToSelected_execute_frame
                         (mkBlend "Key 2" 1 true true)
                         (mkBlendContext [sample_object] 0 None))) sample_object);
    reflexivity.
Defined.

(** What [execute] does before the loop, once the active vertex, the key
    block [shape], its relative key and the movement are there. *)
Lemma execute_reaches_loop (self : ActiveVertexMovementToSelected) (context : BlendContext)
    (active_object : Object) (j : nat) (active_vert : BMVert) (k : Key) (s : nat)
    (shape_key relative_shape_key : ShapeKey) (relative_shape_layer : nat)
    (movement : Vector) :
  blend_objects context !! context_object context = Some active_object ->
  select_history_active context = Some j ->
  verts active_object !! j = Some active_vert ->
  shape_keys active_object = Some k ->
  layer_by_name active_object (blend_shape self) = Some s ->
  key_blocks k !! s = Some shape_key ->
  is_add self && Nat.eqb (relative_key shape_key) s = false ->
  key_blocks k !! relative_key shape_key = Some relative_shape_key ->
  layer_by_name active_object (name relative_shape_key) = Some relative_shape_layer ->
  active_vert_movement active_object active_vert s shape_key relative_shape_layer
  = Returned movement ->
  negb (any movement) && is_add self = false ->
  ~ (blend_mix self == 0)%Q ->
  ActiveVertexMovementToSelected_execute self context
  = match blend_loop (blend_object self (context_object context) j movement
                        (mul movement (blend_mix self))) 0 (blend_objects context) with
    | (objects', None) => (objects', Returned ([], "FINISHED"))
    | (objects', Some (e, m)) => (objects', Raised e m)
    end.
Proof.
  intros Hao Hj Hav Hk Hs Hsk Hrel Hrk Hrl Hmv Hany Hmix.
  unfold ActiveVertexMovementToSelected_execute.
  rewrite Hao, Hj, Hav, Hk, Hs, Hsk, Hrel, Hrk, Hrl, Hmv, Hany.
  assert (Hq : Qeqb (blend_mix self) 0 = false).
  { apply not_true_iff_false. intros H. apply Hmix. now apply Qeq_bool_iff. }
  now rewrite Hq.
Qed.

(** X28.  Blending with [add].  With an active vertex, a key block
    [shape] that is not relative to itself, a movement of the active vertex
    (its coordinate, or its value in the layer of [shape] when [shape] is not
    the active key, minus its value in the layer of the relative key) that is
    not zero, and [mix] other than 0, [execute] returns 'FINISHED' without a
    report, and the coordinate of every selected, visible vertex of every
    mesh in edit mode has grown by the movement times [mix]; only the active
    vertex itself is passed over when [include_active_vertex] is off. *)
Theorem ActiveVertexMovementToSelected_execute_adds
    (self : ActiveVertexMovementToSelected) (context : BlendContext)
    (active_object : Object) (j : nat) (active_vert : BMVert) (k : Key) (s : nat)
    (shape_key relative_shape_key : ShapeKey) (relative_shape_layer : nat)
    (movement : Vector) :
  is_add self = true ->
  blend_objects context !! context_object context = Some active_object ->
  select_history_active context = Some j ->
  verts active_object !! j = Some active_vert ->
  shape_keys active_object = Some k ->
  layer_by_name active_object (blend_shape self) = Some s ->
  key_blocks k !! s = Some shape_key ->
  relative_key shape_key <> s ->
  key_blocks k !! relative_key shape_key = Some relative_shape_key ->
  layer_by_name active_object (name relative_shape_key) = Some relative_shape_layer ->
  active_vert_movement active_object active_vert s shape_key relative_shape_layer
  = Returned movement ->
  any movement = true ->
  ~ (blend_mix self == 0)%Q ->
  exists objects' : list Object,
    ActiveVertexMovementToSelected_execute self context
    = (objects', Returned ([], "FINISHED")) /\
    length objects' = length (blend_objects context) /\
    forall o obj, blend_objects context !! o = Some obj ->
      exists obj', objects' !! o = Some obj' /\
        forall i bv, verts obj !! i = Some bv ->
          verts obj' !! i
          = Some (if is_bmvert bv
                     && negb (Nat.eqb o (context_object context) && Nat.eqb i j
                              && negb (include_active_vertex self))
                  then set_co bv (add (co bv) (mul movement (blend_mix self)))
                  else bv).
Proof.
  intros Hadd Hao Hj Hav Hk Hs Hsk Hself Hrk Hrl Hmv Hany Hmix.
  rewrite (execute_reaches_loop self context active_object j active_vert k s shape_key
             relative_shape_key relative_shape_layer movement); auto.
  2:{ rewrite Hadd. cbn [andb]. now apply Nat.eqb_neq. }
  2:{ now rewrite Hany. }
  set (am := mul movement (blend_mix self)).
  assert (Hstep : forall o obj,
            blend_object self (context_object context) j movement am o obj
            = Returned (set_verts obj
                (imap (fun i bv =>
                         if is_bmvert bv
                            && negb (Nat.eqb o (context_object context) && Nat.eqb i j
                                     && negb (include_active_vertex self))
                         then set_co bv (add (co bv) am) else bv) (verts obj)))).
  { intros o obj. unfold blend_object. rewrite Hadd.
    destruct (Nat.eqb o (context_object context)); cbn [andb].
    - destruct (include_active_vertex self); cbn [negb andb].
      + do 2 f_equal. apply list_eq. intros i.
        rewrite list_lookup_imap, list_lookup_fmap.
        destruct (verts obj !! i) as [bv|]; [|reflexivity]. cbn.
        now rewrite andb_false_r, andb_true_r.
      + do 2 f_equal. apply imap_ext. intros i bv _. cbn. now rewrite andb_true_r.
    - do 2 f_equal. apply list_eq. intros i.
      rewrite list_lookup_imap, list_lookup_fmap.
      destruct (verts obj !! i) as [bv|]; [|reflexivity]. cbn.
      now rewrite andb_true_r. }
  destruct (blend_loop_returns
              (blend_object self (context_object context) j movement am)
              (blend_objects context) 0) as (objects' & Hloop & Hlen & Hobjs).
  { intros i obj _. rewrite Hstep. eauto. }
  exists objects'. rewrite Hloop. split; [reflexivity|]. split; [exact Hlen|].
  intros o obj Hobj. destruct (Hobjs o obj Hobj) as (obj' & Hobj' & Hres).
  exists obj'. split; [exact Hobj'|]. cbn [Nat.add] in Hres. rewrite Hstep in Hres.
  injection Hres as <-. intros i bv Hbv. cbn [verts set_verts].
  now rewrite list_lookup_imap, Hbv.
Qed.

(** The theorem on the sample mesh: "Key 2" is active, the first vertex is
    the active vertex and has moved by (1, 0, 0) from the basis. *)
Lemma ActiveVertexMovementToSelected_execute_adds_witness :
  exists objects' : list Object,
    ActiveVertexMovementToSelected_execute (mkBlend "Key 2" 1 true true)
      (mkBlendContext [sample_object] 0 (Some 0%nat))
    = (objects', Returned ([], "FINISHED")) /\
    length objects' = 1%nat.
Proof.
  destruct (ActiveVertexMovementToSelected_execute_adds
              (mkBlend "Key 2" 1 true true)
              (mkBlendContext [sample_object] 0 (Some 0%nat))
              sample_object 0
              (mkVert (mkVector 1 0 0) true false
                 (layers (mkVector 0 0 0) (mkVector 0 0 0) (mkVector 0 0 0)))
              sample_key 2 (mkShapeKey "Key 2" 0) (mkShapeKey "Basis" 0) 0
              (mkVector (1 - 0) (0 - 0) (0 - 0)))
    as (objects' & E & L & _); try reflexivity.
  - discriminate.
  - vm_compute. discriminate.
  - exists objects'. split; [exact E | exact L].
Defined.

Lemma eqb_intro (a b : Vector) :
  (vx a == vx b)%Q -> (vy a == vy b)%Q -> (vz a == vz b)%Q -> eqb a b = true.
Proof.
  intros Hx Hy Hz. unfold eqb, Qeqb.
  now rewrite !(proj2 (Qeq_bool_iff _ _)) by assumption.
Qed.

(** Interpolating all the way gives the target, and interpolating between
    a coordinate and itself gives the coordinate. *)
Lemma lerp_full (c t : Vector) (fac : Q) : (fac == 1)%Q -> eqb (lerp c t fac) t = true.
Proof.
  intros H. apply eqb_intro; unfold lerp; cbn [vx vy vz]; rewrite H; ring.
Qed.

Lemma lerp_same (c r : Vector) (fac : Q) : eqb (lerp c (add r (sub c r)) fac) c = true.
Proof. apply eqb_intro; unfold lerp, add, sub; cbn [vx vy vz]; ring. Qed.

(** X29.  Blending without [add].  With an active vertex, a key block
    [shape] with a relative key, [mix] other than 0, and every mesh in edit
    mode that has an active shape key having relative shape keys and the
    layer of the relative key of its active key, [execute] returns 'FINISHED'
    without a report.  A selected, visible vertex of a mesh whose active key
    is relative to itself or is the reference key, or that has no active
    key, has its coordinate grown by the movement times [mix]; on any other
    mesh its coordinate is interpolated by [mix] toward its value in the layer
    of the relative key plus the movement of the active vertex, which it
    reaches with [mix = 1.0].  When [shape] is the active key of the active
    mesh, is not relative to itself and is not the reference key, and the
    active vertex is selected and visible, the active vertex itself stays
    where it is (when [shape] is relative to itself or is the reference key,
    the active vertex is moved like the others of its mesh, by the movement
    times [mix]). *)
Theorem ActiveVertexMovementToSelected_execute_blends
    (self : ActiveVertexMovementToSelected) (context : BlendContext)
    (active_object : Object) (j : nat) (active_vert : BMVert) (k : Key) (s : nat)
    (shape_key relative_shape_key : ShapeKey) (relative_shape_layer0 : nat)
    (movement : Vector) :
  is_add self = false ->
  blend_objects context !! context_object context = Some active_object ->
  select_history_active context = Some j ->
  verts active_object !! j = Some active_vert ->
  shape_keys active_object = Some k ->
  layer_by_name active_object (blend_shape self) = Some s ->
  key_blocks k !! s = Some shape_key ->
  key_blocks k !! relative_key shape_key = Some relative_shape_key ->
  layer_by_name active_object (name relative_shape_key) = Some relative_shape_layer0 ->
  active_vert_movement active_object active_vert s shape_key relative_shape_layer0
  = Returned movement ->
  ~ (blend_mix self == 0)%Q ->
  (forall o obj active_index active_shape k',
     blend_objects context !! o = Some obj ->
     active_shape_key obj = Some (active_index, active_shape) ->
     shape_keys obj = Some k' ->
     use_relative k' = true /\ exists layer, relative_shape_layer obj = Returned layer) ->
  exists objects' : list Object,
    ActiveVertexMovementToSelected_execute self context
    = (objects', Returned ([], "FINISHED")) /\
    (forall o obj, blend_objects context !! o = Some obj ->
       exists obj', objects' !! o = Some obj' /\
         forall i bv, verts obj !! i = Some bv -> is_bmvert bv = true ->
           exists bv', verts obj' !! i = Some bv' /\
             match active_shape_key obj, shape_keys obj with
             | Some (active_index, active_shape), Some k' =>
                 if Nat.eqb (relative_key active_shape) active_index
                    || Nat.eqb active_index (reference_key k')
                 then co bv' = add (co bv) (mul movement (blend_mix self))
                 else
                   forall layer, relative_shape_layer obj = Returned layer ->
                     co bv' = lerp (co bv) (add (shape bv layer) movement) (blend_mix self) /\
                     ((blend_mix self == 1)%Q ->
                      eqb (co bv') (add (shape bv layer) movement) = true)
             | _, _ => co bv' = add (co bv) (mul movement (blend_mix self))
             end) /\
    (active_shape_key_index active_object = s ->
     relative_key shape_key <> s -> s <> reference_key k ->
     is_bmvert active_vert = true ->
     exists obj' bv',
       objects' !! context_object context = Some obj' /\ verts obj' !! j = Some bv' /\
       eqb (co bv') (co active_vert) = true).
Proof.
  intros Hadd Hao Hj Hav Hk Hs Hsk Hrk Hrl Hmv Hmix Hrel.
  rewrite (execute_reaches_loop self context active_object j active_vert k s shape_key
             relative_shape_key relative_shape_layer0 movement); auto.
  2:{ now rewrite Hadd. }
  2:{ now rewrite Hadd, andb_false_r. }
  set (am := mul movement (blend_mix self)).
  set (step := blend_object self (context_object context) j movement am).
  (* the pass on one object *)
  assert (Hstep : forall o obj, blend_objects context !! o = Some obj ->
            exists f : BMVert -> Vector,
              step o obj
              = Returned (set_verts obj
                            ((fun bv => if is_bmvert bv then set_co bv (f bv) else bv)
                               <$> verts obj)) /\
              forall bv,
                match active_shape_key obj, shape_keys obj with
                | Some (active_index, active_shape), Some k' =>
                    if Nat.eqb (relative_key active_shape) active_index
                       || Nat.eqb active_index (reference_key k')
                    then f bv = add (co bv) am
                    else
                      forall layer, relative_shape_layer obj = Returned layer ->
                        f bv = lerp (co bv) (add (shape bv layer) movement) (blend_mix self)
                | _, _ => f bv = add (co bv) am
                end).
  { intros o obj Hobj. unfold step, blend_object. rewrite Hadd.
    destruct (active_shape_key obj) as [[active_index active_shape]|] eqn:Hact;
      [|exists (fun bv => add (co bv) am); split; [reflexivity | auto]].
    destruct (shape_keys obj) as [k'|] eqn:Hk';
      [|exists (fun bv => add (co bv) am); split; [reflexivity | auto]].
    destruct (Hrel o obj active_index active_shape k' Hobj Hact Hk') as [Hur [layer Hlayer]].
    rewrite Hur. cbn [andb].
    destruct (Nat.eqb (relative_key active_shape) active_index
              || Nat.eqb active_index (reference_key k'));
      [exists (fun bv => add (co bv) am); split; [reflexivity | auto]|].
    rewrite Hlayer.
    exists (fun bv => lerp (co bv) (add (shape bv layer) movement) (blend_mix self)).
    split; [reflexivity|]. intros bv layer' [= <-]. reflexivity. }
  destruct (blend_loop_returns step (blend_objects context) 0)
    as (objects' & Hloop & Hlen & Hobjs).
  { intros i obj Hobj. destruct (Hstep i obj Hobj) as (f & Hf & _). cbn [Nat.add]. eauto. }
  exists objects'. rewrite Hloop. split; [reflexivity|].
  assert (Hmain : forall o obj, blend_objects context !! o = Some obj ->
            exists obj', objects' !! o = Some obj' /\
              forall i bv, verts obj !! i = Some bv -> is_bmvert bv = true ->
                exists bv', verts obj' !! i = Some bv' /\
                  match active_shape_key obj, shape_keys obj with
                  | Some (active_index, active_shape), Some k' =>
                      if Nat.eqb (relative_key active_shape) active_index
                         || Nat.eqb active_index (reference_key k')
                      then co bv' = add (co bv) am
                      else
                        forall layer, relative_shape_layer obj = Returned layer ->
                          co bv' = lerp (co bv) (add (shape bv layer) movement)
                                     (blend_mix self) /\
                          ((blend_mix self == 1)%Q ->
                           eqb (co bv') (add (shape bv layer) movement) = true)
                  | _, _ => co bv' = add (co bv) am
                  end).
  { intros o obj Hobj. destruct (Hobjs o obj Hobj) as (obj' & Hobj' & Hres).
    exists obj'. split; [exact Hobj'|]. cbn [Nat.add] in Hres.
    destruct (Hstep o obj Hobj) as (f & Hf & Hspec). rewrite Hf in Hres.
    injection Hres as <-. intros i bv Hbv Hsel. cbn [verts set_verts].
    rewrite list_lookup_fmap, Hbv. cbn. rewrite Hsel. eexists. split; [reflexivity|].
    specialize (Hspec bv). cbn [co set_co].
    destruct (active_shape_key obj) as [[active_index active_shape]|]; [|exact Hspec].
    destruct (shape_keys obj) as [k'|]; [|exact Hspec].
    destruct (Nat.eqb (relative_key active_shape) active_index
              || Nat.eqb active_index (reference_key k')); [exact Hspec|].
    intros layer Hlayer. rewrite (Hspec layer Hlayer). split; [reflexivity|].
    apply lerp_full. }
  split; [exact Hmain|].
  intros Hactive Hself Href Hsel.
  destruct (Hmain _ _ Hao) as (obj' & Hobj' & Hverts).
  destruct (Hverts j active_vert Hav Hsel) as (bv' & Hbv' & Hco).
  exists obj', bv'. split; [exact Hobj'|]. split; [exact Hbv'|].
  assert (Hact : active_shape_key active_object = Some (s, shape_key)).
  { unfold active_shape_key. now rewrite Hk, Hactive, Hsk. }
  assert (Hlayer : relative_shape_layer active_object = Returned relative_shape_layer0).
  { unfold ExtraShapeKeyOperations.relative_shape_layer. now rewrite Hact, Hk, Hrk, Hrl. }
  assert (Hmove : movement = sub (co active_vert) (shape active_vert relative_shape_layer0)).
  { unfold active_vert_movement in Hmv. rewrite Hact, Nat.eqb_refl in Hmv.
    now injection Hmv as <-. }
  rewrite Hact, Hk in Hco.
  apply Nat.eqb_neq in Hself, Href. rewrite Hself, Href in Hco. cbn [orb] in Hco.
  destruct (Hco _ Hlayer) as [-> _]. rewrite Hmove. apply lerp_same.
Qed.

(** The theorem on the sample mesh with [mix = 1.0]: "Key 2" is active and
    relative to the basis, the first vertex is the active vertex, and it
    stays at (1, 0, 0). *)
Lemma ActiveVertexMovementToSelected_execute_blends_witness :
  exists (objects' : list Object) (obj' : Object) (bv' : BMVert),
    ActiveVertexMovementToSelected_execute (mkBlend "Key 2" 1 false true)
      (mkBlendContext [sample_object] 0 (Some 0%nat))
    = (objects', Returned ([], "FINISHED")) /\
    objects' !! 0%nat = Some obj' /\ verts obj' !! 0%nat = Some bv' /\
    eqb (co bv') (mkVector 1 0 0) = true.
Proof.
  destruct (ActiveVertexMovementToSelected_execute_blends
              (mkBlend "Key 2" 1 false true)
              (mkBlendContext [sample_object] 0 (Some 0%nat))
              sample_object 0
              (mkVert (mkVector 1 0 0) true false
                 (layers (mkVector 0 0 0) (mkVector 0 0 0) (mkVector 0 0 0)))
              sample_key 2 (mkShapeKey "Key 2" 0) (mkShapeKey "Basis" 0) 0
              (mkVector (1 - 0) (0 - 0) (0 - 0)))
    as (objects' & E & _ & Hactive); try reflexivity.
  - discriminate.
  - intros [|o] obj active_index active_shape k' Hobj Hact Hk'; [|discriminate].
    injection Hobj as <-. injection Hk' as <-. split; [reflexivity|].
    exists 0%nat. reflexivity.
  - destruct Hactive as (obj' & bv' & Ho & Hv & Hco);
      [reflexivity | discriminate | discriminate | reflexivity |].
    exists objects', obj', bv'. split; [exact E|]. split; [exact Ho|].
    split; [exact Hv | exact Hco].
Defined.

End BlendFromActiveVertex.

(** ** ExtraShapeKeyOperations.py: the average keeps the mean *)

Section AverageKeepsMean.
Import PyNum Mathutils ExtraShapeKeyOperations.

Lemma eqb_elim (a b : Vector) :
  eqb a b = true -> (vx a == vx b)%Q /\ (vy a == vy b)%Q /\ (vz a == vz b)%Q.
Proof.
  unfold eqb, Qeqb. intros H. apply andb_true_iff in H as [H Hz].
  apply andb_true_iff in H as [Hx Hy]. now rewrite <- !Qeq_bool_iff.
Qed.

Lemma lerp_none (m a : Vector) (fac : Q) : (fac == 0)%Q -> eqb m (lerp m a fac) = true.
Proof.
  intros H. apply eqb_intro; unfold lerp; cbn [vx vy vz]; rewrite H; ring.
Qed.

Lemma movement_after_lerp (r m a : Vector) (fac : Q) :
  eqb (sub (add r (lerp m a fac)) r) (lerp m a fac) = true.
Proof. apply eqb_intro; unfold sub, add, lerp; cbn [vx vy vz]; ring. Qed.

Lemma movement_after_average (r m a : Vector) (fac : Q) :
  (fac == 1)%Q -> eqb (sub (add r a) r) (lerp m a fac) = true.
Proof.
  intros H. apply eqb_intro; unfold sub, add, lerp; cbn [vx vy vz]; rewrite H; ring.
Qed.

(** The vertices after an [execute] that finishes, for every [mix]: a
    selected, visible vertex of a mesh that is not skipped has its movement
    interpolated toward the average, and nothing else is changed but
    coordinates. *)
Lemma average_pointwise (mix : Q) (objects : list Object) :
  (forall obj, obj ∈ objects -> skipped obj = false ->
               exists layer, relative_shape_layer obj = Returned layer) ->
  (AverageShapeKeyMovement_execute mix objects).2 = Returned FINISHED ->
  let objects' := (AverageShapeKeyMovement_execute mix objects).1 in
  let average_movement :=
    div (fold_left add (spec_movements objects) zero) (length (spec_movements objects)) in
  length objects' = length objects /\
  forall (o : nat) (obj : Object),
    objects !! o = Some obj ->
    exists obj' : Object,
      objects' !! o = Some obj' /\
      shape_keys obj' = shape_keys obj /\
      active_shape_key_index obj' = active_shape_key_index obj /\
      length (verts obj') = length (verts obj) /\
      forall (j : nat) (bv : BMVert),
        verts obj !! j = Some bv ->
        exists bv' : BMVert,
          verts obj' !! j = Some bv' /\
          select bv' = select bv /\ hide bv' = hide bv /\ shape bv' = shape bv /\
          forall layer : nat,
            skipped obj = false -> relative_shape_layer obj = Returned layer ->
            is_bmvert bv = true ->
            eqb (sub (co bv') (shape bv layer))
              (lerp (sub (co bv) (shape bv layer)) average_movement mix) = true.
Proof.
  intros Hlayers Hfin objects' average_movement.
  assert (Hsame : forall st : list Object, st = objects ->
            (forall o obj j bv layer, objects !! o = Some obj -> verts obj !! j = Some bv ->
               skipped obj = false -> relative_shape_layer obj = Returned layer ->
               is_bmvert bv = true ->
               eqb (sub (co bv) (shape bv layer))
                 (lerp (sub (co bv) (shape bv layer)) average_movement mix) = true) ->
            length st = length objects /\
            forall (o : nat) (obj : Object),
              objects !! o = Some obj ->
              exists obj' : Object,
                st !! o = Some obj' /\
                shape_keys obj' = shape_keys obj /\
                active_shape_key_index obj' = active_shape_key_index obj /\
                length (verts obj') = length (verts obj) /\
                forall (j : nat) (bv : BMVert),
                  verts obj !! j = Some bv ->
                  exists bv' : BMVert,
                    verts obj' !! j = Some bv' /\
                    select bv' = select bv /\ hide bv' = hide bv /\ shape bv' = shape bv /\
                    forall layer : nat,
                      skipped obj = false -> relative_shape_layer obj = Returned layer ->
                      is_bmvert bv = true ->
                      eqb (sub (co bv') (shape bv layer))
                        (lerp (sub (co bv) (shape bv layer)) average_movement mix) = true).
  { intros st -> Hkeep. split; [reflexivity|]. intros o obj Ho. exists obj.
    split; [exact Ho|]. split; [reflexivity|]. split; [reflexivity|].
    split; [reflexivity|]. intros j bv Hj. exists bv. split; [exact Hj|].
    split; [reflexivity|]. split; [reflexivity|]. split; [reflexivity|].
    intros layer Hs Hl Hb. now apply (Hkeep o obj j bv layer). }
  subst objects'. revert Hfin. unfold AverageShapeKeyMovement_execute, Qeqb.
  destruct (Qeq_bool mix 0) eqn:E0.
  { intros _. apply Hsame; [reflexivity|]. intros o obj j bv layer _ _ _ _ _.
    apply lerp_none. now apply Qeq_bool_iff. }
  destruct (gather_returns objects 0 Hlayers) as [all Hall]. rewrite Hall.
  destruct (gather_spec objects [] all Hall) as (M & F & C). simpl in F, C.
  rewrite Forall_forall in F.
  assert (Havg : div (fold_left add (movement <$> all) zero) (length all)
                 = average_movement).
  { subst average_movement. rewrite <- M, length_fmap. reflexivity. }
  destruct all as [|e0 es] eqn:Eall.
  { intros _. apply Hsame; [reflexivity|]. intros o obj j bv layer Ho Hj Hs _ Hb.
    exfalso. eapply Exists_nil. exact (C o obj 0%nat j bv Ho Hs Hj Hb). }
  rewrite <- Eall in *. clear Eall e0 es. rewrite Havg. cbv zeta.
  destruct (gather_valid_or_stale objects 0 all Hall) as [Hvalid | (e0 & es & -> & Hstale)].
  2:{ destruct (Qeq_bool mix 1); rewrite (write_all_stale _ _ _ _ _ Hstale); discriminate. }
  rewrite !(write_all_valid _ _ all objects Hvalid). intros _.
  set (W := fun (obj : Object) (bv : BMVert) =>
              match relative_shape_layer obj with
              | Returned layer =>
                  if Qeq_bool mix 1
                  then add (shape bv layer) average_movement
                  else add (shape bv layer)
                         (lerp (sub (co bv) (shape bv layer)) average_movement mix)
              | Raised _ _ => co bv
              end).
  assert (Hdone : forall w : Entry -> Vector,
            (forall e, w e = if Qeq_bool mix 1
                             then add (relative_co e) average_movement
                             else add (relative_co e)
                                    (lerp (movement e) average_movement mix)) ->
            let st := fold_left (fun st e => write_co st (entry_obj e) (entry_vert e) (w e))
                        all objects in
            length st = length objects /\
            forall (o : nat) (obj : Object),
              objects !! o = Some obj ->
              exists obj' : Object,
                st !! o = Some obj' /\
                shape_keys obj' = shape_keys obj /\
                active_shape_key_index obj' = active_shape_key_index obj /\
                length (verts obj') = length (verts obj) /\
                forall (j : nat) (bv : BMVert),
                  verts obj !! j = Some bv ->
                  exists bv' : BMVert,
                    verts obj' !! j = Some bv' /\
                    select bv' = select bv /\ hide bv' = hide bv /\ shape bv' = shape bv /\
                    forall layer : nat,
                      skipped obj = false -> relative_shape_layer obj = Returned layer ->
                      is_bmvert bv = true ->
                      eqb (sub (co bv') (shape bv layer))
                        (lerp (sub (co bv) (shape bv layer)) average_movement mix) = true).
  { intros w Hw st.
    assert (Hfold : Forall (fun e => exists obj bv,
                              objects !! entry_obj e = Some obj /\
                              verts obj !! entry_vert e = Some bv /\ w e = W obj bv) all).
    { apply Forall_forall. intros e He.
      destruct (F e He) as (obj & bv & l & Q1 & _ & Q3 & Q4 & _ & Q6 & Q7).
      exists obj, bv. split; [exact Q1|]. split; [exact Q4|].
      unfold W. now rewrite Hw, Q3, Q6, Q7. }
    destruct (fold_write_co objects w W all Hfold) as [Hlen Hst].
    split; [exact Hlen|]. intros o obj Ho.
    destruct (Hst o obj Ho) as (obj' & Ho' & K1 & K2 & K3 & Hverts).
    exists obj'. split; [exact Ho'|]. split; [exact K1|]. split; [exact K2|].
    split; [exact K3|].
    intros j bv Hj. destruct (Hverts j bv Hj) as (bv' & Hj' & S1 & S2 & S3 & T1 & _).
    exists bv'. split; [exact Hj'|]. split; [exact S1|]. split; [exact S2|].
    split; [exact S3|].
    intros layer Hs Hl Hb. rewrite T1 by exact (C o obj 0%nat j bv Ho Hs Hj Hb).
    unfold W. rewrite Hl. destruct (Qeq_bool mix 1) eqn:E1.
    - apply movement_after_average. now apply Qeq_bool_iff.
    - apply movement_after_lerp. }
  destruct (Qeq_bool mix 1) eqn:E1; cbn [fst]; apply Hdone; intros e; reflexivity.
Qed.

Lemma filter_select_length (vs vs' : list BMVert) :
  Forall2 (fun bv bv' => select bv' = select bv) vs vs' ->
  length (List.filter select vs') = length (List.filter select vs).
Proof.
  induction 1 as [|bv bv' vs vs' H _ IH]; [reflexivity|].
  cbn [List.filter]. rewrite H. destruct (select bv); cbn [length]; now rewrite IH.
Qed.

(** The movements of one mesh after [execute], next to those before. *)
Lemma movements_of_mesh (layer : nat) (P : Vector -> Vector -> Prop) (vs vs' : list BMVert) :
  Forall2 (fun bv bv' =>
             is_bmvert bv' = is_bmvert bv /\ shape bv' = shape bv /\
             (is_bmvert bv = true ->
              P (sub (co bv') (shape bv layer)) (sub (co bv) (shape bv layer)))) vs vs' ->
  Forall2 P ((fun bv => sub (co bv) (shape bv layer)) <$> List.filter is_bmvert vs')
            ((fun bv => sub (co bv) (shape bv layer)) <$> List.filter is_bmvert vs).
Proof.
  induction 1 as [|bv bv' vs vs' (Hb & Hshape & Hco) _ IH]; [constructor|].
  cbn [List.filter]. rewrite Hb. destruct (is_bmvert bv) eqn:E; [|exact IH].
  rewrite !fmap_cons. constructor; [|exact IH]. rewrite Hshape. now apply Hco.
Qed.

Lemma spec_movements_cons (obj : Object) (objects : list Object) :
  spec_movements (obj :: objects)
  = match skipped obj, relative_shape_layer obj with
    | false, Returned layer =>
        (fun bv => sub (co bv) (shape bv layer)) <$> List.filter is_bmvert (verts obj)
    | _, _ => []
    end ++ spec_movements objects.
Proof. reflexivity. Qed.

Lemma movements_of_meshes (P : Vector -> Vector -> Prop) (objects objects' : list Object) :
  Forall2 (fun obj obj' =>
             skipped obj' = skipped obj /\
             relative_shape_layer obj' = relative_shape_layer obj /\
             forall layer,
               skipped obj = false -> relative_shape_layer obj = Returned layer ->
               Forall2 (fun bv bv' =>
                          is_bmvert bv' = is_bmvert bv /\ shape bv' = shape bv /\
                          (is_bmvert bv = true ->
                           P (sub (co bv') (shape bv layer))
                             (sub (co bv) (shape bv layer))))
                 (verts obj) (verts obj')) objects objects' ->
  Forall2 P (spec_movements objects') (spec_movements objects).
Proof.
  induction 1 as [|obj obj' objs objs' (Hs & Hl & Hv) _ IH]; [constructor|].
  rewrite !spec_movements_cons, Hs, Hl. apply Forall2_app; [|exact IH].
  destruct (skipped obj) eqn:Es; [constructor|].
  destruct (relative_shape_layer obj) as [layer|e m] eqn:El; [|constructor].
  apply movements_of_mesh. now apply Hv.
Qed.

(** Sums of vectors, component by component. *)
Lemma sum_components (l : list Vector) : forall a : Vector,
  vx (fold_left add l a) = fold_left Qplus (vx <$> l) (vx a) /\
  vy (fold_left add l a) = fold_left Qplus (vy <$> l) (vy a) /\
  vz (fold_left add l a) = fold_left Qplus (vz <$> l) (vz a).
Proof.
  induction l as [|v l IH]; intros a; [repeat split|].
  cbn [fold_left]. rewrite !fmap_cons. cbn [fold_left]. apply (IH (add a v)).
Qed.

(** Numbers interpolated toward [c] by [t] add up to the sum interpolated
    toward as many times [c]. *)
Lemma sum_interpolated (t c : Q) (xs' xs : list Q) :
  Forall2 (fun x' x => (x' == (1 - t) * x + t * c)%Q) xs' xs ->
  forall a' a : Q,
    (fold_left Qplus xs' a' - a'
     == (1 - t) * (fold_left Qplus xs a - a) + t * c * inject_Z (Z.of_nat (length xs)))%Q.
Proof.
  induction 1 as [|x' x xs' xs Hx _ IH]; intros a' a.
  - cbn. ring.
  - cbn [fold_left length]. specialize (IH (a' + x')%Q (a + x)%Q).
    rewrite Nat2Z.inj_succ, <- Z.add_1_r, inject_Z_plus.
    change (inject_Z 1) with 1%Q.
    set (F' := fold_left Qplus xs' (a' + x')%Q) in *.
    set (F := fold_left Qplus xs (a + x)%Q) in *.
    set (n := inject_Z (Z.of_nat (length xs))) in *.
    assert (E : (F' - a' == (F' - (a' + x')) + x')%Q) by ring.
    rewrite E, IH, Hx. ring.
Qed.

(** A sum interpolated toward its own mean is the sum. *)
Lemma sum_toward_mean (t : Q) (xs' xs : list Q) :
  let c := (fold_left Qplus xs 0 / inject_Z (Z.of_nat (length xs)))%Q in
  Forall2 (fun x' x => (x' == (1 - t) * x + t * c)%Q) xs' xs ->
  (fold_left Qplus xs' 0 == fold_left Qplus xs 0)%Q.
Proof.
  intros c H. pose proof (sum_interpolated t c xs' xs H 0 0) as E.
  destruct xs as [|x xs].
  - inversion H. reflexivity.
  - assert (Hn : ~ (inject_Z (Z.of_nat (length (x :: xs))) == 0)%Q).
    { cbn [length]. rewrite Nat2Z.inj_succ. unfold Qeq. cbn. lia. }
    set (n := inject_Z (Z.of_nat (length (x :: xs)))) in *.
    set (sm := fold_left Qplus (x :: xs) 0%Q) in *.
    set (sm' := fold_left Qplus xs' 0%Q) in *.
    assert (Ec : (t * c * n == t * sm)%Q) by (subst c; field; exact Hn).
    assert (E' : (sm' == (sm' - 0))%Q) by ring.
    rewrite E', E, Ec. ring.
Qed.

(** X30.  The average keeps the mean.  When the layer of the relative key
    of every mesh that is not skipped is there, [execute] finishes when at
    most one mesh is gathered from; after an [execute] that finishes, with
    any [mix], the movements the average is taken over (coordinate minus
    relative-key coordinate of the selected, visible vertices of the meshes
    that are not skipped) are each the movement before interpolated by [mix]
    toward the average; and whether [execute] finishes or raises, the sum of
    these movements is the sum before. *)
Theorem AverageShapeKeyMovement_execute_keeps_the_mean (mix : Q) (objects : list Object) :
  (forall obj, obj ∈ objects -> skipped obj = false ->
               exists layer, relative_shape_layer obj = Returned layer) ->
  let objects' := (AverageShapeKeyMovement_execute mix objects).1 in
  let average_movement :=
    div (fold_left add (spec_movements objects) zero) (length (spec_movements objects)) in
  (gathers_from_one objects ->
   (AverageShapeKeyMovement_execute mix objects).2 = Returned FINISHED) /\
  ((AverageShapeKeyMovement_execute mix objects).2 = Returned FINISHED ->
   Forall2 (fun m' m => eqb m' (lerp m average_movement mix) = true)
     (spec_movements objects') (spec_movements objects)) /\
  eqb (fold_left add (spec_movements objects') zero)
      (fold_left add (spec_movements objects) zero) = true.
Proof.
  intros Hlayers objects' average_movement.
  split; [now apply average_finishes|].
  set (P := fun m' m : Vector => eqb m' (lerp m average_movement mix) = true).
  assert (Hall : (AverageShapeKeyMovement_execute mix objects).2 = Returned FINISHED ->
                 Forall2 P (spec_movements objects') (spec_movements objects)).
  { intros Hfin.
    destruct (average_pointwise mix objects Hlayers Hfin) as [Hlen Hobjs].
    fold objects' average_movement in Hlen, Hobjs.
    apply movements_of_meshes.
    apply Forall2_same_length_lookup_2; [now symmetry|].
    intros o obj obj' Ho Ho'.
    destruct (Hobjs o obj Ho) as (obj'' & Ho'' & K1 & K2 & K3 & Hverts).
    rewrite Ho' in Ho''. injection Ho'' as <-.
    assert (Hflags : Forall2 (fun bv bv' => select bv' = select bv /\ hide bv' = hide bv)
                       (verts obj) (verts obj')).
    { apply Forall2_same_length_lookup_2; [now symmetry|].
      intros j bv bv' Hj Hj'. destruct (Hverts j bv Hj) as (bv'' & Hj'' & S1 & S2 & _).
      rewrite Hj' in Hj''. injection Hj'' as <-. split; assumption. }
    assert (Hsel : total_vert_sel obj' = total_vert_sel obj).
    { unfold total_vert_sel. apply filter_select_length.
      eapply Forall2_impl; [exact Hflags|]. now intros bv bv' [H _]. }
    assert (Hactive : active_shape_key obj' = active_shape_key obj)
      by (unfold active_shape_key; now rewrite K1, K2).
    split; [unfold skipped; now rewrite Hactive, K1, Hsel|].
    split.
    { unfold relative_shape_layer, layer_by_name, layer_names.
      now rewrite Hactive, K1. }
    intros layer Hs Hl. apply Forall2_same_length_lookup_2; [now symmetry|].
    intros j bv bv' Hj Hj'.
    destruct (Hverts j bv Hj) as (bv'' & Hj'' & S1 & S2 & S3 & Hco).
    rewrite Hj' in Hj''. injection Hj'' as <-.
    split; [unfold is_bmvert; now rewrite S1, S2|]. split; [exact S3|].
    intros Hb. unfold P. now apply Hco. }
  split; [exact Hall|].
  destruct (average_finishes_or_unchanged mix objects) as [Hfin | Hsame].
  2:{ subst objects'. rewrite Hsame. apply eqb_refl. }
  specialize (Hall Hfin).
  (* the three components of the sums *)
  destruct (sum_components (spec_movements objects') zero) as (X' & Y' & Z').
  destruct (sum_components (spec_movements objects) zero) as (X & Y & Z).
  assert (Hn : length (spec_movements objects) = length (vx <$> spec_movements objects)
               /\ length (spec_movements objects) = length (vy <$> spec_movements objects)
               /\ length (spec_movements objects) = length (vz <$> spec_movements objects))
    by (now rewrite !length_fmap).
  destruct Hn as (Nx & Ny & Nz).
  apply eqb_intro.
  - rewrite X', X. cbn [vx zero]. apply (sum_toward_mean mix). cbv zeta.
    apply Forall2_fmap. eapply Forall2_impl; [exact Hall|].
    intros m' m Hm. apply eqb_elim in Hm as (Hx & _ & _). cbn. rewrite Hx.
    unfold lerp, average_movement, div. cbn [vx]. rewrite X, <- Nx. reflexivity.
  - rewrite Y', Y. cbn [vy zero]. apply (sum_toward_mean mix). cbv zeta.
    apply Forall2_fmap. eapply Forall2_impl; [exact Hall|].
    intros m' m Hm. apply eqb_elim in Hm as (_ & Hy & _). cbn. rewrite Hy.
    unfold lerp, average_movement, div. cbn [vy]. rewrite Y, <- Ny. reflexivity.
  - rewrite Z', Z. cbn [vz zero]. apply (sum_toward_mean mix). cbv zeta.
    apply Forall2_fmap. eapply Forall2_impl; [exact Hall|].
    intros m' m Hm. apply eqb_elim in Hm as (_ & _ & Hz). cbn. rewrite Hz.
    unfold lerp, average_movement, div. cbn [vz]. rewrite Z, <- Nz. reflexivity.
Qed.

(** The theorem on the sample mesh with [mix = 1/2]: [execute] finishes, the
    movement of the first vertex, (1, 0, 0), goes halfway to the average of
    the two movements gathered, and the sum of the movements is kept. *)
Lemma AverageShapeKeyMovement_execute_keeps_the_mean_witness :
  (AverageShapeKeyMovement_execute (1 # 2) [sample_object]).2 = Returned FINISHED /\
  Forall2 (fun m' m =>
             eqb m' (lerp m (div (fold_left add (spec_movements [sample_object]) zero)
                               (length (spec_movements [sample_object]))) (1 # 2)) = true)
    (spec_movements (AverageShapeKeyMovement_execute (1 # 2) [sample_object]).1)
    (spec_movements [sample_object]) /\
  eqb (fold_left add
         (spec_movements (AverageShapeKeyMovement_execute (1 # 2) [sample_object]).1) zero)
      (fold_left add (spec_movements [sample_object]) zero) = true.
Proof.
  assert (Hlayers : forall obj, obj ∈ [sample_object] -> skipped obj = false ->
                                exists layer, relative_shape_layer obj = Returned layer).
  { intros obj Hin _. apply list_elem_of_singleton in Hin. subst obj.
    exists 0%nat. reflexivity. }
  assert (Hone : gathers_from_one [sample_object]).
  { intros [|o1] [|o2] obj1 obj2 H1 H2 _ _; try discriminate. reflexivity. }
  destruct (AverageShapeKeyMovement_execute_keeps_the_mean (1 # 2) [sample_object] Hlayers)
    as (Hfin & Hall & Hsum).
  split; [exact (Hfin Hone)|]. split; [exact (Hall (Hfin Hone)) | exact Hsum].
Defined.

End AverageKeepsMean.
